(* ===== verification/_CoqProject ===== *)
-Q . S2P
Prelude.v
RustStr.v
NetAddr.v
Trace.v
Common.v
Kernel.v
Ebpf.v
BpfMgr.v
Protocol.v
Config.v
Stun.v
Json.v
Api.v
ApiRace.v
ApiLocks.v
ApiHttp.v
Route.v
Vip.v
VipRace.v
Cni.v
Ipsec.v
Seed.v
Peers.v
Agent.v
Xtask.v
Kademlia.v
World.v
System.v
