(* ===== verification/Prelude.v ===== *)
(** * nomad-p2p-cni: a verification library

    ** The program

    nomad-p2p-cni is a container network for Nomad: an agent on every node,
    eBPF programs in the kernel, and a CNI plugin that Nomad runs for every
    container.
    - The eBPF programs (ebpf/src/main.rs) redirect mesh traffic to a tunnel
      and report unknown destinations through a ring buffer, filter ingress
      by an ACL, and balance connections to virtual addresses.
    - The agent (agent/src) loads them (bpf.rs), finds its public endpoint
      (stun.rs), registers with seeds over an authenticated UDP protocol
      (seed.rs, protocol.rs), batches route misses (route.rs), probes VIP
      backends (vip.rs), keeps IPsec keys (ipsec.rs), asks for relays
      (relay.rs), serves metrics (metrics.rs) and a local HTTP API for
      containers (api.rs), and can reload its configuration (reload.rs).
    - The plugin (cni/src/lib.rs) sets up the veth pair of a container, gets
      its address from the agent and tells it about the container.

    The parts interact through the BPF maps (written by the agent, read by
    the programs), the ring buffer (written by the egress program, read by
    the agent), and the HTTP API between plugin and agent.

    ** The files

    Shared: [Prelude] (this file: outcomes, machine integers, bytes, slices,
    locks, tactics), [RustStr] (strings as UTF-8 bytes, trimming, splitting,
    number formats), [NetAddr] (std::net addresses: printing and the standard
    parser), [Trace] (computations that perform events), [Json] (the
    interface and laws of serde_json, with a codec that meets them).

    - [Common]: common/src/lib.rs, the structs of the maps and their layout.
    - [Kernel]: the interfaces of a BPF hash map, the ring buffer and a
      socket buffer, as classes with laws, and reference instances.
    - [Ebpf]: ebpf/src/main.rs. State: the pinned maps ([BpfState]).  One
      definition per program.
    - [BpfMgr]: agent/src/bpf.rs. [RouteStore] is the interface the container
      manager uses.
    - [Protocol]: agent/src/protocol.rs. [ReplaySpec] is the abstract replay
      filter.
    - [Config]: agent/src/lib.rs and reload.rs.
    - [Stun]: agent/src/stun.rs. [Rfc5389] is the layout the RFC prescribes.
    - [Api], [ApiRace], [ApiLocks], [ApiHttp]: agent/src/api.rs, the commands,
      their critical sections as steps of concurrent connections
      ([api_step]), the same down to single acquisitions and releases of the
      two locks ([task_step]), and the HTTP handler.
    - [Route]: agent/src/route.rs, with the channel of queries
      ([KadChannel]).
    - [Vip]: agent/src/vip.rs.   - [VipRace]: its rewrites of VIP entries
      between the reads that connections make through a pointer into the map
      ([conn_read], [race_step]).
    - [Cni]: cni/src/lib.rs and main.rs.   - [Ipsec]: agent/src/ipsec.rs.
    - [Seed]: agent/src/seed.rs and relay.rs.   - [Peers]: registrations from
      nodes to the receive loop of a seed.
    - [Agent]: agent/src/main.rs and metrics.rs.
    - [Xtask]: xtask/src/main.rs.   - [Kademlia]: agent/src/kademlia.rs.
    - [World]: all the tasks that [spawn_all] starts (but the metrics server,
      which only reads) and the programs in the kernel as one transition
      system over the whole of [AppContext] and the shared maps, a step per
      critical section or round ([world_step]), from the state [run_agent]
      hands over ([spawned]).
    - [System]: route misses from program to agent, plugin and agent.

    ** How the code is modelled

    A function that can fail returns an [outcome]: a value, an error or a
    panic (indexing, slicing, [unwrap], overflow under overflow checks, a
    poisoned lock).  State is passed explicitly; an operation returns the
    state after it, also when it fails.  Integers are [Z] with the wrap
    written out where the code wraps.  Loops that wait for the network, a
    timer or a signal take the list of what arrives, with the value of the
    stop flag at each point where the code reads it.  The environment
    (commands, sockets, clocks, random numbers, aya, libp2p, serde_json,
    HMAC, hex) is a parameter; what is assumed of it is a named hypothesis or
    a class of laws with an instance.

    ** What the theorems show

    - The UDP protocol: the bounded nonce list refines the abstract filter;
      no replay inside the window; what is marshalled is received; what is
      received is authentic.  A packet from a fast clock can be replayed
      after its nonce is evicted.
    - The data plane: the verdict of the firewall, the rewriting and the miss
      report of the egress program as functions of the frame's bytes; round
      robin of the balancer, and its safety under races of connections with
      each other and with the agent when every read may find another entry;
      such a race can undo an update of the agent.  Frames with
      the EtherType in network order are not selected.
    - Routes: batches are duplicate free and complete up to the cooldown,
      which holds over all traces; the queue is bounded; a discovery round
      routes its whole batch when the map has room, and queries it when
      somebody receives the queries.
    - The API: the handler ends on every input and dispatches exactly the
      body announced; add then del restores the state; the allocation loop is
      a first-free search in an explicit order, and with the store the agent
      has gives the same address twice.  Concurrent commands on different
      containers do not interfere; on the same container they can leave a
      route without a container.  The locks make the critical sections atomic
      (a refinement) and never deadlock.
    - STUN: what is encoded in the layout the code expects is what the parser
      returns, among any other attributes; it ends on every input, and
      misreads the layout of the RFC.
    - The plugin: one result, printed last, exactly when it succeeds.
    - Startup, reload (which never touches the policy), IPsec rotation,
      relays, VIP entries as the balancer uses them.
    - Nodes and seeds: registrations are recognised by a seed with the key.
    - A node: from startup on and under all its tasks nothing sets what
      forwarding needs, the firewall's verdicts never change, and no query
      for a peer is sent.
    - The system: a miss reaches a discovery batch and gets a route; the
      plugin's requests never have an effect on the agent, and ADD always
      falls back to the computed address.

    Fuel: [attr_loop] takes one more than the announced length, of which
    every round uses at least four; [read_headers] one more than the bytes
    left, of which every round uses one; [recv_loop] one round per event.
    [stun_parse_total] and [connection_total] show that it suffices.

    ** Not modelled

    Logging (outside [Kademlia], where it is all the loop does with an
    event), the tokio scheduler (tasks interleave between critical sections;
    the bytes of a connection are read as one), contention for the locks of
    other components than the container API, argument parsing (clap), what libp2p does with the swarm it is given, and
    the shutdown.  A thread that runs out of memory aborts and is not
    modelled.

    ** Plan

    The lock of the UDP protocol between the receive loop and the senders,
    with the timeout that bounds how long it is held; fairness of the locks
    in [ApiLocks], so that a single command, and not only the set, is known
    to finish; the socket reads of a connection as steps of [World]. *)

From Stdlib Require Export ZArith Lia Strings.Byte Ascii.
From stdpp Require Export base gmap strings list fin_maps.
From stdpp Require Import options.

#[export] Set Warnings "-clear-no-such-hyp".
#[global] Open Scope Z_scope.
#[global] Open Scope list_scope.

(** ** Outcomes: a value, an error value, or a panic *)

(** A Rust computation either returns normally or panics; a fallible one
    returns [Ok] or [Err].  Slicing and indexing out of range, [unwrap] and
    arithmetic overflow under [overflow-checks] are [Panic]. *)
Inductive outcome (E A : Type) : Type :=
| Ok (a : A)
| Err (e : E)
| Panic.
Arguments Ok {E A} a.
Arguments Err {E A} e.
Arguments Panic {E A}.

#[global] Instance outcome_ret {E} : MRet (outcome E) := fun A a => Ok a.

#[global] Instance outcome_bind {E} : MBind (outcome E) :=
  fun A B k m => match m with Ok a => k a | Err e => Err e | Panic => Panic end.

#[global] Instance outcome_fmap {E} : FMap (outcome E) :=
  fun A B f m => match m with Ok a => Ok (f a) | Err e => Err e | Panic => Panic end.

#[global] Instance outcome_eq_dec {E A} `{EqDecision E, EqDecision A} :
  EqDecision (outcome E A).
Proof. solve_decision. Defined.

(** [r.ok()] *)
Definition ok {E A} (m : outcome E A) : option A :=
  match m with Ok a => Some a | _ => None end.

(** [r.is_ok()] *)
Definition is_ok {E A} (m : outcome E A) : bool :=
  match m with Ok _ => true | _ => false end.

(** [o.ok_or(e)] *)
Definition ok_or {E A} (o : option A) (e : E) : outcome E A :=
  match o with Some a => Ok a | None => Err e end.

(** ** Locks *)

(** [std::sync::Mutex]: the protected value and the poison flag,
    set by a panic while the lock is held. *)
Record Mutex (B : Type) := mkMutex { poisoned : bool; inner : B }.
Arguments mkMutex {B}.
Arguments poisoned {B}.
Arguments inner {B}.

(** ** Fixed-width unsigned integers, kept as [Z] with the wrap written out *)

Definition u8_max : Z := 2 ^ 8 - 1.
Definition u16_max : Z := 2 ^ 16 - 1.
Definition u32_max : Z := 2 ^ 32 - 1.
Definition u64_max : Z := 2 ^ 64 - 1.
(** [usize] on the 64-bit targets the agent is built for. *)
Definition usize_max : Z := u64_max.

Definition wrap8 (z : Z) : Z := z mod 2 ^ 8.
Definition wrap32 (z : Z) : Z := z mod 2 ^ 32.

(** [a.abs_diff(b)] *)
Definition abs_diff (a b : Z) : Z := Z.abs (a - b).

(** [a.saturating_sub(b)] on an unsigned type *)
Definition saturating_sub (a b : Z) : Z := Z.max 0 (a - b).

(** Unsigned [a + b] at maximum [mx]: with [overflow-checks] (the debug
    profile) it panics, without (the release profile) it wraps. *)
Definition add_at {E} (checks : bool) (mx a b : Z) : outcome E Z :=
  if a + b <=? mx then Ok (a + b)
  else if checks then Panic else Ok ((a + b) mod (mx + 1)).

(** ** Bytes *)

Definition b2z (b : byte) : Z := Z.of_N (Byte.to_N b).

Definition z2b (z : Z) : byte :=
  match Byte.of_N (Z.to_N (z mod 256)) with Some b => b | None => x00 end.

#[global] Instance byte_eq_dec : EqDecision byte := Byte.byte_eq_dec.

(** [z.to_le_bytes()] / [z.to_be_bytes()] for an integer of [n] bytes. *)
Fixpoint to_le_bytes (n : nat) (z : Z) : list byte :=
  match n with
  | O => []
  | S n' => z2b z :: to_le_bytes n' (z / 256)
  end.

Definition to_be_bytes (n : nat) (z : Z) : list byte := rev (to_le_bytes n z).

Fixpoint from_le_bytes (l : list byte) : Z :=
  match l with
  | [] => 0
  | b :: l' => b2z b + 256 * from_le_bytes l'
  end.

Definition from_be_bytes (l : list byte) : Z := from_le_bytes (rev l).

(** [data[i]] *)
Definition idx {E A} (l : list A) (i : nat) : outcome E A :=
  match l !! i with Some x => Ok x | None => Panic end.

(** [&data[a..b]] *)
Definition slice {E A} (l : list A) (a b : nat) : outcome E (list A) :=
  if (Nat.leb a b && Nat.leb b (length l))%bool
  then Ok (take (b - a) (drop a l))
  else Panic.

(** A string's bytes, [s.as_bytes()]. *)
Definition as_bytes (s : string) : list byte := String.list_byte_of_string s.

(** The double-quote character as a string. *)
Definition dq : string := String (ascii_of_nat 34) EmptyString.
(** CR LF. *)
Definition crlf : string :=
  String (ascii_of_nat 13) (String (ascii_of_nat 10) EmptyString).
(** LF. *)
Definition lf : string := String (ascii_of_nat 10) EmptyString.

(** ** Tactics *)

(** Case on the [match]/[if] scrutinees of the goal or of a hypothesis. *)
Ltac case_goal :=
  repeat match goal with
         | |- context [match ?x with _ => _ end] => destruct x eqn:?; simplify_eq/=
         end.

Ltac case_hyp H :=
  repeat match type of H with
         | context [match ?x with _ => _ end] => destruct x eqn:?; simplify_eq/=
         end.

(** Turn boolean comparisons in the context into propositions for [lia]. *)
Ltac bool_to_prop :=
  repeat match goal with
         | H : (_ && _)%bool = true |- _ => apply andb_true_iff in H; destruct H
         | H : (_ || _)%bool = false |- _ => apply orb_false_iff in H; destruct H
         | H : negb _ = true |- _ => apply negb_true_iff in H
         | H : negb _ = false |- _ => apply negb_false_iff in H
         | H : (_ =? _) = true |- _ => apply Z.eqb_eq in H
         | H : (_ =? _) = false |- _ => apply Z.eqb_neq in H
         | H : (_ <? _) = true |- _ => apply Z.ltb_lt in H
         | H : (_ <? _) = false |- _ => apply Z.ltb_ge in H
         | H : (_ <=? _) = true |- _ => apply Z.leb_le in H
         | H : (_ <=? _) = false |- _ => apply Z.leb_gt in H
         | H : Nat.eqb _ _ = true |- _ => apply Nat.eqb_eq in H
         | H : Nat.eqb _ _ = false |- _ => apply Nat.eqb_neq in H
         | H : Nat.ltb _ _ = true |- _ => apply Nat.ltb_lt in H
         | H : Nat.ltb _ _ = false |- _ => apply Nat.ltb_ge in H
         | H : Nat.leb _ _ = true |- _ => apply Nat.leb_le in H
         | H : Nat.leb _ _ = false |- _ => apply Nat.leb_gt in H
         | H : String.eqb _ _ = true |- _ => apply String.eqb_eq in H
         | H : String.eqb _ _ = false |- _ => apply String.eqb_neq in H
         end.

Create HintDb nomad.
Create Rewrite HintDb nomad.

(** ** Lemmas on integers and bytes *)

Lemma b2z_range (b : byte) : 0 <= b2z b < 256.
Proof.
  unfold b2z. pose proof (Byte.to_N_bounded b). lia.
Qed.

Lemma z2b_b2z (b : byte) : z2b (b2z b) = b.
Proof.
  unfold z2b. rewrite Z.mod_small by apply b2z_range.
  unfold b2z. rewrite N2Z.id, Byte.of_to_N. done.
Qed.

Lemma b2z_z2b_mod (z : Z) : b2z (z2b z) = z mod 256.
Proof.
  unfold z2b. pose proof (Z.mod_pos_bound z 256 ltac:(lia)) as Hb.
  destruct (Byte.of_N (Z.to_N (z mod 256))) as [b|] eqn:E.
  - apply Byte.to_of_N in E. unfold b2z. rewrite E. lia.
  - apply Byte.of_N_None_iff in E. lia.
Qed.

Lemma b2z_z2b (z : Z) : 0 <= z < 256 -> b2z (z2b z) = z.
Proof. intros. rewrite b2z_z2b_mod. by apply Z.mod_small. Qed.

#[global] Instance b2z_inj : Inj (=) (=) b2z.
Proof. intros a b H. by rewrite <- (z2b_b2z a), H, z2b_b2z. Qed.

Lemma length_to_le_bytes (n : nat) (z : Z) : length (to_le_bytes n z) = n.
Proof. revert z; induction n; intros; simpl; auto. Qed.

Lemma length_to_be_bytes (n : nat) (z : Z) : length (to_be_bytes n z) = n.
Proof. unfold to_be_bytes. by rewrite length_rev, length_to_le_bytes. Qed.

Lemma from_to_le_bytes (n : nat) (z : Z) :
  0 <= z < 256 ^ Z.of_nat n -> from_le_bytes (to_le_bytes n z) = z.
Proof.
  revert z; induction n as [|n IH]; intros z Hz; cbn [to_le_bytes from_le_bytes].
  - change (256 ^ Z.of_nat 0) with 1 in Hz. lia.
  - rewrite Nat2Z.inj_succ, Z.pow_succ_r in Hz by lia.
    rewrite IH.
    + rewrite b2z_z2b_mod. pose proof (Z.div_mod z 256). lia.
    + split; [apply Z.div_pos; lia|]. apply Z.div_lt_upper_bound; lia.
Qed.

Lemma from_to_be_bytes (n : nat) (z : Z) :
  0 <= z < 256 ^ Z.of_nat n -> from_be_bytes (to_be_bytes n z) = z.
Proof.
  intros. unfold from_be_bytes, to_be_bytes. rewrite rev_involutive.
  by apply from_to_le_bytes.
Qed.

Lemma from_le_bytes_range (l : list byte) :
  0 <= from_le_bytes l < 256 ^ Z.of_nat (length l).
Proof.
  induction l as [|b l IH]; [done|].
  cbn [from_le_bytes length]. rewrite Nat2Z.inj_succ, Z.pow_succ_r by lia.
  pose proof (b2z_range b). lia.
Qed.

Lemma from_be_bytes_range (l : list byte) :
  0 <= from_be_bytes l < 256 ^ Z.of_nat (length l).
Proof.
  unfold from_be_bytes. rewrite <- (length_rev l). apply from_le_bytes_range.
Qed.

Lemma to_from_le_bytes (l : list byte) :
  to_le_bytes (length l) (from_le_bytes l) = l.
Proof.
  induction l as [|b l IH]; [done|].
  cbn [from_le_bytes length to_le_bytes]. pose proof (b2z_range b).
  f_equal.
  - apply (inj b2z). rewrite b2z_z2b_mod.
    rewrite (Z.mul_comm 256), Z.mod_add, Z.mod_small by lia. done.
  - rewrite (Z.mul_comm 256), Z.div_add, Z.div_small by lia. by rewrite Z.add_0_l.
Qed.

Lemma to_from_be_bytes (l : list byte) :
  to_be_bytes (length l) (from_be_bytes l) = l.
Proof.
  unfold to_be_bytes, from_be_bytes.
  rewrite <- (length_rev l), to_from_le_bytes. apply rev_involutive.
Qed.

(** ** Lemmas on lists and slices *)

Lemma slice_ok {E A} (l : list A) (a b : nat) :
  (a <= b)%nat -> (b <= length l)%nat ->
  slice (E:=E) l a b = Ok (take (b - a) (drop a l)).
Proof.
  intros Hab Hb. unfold slice.
  apply Nat.leb_le in Hab, Hb. by rewrite Hab, Hb.
Qed.

Lemma idx_ok {E A} (l : list A) (i : nat) :
  (i < length l)%nat -> exists x, idx (E:=E) l i = Ok x /\ l !! i = Some x.
Proof.
  intros H. apply lookup_lt_is_Some_2 in H as [x Hx]. exists x.
  unfold idx. by rewrite Hx.
Qed.

Lemma idx_panic_iff {E A} (l : list A) (i : nat) :
  idx (E:=E) l i = Panic <-> (length l <= i)%nat.
Proof.
  unfold idx. rewrite <- lookup_ge_None. destruct (l !! i); split; congruence.
Qed.

#[export] Hint Resolve b2z_range length_to_be_bytes length_to_le_bytes : nomad.
#[export] Hint Rewrite length_to_be_bytes length_to_le_bytes z2b_b2z : nomad.

#[global] Arguments to_le_bytes : simpl never.
#[global] Arguments from_le_bytes : simpl never.
