(* ===== verification/RustStr.v ===== *)
(** * The part of Rust's [str] and integer formatting the program uses

    A [str] is the [string] of its UTF-8 bytes, so [len], slicing and the
    char-boundary check are on bytes as in Rust.  White space is Rust's
    (the Unicode [White_Space] property), recognised on the UTF-8 encoding.
    The last section proves that parsing inverts printing for unsigned
    decimals and that the fixed-width hexadecimal of a byte is injective. *)

From S2P Require Import Prelude.

(** ** Bytes of a string *)

Definition code (c : ascii) : Z := Z.of_N (N_of_ascii c).

(** [s.len()], in bytes *)
Definition str_len (s : string) : nat := String.length s.

(** [s.is_char_boundary(i)] *)
Definition is_char_boundary (s : string) (i : nat) : bool :=
  if Nat.eqb i 0 then true
  else if Nat.eqb i (str_len s) then true
  else match String.get i s with
       | Some c => negb ((128 <=? code c) && (code c <=? 191))
       | None => false
       end.

(** [&s[..n]]: panics past the end or inside a code point *)
Definition str_prefix {E} (s : string) (n : nat) : outcome E string :=
  if is_char_boundary s n then Ok (String.substring 0 n s) else Panic.

(** ** White space *)

(** U+0009..U+000D and U+0020, one byte each *)
Definition ws1 (c : ascii) : bool :=
  ((9 <=? code c) && (code c <=? 13)) || (code c =? 32).

(** U+0085 and U+00A0, two bytes *)
Definition ws2 (c d : ascii) : bool :=
  (code c =? 194) && ((code d =? 133) || (code d =? 160)).

(** U+1680, U+2000..U+200A, U+2028, U+2029, U+202F, U+205F, U+3000 *)
Definition ws3 (c d e : ascii) : bool :=
  let c := code c in let d := code d in let e := code e in
  ((c =? 225) && (d =? 154) && (e =? 128))
  || ((c =? 226) && (d =? 128)
      && (((128 <=? e) && (e <=? 138)) || (e =? 168) || (e =? 169) || (e =? 175)))
  || ((c =? 226) && (d =? 129) && (e =? 159))
  || ((c =? 227) && (d =? 128) && (e =? 128)).

(** [s.trim_start()] *)
Fixpoint trim_start (s : string) : string :=
  match s with
  | EmptyString => s
  | String c s1 =>
      if ws1 c then trim_start s1
      else match s1 with
           | EmptyString => s
           | String d s2 =>
               if ws2 c d then trim_start s2
               else match s2 with
                    | EmptyString => s
                    | String e s3 => if ws3 c d e then trim_start s3 else s
                    end
           end
  end.

(** [s.trim_end()]: cut at the first position from which all is white space *)
Fixpoint trim_end (s : string) : string :=
  match s with
  | EmptyString => EmptyString
  | String c s' =>
      match trim_start s with
      | EmptyString => EmptyString
      | _ => String c (trim_end s')
      end
  end.

(** [s.trim()] *)
Definition trim (s : string) : string := trim_end (trim_start s).

(** [cur] is the word read so far, [flush] ends it. *)
Definition flush (cur : string) : list string :=
  match cur with EmptyString => [] | _ => [cur] end.

Fixpoint split_ws (cur s : string) : list string :=
  match s with
  | EmptyString => flush cur
  | String c s1 =>
      if ws1 c then flush cur ++ split_ws "" s1
      else match s1 with
           | EmptyString => flush (cur +:+ String c "")
           | String d s2 =>
               if ws2 c d then flush cur ++ split_ws "" s2
               else match s2 with
                    | EmptyString => flush (cur +:+ String c (String d ""))
                    | String e s3 =>
                        if ws3 c d e then flush cur ++ split_ws "" s3
                        else split_ws (cur +:+ String c "") s1
                    end
           end
  end.

(** [s.split_whitespace().collect()] *)
Definition split_whitespace (s : string) : list string := split_ws "" s.

(** ** Splitting and matching *)

(** [s.split(c).collect()] *)
Fixpoint split_on (sep : ascii) (s : string) : list string :=
  match s with
  | EmptyString => [""]
  | String c s' =>
      if Ascii.eqb c sep then "" :: split_on sep s'
      else match split_on sep s' with
           | [] => [String c ""]
           | w :: ws => String c w :: ws
           end
  end.

Definition colon : ascii := ":"%char.

(** [s.starts_with(p)] *)
Definition starts_with (s p : string) : bool := String.prefix p s.

(** [s.contains(p)] *)
Fixpoint contains (s p : string) : bool :=
  starts_with s p
  || match s with EmptyString => false | String _ s' => contains s' p end.

(** The rest of [s] after the prefix [p]. *)
Fixpoint strip_prefix (s p : string) : option string :=
  match p, s with
  | EmptyString, _ => Some s
  | String a p', String b s' => if Ascii.eqb a b then strip_prefix s' p' else None
  | String _ _, EmptyString => None
  end.

(** [s.trim_start_matches(p)] for a non-empty [p]: strips [p] as long as it
    is a prefix; each round removes a byte, so [len] rounds are enough. *)
Fixpoint trim_start_matches_fuel (fuel : nat) (s p : string) : string :=
  match fuel with
  | O => s
  | S f => match strip_prefix s p with
           | Some s' => trim_start_matches_fuel f s' p
           | None => s
           end
  end.

Definition trim_start_matches (s p : string) : string :=
  trim_start_matches_fuel (str_len s) s p.

(** [s.trim_end_matches(p)] *)
Definition trim_end_matches (s p : string) : string :=
  String.rev (trim_start_matches (String.rev s) (String.rev p)).

(** One line without its terminator: a trailing CR goes with the LF. *)
Definition strip_cr (s : string) : string :=
  match String.rev s with
  | String c r => if code c =? 13 then String.rev r else s
  | EmptyString => s
  end.

Fixpoint lines_of (ls : list string) : list string :=
  match ls with
  | [] => []
  | [l] => match l with EmptyString => [] | _ => [l] end
  | l :: ls' => strip_cr l :: lines_of ls'
  end.

(** [s.lines().collect()] *)
Definition lines (s : string) : list string :=
  lines_of (split_on (ascii_of_nat 10) s).

(** [s.to_lowercase()] restricted to the ASCII letters. *)
Definition to_lower_ascii (c : ascii) : ascii :=
  if (65 <=? code c) && (code c <=? 90)
  then ascii_of_N (Z.to_N (code c + 32)) else c.

Fixpoint to_ascii_lowercase (s : string) : string :=
  match s with
  | EmptyString => EmptyString
  | String c s' => String (to_lower_ascii c) (to_ascii_lowercase s')
  end.

(** ** Integers: parsing and formatting *)

Definition digit_val (c : ascii) : option Z :=
  if (48 <=? code c) && (code c <=? 57) then Some (code c - 48) else None.

Definition hex_val (c : ascii) : option Z :=
  let n := code c in
  if (48 <=? n) && (n <=? 57) then Some (n - 48)
  else if (97 <=? n) && (n <=? 102) then Some (n - 87)
  else if (65 <=? n) && (n <=? 70) then Some (n - 55)
  else None.

(** Accumulate decimal digits; an overflow of the type is an error. *)
Fixpoint parse_digits (mx acc : Z) (s : string) : option Z :=
  match s with
  | EmptyString => Some acc
  | String c s' =>
      d ← digit_val c;
      if acc * 10 + d <=? mx then parse_digits mx (acc * 10 + d) s' else None
  end.

(** [s.parse::<uN>().ok()] for an unsigned type with maximum [mx] *)
Definition parse_uint (mx : Z) (s : string) : option Z :=
  match s with
  | EmptyString => None
  | String c s' =>
      if Ascii.eqb c "+"%char
      then match s' with EmptyString => None | _ => parse_digits mx 0 s' end
      else parse_digits mx 0 s
  end.

Definition digit_char (d : Z) : ascii := ascii_of_N (Z.to_N (48 + d)).

Fixpoint show_dec_fuel (fuel : nat) (n : Z) : string :=
  match fuel with
  | O => ""
  | S f => if n <? 10 then String (digit_char n) ""
           else show_dec_fuel f (n / 10) +:+ String (digit_char (n mod 10)) ""
  end.

(** [format!("{}", n)] for an unsigned [n] of at most 64 bits: twenty
    digits are enough for [u64::MAX]. *)
Definition show_dec (n : Z) : string := show_dec_fuel 20 n.

Definition hex_char (d : Z) : ascii :=
  if d <? 10 then ascii_of_N (Z.to_N (48 + d)) else ascii_of_N (Z.to_N (87 + d)).

(** [n] lower-case hexadecimal digits of [z], the format [{:0nx}] of an
    integer that fits in [n] digits. *)
Fixpoint show_hex (n : nat) (z : Z) : string :=
  match n with
  | O => ""
  | S n' => show_hex n' (z / 16) +:+ String (hex_char (z mod 16)) ""
  end.

(** [format!("{:02x}", b)] *)
Definition show_hex_byte (b : byte) : string := show_hex 2 (b2z b).

(** ** UTF-8 *)

(** A byte in a closed range. *)
Definition in_range (lo hi : Z) (c : ascii) : bool := (lo <=? code c) && (code c <=? hi).

(** The second byte of a three- or four-byte sequence, by the first: no
    overlong forms, no surrogates, nothing above U+10FFFF. *)
Definition utf8_second (c d : ascii) : bool :=
  if code c =? 0xE0 then in_range 0xA0 0xBF d
  else if code c =? 0xED then in_range 0x80 0x9F d
  else if code c =? 0xF0 then in_range 0x90 0xBF d
  else if code c =? 0xF4 then in_range 0x80 0x8F d
  else in_range 0x80 0xBF d.

(** The check of [str::from_utf8]: the bytes are a valid UTF-8 sequence. *)
Fixpoint valid_utf8 (s : string) : bool :=
  match s with
  | EmptyString => true
  | String c s1 =>
      if code c <? 0x80 then valid_utf8 s1
      else match s1 with
           | EmptyString => false
           | String d s2 =>
               if in_range 0xC2 0xDF c then in_range 0x80 0xBF d && valid_utf8 s2
               else match s2 with
                    | EmptyString => false
                    | String e s3 =>
                        if in_range 0xE0 0xEF c
                        then utf8_second c d && in_range 0x80 0xBF e && valid_utf8 s3
                        else match s3 with
                             | EmptyString => false
                             | String f s4 =>
                                 in_range 0xF0 0xF4 c && utf8_second c d && in_range 0x80 0xBF e
                                 && in_range 0x80 0xBF f && valid_utf8 s4
                             end
                    end
           end
  end.

(** Every byte is ASCII. *)
Fixpoint is_ascii (s : string) : bool :=
  match s with EmptyString => true | String c s' => (code c <? 0x80) && is_ascii s' end.

(** ** Lemmas *)

Lemma code_range (c : ascii) : 0 <= code c < 256.
Proof. unfold code. pose proof (N_ascii_bounded c). lia. Qed.

Lemma code_ascii_of_N (n : N) : (n < 256)%N -> code (ascii_of_N n) = Z.of_N n.
Proof. intros. unfold code. by rewrite N_ascii_embedding. Qed.

Lemma digit_val_char (d : Z) : 0 <= d < 10 -> digit_val (digit_char d) = Some d.
Proof.
  intros Hd. unfold digit_val, digit_char.
  rewrite code_ascii_of_N by lia. rewrite Z2N.id by lia.
  destruct (48 <=? 48 + d) eqn:E1, (48 + d <=? 57) eqn:E2; bool_to_prop; simpl; try lia.
  f_equal; lia.
Qed.

Lemma parse_digits_app (mx acc : Z) (s t : string) :
  parse_digits mx acc (s +:+ t) = (a ← parse_digits mx acc s; parse_digits mx a t).
Proof.
  revert acc; induction s as [|c s IH]; intros acc; simpl; [done|].
  destruct (digit_val c) as [d|]; simpl; [|done].
  destruct (acc * 10 + d <=? mx); [apply IH|done].
Qed.

Lemma parse_show_dec_fuel (fuel : nat) (mx n : Z) :
  0 <= n < 10 ^ Z.of_nat fuel -> n <= mx ->
  parse_digits mx 0 (show_dec_fuel fuel n) = Some n.
Proof.
  revert n; induction fuel as [|f IH]; intros n Hn Hmx.
  - change (10 ^ Z.of_nat 0) with 1 in Hn. simpl. f_equal. lia.
  - cbn [show_dec_fuel]. destruct (n <? 10) eqn:E; bool_to_prop.
    + simpl. rewrite digit_val_char by lia. simpl.
      destruct (0 * 10 + n <=? mx) eqn:E2; bool_to_prop; [done|lia].
    + rewrite Nat2Z.inj_succ, Z.pow_succ_r in Hn by lia.
      pose proof (Z.div_mod n 10 ltac:(lia)).
      pose proof (Z.mod_pos_bound n 10 ltac:(lia)).
      rewrite parse_digits_app, IH; simpl.
      * rewrite digit_val_char by lia. simpl.
        replace (n / 10 * 10 + n mod 10) with n by lia.
        destruct (n <=? mx) eqn:E2; bool_to_prop; [done|lia].
      * split; [apply Z.div_pos; lia|apply Z.div_lt_upper_bound; lia].
      * apply Z.le_trans with n; [apply Z.div_le_upper_bound|]; lia.
Qed.

Lemma show_dec_fuel_S (f : nat) (n : Z) :
  show_dec_fuel (S f) n =
  if n <? 10 then String (digit_char n) ""
  else show_dec_fuel f (n / 10) +:+ String (digit_char (n mod 10)) "".
Proof. done. Qed.

Lemma show_dec_fuel_head (fuel : nat) (n : Z) :
  0 <= n < 10 ^ Z.of_nat (S fuel) ->
  exists c s, show_dec_fuel (S fuel) n = String c s /\ is_Some (digit_val c).
Proof.
  revert n; induction fuel as [|f IH]; intros n Hn; rewrite show_dec_fuel_S;
    destruct (n <? 10) eqn:E; bool_to_prop.
  1, 3: exists (digit_char n), ""; rewrite digit_val_char by lia; eauto.
  - change (10 ^ Z.of_nat 1) with 10 in Hn. lia.
  - rewrite Nat2Z.inj_succ, Z.pow_succ_r in Hn by lia.
    destruct (IH (n / 10)) as (c & s & -> & Hc).
    { split; [apply Z.div_pos; lia|apply Z.div_lt_upper_bound; lia]. }
    simpl. eauto.
Qed.

(** Parsing a printed number gives the number back, for every type wide
    enough to hold it. *)
Lemma parse_uint_show_dec (mx n : Z) :
  0 <= n <= u64_max -> n <= mx -> parse_uint mx (show_dec n) = Some n.
Proof.
  intros Hn Hmx. unfold u64_max in Hn.
  assert (0 <= n < 10 ^ Z.of_nat 20) as Hb by (change (10 ^ Z.of_nat 20) with (10^20); lia).
  destruct (show_dec_fuel_head 19 n Hb) as (c & s & Hs & Hc).
  unfold parse_uint, show_dec. pose proof (parse_show_dec_fuel 20 mx n Hb Hmx) as Hp.
  rewrite Hs in Hp |- *.
  destruct (Ascii.eqb c "+"%char) eqn:E; [|done].
  apply Ascii.eqb_eq in E; subst. by destruct Hc.
Qed.

Lemma string_length_app (a b : string) :
  String.length (a +:+ b) = (String.length a + String.length b)%nat.
Proof. induction a; simpl; auto. Qed.

Lemma string_app_cons (x : ascii) (a b : string) : String x a +:+ b = String x (a +:+ b).
Proof. reflexivity. Qed.

Lemma string_app_nil_l (s : string) : EmptyString +:+ s = s.
Proof. done. Qed.

Lemma string_app_nil_r (s : string) : s +:+ EmptyString = s.
Proof. induction s as [|x s IH]; [done|]. by rewrite string_app_cons, IH. Qed.

Lemma string_app_assoc (a b c : string) : (a +:+ b) +:+ c = a +:+ b +:+ c.
Proof. induction a as [|x a IH]; [done|]. by rewrite !string_app_cons, IH. Qed.

(** Only decimal digits. *)
Fixpoint all_digits (s : string) : bool :=
  match s with
  | EmptyString => true
  | String c s' => (48 <=? code c) && (code c <=? 57) && all_digits s'
  end.

Lemma all_digits_app (a b : string) : all_digits (a +:+ b) = all_digits a && all_digits b.
Proof.
  induction a as [|c a IH]; [done|]. rewrite string_app_cons. cbn [all_digits].
  by rewrite IH, <- !andb_assoc.
Qed.

Lemma all_digits_char (d : Z) : 0 <= d < 10 -> all_digits (String (digit_char d) "") = true.
Proof.
  intros Hd. cbn. unfold digit_char. rewrite code_ascii_of_N, Z2N.id by lia.
  rewrite !andb_true_iff, !Z.leb_le. lia.
Qed.

Lemma all_digits_show (fuel : nat) (n : Z) : 0 <= n -> all_digits (show_dec_fuel fuel n) = true.
Proof.
  revert n. induction fuel as [|f IH]; intros n Hn; [done|]. rewrite show_dec_fuel_S.
  destruct (n <? 10) eqn:E; bool_to_prop; [apply all_digits_char; lia|].
  rewrite all_digits_app, IH, all_digits_char; [done|apply Z.mod_pos_bound; lia|].
  apply Z.div_pos; lia.
Qed.

(** Nothing that starts with a printable ASCII character is trimmed there. *)
Lemma trim_start_head (c : ascii) (s : string) :
  33 <= code c < 128 -> trim_start (String c s) = String c s.
Proof.
  intros Hc. cbn [trim_start]. unfold ws1, ws2, ws3.
  replace (code c <=? 13) with false by (symmetry; apply Z.leb_gt; lia).
  replace (code c =? 32) with false by (symmetry; apply Z.eqb_neq; lia).
  replace (code c =? 194) with false by (symmetry; apply Z.eqb_neq; lia).
  replace (code c =? 225) with false by (symmetry; apply Z.eqb_neq; lia).
  replace (code c =? 226) with false by (symmetry; apply Z.eqb_neq; lia).
  replace (code c =? 227) with false by (symmetry; apply Z.eqb_neq; lia).
  rewrite andb_false_r. destruct s as [|d [|e s]]; done.
Qed.

Lemma trim_end_head (c : ascii) (s : string) :
  33 <= code c < 128 -> trim_end (String c s) = String c (trim_end s).
Proof. intros Hc. cbn [trim_end]. by rewrite trim_start_head. Qed.

Lemma trim_end_digits (s : string) : all_digits s = true -> trim_end (s +:+ crlf) = s.
Proof.
  induction s as [|c s IH]; [done|]. cbn [all_digits]. intros H. bool_to_prop.
  rewrite string_app_cons, trim_end_head, IH by (lia || done). done.
Qed.

Lemma hex_char_inj (a b : Z) :
  0 <= a < 16 -> 0 <= b < 16 -> hex_char a = hex_char b -> a = b.
Proof.
  intros Ha Hb H. apply (f_equal code) in H. unfold hex_char in H.
  destruct (a <? 10) eqn:E1, (b <? 10) eqn:E2; bool_to_prop;
    rewrite !code_ascii_of_N in H by lia; rewrite !Z2N.id in H by lia; lia.
Qed.

Lemma length_show_hex (n : nat) (z : Z) : str_len (show_hex n z) = n.
Proof.
  unfold str_len. revert z; induction n as [|n IH]; intros z; [done|].
  cbn [show_hex]. rewrite string_length_app, IH. simpl. lia.
Qed.

Lemma string_app_inj_len (a b c d : string) :
  String.length a = String.length c -> a +:+ b = c +:+ d -> a = c /\ b = d.
Proof.
  revert c; induction a as [|x a IH]; intros [|y c] Hl H; simpl in *; [auto|lia..|].
  injection H as -> H. destruct (IH c) as [-> ->]; auto.
Qed.

Lemma show_hex_inj (n : nat) (a b : Z) :
  0 <= a < 16 ^ Z.of_nat n -> 0 <= b < 16 ^ Z.of_nat n ->
  show_hex n a = show_hex n b -> a = b.
Proof.
  revert a b; induction n as [|n IH]; intros a b Ha Hb H.
  - change (16 ^ Z.of_nat 0) with 1 in *. lia.
  - cbn [show_hex] in H. rewrite Nat2Z.inj_succ, Z.pow_succ_r in Ha, Hb by lia.
    pose proof (Z.mod_pos_bound a 16 ltac:(lia)).
    pose proof (Z.mod_pos_bound b 16 ltac:(lia)).
    apply string_app_inj_len in H as [Hq Hr].
    + apply IH in Hq; [|split; [apply Z.div_pos; lia|apply Z.div_lt_upper_bound; lia]..].
      injection Hr as Hr. apply hex_char_inj in Hr; [|lia..].
      pose proof (Z.div_mod a 16 ltac:(lia)). pose proof (Z.div_mod b 16 ltac:(lia)). lia.
    + apply eq_trans with n; [apply length_show_hex|symmetry; apply length_show_hex].
Qed.

#[global] Instance show_hex_byte_inj : Inj (=) (=) show_hex_byte.
Proof.
  intros a b H. apply (inj b2z).
  apply (show_hex_inj 2); [apply b2z_range..|exact H].
Qed.

Lemma is_ascii_app (a b : string) : is_ascii (a +:+ b) = is_ascii a && is_ascii b.
Proof.
  induction a as [|c a IH]; [done|]. rewrite string_app_cons. cbn [is_ascii].
  rewrite IH. apply andb_assoc.
Qed.

Lemma valid_utf8_ascii_app (a b : string) :
  is_ascii a = true -> valid_utf8 (a +:+ b) = valid_utf8 b.
Proof.
  induction a as [|c a IH]; [done|]. rewrite string_app_cons. cbn [is_ascii valid_utf8].
  intros H. bool_to_prop. replace (code c <? 0x80) with true by (symmetry; by apply Z.ltb_lt).
  auto.
Qed.

Lemma valid_utf8_ascii (a : string) : is_ascii a = true -> valid_utf8 a = true.
Proof.
  intros H. rewrite <- (string_app_nil_r a). by rewrite valid_utf8_ascii_app.
Qed.

Lemma string_of_as_bytes (s : string) : String.string_of_list_byte (as_bytes s) = s.
Proof. apply String.string_of_list_byte_of_string. Qed.

Lemma as_bytes_app (a b : string) : as_bytes (a +:+ b) = as_bytes a ++ as_bytes b.
Proof.
  induction a as [|c a IH]; [done|]. rewrite string_app_cons.
  change (byte_of_ascii c :: as_bytes (a +:+ b) = byte_of_ascii c :: as_bytes a ++ as_bytes b).
  by rewrite IH.
Qed.

Lemma length_as_bytes (s : string) : length (as_bytes s) = str_len s.
Proof. induction s as [|c s IH]; [done|]. exact (f_equal S IH). Qed.

Lemma rev_app_spec (a b : string) : String.rev_app a b = String.rev a +:+ b.
Proof.
  unfold String.rev. revert b. induction a as [|c a IH]; intros b; [done|]. cbn [String.rev_app].
  by rewrite IH, (IH (String c "")), string_app_assoc.
Qed.

Lemma string_rev_cons (c : ascii) (s : string) : String.rev (String c s) = String.rev s +:+ String c "".
Proof. exact (rev_app_spec s (String c "")). Qed.

Lemma string_rev_app (a b : string) : String.rev (a +:+ b) = String.rev b +:+ String.rev a.
Proof.
  induction a as [|c a IH]; [by rewrite string_app_nil_l, string_app_nil_r|].
  by rewrite string_app_cons, !string_rev_cons, IH, string_app_assoc.
Qed.

Lemma string_rev_involutive (s : string) : String.rev (String.rev s) = s.
Proof.
  induction s as [|c s IH]; [done|]. rewrite string_rev_cons, string_rev_app, IH. done.
Qed.

Lemma all_digits_rev (s : string) : all_digits (String.rev s) = all_digits s.
Proof.
  induction s as [|c s IH]; [done|]. rewrite string_rev_cons, all_digits_app, IH. cbn [all_digits].
  rewrite andb_true_r. apply andb_comm.
Qed.

Lemma strip_prefix_starts (s a b t : string) :
  strip_prefix s (a +:+ b) = Some t -> starts_with s a = true.
Proof.
  unfold starts_with. revert s. induction a as [|c a IH]; intros s; [by destruct s|].
  rewrite string_app_cons. destruct s as [|d s]; cbn [strip_prefix String.prefix]; [done|].
  destruct (Ascii.eqb c d) eqn:E; [|done]. apply Ascii.eqb_eq in E. subst.
  destruct (ascii_dec d d); [apply IH|done].
Qed.
