(* ===== verification/NetAddr.v ===== *)
(** * IPv4 addresses and socket addresses of [std::net]

    [Ipv4Addr] with its conversions to and from [u32], its [Display] and
    [FromStr], and the [FromStr] and [Display] of [SocketAddr] (IPv4 and IPv6 forms, the
    standard library's recursive-descent parser).  The lemmas prove that the
    conversions are inverse of each other and that parsing a displayed IPv4
    address gives it back. *)

From S2P Require Import Prelude RustStr.

Record Ipv4Addr := mkIpv4 { oct1 : byte; oct2 : byte; oct3 : byte; oct4 : byte }.

#[global] Instance Ipv4Addr_eq_dec : EqDecision Ipv4Addr.
Proof. solve_decision. Defined.

(** [Ipv4Addr::new(a, b, c, d)] on [u8] arguments given as integers *)
Definition ipv4_new (a b c d : Z) : Ipv4Addr := mkIpv4 (z2b a) (z2b b) (z2b c) (z2b d).

Definition octets (ip : Ipv4Addr) : list byte := [oct1 ip; oct2 ip; oct3 ip; oct4 ip].

(** [u32::from(ip)] *)
Definition ipv4_to_u32 (ip : Ipv4Addr) : Z := from_be_bytes (octets ip).

(** [Ipv4Addr::from(n)] *)
Definition ipv4_of_u32 (n : Z) : Ipv4Addr :=
  match to_be_bytes 4 n with
  | [a; b; c; d] => mkIpv4 a b c d
  | _ => mkIpv4 x00 x00 x00 x00
  end.

(** [ip.to_string()] *)
Definition show_ipv4 (ip : Ipv4Addr) : string :=
  show_dec (b2z (oct1 ip)) +:+ "." +:+ show_dec (b2z (oct2 ip)) +:+ "."
  +:+ show_dec (b2z (oct3 ip)) +:+ "." +:+ show_dec (b2z (oct4 ip)).

(** ** The parser: a reader takes the input and returns the rest *)

Definition to_digit (radix : Z) (c : ascii) : option Z :=
  d ← hex_val c; if d <? radix then Some d else None.

Fixpoint read_digits (radix : Z) (s : string) : list Z * string :=
  match s with
  | EmptyString => ([], s)
  | String c s' =>
      match to_digit radix c with
      | Some d => let '(ds, rest) := read_digits radix s' in (d :: ds, rest)
      | None => ([], s)
      end
  end.

Definition digits_value (radix : Z) (ds : list Z) : Z :=
  fold_left (fun acc d => acc * radix + d) ds 0.

Definition leading_zero (ds : list Z) : bool :=
  match ds with d :: _ :: _ => d =? 0 | _ => false end.

(** [read_number]: all the digits there are, at most [max_digits] of them,
    in the range of the integer type. *)
Definition read_number (radix : Z) (max_digits : option nat) (allow_zero_prefix : bool)
    (mx : Z) (s : string) : option (Z * string) :=
  let '(ds, rest) := read_digits radix s in
  if match max_digits with Some m => Nat.ltb m (length ds) | None => false end then None
  else match ds with
       | [] => None
       | _ => if (negb allow_zero_prefix && leading_zero ds)%bool then None
              else if digits_value radix ds <=? mx
                   then Some (digits_value radix ds, rest) else None
       end.

Definition read_given_char (c : ascii) (s : string) : option string :=
  match s with
  | String d s' => if Ascii.eqb c d then Some s' else None
  | EmptyString => None
  end.

Definition read_octet (s : string) : option (Z * string) :=
  read_number 10 (Some 3%nat) false u8_max s.

Definition dot_octet (s : string) : option (Z * string) :=
  read_given_char "."%char s ≫= read_octet.

Definition read_ipv4_addr (s : string) : option (Ipv4Addr * string) :=
  '(a, s) ← read_octet s;
  '(b, s) ← dot_octet s;
  '(c, s) ← dot_octet s;
  '(d, s) ← dot_octet s;
  Some (ipv4_new a b c d, s).

(** [parse_with]: the whole input must be consumed. *)
Definition parse_with {A} (r : option (A * string)) : option A :=
  match r with Some (a, EmptyString) => Some a | _ => None end.

(** [s.parse::<Ipv4Addr>().ok()] *)
Definition parse_ipv4 (s : string) : option Ipv4Addr :=
  if Nat.ltb 15 (str_len s) then None else parse_with (read_ipv4_addr s).

(** ** Socket addresses *)

Inductive SocketAddr :=
| SockV4 (ip : Ipv4Addr) (port : Z)
| SockV6 (segments : list Z) (port scope_id : Z).

#[global] Instance SocketAddr_eq_dec : EqDecision SocketAddr.
Proof. solve_decision. Defined.

Definition read_port (s : string) : option (Z * string) :=
  read_given_char colon s ≫= read_number 10 None true u16_max.

Definition read_socket_addr_v4 (s : string) : option (SocketAddr * string) :=
  '(ip, s) ← read_ipv4_addr s; '(port, s) ← read_port s; Some (SockV4 ip port, s).

(** [read_separator(':', i, inner)] *)
Definition read_separator {A} (i : nat) (inner : string -> option (A * string))
    (s : string) : option (A * string) :=
  match i with O => inner s | _ => read_given_char colon s ≫= inner end.

(** [read_groups] from index [i] with [left] slots left: the groups read,
    whether an embedded IPv4 address ended them, and the rest. *)
Fixpoint read_groups (left i : nat) (s : string) : list Z * bool * string :=
  match left with
  | O => ([], false, s)
  | S left' =>
      match (if Nat.ltb 0 left' then read_separator i read_ipv4_addr s else None) with
      | Some (ip, rest) =>
          let n := ipv4_to_u32 ip in ([n / 65536; n mod 65536], true, rest)
      | None =>
          match read_separator i (read_number 16 (Some 4%nat) true u16_max) s with
          | Some (g, rest) =>
              let '(gs, v4, rest) := read_groups left' (S i) rest in (g :: gs, v4, rest)
          | None => ([], false, s)
          end
      end
  end.

Definition read_ipv6_addr (s : string) : option (list Z * string) :=
  let '(head, head_v4, s) := read_groups 8 0 s in
  if Nat.eqb (length head) 8 then Some (head, s)
  else if head_v4 then None
  else
    s ← read_given_char colon s;
    s ← read_given_char colon s;
    let '(tail, _, s) := read_groups (8 - (length head + 1)) 0 s in
    Some (head ++ replicate (8 - length head - length tail) 0 ++ tail, s).

(** [read_scope_id().unwrap_or(0)] *)
Definition read_scope_id_or_0 (s : string) : Z * string :=
  match read_given_char "%"%char s ≫= read_number 10 None true u32_max with
  | Some r => r
  | None => (0, s)
  end.

Definition read_socket_addr_v6 (s : string) : option (SocketAddr * string) :=
  s ← read_given_char "["%char s;
  '(ip, s) ← read_ipv6_addr s;
  let '(scope, s) := read_scope_id_or_0 s in
  s ← read_given_char "]"%char s;
  '(port, s) ← read_port s;
  Some (SockV6 ip port scope, s).

(** [s.parse::<SocketAddr>().ok()] *)
Definition parse_socket_addr (s : string) : option SocketAddr :=
  parse_with (match read_socket_addr_v4 s with
              | Some r => Some r
              | None => read_socket_addr_v6 s
              end).

(** ** Displaying a socket address *)

(** [format!("{:x}", n)] of a 16-bit segment *)
Definition show_segment (n : Z) : string :=
  show_hex (if n <? 16 then 1%nat else if n <? 256 then 2%nat
            else if n <? 4096 then 3%nat else 4%nat) n.

(** Segments joined by colons. *)
Fixpoint show_segments (l : list Z) : string :=
  match l with
  | [] => ""
  | [n] => show_segment n
  | n :: l' => show_segment n +:+ ":" +:+ show_segments l'
  end.

(** The first longest run of zero segments as start and length, from index
    [i] with the current run [cur] and the longest so far. *)
Fixpoint longest_zeroes (i : nat) (cur best : nat * nat) (l : list Z) : nat * nat :=
  match l with
  | [] => best
  | n :: l' =>
      if n =? 0 then
        let cur := (if Nat.eqb cur.2 0 then i else cur.1, S cur.2) in
        longest_zeroes (S i) cur (if Nat.ltb best.2 cur.2 then cur else best) l'
      else longest_zeroes (S i) (O, O) best l'
  end.

(** [Display] of [Ipv6Addr]: an IPv4-mapped address with its dotted form, and
    otherwise the first longest run of two zeros or more as [::]. *)
Definition show_ipv6 (segs : list Z) : string :=
  match segs with
  | [0; 0; 0; 0; 0; 65535; hi; lo] => "::ffff:" +:+ show_ipv4 (ipv4_of_u32 (hi * 65536 + lo))
  | _ =>
      let '(start, len) := longest_zeroes 0 (O, O) (O, O) segs in
      if Nat.ltb 1 len
      then show_segments (take start segs) +:+ "::" +:+ show_segments (drop (start + len) segs)
      else show_segments segs
  end.

(** [addr.to_string()] *)
Definition show_socket_addr (a : SocketAddr) : string :=
  match a with
  | SockV4 ip port => show_ipv4 ip +:+ ":" +:+ show_dec port
  | SockV6 segs port scope =>
      "[" +:+ show_ipv6 segs +:+ (if scope =? 0 then "" else "%" +:+ show_dec scope)
      +:+ "]:" +:+ show_dec port
  end.

(** ** Lemmas *)

Lemma ipv4_of_to_u32 (ip : Ipv4Addr) : ipv4_of_u32 (ipv4_to_u32 ip) = ip.
Proof.
  unfold ipv4_of_u32, ipv4_to_u32.
  pose proof (to_from_be_bytes (octets ip)) as H. simpl length in H. rewrite H.
  by destruct ip.
Qed.

Lemma ipv4_to_u32_range (ip : Ipv4Addr) : 0 <= ipv4_to_u32 ip <= u32_max.
Proof.
  unfold ipv4_to_u32, u32_max. pose proof (from_be_bytes_range (octets ip)) as H.
  simpl length in H. change (256 ^ Z.of_nat 4) with (2 ^ 32) in H. lia.
Qed.

#[global] Instance ipv4_to_u32_inj : Inj (=) (=) ipv4_to_u32.
Proof. intros a b H. by rewrite <- (ipv4_of_to_u32 a), H, ipv4_of_to_u32. Qed.

(** Reading a displayed octet stops at the dot or at the end. *)
Lemma read_octet_show (b : byte) (rest : string) :
  rest = EmptyString \/ (exists r, rest = String "."%char r) ->
  read_octet (show_dec (b2z b) +:+ rest) = Some (b2z b, rest).
Proof. intros [->|[r ->]]; destruct b; reflexivity. Qed.

Lemma dot_octet_show (b : byte) (rest : string) :
  rest = EmptyString \/ (exists r, rest = String "."%char r) ->
  dot_octet ("." +:+ show_dec (b2z b) +:+ rest) = Some (b2z b, rest).
Proof. intros H. exact (read_octet_show b rest H). Qed.

Lemma read_ipv4_show (ip : Ipv4Addr) :
  read_ipv4_addr (show_ipv4 ip) = Some (ip, EmptyString).
Proof.
  destruct ip as [a b c d]. unfold read_ipv4_addr, show_ipv4. simpl oct1.
  rewrite read_octet_show by (right; eexists; reflexivity). cbn [mbind option_bind].
  simpl oct2. rewrite dot_octet_show by (right; eexists; reflexivity).
  cbn [mbind option_bind]. simpl oct3.
  rewrite dot_octet_show by (right; eexists; reflexivity).
  cbn [mbind option_bind]. simpl oct4. rewrite <- (string_app_nil_r (show_dec (b2z d))).
  rewrite dot_octet_show by (left; reflexivity). cbn [mbind option_bind].
  unfold ipv4_new. by rewrite !z2b_b2z.
Qed.

Lemma show_octet_len (b : byte) : (1 <= str_len (show_dec (b2z b)) <= 3)%nat.
Proof. destruct b; vm_compute; lia. Qed.

Lemma show_ipv4_len (ip : Ipv4Addr) : (7 <= str_len (show_ipv4 ip) <= 15)%nat.
Proof.
  unfold show_ipv4, str_len. rewrite !string_length_app. simpl.
  pose proof (show_octet_len (oct1 ip)). pose proof (show_octet_len (oct2 ip)).
  pose proof (show_octet_len (oct3 ip)). pose proof (show_octet_len (oct4 ip)).
  unfold str_len in *. lia.
Qed.

(** Parsing a displayed IPv4 address gives it back. *)
Lemma parse_show_ipv4 (ip : Ipv4Addr) : parse_ipv4 (show_ipv4 ip) = Some ip.
Proof.
  unfold parse_ipv4. pose proof (show_ipv4_len ip) as Hl.
  destruct (Nat.ltb 15 (str_len (show_ipv4 ip))) eqn:E; [bool_to_prop; lia|].
  by rewrite read_ipv4_show.
Qed.

#[global] Instance show_ipv4_inj : Inj (=) (=) show_ipv4.
Proof.
  intros a b H. apply (f_equal parse_ipv4) in H. rewrite !parse_show_ipv4 in H. congruence.
Qed.

Example parse_ipv4_rejects_leading_zero : parse_ipv4 "10.244.0.01" = None.
Proof. reflexivity. Qed.

Example parse_socket_v4 :
  parse_socket_addr "127.0.0.1:9527" = Some (SockV4 (ipv4_new 127 0 0 1) 9527).
Proof. reflexivity. Qed.

Example parse_socket_v6 :
  parse_socket_addr "[fe80::1%3]:80" = Some (SockV6 [65152; 0; 0; 0; 0; 0; 0; 1] 80 3).
Proof. reflexivity. Qed.

Example parse_socket_rejects_name : parse_socket_addr "stun.l.google.com:19302" = None.
Proof. reflexivity. Qed.
