(* ===== verification/Trace.v ===== *)
(** * Computations that act on the world

    A traced computation performs events one after the other and returns a
    value, fails or panics; a failure stops it, as the [?] operator does.
    The trace is the list of the events performed, and what the environment
    answers to an event may depend on it. *)

From S2P Require Import Prelude.

Create HintDb traced.

Definition Traced (Ev A : Type) : Type := list Ev -> list Ev * outcome string A.

#[global] Instance Traced_ret {Ev} : MRet (Traced Ev) := fun A a tr => (tr, Ok a).

#[global] Instance Traced_bind {Ev} : MBind (Traced Ev) := fun A B k m tr =>
  match m tr with
  | (tr, Ok a) => k a tr
  | (tr, Err e) => (tr, Err e)
  | (tr, Panic) => (tr, Panic)
  end.

(** A pure computation that may fail or panic. *)
Definition lift {Ev A} (o : outcome string A) : Traced Ev A := fun tr => (tr, o).

(** Matching on the [Result]: an error becomes a value, a panic does not. *)
Definition try {Ev A} (m : Traced Ev A) : Traced Ev (outcome string A) := fun tr =>
  match m tr with
  | (tr, Panic) => (tr, Panic)
  | (tr, r) => (tr, Ok r)
  end.

(** An event and the environment's answer. *)
Definition perform {Ev A} (e : Ev) (answer : list Ev -> outcome string A) : Traced Ev A :=
  fun tr => (tr ++ [e], answer tr).

(** A loop over a list. *)
Fixpoint for_each {Ev A} (f : A -> Traced Ev unit) (l : list A) : Traced Ev unit :=
  match l with
  | [] => mret tt
  | x :: l' => _ ← f x; for_each f l'
  end.

Lemma bind_run {Ev A B} (m : Traced Ev A) (k : A -> Traced Ev B) (tr : list Ev) :
  (m ≫= k) tr = match m tr with
                | (tr, Ok a) => k a tr
                | (tr, Err e) => (tr, Err e)
                | (tr, Panic) => (tr, Panic)
                end.
Proof. reflexivity. Qed.

Lemma lift_run {Ev A} (o : outcome string A) (tr : list Ev) : lift o tr = (tr, o).
Proof. reflexivity. Qed.

(** A loop whose rounds each add the events [g x] adds them all, in order. *)
Lemma for_each_run {Ev A} (f : A -> Traced Ev unit) (g : A -> list Ev) (l : list A) (tr : list Ev) :
  (forall x tr, f x tr = (tr ++ g x, Ok tt)) ->
  for_each f l tr = (tr ++ concat (map g l), Ok tt).
Proof.
  intros Hf. revert tr. induction l as [|x l IH]; intros tr; cbn [for_each map concat].
  - by rewrite app_nil_r.
  - rewrite bind_run, Hf, IH, <- app_assoc. done.
Qed.

(** ** What a computation may emit *)

(** Whatever happened before and whatever the environment answers, the
    events a computation adds satisfy [P]. *)
Definition emits {Ev A} (P : Ev -> Prop) (m : Traced Ev A) : Prop :=
  forall tr, exists new, (m tr).1 = tr ++ new /\ Forall P new.

Section Emits.
Context {Ev : Type} (P : Ev -> Prop).

Lemma emits_ret {A} (a : A) : emits P (mret a).
Proof. intros tr. exists []. by rewrite app_nil_r. Qed.

Lemma emits_lift {A} (o : outcome string A) : emits P (lift o).
Proof. intros tr. exists []. by rewrite app_nil_r. Qed.

Lemma emits_perform {A} (e : Ev) (answer : list Ev -> outcome string A) :
  P e -> emits P (perform e answer).
Proof. intros He tr. exists [e]. split; [done|by repeat constructor]. Qed.

Lemma emits_bind {A B} (m : Traced Ev A) (k : A -> Traced Ev B) :
  emits P m -> (forall a, emits P (k a)) -> emits P (m ≫= k).
Proof.
  intros Hm Hk tr. rewrite bind_run. destruct (Hm tr) as (new & E & Hnew).
  destruct (m tr) as [tr1 [a|e|]]; cbn [fst] in *; [|by exists new..].
  destruct (Hk a tr1) as (new' & E' & Hnew'). exists (new ++ new'). subst tr1.
  rewrite E', <- app_assoc. split; [done|by apply Forall_app].
Qed.

Lemma emits_try {A} (m : Traced Ev A) : emits P m -> emits P (try m).
Proof.
  intros Hm tr. destruct (Hm tr) as (new & E & Hnew). exists new. unfold try.
  by destruct (m tr) as [tr1 []].
Qed.
End Emits.

#[export] Hint Resolve emits_ret emits_lift emits_bind emits_try : traced.
