(* ===== verification/Common.v ===== *)
(** * The [nomad-p2p-common] crate: constants, map values and their layout

    The structs shared between the agent and the eBPF programs, with their
    [#[repr(C)]] byte layout on the little-endian target ([bpfel]).  The
    class [Pod] is what [unsafe impl aya::Pod] asserts: a value is exactly
    its bytes.  Each instance discharges it for values whose fields are in
    the range of their types. *)

From S2P Require Import Prelude.

Definition HMAC_SIZE : nat := 32.
Definition HEADER_SIZE : nat := 16.
Definition MIN_MESSAGE_SIZE : nat := HEADER_SIZE + HMAC_SIZE.
Definition REPLAY_WINDOW_SECS : Z := 300.
Definition ROUTE_MISS_BUF_SIZE : nat := 4096.
Definition ROUTE_MISS_BATCH_INTERVAL_MS : Z := 100.
Definition ROUTE_MISS_COOLDOWN_SECS : Z := 5.

Record PeerEndpoint := mkPeerEndpoint {
  pe_public_ip : Z;
  pe_port : Z;
  pe_nat_type : Z;
  pe_pad : Z
}.

Record VipBackend := mkVipBackend {
  vb_ip : Z;
  vb_port : Z;
  vb_weight : Z;
  vb_pad : Z
}.

Record VipInfo := mkVipInfo {
  vi_backends : list VipBackend;
  vi_count : Z;
  vi_next_idx : Z;
  vi_pad : Z * Z
}.

Record TunnelCfg := mkTunnelCfg { tunnel_id : Z }.

Record AclRule := mkAclRule {
  acl_src_ip : Z;
  acl_dst_port : Z;
  acl_protocol : Z;
  acl_action : Z
}.

Inductive NatType := Unknown | Easy | Symmetric.

Inductive AclAction := Allow | Deny.

#[global] Instance NatType_eq_dec : EqDecision NatType.
Proof. solve_decision. Defined.

(** [nat as u8] *)
Definition nat_type_u8 (n : NatType) : Z :=
  match n with Unknown => 0 | Easy => 1 | Symmetric => 2 end.

(** [impl Default for NatType] *)
Definition NatType_default : NatType := Unknown.

Definition acl_action_u8 (a : AclAction) : Z :=
  match a with Allow => 1 | Deny => 2 end.

(** [VipBackend::default()], [VipInfo::default()] (derived) *)
Definition VipBackend_default : VipBackend := mkVipBackend 0 0 0 0.
Definition VipInfo_default : VipInfo :=
  mkVipInfo (replicate 16 VipBackend_default) 0 0 (0, 0).

(** ** Field ranges *)

Definition in_bytes (n : nat) (z : Z) : Prop := 0 <= z < 256 ^ Z.of_nat n.

Definition wf_peer (e : PeerEndpoint) : Prop :=
  in_bytes 4 (pe_public_ip e) /\ in_bytes 2 (pe_port e) /\
  in_bytes 1 (pe_nat_type e) /\ in_bytes 1 (pe_pad e).

Definition wf_backend (b : VipBackend) : Prop :=
  in_bytes 4 (vb_ip b) /\ in_bytes 2 (vb_port b) /\
  in_bytes 1 (vb_weight b) /\ in_bytes 1 (vb_pad b).

Definition wf_vip_layout (v : VipInfo) : Prop :=
  length (vi_backends v) = 16%nat /\ Forall wf_backend (vi_backends v) /\
  in_bytes 1 (vi_count v) /\ in_bytes 1 (vi_next_idx v) /\
  in_bytes 1 (vi_pad v).1 /\ in_bytes 1 (vi_pad v).2.

Definition wf_acl (r : AclRule) : Prop :=
  in_bytes 4 (acl_src_ip r) /\ in_bytes 2 (acl_dst_port r) /\
  in_bytes 1 (acl_protocol r) /\ in_bytes 1 (acl_action r).

(** ** The [#[repr(C)]] layout *)

(** A field of [n] bytes in front of the rest. *)
Definition put (n : nat) (z : Z) (rest : list byte) : list byte :=
  to_le_bytes n z ++ rest.

Definition take_int (n : nat) (l : list byte) : option (Z * list byte) :=
  if Nat.leb n (length l) then Some (from_le_bytes (take n l), drop n l) else None.

(** The four eight-byte structs have fields of 4, 2, 1 and 1 bytes: every
    field is aligned and nothing is padded by the compiler. *)
Definition put4211 (a b c d : Z) (rest : list byte) : list byte :=
  put 4 a (put 2 b (put 1 c (put 1 d rest))).

Definition take4211 (l : list byte) : option (Z * Z * Z * Z * list byte) :=
  '(a, l) ← take_int 4 l; '(b, l) ← take_int 2 l;
  '(c, l) ← take_int 1 l; '(d, l) ← take_int 1 l; Some (a, b, c, d, l).

Definition peer_bytes (e : PeerEndpoint) : list byte :=
  put4211 (pe_public_ip e) (pe_port e) (pe_nat_type e) (pe_pad e) [].
Definition peer_of_bytes (l : list byte) : option PeerEndpoint :=
  '(a, b, c, d, _) ← take4211 l; Some (mkPeerEndpoint a b c d).

Definition put_backend (v : VipBackend) (rest : list byte) : list byte :=
  put4211 (vb_ip v) (vb_port v) (vb_weight v) (vb_pad v) rest.
Definition take_backend (l : list byte) : option (VipBackend * list byte) :=
  '(a, b, c, d, l) ← take4211 l; Some (mkVipBackend a b c d, l).

Definition backend_bytes (v : VipBackend) : list byte := put_backend v [].
Definition backend_of_bytes (l : list byte) : option VipBackend :=
  '(v, _) ← take_backend l; Some v.

Fixpoint take_backends (n : nat) (l : list byte) : option (list VipBackend * list byte) :=
  match n with
  | O => Some ([], l)
  | S n' => '(v, l) ← take_backend l; '(vs, l) ← take_backends n' l; Some (v :: vs, l)
  end.

Definition vip_bytes (v : VipInfo) : list byte :=
  foldr put_backend
    (put 1 (vi_count v) (put 1 (vi_next_idx v)
       (put 1 (vi_pad v).1 (put 1 (vi_pad v).2 [])))) (vi_backends v).
Definition vip_of_bytes (l : list byte) : option VipInfo :=
  '(bs, l) ← take_backends 16 l;
  '(c, l) ← take_int 1 l; '(i, l) ← take_int 1 l;
  '(p, l) ← take_int 1 l; '(q, l) ← take_int 1 l;
  Some (mkVipInfo bs c i (p, q)).

Definition tunnel_bytes (t : TunnelCfg) : list byte := put 4 (tunnel_id t) [].
Definition tunnel_of_bytes (l : list byte) : option TunnelCfg :=
  '(a, _) ← take_int 4 l; Some (mkTunnelCfg a).

Definition acl_bytes (r : AclRule) : list byte :=
  put4211 (acl_src_ip r) (acl_dst_port r) (acl_protocol r) (acl_action r) [].
Definition acl_of_bytes (l : list byte) : option AclRule :=
  '(a, b, c, d, _) ← take4211 l; Some (mkAclRule a b c d).

(** ** [aya::Pod] *)

Class Pod (A : Type) := {
  pod_size : nat;
  pod_wf : A -> Prop;
  pod_bytes : A -> list byte;
  pod_of_bytes : list byte -> option A;
  pod_length : forall a, pod_wf a -> length (pod_bytes a) = pod_size;
  pod_roundtrip : forall a, pod_wf a -> pod_of_bytes (pod_bytes a) = Some a
}.

(** ** Lemmas *)

Lemma take_int_put (n : nat) (z : Z) (rest : list byte) :
  in_bytes n z -> take_int n (put n z rest) = Some (z, rest).
Proof.
  intros Hz. unfold take_int, put.
  assert (length (to_le_bytes n z) = n) as Hl by auto with nomad.
  rewrite length_app, Hl. destruct (Nat.leb n _) eqn:E; [|bool_to_prop; lia].
  rewrite take_app_length', drop_app_length' by done.
  by rewrite from_to_le_bytes.
Qed.

Lemma take4211_put (a b c d : Z) (rest : list byte) :
  in_bytes 4 a -> in_bytes 2 b -> in_bytes 1 c -> in_bytes 1 d ->
  take4211 (put4211 a b c d rest) = Some (a, b, c, d, rest).
Proof.
  intros Ha Hb Hc Hd. unfold take4211, put4211.
  do 4 (rewrite take_int_put by done; cbn [mbind option_bind]). done.
Qed.

Lemma take_backend_put (v : VipBackend) (rest : list byte) :
  wf_backend v -> take_backend (put_backend v rest) = Some (v, rest).
Proof.
  intros (? & ? & ? & ?). unfold take_backend, put_backend.
  rewrite take4211_put by done. by destruct v.
Qed.

Lemma take_backends_put (vs : list VipBackend) (rest : list byte) :
  Forall wf_backend vs ->
  take_backends (length vs) (foldr put_backend rest vs) = Some (vs, rest).
Proof.
  induction 1 as [|v vs Hv _ IH]; [done|]. cbn [length foldr take_backends].
  rewrite take_backend_put by done. cbn [mbind option_bind]. by rewrite IH.
Qed.

Lemma length_put_backends (vs : list VipBackend) (rest : list byte) :
  length (foldr put_backend rest vs) = (8 * length vs + length rest)%nat.
Proof.
  induction vs as [|v vs IH]; [done|]. cbn [foldr length].
  unfold put_backend at 1, put4211, put. rewrite !length_app, !length_to_le_bytes, IH. lia.
Qed.

#[export, refine] Instance PeerEndpoint_Pod : Pod PeerEndpoint := {
  pod_size := 8; pod_wf := wf_peer;
  pod_bytes := peer_bytes; pod_of_bytes := peer_of_bytes
}.
Proof.
  - done.
  - intros e (? & ? & ? & ?). unfold peer_of_bytes, peer_bytes.
    rewrite take4211_put by done. by destruct e.
Defined.

#[export, refine] Instance VipBackend_Pod : Pod VipBackend := {
  pod_size := 8; pod_wf := wf_backend;
  pod_bytes := backend_bytes; pod_of_bytes := backend_of_bytes
}.
Proof.
  - done.
  - intros v Hv. unfold backend_of_bytes, backend_bytes. by rewrite take_backend_put.
Defined.

#[export, refine] Instance VipInfo_Pod : Pod VipInfo := {
  pod_size := 132; pod_wf := wf_vip_layout;
  pod_bytes := vip_bytes; pod_of_bytes := vip_of_bytes
}.
Proof.
  - intros v (Hl & _). unfold vip_bytes. rewrite length_put_backends, Hl. done.
  - intros v (Hl & Hb & ? & ? & ? & ?). unfold vip_of_bytes, vip_bytes.
    rewrite <- Hl, take_backends_put by done. cbn [mbind option_bind].
    do 4 (rewrite take_int_put by done; cbn [mbind option_bind]).
    by destruct v as [? ? ? []].
Defined.

#[export, refine] Instance TunnelCfg_Pod : Pod TunnelCfg := {
  pod_size := 4; pod_wf := fun t => in_bytes 4 (tunnel_id t);
  pod_bytes := tunnel_bytes; pod_of_bytes := tunnel_of_bytes
}.
Proof.
  - done.
  - intros t Ht. unfold tunnel_of_bytes, tunnel_bytes.
    rewrite take_int_put by done. by destruct t.
Defined.

#[export, refine] Instance AclRule_Pod : Pod AclRule := {
  pod_size := 8; pod_wf := wf_acl;
  pod_bytes := acl_bytes; pod_of_bytes := acl_of_bytes
}.
Proof.
  - done.
  - intros e (? & ? & ? & ?). unfold acl_of_bytes, acl_bytes.
    rewrite take4211_put by done. by destruct e.
Defined.

(** The maps of plain [u32] values. *)
#[export, refine] Instance u32_Pod : Pod Z := {
  pod_size := 4; pod_wf := in_bytes 4;
  pod_bytes := fun z => put 4 z []; pod_of_bytes := fun l => fst <$> take_int 4 l
}.
Proof.
  - done.
  - intros z Hz. by rewrite take_int_put.
Defined.

(** Values that differ have different bytes in a map. *)
Lemma pod_bytes_inj `{Pod A} (a b : A) :
  pod_wf a -> pod_wf b -> pod_bytes a = pod_bytes b -> a = b.
Proof.
  intros Ha Hb E. apply pod_roundtrip in Ha, Hb. rewrite E in Ha. congruence.
Qed.
