(* ===== verification/Kernel.v ===== *)
(** * Interfaces to the kernel's BPF objects

    The maps, the ring buffer and the packet context are the kernel's and
    aya's, not the repository's: the programs are defined over these classes,
    and what the repository relies on are the classes' laws (the documented
    behaviour of [bpf_map_update_elem] with [BPF_ANY], [bpf_map_lookup_elem],
    [bpf_map_delete_elem], [bpf_ringbuf_reserve]/[submit] and
    [bpf_skb_load_bytes]).  Every map of the program has [u32] keys.  The
    instances at the end show that the laws can be met. *)

From S2P Require Import Prelude.

(** ** Hash maps with [u32] keys *)

Class KernelMap (M : Type -> Type) := {
  kget : forall {V}, M V -> Z -> option V;
  (** [insert(key, value, 0)]: the new map and whether it succeeded *)
  kinsert : forall {V}, M V -> Z -> V -> M V * bool;
  kremove : forall {V}, M V -> Z -> M V * bool
}.

Class KernelMapLaws (M : Type -> Type) `{KernelMap M} := {
  kinsert_ok : forall {V} (m m' : M V) k v,
    kinsert m k v = (m', true) ->
    kget m' k = Some v /\ (forall k', k' <> k -> kget m' k' = kget m k');
  kinsert_err : forall {V} (m m' : M V) k v,
    kinsert m k v = (m', false) -> forall k', kget m' k' = kget m k';
  (** an update of a key that is present never needs a new element *)
  kinsert_present : forall {V} (m : M V) k v,
    is_Some (kget m k) -> (kinsert m k v).2 = true;
  kremove_present : forall {V} (m : M V) k, is_Some (kget m k) -> (kremove m k).2 = true;
  kremove_ok : forall {V} (m m' : M V) k,
    kremove m k = (m', true) ->
    kget m' k = None /\ (forall k', k' <> k -> kget m' k' = kget m k');
  kremove_err : forall {V} (m m' : M V) k,
    kremove m k = (m', false) -> forall k', kget m' k' = kget m k';
  (** how many new keys the map still takes ([max_entries] less the elements) *)
  kroom : forall {V}, M V -> nat;
  kinsert_room : forall {V} (m : M V) k v, (0 < kroom m)%nat -> (kinsert m k v).2 = true;
  kinsert_kroom : forall {V} (m : M V) k v, (kroom m <= S (kroom (kinsert m k v).1))%nat;
  kremove_kroom : forall {V} (m : M V) k, (kroom m <= kroom (kremove m k).1)%nat
}.

(** ** The ring buffer *)

Class KernelRing (R : Type) := {
  (** [reserve], write the record, [submit]: [None] when the reservation fails *)
  rb_submit : R -> list byte -> option R;
  (** [next()]: the oldest record, if any *)
  rb_next : R -> option (list byte * R)
}.

(** The records waiting in the buffer, oldest first. *)
Class KernelRingLaws (R : Type) `{KernelRing R} := {
  rb_contents : R -> list (list byte);
  rb_submit_contents : forall r d r', rb_submit r d = Some r' ->
    rb_contents r' = rb_contents r ++ [d];
  rb_next_contents : forall r, match rb_next r with
    | Some (d, r') => rb_contents r = d :: rb_contents r'
    | None => rb_contents r = []
    end
}.

(** ** The socket buffer a TC program sees *)

Class TcContext (P : Type) := {
  (** [bpf_skb_load_bytes] of [n] bytes at an offset *)
  tc_load : P -> nat -> nat -> option (list byte);
  (** [ctx.len()] *)
  tc_len : P -> Z;
  (** [data_end - data], the linear part *)
  tc_linear : P -> Z;
  (** a write through [data] at an offset *)
  tc_write : P -> nat -> list byte -> P
}.

(** What the bytes of a frame are, and what the operations do to them. *)
Class TcContextLaws (P : Type) `{TcContext P} := {
  tc_bytes : P -> list byte;
  tc_len_bytes : forall p, tc_len p = Z.of_nat (length (tc_bytes p));
  tc_load_bytes : forall p off n, (off + n <= length (tc_bytes p))%nat ->
    tc_load p off n = Some (take n (drop off (tc_bytes p)));
  tc_load_err : forall p off n, (length (tc_bytes p) < off + n)%nat ->
    tc_load p off n = None;
  tc_write_bytes : forall p off bs, Z.of_nat (off + length bs) <= tc_linear p ->
    tc_bytes (tc_write p off bs) =
    take off (tc_bytes p) ++ bs ++ drop (off + length bs) (tc_bytes p)
}.

(** ** Instances *)

(** A hash map of at most [bm_max] elements: inserting a new key into a full
    map fails ([E2BIG]), removing an absent key fails ([ENOENT]). *)
Record bmap (V : Type) := mkBmap { bm_max : nat; bm_map : gmap Z V }.
Arguments mkBmap {V}.
Arguments bm_max {V}.
Arguments bm_map {V}.

Definition bmap_insert {V} (m : bmap V) (k : Z) (v : V) : bmap V * bool :=
  if (bool_decide (is_Some (bm_map m !! k)) || Nat.ltb (size (bm_map m)) (bm_max m))%bool
  then (mkBmap (bm_max m) (<[k := v]> (bm_map m)), true)
  else (m, false).

Definition bmap_remove {V} (m : bmap V) (k : Z) : bmap V * bool :=
  match bm_map m !! k with
  | Some _ => (mkBmap (bm_max m) (delete k (bm_map m)), true)
  | None => (m, false)
  end.

#[export] Instance bmap_KernelMap : KernelMap bmap := {
  kget V m k := bm_map m !! k;
  kinsert V := bmap_insert;
  kremove V := bmap_remove
}.

#[export, refine] Instance bmap_KernelMapLaws : KernelMapLaws bmap := {
  kroom V m := (bm_max m - size (bm_map m))%nat
}.
Proof.
  all: intros V m; cbn.
  - intros m' k v E. unfold bmap_insert in E. case_hyp E.
    split; [apply lookup_insert_eq|]. intros. by apply lookup_insert_ne.
  - intros m' k v E k'. unfold bmap_insert in E. by case_hyp E.
  - intros k v Hk. unfold bmap_insert. by rewrite bool_decide_eq_true_2.
  - intros k [v Hv]. unfold bmap_remove. by rewrite Hv.
  - intros m' k E. unfold bmap_remove in E. case_hyp E.
    split; [apply lookup_delete_eq|]. intros. by apply lookup_delete_ne.
  - intros m' k E k'. unfold bmap_remove in E. by case_hyp E.
  - intros k v Hr. unfold bmap_insert. rewrite orb_comm.
    destruct (Nat.ltb _ _) eqn:E; bool_to_prop; [done|lia].
  - intros k v. unfold bmap_insert. destruct (_ || _)%bool; cbn; [|lia].
    rewrite map_size_insert. destruct (bm_map m !! k); cbn; lia.
  - intros k. unfold bmap_remove. destruct (bm_map m !! k) eqn:E; cbn; [|lia].
    rewrite map_size_delete, E. cbn. lia.
Defined.

(** A queue of at most [q_max] records. *)
Record ring := mkRing { q_max : nat; q_recs : list (list byte) }.

#[export] Instance ring_KernelRing : KernelRing ring := {
  rb_submit r d :=
    if Nat.ltb (length (q_recs r)) (q_max r)
    then Some (mkRing (q_max r) (q_recs r ++ [d])) else None;
  rb_next r :=
    match q_recs r with [] => None | d :: ds => Some (d, mkRing (q_max r) ds) end
}.

#[export, refine] Instance ring_KernelRingLaws : KernelRingLaws ring := { rb_contents := q_recs }.
Proof.
  - intros r d r' E. cbn in E. by case_match; simplify_eq.
  - intros r. cbn. by destruct (q_recs r) as [|? ?].
Defined.

(** A frame whose data is entirely linear. *)
#[export] Instance frame_TcContext : TcContext (list byte) := {
  tc_load p off n :=
    if Nat.leb (off + n) (length p) then Some (take n (drop off p)) else None;
  tc_len p := Z.of_nat (length p);
  tc_linear p := Z.of_nat (length p);
  tc_write p off bs := take off p ++ bs ++ drop (off + length bs) p
}.

#[export, refine] Instance frame_TcContextLaws : TcContextLaws (list byte) := {
  tc_bytes p := p
}.
Proof.
  - done.
  - intros p off n Hl. cbn. apply Nat.leb_le in Hl. by rewrite Hl.
  - intros p off n Hl. cbn. destruct (Nat.leb _ _) eqn:E; bool_to_prop; [lia|done].
  - done.
Defined.
