(* ===== verification/Ebpf.v ===== *)
(** * The eBPF data plane ([ebpf/src/main.rs])

    The four programs over the kernel interfaces of [Kernel]: the egress
    classifier [egress_p2p_mesh], the ingress firewall [tc_ingress_firewall],
    the connect balancer [vip_load_balance] and [xdp_pass].  The target is
    [bpfel-unknown-none] (see [build_ebpf] in xtask), so a multi-byte load is
    little-endian.  Return codes and map values are as in the source. *)

From S2P Require Import Prelude Common Kernel NetAddr.

Definition TC_ACT_PIPE : Z := 2.
Definition TC_ACT_SHOT : Z := 3.
Definition XDP_PASS : Z := 2.
(** [-EFAULT], the error of a load outside the packet *)
Definition EFAULT : Z := -14.

(** The pinned maps and the ring buffer. *)
Record BpfState (M : Type -> Type) (R : Type) := mkBpfState {
  CONTAINER_ROUTE_MAP : M Z;
  NODE_DYNAMIC_MAP : M PeerEndpoint;
  ROUTE_MISS_RINGBUF : R;
  GENEVE_IFINDEX_MAP : M Z;
  TUNNEL_CFG_MAP : M TunnelCfg;
  VIP_MAP : M VipInfo;
  ACL_MAP : M AclRule;
  DEFAULT_POLICY : M Z
}.
Arguments mkBpfState {M R}.
Arguments CONTAINER_ROUTE_MAP {M R}.
Arguments NODE_DYNAMIC_MAP {M R}.
Arguments ROUTE_MISS_RINGBUF {M R}.
Arguments GENEVE_IFINDEX_MAP {M R}.
Arguments TUNNEL_CFG_MAP {M R}.
Arguments VIP_MAP {M R}.
Arguments ACL_MAP {M R}.
Arguments DEFAULT_POLICY {M R}.

Definition set_ringbuf {M R} (s : BpfState M R) (r : R) : BpfState M R :=
  mkBpfState (CONTAINER_ROUTE_MAP s) (NODE_DYNAMIC_MAP s) r (GENEVE_IFINDEX_MAP s)
    (TUNNEL_CFG_MAP s) (VIP_MAP s) (ACL_MAP s) (DEFAULT_POLICY s).

Definition set_vip_map {M R} (s : BpfState M R) (v : M VipInfo) : BpfState M R :=
  mkBpfState (CONTAINER_ROUTE_MAP s) (NODE_DYNAMIC_MAP s) (ROUTE_MISS_RINGBUF s)
    (GENEVE_IFINDEX_MAP s) (TUNNEL_CFG_MAP s) v (ACL_MAP s) (DEFAULT_POLICY s).

(** The socket address a [cgroup/connect4] program may rewrite. *)
Record SockAddr := mkSockAddr { user_ip : Z; user_port : Z }.

(** [u16::from_be] on a little-endian machine swaps the two bytes. *)
Definition u16_from_be (n : Z) : Z := from_be_bytes (to_le_bytes 2 n).

Section Programs.
Context {M : Type -> Type} {R P : Type}.
Context `{KernelMap M, KernelRing R, TcContext P}.

(** [ctx.load::<T>(off)] for a [T] of [n] bytes *)
Definition load (p : P) (n off : nat) : outcome Z Z :=
  match tc_load p off n with
  | Some bs => Ok (from_le_bytes bs)
  | None => Err EFAULT
  end.

(** [bpf_redirect] is the kernel's: its return code is a parameter. *)
Definition try_egress (bpf_redirect : Z -> Z -> Z) (s : BpfState M R) (p : P)
    : outcome Z (Z * BpfState M R * P) :=
  proto ← load p 2 12;
  if negb (proto =? 0x0800) then Ok (TC_ACT_PIPE, s, p)
  else if tc_len p <? 42 then Ok (TC_ACT_PIPE, s, p)
  else
    dest_ip ← load p 4 16;
    geneve_ifindex ← ok_or (kget (GENEVE_IFINDEX_MAP s) 0) 0;
    if geneve_ifindex =? 0 then Ok (TC_ACT_PIPE, s, p)
    else
      match kget (NODE_DYNAMIC_MAP s) dest_ip with
      | None =>
          match rb_submit (ROUTE_MISS_RINGBUF s) (to_le_bytes 4 dest_ip) with
          | Some r => Ok (TC_ACT_PIPE, set_ringbuf s r, p)
          | None => Ok (TC_ACT_PIPE, s, p)
          end
      | Some node_endpoint =>
          if tc_linear p <? 42 then Ok (TC_ACT_PIPE, s, p)
          else
            let p := tc_write p 16 (to_le_bytes 4 (pe_public_ip node_endpoint)) in
            let ret := bpf_redirect geneve_ifindex 0 in
            if 0 <=? ret then Ok (ret, s, p) else Ok (TC_ACT_PIPE, s, p)
      end.

Definition egress_p2p_mesh (bpf_redirect : Z -> Z -> Z) (s : BpfState M R) (p : P)
    : outcome Z (Z * BpfState M R * P) :=
  match try_egress bpf_redirect s p with
  | Ok r => Ok r
  | Err _ => Ok (TC_ACT_PIPE, s, p)
  | Panic => Panic
  end.

Definition try_firewall (s : BpfState M R) (p : P) : outcome Z Z :=
  proto ← load p 2 12;
  if negb (proto =? 0x0800) then Ok TC_ACT_PIPE
  else if tc_len p <? 42 then Ok TC_ACT_PIPE
  else
    src_ip ← load p 4 26;
    _ ← load p 2 23;
    let default := match kget (DEFAULT_POLICY s) 0 with Some d => d | None => 1 end in
    match kget (ACL_MAP s) src_ip with
    | Some rule => if acl_action rule =? 2 then Ok TC_ACT_SHOT else Ok TC_ACT_PIPE
    | None => if default =? 2 then Ok TC_ACT_SHOT else Ok TC_ACT_PIPE
    end.

Definition tc_ingress_firewall (s : BpfState M R) (p : P) : Z :=
  match try_firewall s p with Ok ret => ret | _ => TC_ACT_PIPE end.

(** The map entry after a connection picked index [idx]. *)
Definition with_next_idx (v : VipInfo) (n : Z) : VipInfo :=
  mkVipInfo (vi_backends v) (vi_count v) n (vi_pad v).

Definition try_vip (s : BpfState M R) (c : SockAddr)
    : outcome Z (Z * BpfState M R * SockAddr) :=
  match kget (VIP_MAP s) (user_ip c) with
  | Some vip_info =>
      if 0 <? vi_count vip_info then
        let idx := vi_next_idx vip_info mod vi_count vip_info in
        backend ← Prelude.idx (vi_backends vip_info) (Z.to_nat idx);
        let c' := mkSockAddr (vb_ip backend) (u16_from_be (vb_port backend)) in
        let next := wrap8 ((idx + 1) mod vi_count vip_info) in
        if negb (next =? vi_next_idx vip_info) then
          let '(m, _) := kinsert (VIP_MAP s) (user_ip c) (with_next_idx vip_info next) in
          Ok (0, set_vip_map s m, c')
        else Ok (0, s, c')
      else Ok (0, s, c)
  | None => Ok (0, s, c)
  end.

Definition vip_load_balance (s : BpfState M R) (c : SockAddr)
    : outcome Z (Z * BpfState M R * SockAddr) :=
  match try_vip s c with
  | Ok r => Ok r
  | Err _ => Ok (0, s, c)
  | Panic => Panic
  end.

Definition xdp_pass (p : P) : Z := XDP_PASS.

(** [n] connections to the same address, one after the other: the verdict
    on each and where it was sent, and the maps afterwards. *)
Fixpoint connects (n : nat) (s : BpfState M R) (c : SockAddr)
    : outcome Z (list (Z * SockAddr) * BpfState M R) :=
  match n with
  | O => Ok ([], s)
  | S n' =>
      '(verdict, s, c') ← vip_load_balance s c;
      '(cs, s) ← connects n' s c;
      Ok ((verdict, c') :: cs, s)
  end.

End Programs.

(** An entry the balancer can use: at least one backend counted, no more
    than the array holds, the index a byte. *)
Definition vip_ok (v : VipInfo) : Prop :=
  length (vi_backends v) = 16%nat /\ 1 <= vi_count v <= 16 /\ 0 <= vi_next_idx v <= u8_max.

(** Where backend [i] sends a connection. *)
Definition backend_addr (v : VipInfo) (i : nat) : option SockAddr :=
  b ← vi_backends v !! i; Some (mkSockAddr (vb_ip b) (u16_from_be (vb_port b))).

(** ** The firewall's policy, as the README states it: an ACL entry for the
    source decides, and without one the default policy does. *)

Definition policy_denies {M R} `{KernelMap M} (s : BpfState M R) (src : Z) : bool :=
  match kget (ACL_MAP s) src with
  | Some rule => acl_action rule =? 2
  | None => match kget (DEFAULT_POLICY s) 0 with Some d => d =? 2 | None => false end
  end.

(** The bytes of the EtherType field. *)
Definition ethertype (bs : list byte) : list byte := take 2 (drop 12 bs).

Section FirewallFacts.
Context {M : Type -> Type} {R P : Type}.
Context `{KernelMap M, KernelRing R, TcContextLaws P}.

Lemma load_in_range (p : P) (n off : nat) :
  (off + n <= length (tc_bytes p))%nat ->
  load p n off = Ok (from_le_bytes (take n (drop off (tc_bytes p)))).
Proof. intros Hl. unfold load. by rewrite tc_load_bytes. Qed.

Lemma load_out_of_range (p : P) (n off : nat) :
  (length (tc_bytes p) < off + n)%nat -> load p n off = Err EFAULT.
Proof. intros Hl. unfold load. by rewrite tc_load_err. Qed.

(** A little-endian load of the EtherType gives 0x0800 exactly on the bytes
    00 08, never on the wire form 08 00 of IPv4. *)
Lemma ethertype_0800 (bs : list byte) :
  (14 <= length bs)%nat ->
  (from_le_bytes (ethertype bs) =? 0x0800) = bool_decide (ethertype bs = [x00; x08]).
Proof.
  intros Hl.
  assert (length (ethertype bs) = 2%nat) as Hlen.
  { unfold ethertype. rewrite length_take, length_drop. lia. }
  apply eq_true_iff_eq. rewrite Z.eqb_eq, bool_decide_eq_true. split; [|by intros ->].
  intros E. rewrite <- (to_from_le_bytes (ethertype bs)), Hlen, E. reflexivity.
Qed.

Lemma try_firewall_total (s : BpfState M R) (p : P) :
  tc_ingress_firewall s p =
  if (Nat.leb 42 (length (tc_bytes p))
      && bool_decide (ethertype (tc_bytes p) = [x00; x08])
      && policy_denies s (from_le_bytes (take 4 (drop 26 (tc_bytes p)))))%bool
  then TC_ACT_SHOT else TC_ACT_PIPE.
Proof.
  unfold tc_ingress_firewall, try_firewall.
  destruct (decide (14 <= length (tc_bytes p))%nat) as [Hl|Hl].
  - rewrite (load_in_range p 2 12) by lia. cbn [mbind outcome_bind].
    change (take 2 (drop 12 (tc_bytes p))) with (ethertype (tc_bytes p)).
    rewrite ethertype_0800, tc_len_bytes by done.
    destruct (bool_decide _); cbn [negb]; [|by rewrite andb_false_r].
    destruct (Z.of_nat _ <? 42) eqn:E1, (Nat.leb 42 _) eqn:E2; bool_to_prop; try lia; [done|].
    rewrite !load_in_range by lia. cbn [mbind outcome_bind andb].
    unfold policy_denies. destruct (kget (ACL_MAP s) _) as [r|].
    { by destruct (acl_action r =? 2). }
    destruct (kget (DEFAULT_POLICY s) 0) as [d|]; [by destruct (d =? 2)|done].
  - rewrite (load_out_of_range p 2 12) by lia. cbn [mbind outcome_bind].
    destruct (Nat.leb 42 _) eqn:E2; bool_to_prop; [lia|done].
Qed.
End FirewallFacts.

Section VipFacts.
Context {M : Type -> Type} {R : Type}.
Context `{KernelMapLaws M, KernelRing R}.

Lemma with_next_idx_id (v : VipInfo) : with_next_idx v (vi_next_idx v) = v.
Proof. by destruct v. Qed.

Lemma vip_ok_next (v : VipInfo) (n : Z) :
  vip_ok v -> 0 <= n < vi_count v -> vip_ok (with_next_idx v n).
Proof. unfold vip_ok, u8_max. intros (? & ? & ?) ?. cbn. lia. Qed.

(** One connection to a usable entry: no panic, the verdict is 0, it goes to
    the backend at [next_idx mod count], and [next_idx] moves one on. *)
Lemma vip_pick (s : BpfState M R) (c : SockAddr) (v : VipInfo) :
  kget (VIP_MAP s) (user_ip c) = Some v -> vip_ok v ->
  exists s' c',
    vip_load_balance s c = Ok (0, s', c') /\
    backend_addr v (Z.to_nat (vi_next_idx v mod vi_count v)) = Some c' /\
    kget (VIP_MAP s') (user_ip c) =
      Some (with_next_idx v ((vi_next_idx v + 1) mod vi_count v)) /\
    (forall k, k <> user_ip c -> kget (VIP_MAP s') k = kget (VIP_MAP s) k).
Proof.
  intros Hv (Hlen & Hc & Hn). unfold vip_load_balance, try_vip. rewrite Hv.
  destruct (0 <? vi_count v) eqn:E; bool_to_prop; [|lia]. cbv zeta.
  pose proof (Z.mod_pos_bound (vi_next_idx v) (vi_count v) ltac:(lia)) as Hi.
  destruct (idx_ok (E:=Z) (vi_backends v) (Z.to_nat (vi_next_idx v mod vi_count v)))
    as (b & Hb & Hb'); [lia|]. rewrite Hb. cbn [mbind outcome_bind].
  unfold backend_addr. rewrite Hb'. cbn [mbind option_bind].
  unfold wrap8. rewrite (Z.mod_small _ (2 ^ 8)), Z.add_mod_idemp_l
    by (try lia; pose proof (Z.mod_pos_bound (vi_next_idx v mod vi_count v + 1)
          (vi_count v) ltac:(lia)); lia).
  destruct (_ =? _) eqn:En; bool_to_prop; cbn [negb].
  - rewrite En, with_next_idx_id. eauto 10.
  - destruct (kinsert _ _ _) as [m okb] eqn:Ei.
    pose proof (kinsert_present (VIP_MAP s) (user_ip c)
                  (with_next_idx v ((vi_next_idx v + 1) mod vi_count v))
                  ltac:(rewrite Hv; eauto)) as Hok.
    rewrite Ei in Hok. cbn in Hok. subst okb.
    apply kinsert_ok in Ei as [? ?]. eauto 10.
Qed.

(** [n] successive connections see the backends in rotation. *)
Lemma connects_lookup (n : nat) (s : BpfState M R) (c : SockAddr) (v : VipInfo) :
  kget (VIP_MAP s) (user_ip c) = Some v -> vip_ok v ->
  exists cs s', connects n s c = Ok (cs, s') /\ length cs = n /\
    forall j, (j < n)%nat ->
      cs !! j = pair 0 <$> backend_addr v (Z.to_nat ((vi_next_idx v + Z.of_nat j) mod vi_count v)).
Proof.
  revert s v; induction n as [|n IH]; intros s v Hv Hok.
  { eexists [], s. split_and!; [done|done|]. lia. }
  destruct (vip_pick s c v Hv Hok) as (s1 & c1 & Hp & Hb & Hv1 & _).
  pose proof Hok as (_ & Hc & Hn).
  pose proof (Z.mod_pos_bound (vi_next_idx v + 1) (vi_count v) ltac:(lia)) as Hm.
  destruct (IH _ _ Hv1) as (cs & s' & Hr & Hl & Hj); [by apply vip_ok_next|].
  exists ((0, c1) :: cs), s'. cbn [connects]. rewrite Hp. cbn [mbind outcome_bind].
  rewrite Hr. cbn [mbind outcome_bind]. split_and!; [done|simpl; lia|].
  intros [|j] Hjn; simpl.
  - by rewrite Z.add_0_r, Hb.
  - rewrite Hj by lia. cbn [vi_next_idx vi_count with_next_idx].
    rewrite Z.add_mod_idemp_l by lia. unfold backend_addr. cbn [vi_backends with_next_idx].
    by replace (vi_next_idx v + 1 + Z.of_nat j) with (vi_next_idx v + Z.of_nat (S j)) by lia.
Qed.
End VipFacts.

Section EgressFacts.
Context {M : Type -> Type} {R P : Type}.
Context `{KernelMap M, KernelRing R, TcContextLaws P}.

(** The four bytes the egress program takes for the destination address. *)
Definition egress_dest (p : P) : Z := from_le_bytes (take 4 (drop 16 (tc_bytes p))).

(** The frames the program looks at: 42 bytes and the EtherType bytes 00 08. *)
Definition egress_selects (p : P) : bool :=
  Nat.leb 42 (length (tc_bytes p)) && bool_decide (ethertype (tc_bytes p) = [x00; x08]).

(** The whole program as one equation over the frame's bytes. *)
Lemma egress_total (redirect : Z -> Z -> Z) (s : BpfState M R) (p : P) :
  egress_p2p_mesh redirect s p =
  if egress_selects p then
    match kget (GENEVE_IFINDEX_MAP s) 0 with
    | None => Ok (TC_ACT_PIPE, s, p)
    | Some ifi =>
        if ifi =? 0 then Ok (TC_ACT_PIPE, s, p)
        else match kget (NODE_DYNAMIC_MAP s) (egress_dest p) with
             | None =>
                 Ok (TC_ACT_PIPE,
                     match rb_submit (ROUTE_MISS_RINGBUF s) (to_le_bytes 4 (egress_dest p)) with
                     | Some r => set_ringbuf s r | None => s end, p)
             | Some ep =>
                 if tc_linear p <? 42 then Ok (TC_ACT_PIPE, s, p)
                 else Ok (if 0 <=? redirect ifi 0 then redirect ifi 0 else TC_ACT_PIPE, s,
                          tc_write p 16 (to_le_bytes 4 (pe_public_ip ep)))
             end
    end
  else Ok (TC_ACT_PIPE, s, p).
Proof.
  unfold egress_p2p_mesh, try_egress, egress_selects.
  destruct (decide (14 <= length (tc_bytes p))%nat) as [Hl|Hl].
  - rewrite (load_in_range p 2 12) by lia. cbn [mbind outcome_bind].
    change (take 2 (drop 12 (tc_bytes p))) with (ethertype (tc_bytes p)).
    rewrite ethertype_0800, tc_len_bytes by done.
    destruct (bool_decide _); cbn [negb]; [|by rewrite andb_false_r].
    destruct (Z.of_nat _ <? 42) eqn:E1, (Nat.leb 42 _) eqn:E2; bool_to_prop; try lia; [done|].
    rewrite (load_in_range p 4 16) by lia. cbn [mbind outcome_bind andb].
    fold (egress_dest p).
    destruct (kget (GENEVE_IFINDEX_MAP s) 0) as [ifi|]; cbn [mbind outcome_bind ok_or]; [|done].
    destruct (ifi =? 0); [done|].
    destruct (kget (NODE_DYNAMIC_MAP s) _) as [ep|].
    + destruct (tc_linear p <? 42); [done|]. by destruct (0 <=? redirect ifi 0).
    + by destruct (rb_submit _ _).
  - rewrite (load_out_of_range p 2 12) by lia. cbn [mbind outcome_bind].
    destruct (Nat.leb 42 _) eqn:E2; bool_to_prop; [lia|done].
Qed.
End EgressFacts.

(** ** Properties *)

(** C19: the ingress firewall is total and drops a frame exactly when it has
    at least 42 bytes, its EtherType bytes are 00 08, and the policy (the ACL
    entry of the four bytes at offset 26, else the default) denies it. *)
Theorem firewall_verdict {M R P} `{KernelMap M, KernelRing R, TcContextLaws P}
    (s : BpfState M R) (p : P) :
  (tc_ingress_firewall s p = TC_ACT_SHOT \/ tc_ingress_firewall s p = TC_ACT_PIPE) /\
  (tc_ingress_firewall s p = TC_ACT_SHOT <->
   (42 <= length (tc_bytes p))%nat /\ ethertype (tc_bytes p) = [x00; x08] /\
   policy_denies s (from_le_bytes (take 4 (drop 26 (tc_bytes p)))) = true).
Proof.
  rewrite try_firewall_total.
  destruct (Nat.leb 42 _) eqn:El, (bool_decide _) eqn:Ee, (policy_denies _ _) eqn:Ep;
    cbn [andb]; apply bool_decide_eq_true in Ee || apply bool_decide_eq_false in Ee;
    bool_to_prop; (split; [by auto|]); (split; [by try done|intros (? & ? & ?)]);
    try done; lia.
Qed.

(** A frame of 42 bytes with the EtherType bytes [a] [b]. *)
Definition demo_frame (a b : byte) : list byte := replicate 12 x00 ++ [a; b] ++ replicate 28 x00.

(** Maps in which the default policy denies and nothing else is set. *)
Definition demo_state (policy : Z) (vips : gmap Z VipInfo) : BpfState bmap ring :=
  mkBpfState (mkBmap 64 ∅) (mkBmap 64 ∅) (mkRing 16 []) (mkBmap 1 {[0 := 7]})
    (mkBmap 1 ∅) (mkBmap 64 vips) (mkBmap 64 ∅) (mkBmap 1 {[0 := policy]}).

Lemma firewall_verdict_witness :
  tc_ingress_firewall (demo_state 2 ∅) (demo_frame x00 x08) = TC_ACT_SHOT.
Proof.
  apply (proj2 (firewall_verdict (demo_state 2 ∅) (demo_frame x00 x08))).
  vm_compute. split_and!; [lia|done|done].
Defined.

(** C39: on the little-endian target the EtherType test never matches an IPv4
    frame (wire bytes 08 00): the firewall passes it and the egress program
    leaves it alone, whatever the maps hold. *)
Theorem ipv4_frames_not_selected {M R P} `{KernelMap M, KernelRing R, TcContextLaws P}
    (s : BpfState M R) (p : P) (redirect : Z -> Z -> Z) :
  ethertype (tc_bytes p) = [x08; x00] ->
  tc_ingress_firewall s p = TC_ACT_PIPE /\
  egress_p2p_mesh redirect s p = Ok (TC_ACT_PIPE, s, p).
Proof.
  intros E. rewrite try_firewall_total, egress_total. unfold egress_selects.
  by rewrite E, !andb_false_r.
Qed.

Lemma ipv4_frames_not_selected_witness :
  tc_ingress_firewall (demo_state 2 ∅) (demo_frame x08 x00) = TC_ACT_PIPE /\
  egress_p2p_mesh (fun _ _ => 7) (demo_state 2 ∅) (demo_frame x08 x00)
  = Ok (TC_ACT_PIPE, demo_state 2 ∅, demo_frame x08 x00).
Proof. apply ipv4_frames_not_selected. reflexivity. Defined.

(** C20: a selected frame to a known address is redirected: its result code is
    that of [bpf_redirect] on the tunnel interface (or to pass it on, when
    that is negative), the four bytes at offset 16 are replaced by the peer's
    address, every other byte and the length are kept, and the maps are left
    as they were. *)
Theorem egress_redirects {M R P} `{KernelMap M, KernelRing R, TcContextLaws P}
    (s : BpfState M R) (p : P) (redirect : Z -> Z -> Z) (ifi : Z) (ep : PeerEndpoint) :
  egress_selects p = true ->
  kget (GENEVE_IFINDEX_MAP s) 0 = Some ifi -> ifi <> 0 ->
  kget (NODE_DYNAMIC_MAP s) (egress_dest p) = Some ep -> 42 <= tc_linear p ->
  exists p', egress_p2p_mesh redirect s p
    = Ok (if redirect ifi 0 <? 0 then TC_ACT_PIPE else redirect ifi 0, s, p') /\
  take 4 (drop 16 (tc_bytes p')) = to_le_bytes 4 (pe_public_ip ep) /\
  take 16 (tc_bytes p') = take 16 (tc_bytes p) /\
  drop 20 (tc_bytes p') = drop 20 (tc_bytes p) /\
  length (tc_bytes p') = length (tc_bytes p).
Proof.
  intros Hsel Hg Hifi Hep Hlin. rewrite egress_total, Hsel, Hg, Hep.
  destruct (ifi =? 0) eqn:E0; bool_to_prop; [done|].
  destruct (tc_linear p <? 42) eqn:E1; bool_to_prop; [lia|].
  eexists. split; [rewrite Z.leb_antisym; by destruct (redirect ifi 0 <? 0)|].
  unfold egress_selects in Hsel. bool_to_prop.
  rewrite tc_write_bytes by (rewrite length_to_le_bytes; lia).
  rewrite length_to_le_bytes.
  assert (length (take 16 (tc_bytes p)) = 16%nat) as H16 by (rewrite length_take; lia).
  split_and!.
  - rewrite drop_app_length' by done. by rewrite take_app_length'.
  - by rewrite take_app_length'.
  - rewrite app_assoc, drop_app_length'; [done|]. by rewrite length_app, H16.
  - rewrite !length_app, H16, length_drop, length_to_le_bytes. lia.
Qed.

Definition demo_peer_state : BpfState bmap ring :=
  mkBpfState (mkBmap 64 ∅) (mkBmap 64 {[0 := mkPeerEndpoint 0x04030201 9527 1 0]})
    (mkRing 16 []) (mkBmap 1 {[0 := 7]}) (mkBmap 1 ∅) (mkBmap 64 ∅) (mkBmap 64 ∅)
    (mkBmap 1 ∅).

Lemma egress_redirects_witness :
  exists p', egress_p2p_mesh (fun _ _ => 7) demo_peer_state (demo_frame x00 x08)
             = Ok (7, demo_peer_state, p') /\
    take 4 (drop 16 p') = [x01; x02; x03; x04] /\ length p' = 42%nat.
Proof.
  destruct (egress_redirects demo_peer_state (demo_frame x00 x08) (fun _ _ => 7) 7
    (mkPeerEndpoint 0x04030201 9527 1 0)) as (p' & E & Hd & _ & _ & Hl); try reflexivity; try done.
  exists p'. split_and!; [exact E|exact Hd|exact Hl].
Defined.

(** A selected frame to an address with no endpoint is passed on
    unchanged and its address is queued, in host byte order, on the ring
    buffer unless the reservation fails. *)
Theorem egress_reports_miss {M R P} `{KernelMap M, KernelRing R, TcContextLaws P}
    (s : BpfState M R) (p : P) (redirect : Z -> Z -> Z) (ifi : Z) (r : R) :
  egress_selects p = true ->
  kget (GENEVE_IFINDEX_MAP s) 0 = Some ifi -> ifi <> 0 ->
  kget (NODE_DYNAMIC_MAP s) (egress_dest p) = None ->
  rb_submit (ROUTE_MISS_RINGBUF s) (to_le_bytes 4 (egress_dest p)) = Some r ->
  egress_p2p_mesh redirect s p = Ok (TC_ACT_PIPE, set_ringbuf s r, p).
Proof.
  intros Hsel Hg Hifi Hep Hr. rewrite egress_total, Hsel, Hg, Hep, Hr.
  destruct (ifi =? 0) eqn:E0; bool_to_prop; done.
Qed.

Lemma egress_reports_miss_witness :
  egress_p2p_mesh (fun _ _ => 7) (demo_state 1 ∅) (demo_frame x00 x08)
  = Ok (TC_ACT_PIPE, set_ringbuf (demo_state 1 ∅) (mkRing 16 [replicate 4 x00]),
        demo_frame x00 x08).
Proof. apply (egress_reports_miss _ _ _ 7); done. Defined.

(** C18: [count] successive connections to a VIP visit every counted backend
    exactly once, in rotation from [next_idx], and none panics; the verdict
    on every one of them is 0. *)
Theorem vip_round_robin {M R} `{KernelMapLaws M, KernelRing R}
    (s : BpfState M R) (c : SockAddr) (v : VipInfo) :
  kget (VIP_MAP s) (user_ip c) = Some v -> vip_ok v ->
  exists cs s',
    connects (Z.to_nat (vi_count v)) s c = Ok (cs, s') /\
    Some <$> cs.*2 = rotate (Z.to_nat (vi_next_idx v))
                       (backend_addr v <$> seq 0 (Z.to_nat (vi_count v))) /\
    Some <$> cs.*2 ≡ₚ backend_addr v <$> seq 0 (Z.to_nat (vi_count v)) /\
    Forall (fun vc => vc.1 = 0) cs.
Proof.
  intros Hv Hok. destruct (connects_lookup (Z.to_nat (vi_count v)) s c v Hv Hok)
    as (cs & s' & Hr & Hl & Hj).
  destruct Hok as (Hlen & Hc & Hn). exists cs, s'. split; [done|].
  assert (Some <$> cs.*2 = rotate (Z.to_nat (vi_next_idx v))
            (backend_addr v <$> seq 0 (Z.to_nat (vi_count v)))) as Heq.
  { apply list_eq_same_length with (Z.to_nat (vi_count v)).
    - by rewrite length_rotate, length_fmap, length_seq.
    - by rewrite !length_fmap.
    - intros j x y Hjn. rewrite !list_lookup_fmap, Hj by done.
      rewrite lookup_rotate_r by (by rewrite length_fmap, length_seq).
      rewrite length_fmap, length_seq, list_lookup_fmap. unfold rotate_nat_add.
      rewrite !Z2Nat.id by lia.
      pose proof (Z.mod_pos_bound (vi_next_idx v + Z.of_nat j) (vi_count v) ltac:(lia)).
      rewrite lookup_seq_lt by lia. cbn [fmap option_fmap option_map]. rewrite Nat.add_0_l.
      intros Ex Ey. destruct (backend_addr v _); simpl in *; congruence. }
  split_and!; [done| |].
  - rewrite Heq. unfold rotate. rewrite Permutation_app_comm. by rewrite take_drop.
  - apply Forall_lookup. intros j vc Hjc. assert (j < Z.to_nat (vi_count v))%nat as Hlt.
    { rewrite <- Hl. by eapply lookup_lt_Some. }
    rewrite (Hj j Hlt) in Hjc. by destruct (backend_addr v _); simplify_eq/=.
Qed.

(** An entry with two backends, the second being next. *)
Definition demo_vip : VipInfo :=
  mkVipInfo ([mkVipBackend 11 0 1 0; mkVipBackend 22 0 1 0] ++ replicate 14 VipBackend_default)
    2 1 (0, 0).

Lemma vip_round_robin_witness :
  exists cs s', connects 2 (demo_state 1 {[5 := demo_vip]}) (mkSockAddr 5 80) = Ok (cs, s') /\
    Some <$> cs.*2 ≡ₚ [Some (mkSockAddr 11 0); Some (mkSockAddr 22 0)].
Proof.
  destruct (vip_round_robin (demo_state 1 {[5 := demo_vip]}) (mkSockAddr 5 80) demo_vip)
    as (cs & s' & Hc & _ & Hp & _); [reflexivity|vm_compute; split_and!; done|].
  exists cs, s'. split; [exact Hc|exact Hp].
Defined.
