(* ===== verification/BpfMgr.v ===== *)
(** * The agent's handle on the BPF objects ([agent/src/bpf.rs])

    [BpfManager] with its maps, loading, and the operations on them.  What
    aya gives for an object file (the maps and programs it finds, whether an
    attachment succeeds) is a record of the environment; the maps obey
    [Kernel]'s interface.  [RouteStore] is the interface the container
    manager uses. *)

From S2P Require Import Prelude RustStr Common Kernel.

(** ** State *)

Record BpfMaps (M : Type -> Type) := mkBpfMaps {
  container_route : option (M Z);
  node_dynamic : option (M PeerEndpoint);
  geneve_ifindex : option (M Z);
  tunnel_cfg : option (M TunnelCfg);
  vip_map : option (M VipInfo);
  acl_map : option (M AclRule);
  default_policy : option (M Z)
}.
Arguments mkBpfMaps {M}.
Arguments container_route {M}.
Arguments node_dynamic {M}.
Arguments geneve_ifindex {M}.
Arguments tunnel_cfg {M}.
Arguments vip_map {M}.
Arguments acl_map {M}.
Arguments default_policy {M}.

(** A loaded object file as aya presents it: the maps that [take_map] and
    the typed conversion [map_from] yield under a name, the ring buffer, and
    for a program of that name the result of converting and attaching it to
    an interface. *)
Record Bpf (M : Type -> Type) (R : Type) := mkBpf {
  take_u32 : string -> option (M Z);
  take_peer : string -> option (M PeerEndpoint);
  take_tunnel : string -> option (M TunnelCfg);
  map_ringbuf : string -> option R;
  attach_program : string -> option (Z -> outcome string unit)
}.
Arguments mkBpf {M R}.
Arguments take_u32 {M R}.
Arguments take_peer {M R}.
Arguments take_tunnel {M R}.
Arguments map_ringbuf {M R}.
Arguments attach_program {M R}.

Record BpfManager (M : Type -> Type) (R : Type) := mkBpfManager {
  mesh : Bpf M R;
  fw : option (Bpf M R);
  vip_obj : option (Bpf M R);
  maps : BpfMaps M;
  pinned : bool;
  ringbuf : option R
}.
Arguments mkBpfManager {M R}.
Arguments mesh {M R}.
Arguments fw {M R}.
Arguments vip_obj {M R}.
Arguments maps {M R}.
Arguments pinned {M R}.
Arguments ringbuf {M R}.

Definition set_maps {M R} (b : BpfManager M R) (m : BpfMaps M) : BpfManager M R :=
  mkBpfManager (mesh b) (fw b) (vip_obj b) m (pinned b) (ringbuf b).

Definition set_container_route {M R} (b : BpfManager M R) (m : M Z) : BpfManager M R :=
  let x := maps b in
  set_maps b (mkBpfMaps (Some m) (node_dynamic x) (geneve_ifindex x) (tunnel_cfg x)
                (vip_map x) (acl_map x) (default_policy x)).

Definition set_node_dynamic {M R} (b : BpfManager M R) (m : M PeerEndpoint) : BpfManager M R :=
  let x := maps b in
  set_maps b (mkBpfMaps (container_route x) (Some m) (geneve_ifindex x) (tunnel_cfg x)
                (vip_map x) (acl_map x) (default_policy x)).

Definition set_tunnel_map {M R} (b : BpfManager M R) (m : M TunnelCfg) : BpfManager M R :=
  let x := maps b in
  set_maps b (mkBpfMaps (container_route x) (node_dynamic x) (geneve_ifindex x) (Some m)
                (vip_map x) (acl_map x) (default_policy x)).

Definition set_vip_entries {M R} (b : BpfManager M R) (m : M VipInfo) : BpfManager M R :=
  let x := maps b in
  set_maps b (mkBpfMaps (container_route x) (node_dynamic x) (geneve_ifindex x) (tunnel_cfg x)
                (Some m) (acl_map x) (default_policy x)).

(** The error of a failed map operation. *)
Definition MapError : string := "map error".

(** A map operation's success flag as the [Result] the methods return. *)
Definition map_result (b : bool) : outcome string unit :=
  if b then Ok tt else Err MapError.

Section Manager.
Context {M : Type -> Type} {R : Type} `{KernelMap M}.

(** [BpfManager::load()]; [load_file] is aya's loader *)
Definition load (load_file : string -> outcome string (Bpf M R)) : outcome string (BpfManager M R) :=
  match load_file "bin/mesh.bpf.o" with
  | Ok obj =>
      Ok (mkBpfManager obj
            (ok (load_file "bin/firewall.bpf.o"))
            (ok (load_file "bin/vip_balancer.bpf.o"))
            (mkBpfMaps (take_u32 obj "CONTAINER_ROUTE_MAP")
               (take_peer obj "NODE_DYNAMIC_MAP")
               (take_u32 obj "GENEVE_IFINDEX_MAP")
               (take_tunnel obj "TUNNEL_CFG_MAP")
               None None None)
            false
            (map_ringbuf obj "ROUTE_MISS_RINGBUF"))
  | Err _ => Err "load mesh BPF"
  | Panic => Panic
  end.

(** The operations return the manager after the call and the [Result]. *)
Definition set_tunnel_cfg (b : BpfManager M R) (id : Z) : BpfManager M R * outcome string unit :=
  match tunnel_cfg (maps b) with
  | Some m => let '(m', r) := kinsert m 0 (mkTunnelCfg id) in
              (set_tunnel_map b m', map_result r)
  | None => (b, Ok tt)
  end.

Definition update_peer (b : BpfManager M R) (overlay_ip : Z) (ep : PeerEndpoint)
    : BpfManager M R * outcome string unit :=
  match node_dynamic (maps b) with
  | Some m => let '(m', r) := kinsert m overlay_ip ep in
              (set_node_dynamic b m', map_result r)
  | None => (b, Ok tt)
  end.

Definition bpf_update_container_route (b : BpfManager M R) (container_ip route_vni : Z)
    : BpfManager M R * outcome string unit :=
  match container_route (maps b) with
  | Some m => let '(m', r) := kinsert m container_ip route_vni in
              (set_container_route b m', map_result r)
  | None => (b, Ok tt)
  end.

Definition bpf_remove_container_route (b : BpfManager M R) (container_ip : Z)
    : BpfManager M R * outcome string unit :=
  match container_route (maps b) with
  | Some m => let '(m', r) := kremove m container_ip in
              (set_container_route b m', map_result r)
  | None => (b, Ok tt)
  end.

Definition bpf_list_container_ips (b : BpfManager M R) : list Z := [].

Definition bpf_is_ip_allocated (b : BpfManager M R) (_ip : Z) : bool := false.

(** One of the two blocks of [attach_all]: the programs attached so far and
    the attachment of [name] if the object has it. *)
Definition attach_one (b : BpfManager M R) (name : string) (ifindex : Z)
    (attached : list string) : outcome string (list string) :=
  match attach_program (mesh b) name with
  | Some attach => _ ← attach ifindex; Ok (attached ++ [name])
  | None => Ok attached
  end.

(** [attach_all]: the names of the programs it attached *)
Definition attach_all (b : BpfManager M R) (ifindex : Z) : outcome string (list string) :=
  a ← attach_one b "xdp_pass" ifindex [];
  attach_one b "egress_p2p_mesh" ifindex a.

End Manager.

(** ** Finding the default interface *)

(** The word after ["dev"] in a line of [ip route show default]. *)
Fixpoint after_dev (ws : list string) : option (option string) :=
  match ws with
  | [] => None
  | w :: ws' => if String.eqb w "dev" then Some (hd_error ws') else after_dev ws'
  end.

(** [l.split(':').next().and_then(|i| i.trim().parse::<u32>().ok())] *)
Definition link_index (l : string) : option Z :=
  hd_error (split_on colon l) ≫= fun i => parse_uint u32_max (trim i).

(** The loop over the lines of the routing table; [link_show] is the output
    of [ip link show <name>] as UTF-8 text, or the error of running it. *)
Fixpoint scan_routes (link_show : string -> outcome string string) (ls : list string)
    : outcome string Z :=
  match ls with
  | [] => Ok 1
  | l :: ls' =>
      match after_dev (split_whitespace l) with
      | Some (Some name) =>
          s ← link_show name;
          match hd_error (lines s) ≫= link_index with
          | Some i => Ok i
          | None => scan_routes link_show ls'
          end
      | _ => scan_routes link_show ls'
      end
  end.

Definition find_default_ifindex (route_show : outcome string string)
    (link_show : string -> outcome string string) : outcome string Z :=
  match route_show with
  | Ok stdout => scan_routes link_show (lines stdout)
  | Err _ => Err "ip route"
  | Panic => Panic
  end.

(** ** The interface the container manager relies on *)

Class RouteStore (B : Type) := {
  is_ip_allocated : B -> Z -> bool;
  list_container_ips : B -> list Z;
  update_container_route : B -> Z -> Z -> B * outcome string unit;
  remove_container_route : B -> Z -> B * outcome string unit
}.

#[export] Instance BpfManager_RouteStore {M R} `{KernelMap M} : RouteStore (BpfManager M R) := {
  is_ip_allocated := bpf_is_ip_allocated;
  list_container_ips := bpf_list_container_ips;
  update_container_route := bpf_update_container_route;
  remove_container_route := bpf_remove_container_route
}.

(** A store that keeps the routes in a set, for evaluation: unlike the
    manager, its allocation test answers from what was recorded. *)
#[export] Instance gset_RouteStore : RouteStore (gset Z) := {
  is_ip_allocated s ip := bool_decide (ip ∈ s);
  list_container_ips s := elements s;
  update_container_route s ip _ := ({[ip]} ∪ s, Ok tt);
  remove_container_route s ip := (s ∖ {[ip]}, Ok tt)
}.

(** ** Properties *)

(** The kernel's view of the container routes of a manager. *)
Definition route_of {M R} `{KernelMap M} (b : BpfManager M R) (ip : Z) : option Z :=
  match container_route (maps b) with Some m => kget m ip | None => None end.

Section RouteFacts.
Context {M : Type -> Type} {R : Type} `{KernelMapLaws M}.

Lemma update_route_lookup (b b' : BpfManager M R) (ip v : Z) :
  is_Some (container_route (maps b)) ->
  bpf_update_container_route b ip v = (b', Ok tt) ->
  route_of b' ip = Some v /\ (forall k, k <> ip -> route_of b' k = route_of b k).
Proof.
  intros [m Hm] E. unfold bpf_update_container_route, route_of in *. rewrite Hm in *.
  destruct (kinsert m ip v) as [m' []] eqn:Ei; simplify_eq/=.
  by apply kinsert_ok in Ei.
Qed.

Lemma update_route_err (b b' : BpfManager M R) (ip v : Z) (e : string) :
  bpf_update_container_route b ip v = (b', Err e) ->
  forall k, route_of b' k = route_of b k.
Proof.
  intros E k. unfold bpf_update_container_route, route_of in *.
  destruct (container_route (maps b)) as [m|] eqn:Hm; [|by simplify_eq].
  destruct (kinsert m ip v) as [m' []] eqn:Ei; simplify_eq/=.
  by apply (kinsert_err _ _ _ _ Ei).
Qed.

Lemma remove_route_lookup (b b' : BpfManager M R) (ip : Z) :
  is_Some (container_route (maps b)) ->
  bpf_remove_container_route b ip = (b', Ok tt) ->
  route_of b' ip = None /\ (forall k, k <> ip -> route_of b' k = route_of b k).
Proof.
  intros [m Hm] E. unfold bpf_remove_container_route, route_of in *. rewrite Hm in *.
  destruct (kremove m ip) as [m' []] eqn:Ei; simplify_eq/=.
  by apply kremove_ok in Ei.
Qed.

(** How many new addresses the container routes still take. *)
Definition route_room (b : BpfManager M R) : nat :=
  match container_route (maps b) with Some m => kroom m | None => O end.

Lemma update_route_kept (b : BpfManager M R) (ip v : Z) :
  is_Some (container_route (maps b)) ->
  is_Some (container_route (maps (bpf_update_container_route b ip v).1)).
Proof.
  intros [m Hm]. unfold bpf_update_container_route. rewrite Hm.
  destruct (kinsert m ip v). by eexists.
Qed.

Lemma remove_route_kept (b : BpfManager M R) (ip : Z) :
  is_Some (container_route (maps b)) ->
  is_Some (container_route (maps (bpf_remove_container_route b ip).1)).
Proof.
  intros [m Hm]. unfold bpf_remove_container_route. rewrite Hm.
  destruct (kremove m ip). by eexists.
Qed.

(** With room left an update succeeds, and takes at most one of the places. *)
Lemma update_route_room (b : BpfManager M R) (ip v : Z) :
  (0 < route_room b)%nat -> (bpf_update_container_route b ip v).2 = Ok tt.
Proof.
  unfold bpf_update_container_route, route_room.
  destruct (container_route (maps b)) as [m|]; [|lia]. intros Hr.
  pose proof (kinsert_room m ip v Hr) as Hi. by destruct (kinsert m ip v) as [m' []].
Qed.

Lemma update_room (b : BpfManager M R) (ip v : Z) :
  (route_room b <= S (route_room (bpf_update_container_route b ip v).1))%nat.
Proof.
  unfold bpf_update_container_route, route_room.
  destruct (container_route (maps b)) as [m|] eqn:Hm; [|lia].
  pose proof (kinsert_kroom m ip v). by destruct (kinsert m ip v).
Qed.

Lemma remove_room (b : BpfManager M R) (ip : Z) :
  (route_room b <= route_room (bpf_remove_container_route b ip).1)%nat.
Proof.
  unfold bpf_remove_container_route, route_room.
  destruct (container_route (maps b)) as [m|] eqn:Hm; [|cbn; rewrite Hm; lia].
  pose proof (kremove_kroom m ip). by destruct (kremove m ip).
Qed.

(** Recording a route where there is room: exactly that route is set. *)
Lemma update_route_exact (b : BpfManager M R) (ip v : Z) :
  (0 < route_room b)%nat ->
  let b' := (bpf_update_container_route b ip v).1 in
  route_of b' ip = Some v /\ (forall k, k <> ip -> route_of b' k = route_of b k).
Proof.
  intros Hr. pose proof (update_route_room b ip v Hr) as Hu.
  destruct (bpf_update_container_route b ip v) as [b' r] eqn:E. cbn in *. subst r.
  apply update_route_lookup; [|done]. unfold route_room in Hr.
  destruct (container_route (maps b)); [by eexists|lia].
Qed.

(** A removal leaves no route behind, whether it succeeds or not. *)
Lemma remove_route_exact (b : BpfManager M R) (ip : Z) :
  is_Some (container_route (maps b)) ->
  let b' := (bpf_remove_container_route b ip).1 in
  route_of b' ip = None /\ (forall k, k <> ip -> route_of b' k = route_of b k).
Proof.
  intros [m Hm]. unfold bpf_remove_container_route, route_of. rewrite Hm.
  pose proof (kremove_present m ip) as Hp.
  destruct (kremove m ip) as [m' []] eqn:E; cbn [fst snd maps set_container_route set_maps container_route] in *.
  - by apply kremove_ok in E.
  - rewrite !(kremove_err _ _ _ E). split; [|intros; by apply (kremove_err _ _ _ E)].
    destruct (kget m ip); [|done]. by specialize (Hp ltac:(by eexists)).
Qed.

Lemma remove_route_present (b : BpfManager M R) (ip : Z) :
  is_Some (route_of b ip) -> (bpf_remove_container_route b ip).2 = Ok tt.
Proof.
  intros Hr. unfold bpf_remove_container_route, route_of in *.
  destruct (container_route (maps b)) as [m|]; [|done].
  apply kremove_present in Hr. destruct (kremove m ip) as [m' r]. cbn in *. by subst.
Qed.
End RouteFacts.

(** A manager over the reference maps with the given container routes and no
    programs, for evaluation. *)
Definition demo_manager (routes : gmap Z Z) : BpfManager bmap ring :=
  mkBpfManager (mkBpf (fun _ => None) (fun _ => None) (fun _ => None) (fun _ => None) (fun _ => None))
    None None
    (mkBpfMaps (Some (mkBmap 64 routes)) (Some (mkBmap 64 ∅)) None None None None None)
    false None.
