(* ===== verification/Protocol.v ===== *)
(** * The authenticated UDP protocol ([agent/src/protocol.rs])

    [UdpProtocol]: [marshal], [sign], [verify], [check_nonce], [recv] and the
    body of [recv_loop].  The socket is the sequence of datagrams it delivers,
    each with the clock reading taken when it is checked; HMAC-SHA256 and
    serde_json are parameters.  [ReplaySpec] is the abstract anti-replay
    filter over the full history of accepted packets, and the refinement
    theorem says the bounded list kept by the code decides like it as long as
    the clock does not go backwards. *)

From S2P Require Import Prelude RustStr Common NetAddr Kernel BpfMgr.

(** ** State *)

Record UdpProtocol := mkUdpProtocol {
  psk : list byte;
  nonces : list (string * Z)
}.

Definition set_nonces (p : UdpProtocol) (l : list (string * Z)) : UdpProtocol :=
  mkUdpProtocol (psk p) l.

(** What the socket's [recv_from] gives: a datagram from an address, with the
    time at which [check_nonce] reads the clock, or an I/O error. *)
Inductive RecvEvent :=
| Datagram (data : list byte) (addr : SocketAddr) (now : Z)
| RecvErr (e : string).

(** The message types [recv_loop] tells apart. *)
Inductive PeerMessage :=
| MsgRegister
| MsgQuery
| MsgAnnounce
| MsgUnknown (msg_type : string).

(** ** Operations *)

(** [UdpProtocol::bind], after the socket is bound *)
Definition udp_new (key : string) : UdpProtocol := mkUdpProtocol (as_bytes key) [].

(** [format!("{:02x}...", header[8], ..., header[15])] *)
Definition nonce_string (header : list byte) : string :=
  foldr (fun b s => show_hex_byte b +:+ s) EmptyString (take 8 (drop 8 header)).

Definition header_ts (header : list byte) : Z := from_be_bytes (take 8 header).

Definition check_nonce (p : UdpProtocol) (header : list byte) (now : Z) : UdpProtocol * bool :=
  let ts := header_ts header in
  let nonce := nonce_string header in
  if REPLAY_WINDOW_SECS <? abs_diff ts now then (p, false)
  else
    let cutoff := saturating_sub now REPLAY_WINDOW_SECS in
    let kept := List.filter (fun '(_, t) => cutoff <? t) (nonces p) in
    if existsb (fun '(n, _) => String.eqb n nonce) kept then (set_nonces p kept, false)
    else (set_nonces p (kept ++ [(nonce, now)]), true).

Section Protocol.
(** [Hmac<Sha256>] with a key, on a message. *)
Context (hmac : list byte -> list byte -> list byte).

Definition sign (p : UdpProtocol) (data : list byte) : list byte := hmac (psk p) data.

Definition verify (p : UdpProtocol) (data sig : list byte) : bool :=
  bool_decide (sig = hmac (psk p) data).

(** [marshal]: the message's JSON ([[]] when serialisation fails), the clock
    and the eight random bytes are the inputs. *)
Definition marshal (p : UdpProtocol) (json : option (list byte)) (now : Z) (nonce_bytes : list byte)
    : list byte :=
  let payload := default [] json in
  let header := to_be_bytes 8 now ++ nonce_bytes in
  let signed := header ++ payload in
  signed ++ sign p signed.

(** The buffer after [recv_from], and the number of bytes it reports: a
    datagram longer than the buffer is cut. *)
Definition recv_from (buf data : list byte) : list byte * nat :=
  let n := Nat.min (length data) (length buf) in (take n data ++ drop n buf, n).

(** One round of [recv]'s loop on [n] received bytes: [true] means the
    message is returned, [false] that the loop continues. *)
Definition recv_one (p : UdpProtocol) (buf : list byte) (n : nat) (now : Z)
    : outcome string (UdpProtocol * bool) :=
  if Nat.ltb n MIN_MESSAGE_SIZE then Ok (p, false)
  else
    header_raw ← slice buf 0 HEADER_SIZE;
    let header := if Nat.eqb (length header_raw) HEADER_SIZE then header_raw
                  else replicate HEADER_SIZE x00 in
    payload ← slice buf HEADER_SIZE (n - HMAC_SIZE);
    sig ← slice buf (n - HMAC_SIZE) n;
    if negb (verify p (header_raw ++ payload) sig) then Ok (p, false)
    else Ok (check_nonce p header now).

(** The result of [recv]: the buffer, the byte count and the sender; or that
    it still waits after the datagrams given. *)
Inductive recv_result :=
| Received (buf : list byte) (n : nat) (addr : SocketAddr)
| Waiting (buf : list byte)
| RecvFailed (buf : list byte) (e : string).

(** [recv]: the loop over the datagrams as they arrive.  [attempts] is the
    counter that makes the task yield; [yields] counts those points. *)
Fixpoint recv_go (attempts yields : Z) (p : UdpProtocol) (buf : list byte) (evs : list RecvEvent)
    : outcome string (UdpProtocol * recv_result * Z * list RecvEvent) :=
  let '(attempts, yields) :=
    if 16 <? attempts + 1 then (0, yields + 1) else (attempts + 1, yields) in
  match evs with
  | [] => Ok (p, Waiting buf, yields, [])
  | RecvErr e :: evs' => Ok (p, RecvFailed buf e, yields, evs')
  | Datagram data addr now :: evs' =>
      let '(buf, n) := recv_from buf data in
      '(p, accepted) ← recv_one p buf n now;
      if (accepted : bool) then Ok (p, Received buf n addr, yields, evs')
      else recv_go attempts yields p buf evs'
  end.

Definition recv (p : UdpProtocol) (buf : list byte) (evs : list RecvEvent)
    : outcome string (UdpProtocol * recv_result * Z * list RecvEvent) :=
  recv_go 0 0 p buf evs.

Section Dispatch.
(** [serde_json::from_slice::<Value>] followed by [.get("type")] and
    [.as_str()]: the string field ["type"] of a JSON object. *)
Context (json_type : list byte -> option string).
(** The manager behind the lock [recv_loop] is given. *)
Context {M : Type -> Type} {R : Type} `{KernelMap M}.
Implicit Types bpf : Mutex (BpfManager M R).

(** The [match msg_type]. *)
Definition classify (t : string) : PeerMessage :=
  if String.eqb t "register" then MsgRegister
  else if String.eqb t "query" then MsgQuery
  else if String.eqb t "announce" then MsgAnnounce
  else MsgUnknown t.

(** The arms of that match.  Each logs the message and its sender and does
    nothing else, a registration included: "TODO: update BPF route map with
    peer info". *)
Definition handle_peer bpf (m : PeerMessage) (addr : SocketAddr) : Mutex (BpfManager M R) :=
  match m with
  | MsgRegister => bpf
  | MsgQuery => bpf
  | MsgAnnounce => bpf
  | MsgUnknown _ => bpf
  end.

(** The body of [recv_loop] on a returned message, with what it was logged
    as. *)
Definition handle_message bpf (buf : list byte) (n : nat) (addr : SocketAddr)
    : outcome string (Mutex (BpfManager M R) * option PeerMessage) :=
  payload ← slice buf HEADER_SIZE (n - HMAC_SIZE);
  match json_type payload with
  | Some t => Ok (handle_peer bpf (classify t) addr, Some (classify t))
  | None => Ok (bpf, None)
  end.

(** [recv_loop] over the datagrams that arrive before [stop] is set: the
    messages it handled, in order.  Each round consumes a datagram or ends,
    so as many rounds as events are enough. *)
Fixpoint recv_loop (fuel : nat) (p : UdpProtocol) bpf (buf : list byte) (evs : list RecvEvent)
    : outcome string (UdpProtocol * Mutex (BpfManager M R) * list (option PeerMessage)) :=
  match fuel with
  | O => Ok (p, bpf, [])
  | S f =>
      match recv p buf evs with
      | Ok (p, Received buf n addr, _, evs) =>
          '(bpf, m) ← handle_message bpf buf n addr;
          '(p, bpf, ms) ← recv_loop f p bpf buf evs;
          Ok (p, bpf, m :: ms)
      | Ok (p, RecvFailed buf _, _, evs) => recv_loop f p bpf buf evs
      | Ok (p, Waiting _, _, _) => Ok (p, bpf, [])
      | Err e => Err e
      | Panic => Panic
      end
  end.
End Dispatch.
End Protocol.

(** ** The anti-replay filter, abstractly

    The specification remembers every packet ever accepted.  A packet is
    accepted when its timestamp is within the window and no packet with its
    nonce was accepted less than a window ago. *)
Module ReplaySpec.

Definition accepts (history : list (string * Z)) (header : list byte) (now : Z) : bool :=
  (abs_diff (header_ts header) now <=? REPLAY_WINDOW_SECS)
  && negb (existsb (fun '(n, t) => String.eqb n (nonce_string header)
                                   && (saturating_sub now REPLAY_WINDOW_SECS <? t)) history).

Definition step (history : list (string * Z)) (header : list byte) (now : Z)
    : list (string * Z) * bool :=
  if accepts history header now then (history ++ [(nonce_string header, now)], true)
  else (history, false).

End ReplaySpec.

(** Run a filter over packets (header and clock), collecting its decisions. *)
Fixpoint run_filter {S} (step : S -> list byte -> Z -> S * bool) (s : S)
    (pkts : list (list byte * Z)) : S * list bool :=
  match pkts with
  | [] => (s, [])
  | (h, now) :: pkts' =>
      let '(s1, b) := step s h now in
      let '(s2, bs) := run_filter step s1 pkts' in (s2, b :: bs)
  end.

(** The clock readings never decrease. *)
Fixpoint clock_monotone (lo : Z) (pkts : list (list byte * Z)) : Prop :=
  match pkts with
  | [] => True
  | (_, now) :: pkts' => lo <= now /\ clock_monotone now pkts'
  end.

(** ** Lemmas on the filter *)

Lemma filter_twice {A} (f g : A -> bool) (l : list A) :
  (forall x, f x = true -> g x = true) -> List.filter f (List.filter g l) = List.filter f l.
Proof.
  intros Hfg. induction l as [|x l IH]; [done|]. simpl.
  destruct (g x) eqn:Eg; simpl; rewrite IH; [done|].
  destruct (f x) eqn:Ef; [|done]. apply Hfg in Ef. congruence.
Qed.

(** The entries younger than a cutoff. *)
Definition younger (c : Z) : string * Z -> bool := fun '(_, t) => c <? t.

Lemma younger_twice (c d : Z) (l : list (string * Z)) :
  d <= c -> List.filter (younger c) (List.filter (younger d) l) = List.filter (younger c) l.
Proof.
  intros Hdc. apply filter_twice. intros [n t]. simpl. intros. bool_to_prop.
  apply Z.ltb_lt. lia.
Qed.

Lemma existsb_younger (c : Z) (nonce : string) (l : list (string * Z)) :
  existsb (fun '(n, _) => String.eqb n nonce) (List.filter (younger c) l) =
  existsb (fun '(n, t) => String.eqb n nonce && (c <? t))%bool l.
Proof.
  induction l as [|[n t] l IH]; [done|]. simpl.
  destruct (c <? t); simpl; rewrite IH; [by rewrite andb_true_r|by rewrite andb_false_r].
Qed.

(** The list kept by the code agrees with the full history on every entry
    that a check at time [lo] or later can still look at. *)
Definition replay_sim (lo : Z) (p : UdpProtocol) (history : list (string * Z)) : Prop :=
  forall c, saturating_sub lo REPLAY_WINDOW_SECS <= c ->
    List.filter (younger c) (nonces p) = List.filter (younger c) history.

Lemma saturating_sub_mono (a b c : Z) : a <= b -> saturating_sub a c <= saturating_sub b c.
Proof. unfold saturating_sub. lia. Qed.

Lemma check_nonce_sim (lo now : Z) (p : UdpProtocol) (history : list (string * Z)) (header : list byte) :
  lo <= now -> replay_sim lo p history ->
  (check_nonce p header now).2 = (ReplaySpec.step history header now).2 /\
  replay_sim now (check_nonce p header now).1 (ReplaySpec.step history header now).1.
Proof.
  intros Hlo Hsim. unfold check_nonce, ReplaySpec.step, ReplaySpec.accepts. cbv zeta.
  pose proof (saturating_sub_mono lo now REPLAY_WINDOW_SECS Hlo) as Hc.
  set (cutoff := saturating_sub now REPLAY_WINDOW_SECS) in *.
  assert (replay_sim now p history) as Hlater.
  { intros c Hcc. apply Hsim. fold cutoff in Hcc. lia. }
  destruct (REPLAY_WINDOW_SECS <? _) eqn:Ew, (_ <=? REPLAY_WINDOW_SECS) eqn:Ew';
    bool_to_prop; try lia; [done|]. cbn [andb].
  change (fun '(_, t) => cutoff <? t) with (younger cutoff).
  rewrite existsb_younger, <- existsb_younger, (Hsim cutoff Hc), existsb_younger.
  assert (forall c, cutoff <= c ->
    List.filter (younger c) (List.filter (younger cutoff) history) =
    List.filter (younger c) history) as Hkept by (intros; by apply younger_twice).
  destruct (existsb _ history); cbn; (split; [done|]); intros c Hcc; fold cutoff in Hcc; cbn.
  - by apply Hkept.
  - by rewrite !List.filter_app, Hkept.
Qed.

Lemma run_filter_sim (lo : Z) (p : UdpProtocol) (history : list (string * Z))
    (pkts : list (list byte * Z)) :
  replay_sim lo p history -> clock_monotone lo pkts ->
  (run_filter check_nonce p pkts).2 = (run_filter ReplaySpec.step history pkts).2.
Proof.
  revert lo p history; induction pkts as [|[h now] pkts IH]; intros lo p history Hsim; [done|].
  intros [Hlo Hmono]. destruct (check_nonce_sim lo now p history h Hlo Hsim) as [Hb Hsim'].
  cbn [run_filter]. destruct (check_nonce p h now) as [p1 b1].
  destruct (ReplaySpec.step history h now) as [h1 b2]. simpl in Hb, Hsim'. subst b2.
  specialize (IH _ _ _ Hsim' Hmono).
  destruct (run_filter check_nonce p1 pkts), (run_filter ReplaySpec.step h1 pkts).
  simpl in *. by subst.
Qed.

Lemma spec_step_keeps (history : list (string * Z)) (h : list byte) (now : Z) (x : string * Z) :
  x ∈ history -> x ∈ (ReplaySpec.step history h now).1.
Proof.
  intros Hx. unfold ReplaySpec.step. destruct (ReplaySpec.accepts _ _ _); [|done].
  cbn. apply elem_of_app. by left.
Qed.

Lemma spec_accept_old (history : list (string * Z)) (n : string) (t now : Z) (h : list byte) :
  (n, t) ∈ history -> nonce_string h = n -> ReplaySpec.accepts history h now = true ->
  t <= saturating_sub now REPLAY_WINDOW_SECS.
Proof.
  intros Hin <- Ha. unfold ReplaySpec.accepts in Ha. bool_to_prop.
  destruct (saturating_sub now REPLAY_WINDOW_SECS <? t) eqn:E; bool_to_prop; [|lia].
  exfalso. apply not_true_iff_false in H0. apply H0, existsb_exists.
  exists (nonce_string h, t). rewrite <- list_elem_of_In. split; [done|].
  rewrite String.eqb_refl. cbn. by apply Z.ltb_lt.
Qed.

(** Once a nonce is in the history, a later packet that carries it is only
    accepted when the entry has left the window. *)
Lemma spec_run_old (history : list (string * Z)) (pkts : list (list byte * Z))
    (n : string) (t : Z) (j : nat) (h : list byte) (now : Z) :
  (n, t) ∈ history -> pkts !! j = Some (h, now) -> nonce_string h = n ->
  (run_filter ReplaySpec.step history pkts).2 !! j = Some true ->
  t <= saturating_sub now REPLAY_WINDOW_SECS.
Proof.
  revert history j; induction pkts as [|[h1 now1] pkts IH]; intros history j Hin Hj Hn Hb; [done|].
  cbn [run_filter] in Hb. destruct (ReplaySpec.step history h1 now1) as [s1 b1] eqn:Es.
  destruct (run_filter ReplaySpec.step s1 pkts) as [s2 bs] eqn:Er. cbn in Hb.
  destruct j as [|j]; simplify_eq/=.
  - unfold ReplaySpec.step in Es. destruct (ReplaySpec.accepts _ _ _) eqn:Ea; simplify_eq/=.
    by eapply spec_accept_old.
  - apply (IH s1 j); [|done..|by rewrite Er].
    replace s1 with (ReplaySpec.step history h1 now1).1 by (by rewrite Es).
    by apply spec_step_keeps.
Qed.

Lemma spec_run_gap (history : list (string * Z)) (pkts : list (list byte * Z))
    (i j : nat) (h1 h2 : list byte) (t1 t2 : Z) :
  (i < j)%nat -> pkts !! i = Some (h1, t1) -> pkts !! j = Some (h2, t2) ->
  nonce_string h1 = nonce_string h2 ->
  (run_filter ReplaySpec.step history pkts).2 !! i = Some true ->
  (run_filter ReplaySpec.step history pkts).2 !! j = Some true ->
  t1 <= saturating_sub t2 REPLAY_WINDOW_SECS.
Proof.
  revert history i j; induction pkts as [|[h now] pkts IH];
    intros history i j Hij Hi Hj Hn Hbi Hbj; [done|].
  cbn [run_filter] in Hbi, Hbj.
  destruct (ReplaySpec.step history h now) as [s1 b1] eqn:Es.
  destruct (run_filter ReplaySpec.step s1 pkts) as [s2 bs] eqn:Er. cbn in Hbi, Hbj.
  destruct j as [|j]; [lia|]. destruct i as [|i]; simplify_eq/=.
  - unfold ReplaySpec.step in Es. destruct (ReplaySpec.accepts _ _ _); simplify_eq/=.
    eapply (spec_run_old _ pkts (nonce_string h1) t1 j); [|done|by symmetry|by rewrite Er].
    apply elem_of_app. right. by apply list_elem_of_singleton.
  - apply (IH s1 i j); [lia|done..| |]; by rewrite Er.
Qed.

Lemma run_filter_length {S} (step : S -> list byte -> Z -> S * bool) (s : S)
    (pkts : list (list byte * Z)) :
  length (run_filter step s pkts).2 = length pkts.
Proof.
  revert s; induction pkts as [|[h t] pkts IH]; intros s; [done|]. cbn [run_filter].
  destruct (step s h t) as [s1 b1]. specialize (IH s1).
  destruct (run_filter step s1 pkts). simpl in *. by rewrite IH.
Qed.

Lemma clock_monotone_lookup (lo : Z) (pkts : list (list byte * Z)) (i : nat) (h : list byte) (t : Z) :
  clock_monotone lo pkts -> pkts !! i = Some (h, t) -> lo <= t.
Proof.
  revert lo i; induction pkts as [|[h1 t1] pkts IH]; intros lo i Hmono Hi; [done|].
  destruct Hmono as [Hle Hmono]. destruct i as [|i]; simplify_eq/=; [done|].
  apply Z.le_trans with t1; [done|]. by apply (IH t1 i).
Qed.

(** Every accepted packet has its timestamp within the window. *)
Lemma spec_run_window (history : list (string * Z)) (pkts : list (list byte * Z))
    (j : nat) (h : list byte) (t : Z) :
  pkts !! j = Some (h, t) -> (run_filter ReplaySpec.step history pkts).2 !! j = Some true ->
  abs_diff (header_ts h) t <= REPLAY_WINDOW_SECS.
Proof.
  revert history j; induction pkts as [|[h' t'] pkts IH]; intros history j Hj Hb; [done|].
  cbn [run_filter] in Hb. destruct (ReplaySpec.step history h' t') as [s1 b1] eqn:Es.
  destruct (run_filter ReplaySpec.step s1 pkts) as [s2 bs] eqn:Er. cbn in Hb.
  destruct j as [|j]; simplify_eq/=; [|eapply (IH s1 j); by rewrite ?Er].
  unfold ReplaySpec.step, ReplaySpec.accepts in Es.
  destruct (abs_diff (header_ts h) t <=? REPLAY_WINDOW_SECS) eqn:E; by bool_to_prop.
Qed.

(** ** Lemmas on datagrams *)

Lemma nonce_string_inj (h1 h2 : list byte) :
  nonce_string h1 = nonce_string h2 ->
  length h1 = HEADER_SIZE -> length h2 = HEADER_SIZE -> drop 8 h1 = drop 8 h2.
Proof.
  unfold nonce_string, HEADER_SIZE. intros E H1 H2.
  rewrite <- (take_ge (drop 8 h1) 8), <- (take_ge (drop 8 h2) 8)
    by (rewrite length_drop; lia).
  assert (length (take 8 (drop 8 h1)) = length (take 8 (drop 8 h2))) as Hl.
  { rewrite !length_take, !length_drop. lia. }
  revert E Hl. generalize (take 8 (drop 8 h1)) (take 8 (drop 8 h2)).
  induction l as [|a l IH]; intros [|b l'] E Hl; [done|done|done|].
  cbn [foldr] in E. apply string_app_inj_len in E as [Ea El].
  - apply (inj show_hex_byte) in Ea as ->. f_equal. apply IH; [done|]. simpl in Hl. lia.
  - exact (eq_trans (length_show_hex 2 (b2z a)) (eq_sym (length_show_hex 2 (b2z b)))).
Qed.

(** A fresh nonce inside the window is accepted. *)
Lemma check_nonce_fresh (p : UdpProtocol) (header : list byte) (now : Z) :
  abs_diff (header_ts header) now <= REPLAY_WINDOW_SECS ->
  nonce_string header ∉ (nonces p).*1 ->
  exists l, check_nonce p header now = (set_nonces p l, true) /\
    forall n, n ∈ l.*1 -> n ∈ (nonces p).*1 \/ n = nonce_string header.
Proof.
  intros Hwin Hfresh. unfold check_nonce. cbv zeta.
  destruct (REPLAY_WINDOW_SECS <? _) eqn:E1; bool_to_prop; [lia|].
  destruct (existsb _ _) eqn:E2.
  2: { eexists. split; [reflexivity|]. intros n. rewrite fmap_app, elem_of_app. intros [Hn|Hn].
       - left. apply list_elem_of_fmap in Hn as (x & -> & Hx%list_elem_of_In%filter_In).
         apply list_elem_of_fmap_2, list_elem_of_In, Hx.
       - right. by apply list_elem_of_singleton in Hn. }
  exfalso. apply existsb_exists in E2 as ([n t] & Hin & Hn). bool_to_prop. subst n.
  apply filter_In in Hin as [Hin _]. apply Hfresh, list_elem_of_fmap.
  exists (nonce_string header, t). by rewrite list_elem_of_In.
Qed.

Section ProtocolFacts.
Context (hmac : list byte -> list byte -> list byte).

(** The three slices of a message of [n] bytes, for a full-size buffer. *)
Lemma recv_one_slices (p : UdpProtocol) (buf : list byte) (n : nat) (now : Z) :
  (MIN_MESSAGE_SIZE <= n)%nat -> (n <= length buf)%nat ->
  recv_one hmac p buf n now =
  if bool_decide (take HMAC_SIZE (drop (n - HMAC_SIZE) buf) =
                  hmac (psk p) (take (n - HMAC_SIZE) buf))
  then Ok (check_nonce p (take HEADER_SIZE buf) now) else Ok (p, false).
Proof.
  unfold MIN_MESSAGE_SIZE, HEADER_SIZE, HMAC_SIZE. intros Hn Hb. unfold recv_one.
  destruct (Nat.ltb _ _) eqn:E; bool_to_prop; [unfold MIN_MESSAGE_SIZE, HEADER_SIZE, HMAC_SIZE in E; lia|].
  unfold HEADER_SIZE, HMAC_SIZE.
  rewrite !slice_ok by lia. cbn [mbind outcome_bind]. rewrite drop_0, Nat.sub_0_r.
  rewrite length_take_le by lia. cbn [Nat.eqb].
  replace (take 16 buf ++ take (n - 32 - 16) (drop 16 buf)) with (take (n - 32) buf)
    by (rewrite take_take_drop; f_equal; lia).
  replace (n - (n - 32))%nat with 32%nat by lia.
  unfold verify. by destruct (bool_decide _).
Qed.

Lemma recv_from_length (buf data : list byte) :
  length (recv_from buf data).1 = length buf /\ ((recv_from buf data).2 <= length buf)%nat.
Proof.
  unfold recv_from. cbn. rewrite length_app, length_take, length_drop. lia.
Qed.

Lemma recv_one_no_panic (p : UdpProtocol) (buf : list byte) (n : nat) (now : Z) :
  (n <= length buf)%nat -> exists p' b, recv_one hmac p buf n now = Ok (p', b).
Proof.
  intros Hb. destruct (decide (MIN_MESSAGE_SIZE <= n)%nat) as [Hn|Hn].
  - rewrite recv_one_slices by done.
    destruct (bool_decide _); [destruct (check_nonce _ _ _)|]; eauto.
  - unfold recv_one. destruct (Nat.ltb _ _) eqn:E; bool_to_prop; [eauto|lia].
Qed.

Lemma marshal_split (p : UdpProtocol) (json : option (list byte)) (now : Z) (nonce : list byte) :
  length nonce = 8%nat -> (forall k d, length (hmac k d) = HMAC_SIZE) ->
  let m := marshal hmac p json now nonce in
  length m = (MIN_MESSAGE_SIZE + length (default [] json))%nat /\
  take (length m - HMAC_SIZE) m = to_be_bytes 8 now ++ nonce ++ default [] json /\
  take HEADER_SIZE m = to_be_bytes 8 now ++ nonce /\
  drop (length m - HMAC_SIZE) m = hmac (psk p) (to_be_bytes 8 now ++ nonce ++ default [] json) /\
  take (length m - HMAC_SIZE - HEADER_SIZE) (drop HEADER_SIZE m) = default [] json.
Proof.
  intros Hnl Hh m. subst m. unfold marshal, sign. cbv zeta. rewrite <- !app_assoc.
  set (d := to_be_bytes 8 now ++ nonce ++ default [] json).
  pose proof (Hh (psk p) d) as Hs. pose proof (length_to_be_bytes 8 now) as Ht.
  unfold MIN_MESSAGE_SIZE, HEADER_SIZE, HMAC_SIZE in *.
  assert (length (to_be_bytes 8 now ++ nonce ++ default [] json ++ hmac (psk p) d) =
          (48 + length (default [] json))%nat) as Hl.
  { rewrite !length_app, Ht, Hnl, Hs. lia. }
  rewrite Hl. split; [done|].
  replace (48 + length (default [] json) - 32)%nat with (length d)
    by (subst d; rewrite !length_app, Ht, Hnl; lia).
  assert (to_be_bytes 8 now ++ nonce ++ default [] json ++ hmac (psk p) d =
          d ++ hmac (psk p) d) as Hd by (subst d; by rewrite <- !app_assoc).
  split; [by rewrite Hd, take_app_length|]. split; [|split].
  - rewrite app_assoc. apply take_app_length'. rewrite length_app, Ht, Hnl. done.
  - by rewrite Hd, drop_app_length.
  - rewrite app_assoc, drop_app_length' by (rewrite length_app, Ht, Hnl; done).
    apply take_app_length'. subst d. rewrite !length_app, Ht, Hnl. lia.
Qed.
End ProtocolFacts.

(** ** Delivered messages *)

(** A message's JSON, when it was marshalled with which random bytes, and
    from where and when it arrives. *)
Record Delivery := mkDelivery {
  dl_json : option (list byte);
  dl_sent : Z;
  dl_nonce : list byte;
  dl_from : SocketAddr;
  dl_now : Z
}.

Definition datagram (hmac : list byte -> list byte -> list byte) (sender : UdpProtocol) (d : Delivery)
    : list byte :=
  marshal hmac sender (dl_json d) (dl_sent d) (dl_nonce d).

Definition deliver (hmac : list byte -> list byte -> list byte) (sender : UdpProtocol) (d : Delivery)
    : RecvEvent := Datagram (datagram hmac sender d) (dl_from d) (dl_now d).

(** Eight random bytes, a clock value, and an arrival inside the window. *)
Definition timely (d : Delivery) : Prop :=
  length (dl_nonce d) = 8%nat /\ 0 <= dl_sent d <= u64_max /\
  abs_diff (dl_sent d) (dl_now d) <= REPLAY_WINDOW_SECS.

(** The nonce as [check_nonce] records it. *)
Definition nonce_of (d : Delivery) : string := nonce_string (to_be_bytes 8 (dl_sent d) ++ dl_nonce d).

Lemma nonce_of_inj (d e : Delivery) : timely d -> timely e -> nonce_of d = nonce_of e -> dl_nonce d = dl_nonce e.
Proof.
  intros (Hd & _) (He & _) E. apply nonce_string_inj in E;
    [|by rewrite length_app, length_to_be_bytes, ?Hd, ?He..].
  by rewrite !drop_app_length' in E by (by rewrite length_to_be_bytes).
Qed.

Lemma nonces_NoDup (ds : list Delivery) :
  Forall timely ds -> NoDup (dl_nonce <$> ds) -> NoDup (nonce_of <$> ds).
Proof.
  induction ds as [|d ds IH]; intros Ht Hnd; [constructor|].
  apply Forall_cons in Ht as [Htd Ht]. apply NoDup_cons in Hnd as [Hdn Hnd].
  constructor; [|by apply IH]. intros (e & Ee & He)%list_elem_of_fmap. apply Hdn.
  rewrite (nonce_of_inj d e); [by apply list_elem_of_fmap_2|done| |done].
  rewrite Forall_forall in Ht. by apply Ht.
Qed.

(** A fresh, timely message from a peer with the same key is received. *)
Lemma recv_marshalled (hmac : list byte -> list byte -> list byte)
    (Hh : forall k d, length (hmac k d) = HMAC_SIZE) (sender receiver : UdpProtocol) (d : Delivery)
    (rest : list RecvEvent) (buf : list byte) :
  psk sender = psk receiver -> timely d -> nonce_of d ∉ (nonces receiver).*1 ->
  let m := datagram hmac sender d in
  (length m <= length buf)%nat ->
  exists receiver' buf' yields,
    recv hmac receiver buf (deliver hmac sender d :: rest)
    = Ok (receiver', Received buf' (length m) (dl_from d), yields, rest) /\
    psk receiver' = psk receiver /\ length buf' = length buf /\
    slice (E:=string) buf' HEADER_SIZE (length m - HMAC_SIZE) = Ok (default [] (dl_json d)) /\
    forall n, n ∈ (nonces receiver').*1 -> n ∈ (nonces receiver).*1 \/ n = nonce_of d.
Proof.
  intros Hk (Hnl & Hsent & Hwin) Hfresh m Hlen. subst m.
  destruct d as [json sent nonce addr now]. unfold deliver, datagram, nonce_of in *.
  cbn [dl_json dl_sent dl_nonce dl_from dl_now] in *.
  destruct (marshal_split hmac sender json sent nonce Hnl Hh) as (Hl & Hsd & Hhd & Hsig & Hpl).
  set (m := marshal hmac sender json sent nonce) in *.
  assert (header_ts (to_be_bytes 8 sent ++ nonce) = sent) as Hts.
  { unfold header_ts. rewrite take_app_length' by (by rewrite length_to_be_bytes).
    apply from_to_be_bytes. unfold u64_max in Hsent. cbn. lia. }
  destruct (check_nonce_fresh receiver (to_be_bytes 8 sent ++ nonce) now) as (l & Hc & Hl');
    [by rewrite Hts|done|].
  unfold MIN_MESSAGE_SIZE, HEADER_SIZE, HMAC_SIZE in Hl.
  unfold recv. cbn [recv_go]. unfold recv_from. rewrite Nat.min_l by done.
  rewrite take_ge by done. cbn [Z.ltb Z.compare Z.add].
  rewrite recv_one_slices; [|unfold MIN_MESSAGE_SIZE, HEADER_SIZE, HMAC_SIZE; lia|rewrite length_app; lia].
  rewrite take_app_le, drop_app_le, (take_app_le m _ HEADER_SIZE)
    by (unfold HMAC_SIZE, HEADER_SIZE; lia).
  rewrite Hsig, Hsd, Hhd, Hk, take_app_le, take_ge by (rewrite Hh; done).
  rewrite bool_decide_eq_true_2, Hc by done. cbn [mbind outcome_bind].
  eexists _, _, _. split; [done|]. split; [done|]. split; [rewrite length_app, length_drop; lia|].
  split; [|exact Hl'].
  rewrite slice_ok; [|unfold HEADER_SIZE, HMAC_SIZE; lia|rewrite length_app; lia].
  f_equal. rewrite <- Hpl, drop_app_le, take_app_le; [done|..];
    rewrite ?length_drop; unfold HEADER_SIZE, HMAC_SIZE in *; lia.
Qed.

(** ** Properties *)

(** C1: from an empty nonce list and under a clock that never goes back, the
    code's bounded nonce list takes exactly the decisions of the filter that
    remembers every packet it ever accepted. *)
Theorem check_nonce_refines (p : UdpProtocol) (lo : Z) (pkts : list (list byte * Z)) :
  nonces p = [] -> clock_monotone lo pkts ->
  (run_filter check_nonce p pkts).2 = (run_filter ReplaySpec.step [] pkts).2.
Proof.
  intros Hp Hmono. apply (run_filter_sim lo); [|done]. intros c _. by rewrite Hp.
Qed.

(** A header with timestamp [ts] and nonce bytes all [b]. *)
Definition demo_header (ts : Z) (b : byte) : list byte := to_be_bytes 8 ts ++ replicate 8 b.

Lemma check_nonce_refines_witness :
  (run_filter check_nonce (udp_new "k")
     [(demo_header 1000 x01, 1000); (demo_header 1000 x01, 1100); (demo_header 1000 x02, 1100)]).2
  = [true; false; true].
Proof. rewrite (check_nonce_refines (udp_new "k") 0); [reflexivity|done|cbn; lia]. Defined.

(** C2: with a clock past the epoch that never goes back, two accepted
    packets with the same nonce bytes are at least a full window apart. *)
Theorem no_replay_within_window (p : UdpProtocol) (lo : Z) (pkts : list (list byte * Z))
    (i j : nat) (h1 h2 : list byte) (t1 t2 : Z) :
  nonces p = [] -> 0 < lo -> clock_monotone lo pkts ->
  (i < j)%nat -> pkts !! i = Some (h1, t1) -> pkts !! j = Some (h2, t2) ->
  take 8 (drop 8 h1) = take 8 (drop 8 h2) ->
  (run_filter check_nonce p pkts).2 !! i = Some true ->
  (run_filter check_nonce p pkts).2 !! j = Some true ->
  t1 + REPLAY_WINDOW_SECS <= t2.
Proof.
  intros Hp Hlo Hmono Hij Hi Hj Hn Hbi Hbj.
  rewrite (run_filter_sim lo p []) in Hbi, Hbj by (done || (intros c _; by rewrite Hp)).
  pose proof (clock_monotone_lookup lo pkts i h1 t1 Hmono Hi) as Ht1.
  assert (nonce_string h1 = nonce_string h2) as Hns by (unfold nonce_string; by rewrite Hn).
  pose proof (spec_run_gap [] pkts i j h1 h2 t1 t2 Hij Hi Hj Hns Hbi Hbj) as Hg.
  unfold saturating_sub in Hg. lia.
Qed.

Lemma no_replay_within_window_witness :
  1000 + REPLAY_WINDOW_SECS <= 1300.
Proof.
  apply (no_replay_within_window (udp_new "k") 1000
    [(demo_header 1000 x01, 1000); (demo_header 1000 x01, 1300)] 0 1
    (demo_header 1000 x01) (demo_header 1000 x01)); try reflexivity; [cbn; lia|lia].
Defined.

(** C30: a packet whose timestamp is older than the moment it was first
    accepted is never accepted again, at any later time. *)
Theorem stale_packet_never_replayed (p : UdpProtocol) (lo : Z) (pkts : list (list byte * Z))
    (i j : nat) (h : list byte) (t1 t2 : Z) :
  nonces p = [] -> 0 < lo -> clock_monotone lo pkts ->
  (i < j)%nat -> pkts !! i = Some (h, t1) -> pkts !! j = Some (h, t2) ->
  header_ts h < t1 ->
  (run_filter check_nonce p pkts).2 !! i = Some true ->
  (run_filter check_nonce p pkts).2 !! j = Some false.
Proof.
  intros Hp Hlo Hmono Hij Hi Hj Hts Hbi.
  rewrite (run_filter_sim lo p []) in Hbi |- * by (done || (intros c _; by rewrite Hp)).
  destruct ((run_filter ReplaySpec.step [] pkts).2 !! j) as [[]|] eqn:Hbj; [|done|].
  - exfalso. pose proof (spec_run_gap [] pkts i j h h t1 t2 Hij Hi Hj eq_refl Hbi Hbj) as Hg.
    pose proof (spec_run_window [] pkts j h t2 Hj Hbj) as Ha.
    assert (0 <= header_ts h) by apply from_be_bytes_range.
    unfold saturating_sub, abs_diff, REPLAY_WINDOW_SECS in *. lia.
  - exfalso. apply lookup_ge_None in Hbj. apply lookup_lt_Some in Hj.
    rewrite run_filter_length in Hbj. lia.
Qed.

Lemma stale_packet_never_replayed_witness :
  (run_filter check_nonce (udp_new "k")
     [(demo_header 999 x01, 1000); (demo_header 999 x01, 1299); (demo_header 999 x01, 1300)]).2 !! 2%nat
  = Some false.
Proof.
  apply (stale_packet_never_replayed (udp_new "k") 1000
    [(demo_header 999 x01, 1000); (demo_header 999 x01, 1299); (demo_header 999 x01, 1300)]
    0 2 (demo_header 999 x01) 1000 1300); try reflexivity; [cbn; lia|lia].
Defined.

(** C36: the nonce is forgotten one second before the timestamp expires, and
    earlier still when the sender's clock is ahead: a packet with timestamp
    [t0 + skew], [0 <= skew <= 300], accepted at [t0] is accepted a second
    time at every instant of [t0 + 300 .. t0 + skew + 300]. *)
Theorem replay_accepted_after_eviction (p : UdpProtocol) (h : list byte) (t0 t1 skew : Z) :
  nonces p = [] -> 0 <= t0 -> 0 <= skew <= REPLAY_WINDOW_SECS -> header_ts h = t0 + skew ->
  t0 + REPLAY_WINDOW_SECS <= t1 <= t0 + skew + REPLAY_WINDOW_SECS ->
  (run_filter check_nonce p [(h, t0); (h, t1)]).2 = [true; true].
Proof.
  intros Hp Ht0 Hskew Hts Ht1. unfold REPLAY_WINDOW_SECS in *.
  cbn [run_filter]. unfold check_nonce at 1. cbv zeta. rewrite Hts, Hp. cbn [List.filter existsb].
  destruct (REPLAY_WINDOW_SECS <? abs_diff (t0 + skew) t0) eqn:E1;
    bool_to_prop; unfold REPLAY_WINDOW_SECS, abs_diff in E1; [lia|].
  unfold check_nonce. cbv zeta. rewrite Hts.
  destruct (REPLAY_WINDOW_SECS <? abs_diff (t0 + skew) t1) eqn:E2;
    bool_to_prop; unfold REPLAY_WINDOW_SECS, abs_diff in E2; [lia|].
  cbn [nonces set_nonces app List.filter].
  destruct (saturating_sub t1 REPLAY_WINDOW_SECS <? t0) eqn:E3; [|done].
  bool_to_prop. unfold saturating_sub, REPLAY_WINDOW_SECS in E3. lia.
Qed.

Lemma replay_accepted_after_eviction_witness :
  (run_filter check_nonce (udp_new "k")
     [(demo_header 1000 x01, 1000); (demo_header 1000 x01, 1300)]).2 = [true; true].
Proof. apply (replay_accepted_after_eviction _ _ 1000 1300 0); by vm_compute. Defined.

(** C3: a marshalled message that reaches a peer with the same key inside
    the window, with a nonce the peer does not hold, is received by [recv],
    and what the receive loop then parses is the message's JSON. *)
Theorem marshal_recv_roundtrip (hmac : list byte -> list byte -> list byte)
    (sender receiver : UdpProtocol) (json : option (list byte)) (sent now : Z)
    (nonce buf : list byte) (addr : SocketAddr) (rest : list RecvEvent) :
  (forall k d, length (hmac k d) = HMAC_SIZE) ->
  psk sender = psk receiver -> length nonce = 8%nat -> 0 <= sent <= u64_max ->
  abs_diff sent now <= REPLAY_WINDOW_SECS ->
  nonce_string (to_be_bytes 8 sent ++ nonce) ∉ (nonces receiver).*1 ->
  let m := marshal hmac sender json sent nonce in
  (length m <= length buf)%nat ->
  exists receiver' buf' yields,
    recv hmac receiver buf (Datagram m addr now :: rest)
    = Ok (receiver', Received buf' (length m) addr, yields, rest) /\
    psk receiver' = psk receiver /\
    slice (E:=string) buf' HEADER_SIZE (length m - HMAC_SIZE) = Ok (default [] json).
Proof.
  intros Hh Hk Hnl Hsent Hwin Hfresh m Hlen.
  destruct (recv_marshalled hmac Hh sender receiver
    (mkDelivery json sent nonce addr now) rest buf Hk) as (r' & buf' & y & E & Hk' & _ & Hs & _);
    [exact (conj Hnl (conj Hsent Hwin))|done|done|]. by exists r', buf', y.
Qed.

(** A keyed function with 32-byte output, for evaluating the protocol. *)
Definition demo_mac (k d : list byte) : list byte := take 32 (rev d ++ k ++ replicate 32 x00).

Lemma demo_mac_length (k d : list byte) : length (demo_mac k d) = HMAC_SIZE.
Proof. unfold demo_mac, HMAC_SIZE. rewrite length_take, !length_app, length_replicate. lia. Qed.

Lemma marshal_recv_roundtrip_witness :
  exists receiver' buf' yields,
    recv demo_mac (udp_new "psk") (replicate 100 x00)
      [Datagram (marshal demo_mac (udp_new "psk") (Some [x7b; x7d]) 1000 (replicate 8 xab))
         (SockV4 (ipv4_new 127 0 0 1) 9527) 1200]
    = Ok (receiver', Received buf' 50 (SockV4 (ipv4_new 127 0 0 1) 9527), yields, []) /\
    psk receiver' = as_bytes "psk" /\ slice (E:=string) buf' 16 18 = Ok [x7b; x7d].
Proof.
  apply (marshal_recv_roundtrip demo_mac (udp_new "psk") (udp_new "psk") (Some [x7b; x7d])
           1000 1200 (replicate 8 xab) (replicate 100 x00)); try done.
  - apply demo_mac_length.
  - vm_compute. intros Hin. inversion Hin.
  - vm_compute. lia.
Defined.

(** What [recv] guarantees of a result. *)
Definition recv_post (hmac : list byte -> list byte -> list byte) (key : list byte)
    (evs evs' : list RecvEvent) (r : recv_result) : Prop :=
  match r with
  | Received b n a =>
      (MIN_MESSAGE_SIZE <= n <= length b)%nat /\
      take HMAC_SIZE (drop (n - HMAC_SIZE) b) = hmac key (take (n - HMAC_SIZE) b) /\
      exists data now, Datagram data a now ∈ evs /\ take n b = take n data /\
        abs_diff (header_ts (take HEADER_SIZE b)) now <= REPLAY_WINDOW_SECS
  | Waiting b => evs' = [] /\ Forall (fun e => exists d a t, e = Datagram d a t) evs
  | RecvFailed b e => RecvErr e ∈ evs
  end.

Lemma check_nonce_window (p p' : UdpProtocol) (h : list byte) (now : Z) (b : bool) :
  check_nonce p h now = (p', b) ->
  psk p' = psk p /\ (b = true -> abs_diff (header_ts h) now <= REPLAY_WINDOW_SECS).
Proof.
  unfold check_nonce. cbv zeta.
  destruct (REPLAY_WINDOW_SECS <? _) eqn:E; bool_to_prop; [by intros [= <- <-]|].
  destruct (existsb _ _); by intros [= <- <-].
Qed.

Lemma recv_one_post (hmac : list byte -> list byte -> list byte) (p p' : UdpProtocol)
    (buf : list byte) (n : nat) (now : Z) (b : bool) :
  (n <= length buf)%nat -> recv_one hmac p buf n now = Ok (p', b) ->
  psk p' = psk p /\
  (b = true ->
   (MIN_MESSAGE_SIZE <= n)%nat /\
   take HMAC_SIZE (drop (n - HMAC_SIZE) buf) = hmac (psk p) (take (n - HMAC_SIZE) buf) /\
   abs_diff (header_ts (take HEADER_SIZE buf)) now <= REPLAY_WINDOW_SECS).
Proof.
  intros Hb E. destruct (decide (MIN_MESSAGE_SIZE <= n)%nat) as [Hn|Hn].
  - rewrite recv_one_slices in E by done. destruct (bool_decide _) eqn:Ed.
    + injection E as E. apply check_nonce_window in E as [? ?].
      apply bool_decide_eq_true in Ed. auto.
    + by injection E as <- <-.
  - unfold recv_one in E. destruct (Nat.ltb _ _) eqn:El; bool_to_prop; [|lia].
    by injection E as <- <-.
Qed.

Lemma recv_go_post (hmac : list byte -> list byte -> list byte) (evs : list RecvEvent)
    (attempts yields : Z) (p : UdpProtocol) (buf : list byte) :
  exists p' r y evs', recv_go hmac attempts yields p buf evs = Ok (p', r, y, evs') /\
    psk p' = psk p /\ recv_post hmac (psk p) evs evs' r.
Proof.
  revert attempts yields p buf; induction evs as [|ev evs IH]; intros attempts yields p buf;
    cbn [recv_go]; destruct (if 16 <? attempts + 1 then _ else _) as [att yie].
  { eexists _, _, _, _. split; [done|]. cbn. auto. }
  destruct ev as [data addr now|e].
  2: { eexists _, _, _, _. split; [done|]. split; [done|]. cbn. by left. }
  destruct (recv_from buf data) as [buf1 n] eqn:Er.
  pose proof (recv_from_length buf data) as [Hl1 Hn1]. rewrite Er in Hl1, Hn1. cbn in Hl1, Hn1.
  destruct (recv_one_no_panic hmac p buf1 n now ltac:(lia)) as (p1 & b & Ho).
  rewrite Ho. cbn [mbind outcome_bind].
  apply recv_one_post in Ho as [Hk Hacc]; [|lia]. destruct b.
  - eexists _, _, _, _. split; [done|]. split; [done|]. unfold recv_post.
    destruct (Hacc eq_refl) as (Hmin & Htag & Hwin). split; [lia|]. split; [done|].
    exists data, now. split; [by left|]. split; [|done].
    unfold recv_from in Er. injection Er as <- <-.
    rewrite take_app_le, take_take by (rewrite length_take; lia). f_equal. lia.
  - destruct (IH att yie p1 buf1) as (p2 & r & y & evs' & He & Hk2 & Hpost).
    exists p2, r, y, evs'. split; [done|]. split; [congruence|]. rewrite <- Hk.
    destruct r; unfold recv_post in *.
    + destruct Hpost as (? & ? & d & t & Hin & ? & ?). split; [done|]. split; [done|].
      exists d, t. split; [by right|done].
    + destruct Hpost as [-> Hf]. split; [done|]. constructor; [eauto|done].
    + by right.
Qed.

(** C4: on any sequence of datagrams [recv] returns without panicking, keeps
    the key, and a message it hands out is the prefix of a datagram that was
    delivered, carries the HMAC of everything before its tag under the key,
    and has a timestamp within the window of the clock. *)
Theorem recv_authentic (hmac : list byte -> list byte -> list byte) (p : UdpProtocol)
    (buf : list byte) (evs : list RecvEvent) :
  exists p' r y evs', recv hmac p buf evs = Ok (p', r, y, evs') /\
    psk p' = psk p /\ recv_post hmac (psk p) evs evs' r.
Proof. apply recv_go_post. Qed.

(** Handling a message leaves the manager and its lock as they are. *)
Lemma handle_message_quiet (json_type : list byte -> option string) {M R}
    (bpf : Mutex (BpfManager M R)) (buf : list byte) (n : nat) (addr : SocketAddr) (payload : list byte) :
  slice (E:=string) buf HEADER_SIZE (n - HMAC_SIZE) = Ok payload ->
  handle_message json_type bpf buf n addr = Ok (bpf, classify <$> json_type payload).
Proof.
  intros Hs. unfold handle_message. rewrite Hs. cbn [mbind outcome_bind].
  destruct (json_type payload) as [t|]; [|done]. cbn [fmap option_fmap option_map]. by destruct (classify t).
Qed.

Lemma recv_loop_deliveries (hmac : list byte -> list byte -> list byte)
    (Hh : forall k d, length (hmac k d) = HMAC_SIZE) (json_type : list byte -> option string)
    {M R} (bpf : Mutex (BpfManager M R)) (sender : UdpProtocol) (ds : list Delivery)
    (receiver : UdpProtocol) (buf : list byte) :
  psk sender = psk receiver -> Forall timely ds -> NoDup (nonce_of <$> ds) ->
  Forall (fun d => nonce_of d ∉ (nonces receiver).*1) ds ->
  Forall (fun d => (length (datagram hmac sender d) <= length buf)%nat) ds ->
  exists receiver', recv_loop hmac json_type (length ds) receiver bpf buf (deliver hmac sender <$> ds)
    = Ok (receiver', bpf, (fun d => classify <$> json_type (default [] (dl_json d))) <$> ds) /\
    psk receiver' = psk receiver.
Proof.
  revert receiver buf. induction ds as [|d ds IH]; intros receiver buf Hk Ht Hnd Hf Hl.
  { by exists receiver. }
  apply Forall_cons in Ht as [Htd Ht], Hf as [Hfd Hf], Hl as [Hld Hl].
  apply NoDup_cons in Hnd as [Hdn Hnd]. cbn [fmap list_fmap length recv_loop].
  destruct (recv_marshalled hmac Hh sender receiver d (deliver hmac sender <$> ds) buf Hk Htd Hfd Hld)
    as (r' & buf' & y & -> & Hk' & Hlen & Hs & Hn).
  rewrite (handle_message_quiet json_type bpf _ _ _ _ Hs). cbn [mbind outcome_bind].
  destruct (IH r' buf') as (r'' & -> & Hk''); [congruence|done|done| |by rewrite Hlen|].
  - apply Forall_forall. intros e He Hin. apply Hn in Hin as [Hin|E].
    + rewrite Forall_forall in Hf. by apply (Hf e).
    + apply Hdn. rewrite <- E. by apply list_elem_of_fmap_2.
  - exists r''. split; [done|congruence].
Qed.

(** Messages that arrive inside the window from peers with the same key,
    each with random bytes of its own that the receiver has not seen, are
    all handled by the receive loop, once each and in order, and each by the
    branch for the type its sender gave it; the BPF manager the loop holds is
    left as it was. *)
Theorem recv_loop_dispatches (hmac : list byte -> list byte -> list byte)
    (json_type : list byte -> option string) {M R} (bpf : Mutex (BpfManager M R))
    (sender receiver : UdpProtocol) (ds : list Delivery) (buf : list byte) :
  (forall k d, length (hmac k d) = HMAC_SIZE) -> psk sender = psk receiver ->
  Forall timely ds -> NoDup (dl_nonce <$> ds) ->
  Forall (fun d => nonce_of d ∉ (nonces receiver).*1) ds ->
  Forall (fun d => (length (datagram hmac sender d) <= length buf)%nat) ds ->
  exists receiver', recv_loop hmac json_type (length ds) receiver bpf buf (deliver hmac sender <$> ds)
    = Ok (receiver', bpf, (fun d => classify <$> json_type (default [] (dl_json d))) <$> ds) /\
    psk receiver' = psk receiver.
Proof.
  intros Hh Hk Ht Hnd Hf Hl. apply recv_loop_deliveries; try done. by apply nonces_NoDup.
Qed.

(** Two messages whose JSON is just their type. *)
Definition demo_deliveries : list Delivery :=
  [mkDelivery (Some (as_bytes "register")) 1000 (replicate 8 x01) (SockV4 (ipv4_new 192 0 2 1) 9527) 1001;
   mkDelivery (Some (as_bytes "hello")) 1000 (replicate 8 x02) (SockV4 (ipv4_new 192 0 2 2) 9527) 1002].

(** A manager with an empty route map. *)
Definition demo_quiet : Mutex (BpfManager bmap ring) := mkMutex false (demo_manager ∅).

Lemma recv_loop_dispatches_witness :
  exists receiver', recv_loop demo_mac (fun bs => Some (String.string_of_list_byte bs)) 2 (udp_new "psk")
      demo_quiet (replicate 100 x00) (deliver demo_mac (udp_new "psk") <$> demo_deliveries)
    = Ok (receiver', demo_quiet, [Some MsgRegister; Some (MsgUnknown "hello")]).
Proof.
  destruct (recv_loop_dispatches demo_mac (fun bs => Some (String.string_of_list_byte bs)) demo_quiet
    (udp_new "psk") (udp_new "psk") demo_deliveries (replicate 100 x00) demo_mac_length eq_refl) as (r & E & _).
  - repeat (constructor; [by vm_compute|]). constructor.
  - refine (bool_decide_unpack _ _). vm_compute. exact I.
  - repeat (constructor; [apply not_elem_of_nil|]). constructor.
  - repeat (constructor; [apply Nat.leb_le; vm_compute; reflexivity|]). constructor.
  - exists r. exact E.
Defined.
