(* ===== verification/Config.v ===== *)
(** * Configuration and shared state of the agent
      ([agent/src/lib.rs], [agent/src/reload.rs])

    [AgentConfig] with its defaults, [AgentState], the tasks that
    [spawn_all] starts, and the hot reload of the configuration file:
    [reload_config] and the event loop [watch_loop] around it. *)

From S2P Require Import Prelude Common NetAddr.

(** ** Data *)

Record SeedAddr := mkSeedAddr { seed_addr : string }.

Record VipBackendCfg := mkVipBackendCfg { vbc_vip : string; vbc_backends : list string }.

Record PortRule := mkPortRule {
  pr_source_ip : string;
  pr_port : Z;
  pr_protocol : string;
  pr_allow : bool
}.

Record AgentConfig := mkAgentConfig {
  node_overlay_ip : string;
  node_subnet : string;
  seeds : list SeedAddr;
  tunnel_vni : Z;
  tunnel_device : string;
  cfg_psk : string;
  stun_servers : list string;
  listen_port : Z;
  p2p_port : Z;
  stun_refresh_interval : Z;
  lazy_discovery : bool;
  route_miss_max_pending : Z;
  ipsec_enabled : bool;
  ipsec_spi : Z;
  ipsec_key : string;
  cni_bin_path : string;
  mtu : Z;
  vip_enabled : bool;
  vip_watch_list : list string;
  vip_backends : list VipBackendCfg;
  firewall_enabled : bool;
  cfg_default_policy : string;
  allowed_sources : list string;
  allowed_ports : list PortRule;
  metrics_port : Z
}.

(** [impl Default for AgentConfig] *)
Definition AgentConfig_default : AgentConfig :=
  mkAgentConfig "10.244.0.1" "10.244.1.0/24" [] 100 "gnv0" ""
    ["stun.l.google.com:19302"] 9527 0 120 true 256 false 4096 ""
    "/opt/cni/bin/nomad-p2p-cni" 1420 false [] [] false "allow" [] [] 9090.

Record AgentState := mkAgentState {
  cfg : AgentConfig;
  start_time : Z;
  nat_type : NatType;
  public_ip : Ipv4Addr;
  public_port : Z
}.

(** [AgentState::new(cfg)]; [now] is [Instant::now()] *)
Definition AgentState_new (now : Z) (c : AgentConfig) : AgentState :=
  mkAgentState c now Unknown (ipv4_new 0 0 0 0) (listen_port c).

Definition set_cfg (s : AgentState) (c : AgentConfig) : AgentState :=
  mkAgentState c (start_time s) (nat_type s) (public_ip s) (public_port s).
Definition set_nat_type (s : AgentState) (n : NatType) : AgentState :=
  mkAgentState (cfg s) (start_time s) n (public_ip s) (public_port s).
Definition set_public_ip (s : AgentState) (ip : Ipv4Addr) : AgentState :=
  mkAgentState (cfg s) (start_time s) (nat_type s) ip (public_port s).
Definition set_public_port (s : AgentState) (p : Z) : AgentState :=
  mkAgentState (cfg s) (start_time s) (nat_type s) (public_ip s) p.

(** ** The tasks of [AppContext::spawn_all] *)

Inductive Task :=
| MetricsServe (port : Z)
| ApiServer (port : Z)
| RecvLoop
| SeedHealthLoop
| StunRefreshLoop (interval : Z)
| RingbufConsumer
| DiscoveryLoop
| IpsecLoop
| VipProbeLoop
| ConfigWatchLoop.

#[global] Instance Task_eq_dec : EqDecision Task.
Proof. solve_decision. Defined.

(** [has_ipsec] is whether [run_agent] built an IPsec manager. *)
Definition spawn_all (c : AgentConfig) (has_ipsec : bool) : list Task :=
  (if 0 <? metrics_port c then [MetricsServe (metrics_port c)] else [])
  ++ [ApiServer 9091; RecvLoop; SeedHealthLoop; StunRefreshLoop (stun_refresh_interval c);
      RingbufConsumer; DiscoveryLoop]
  ++ (if has_ipsec then [IpsecLoop] else [])
  ++ (if vip_enabled c then [VipProbeLoop] else []).

(** ** Hot reload *)

Definition with_stun_servers (c : AgentConfig) (v : list string) : AgentConfig :=
  mkAgentConfig (node_overlay_ip c) (node_subnet c) (seeds c) (tunnel_vni c) (tunnel_device c)
    (cfg_psk c) v (listen_port c) (p2p_port c) (stun_refresh_interval c) (lazy_discovery c)
    (route_miss_max_pending c) (ipsec_enabled c) (ipsec_spi c) (ipsec_key c) (cni_bin_path c)
    (mtu c) (vip_enabled c) (vip_watch_list c) (vip_backends c) (firewall_enabled c)
    (cfg_default_policy c) (allowed_sources c) (allowed_ports c) (metrics_port c).

Definition with_vip_enabled (c : AgentConfig) (v : bool) : AgentConfig :=
  mkAgentConfig (node_overlay_ip c) (node_subnet c) (seeds c) (tunnel_vni c) (tunnel_device c)
    (cfg_psk c) (stun_servers c) (listen_port c) (p2p_port c) (stun_refresh_interval c)
    (lazy_discovery c) (route_miss_max_pending c) (ipsec_enabled c) (ipsec_spi c) (ipsec_key c)
    (cni_bin_path c) (mtu c) v (vip_watch_list c) (vip_backends c) (firewall_enabled c)
    (cfg_default_policy c) (allowed_sources c) (allowed_ports c) (metrics_port c).

Definition with_ipsec_enabled (c : AgentConfig) (v : bool) : AgentConfig :=
  mkAgentConfig (node_overlay_ip c) (node_subnet c) (seeds c) (tunnel_vni c) (tunnel_device c)
    (cfg_psk c) (stun_servers c) (listen_port c) (p2p_port c) (stun_refresh_interval c)
    (lazy_discovery c) (route_miss_max_pending c) v (ipsec_spi c) (ipsec_key c)
    (cni_bin_path c) (mtu c) (vip_enabled c) (vip_watch_list c) (vip_backends c)
    (firewall_enabled c) (cfg_default_policy c) (allowed_sources c) (allowed_ports c)
    (metrics_port c).

Definition with_firewall_enabled (c : AgentConfig) (v : bool) : AgentConfig :=
  mkAgentConfig (node_overlay_ip c) (node_subnet c) (seeds c) (tunnel_vni c) (tunnel_device c)
    (cfg_psk c) (stun_servers c) (listen_port c) (p2p_port c) (stun_refresh_interval c)
    (lazy_discovery c) (route_miss_max_pending c) (ipsec_enabled c) (ipsec_spi c) (ipsec_key c)
    (cni_bin_path c) (mtu c) (vip_enabled c) (vip_watch_list c) (vip_backends c) v
    (cfg_default_policy c) (allowed_sources c) (allowed_ports c) (metrics_port c).

Definition with_metrics_port (c : AgentConfig) (v : Z) : AgentConfig :=
  mkAgentConfig (node_overlay_ip c) (node_subnet c) (seeds c) (tunnel_vni c) (tunnel_device c)
    (cfg_psk c) (stun_servers c) (listen_port c) (p2p_port c) (stun_refresh_interval c)
    (lazy_discovery c) (route_miss_max_pending c) (ipsec_enabled c) (ipsec_spi c) (ipsec_key c)
    (cni_bin_path c) (mtu c) (vip_enabled c) (vip_watch_list c) (vip_backends c)
    (firewall_enabled c) (cfg_default_policy c) (allowed_sources c) (allowed_ports c) v.

(** The five guarded assignments of [reload_config]. *)
Definition apply_reload (c n : AgentConfig) : AgentConfig :=
  let c := if decide (stun_servers c = stun_servers n) then c
           else with_stun_servers c (stun_servers n) in
  let c := if decide (vip_enabled c = vip_enabled n) then c
           else with_vip_enabled c (vip_enabled n) in
  let c := if decide (ipsec_enabled c = ipsec_enabled n) then c
           else with_ipsec_enabled c (ipsec_enabled n) in
  let c := if decide (firewall_enabled c = firewall_enabled n) then c
           else with_firewall_enabled c (firewall_enabled n) in
  let c := if decide (metrics_port c = metrics_port n) then c
           else with_metrics_port c (metrics_port n) in
  c.

(** [reload_config]: [read_file] is the text of the configuration file or the
    I/O error, [parse] is serde_json's [from_str::<AgentConfig>]. *)
Definition reload_config (read_file : outcome string string)
    (parse : string -> outcome string AgentConfig) (s : AgentState)
    : AgentState * outcome string unit :=
  match read_file with
  | Ok data =>
      match parse data with
      | Ok new_cfg => (set_cfg s (apply_reload (cfg s) new_cfg), Ok tt)
      | Err e => (s, Err ("parse config: " +:+ e))
      | Panic => (s, Panic)
      end
  | Err e => (s, Err ("read config: " +:+ e))
  | Panic => (s, Panic)
  end.

(** What [rx.recv_timeout] gives the watch loop: the kind of a file event
    (with what reading the file then yields), a timeout, or that the watcher
    is gone. *)
Inductive WatchEvent :=
| EvModifyOrCreate (read_file : outcome string string)
| EvRemove
| EvOther
| EvTimeout
| EvDisconnected.

(** [watch_loop] after the watcher is installed, on a sequence of (value of
    [stop] at the head of the round, event, value of [stop] at the timeout):
    the state when the events are exhausted or the loop returned, and whether
    it returned. *)
Fixpoint watch_loop (parse : string -> outcome string AgentConfig)
    (evs : list (bool * WatchEvent * bool)) (s : AgentState) : AgentState * bool :=
  match evs with
  | [] => (s, false)
  | (stop, ev, stop') :: evs' =>
      if (stop : bool) then (s, true)
      else match ev with
           | EvModifyOrCreate f => watch_loop parse evs' (reload_config f parse s).1
           | EvRemove | EvOther => watch_loop parse evs' s
           | EvTimeout => if (stop' : bool) then (s, true) else watch_loop parse evs' s
           | EvDisconnected => (s, true)
           end
  end.

(** ** Lemmas *)

(** The reload takes five fields of the new configuration and keeps the
    rest of the old one. *)
Definition reload_spec (c n : AgentConfig) : AgentConfig :=
  with_metrics_port (with_firewall_enabled (with_ipsec_enabled (with_vip_enabled
    (with_stun_servers c (stun_servers n)) (vip_enabled n)) (ipsec_enabled n))
    (firewall_enabled n)) (metrics_port n).

(** An assignment guarded by an inequality test is the assignment. *)
Lemma guarded_set {A V} `{EqDecision V} (get : A -> V) (set : A -> V -> A) (c : A) (v : V) :
  set c (get c) = c -> (if decide (get c = v) then c else set c v) = set c v.
Proof. intros Hid. by case_decide; subst. Qed.

Lemma apply_reload_spec (c n : AgentConfig) : apply_reload c n = reload_spec c n.
Proof.
  unfold apply_reload, reload_spec. cbv zeta.
  rewrite (guarded_set stun_servers with_stun_servers) by (by destruct c).
  rewrite (guarded_set vip_enabled with_vip_enabled) by done.
  rewrite (guarded_set ipsec_enabled with_ipsec_enabled) by done.
  rewrite (guarded_set firewall_enabled with_firewall_enabled) by done.
  by rewrite (guarded_set metrics_port with_metrics_port).
Qed.

Lemma reload_spec_idem (c n : AgentConfig) : reload_spec (reload_spec c n) n = reload_spec c n.
Proof. destruct c, n. vm_compute. reflexivity. Qed.

(** ** Properties *)

(** A reload either fails and leaves the state untouched, or replaces
    exactly the five reloadable fields by those of the file, keeps every
    other field and all run-time state, and a second reload of the same file
    changes nothing. *)
Lemma reload_config_spec (read_file : outcome string string)
    (parse : string -> outcome string AgentConfig) (s : AgentState) :
  match read_file ≫= parse with
  | Ok n =>
      reload_config read_file parse s = (set_cfg s (reload_spec (cfg s) n), Ok tt) /\
      reload_config read_file parse (set_cfg s (reload_spec (cfg s) n))
      = (set_cfg s (reload_spec (cfg s) n), Ok tt)
  | _ => (reload_config read_file parse s).1 = s /\ (reload_config read_file parse s).2 <> Ok tt
  end.
Proof.
  unfold reload_config. destruct read_file as [d|e|]; cbn [mbind outcome_bind]; [|done..].
  destruct (parse d) as [n|e|]; [|done..]. rewrite !apply_reload_spec.
  split; [done|]. cbn [cfg set_cfg]. by rewrite reload_spec_idem.
Qed.

(** The fields a reload never touches, as a configuration whose reloadable
    fields are blanked. *)
Definition fixed_part (c : AgentConfig) : AgentConfig := reload_spec c AgentConfig_default.

Lemma reload_config_fixed (read_file : outcome string string)
    (parse : string -> outcome string AgentConfig) (s : AgentState) :
  exists c, (reload_config read_file parse s).1 = set_cfg s c /\
            fixed_part c = fixed_part (cfg s).
Proof.
  unfold reload_config. destruct read_file as [d|e|]; [destruct (parse d) as [n|e|]|..].
  1: { exists (reload_spec (cfg s) n). by rewrite apply_reload_spec. }
  all: exists (cfg s); by destruct s.
Qed.

(** The watch loop has returned whenever a round saw [stop] set or the watcher
    disconnect. *)
Lemma watch_loop_returns (parse : string -> outcome string AgentConfig)
    (evs : list (bool * WatchEvent * bool)) (s : AgentState) :
  (exists e b, (true, e, b) ∈ evs) \/ (exists a b, (a, EvDisconnected, b) ∈ evs) ->
  (watch_loop parse evs s).2 = true.
Proof.
  revert s; induction evs as [|[[stop ev] stop'] evs IH]; intros s Hev; cbn [watch_loop].
  { destruct Hev as [(? & ? & Hin)|(? & ? & Hin)]; inversion Hin. }
  destruct stop; [done|].
  assert (ev <> EvDisconnected -> forall s', (watch_loop parse evs s').2 = true) as Hrest.
  { intros Hne s'. apply IH. destruct Hev as [(e & b & Hin)|(a & b & Hin)]; [left|right]; eexists _, _;
      apply elem_of_cons in Hin as [[=]|Hin]; [exact Hin|by subst|exact Hin]. }
  destruct ev; try (by apply Hrest); [|done]. by destruct stop'; [|apply Hrest].
Qed.

Lemma fixed_part_policy (c c' : AgentConfig) :
  fixed_part c = fixed_part c' ->
  vip_backends c = vip_backends c' /\ vip_watch_list c = vip_watch_list c' /\
  allowed_sources c = allowed_sources c' /\ allowed_ports c = allowed_ports c' /\
  cfg_default_policy c = cfg_default_policy c'.
Proof. destruct c, c'. unfold fixed_part. cbn. intros E. by injection E. Qed.

Lemma watch_loop_fixed (parse : string -> outcome string AgentConfig)
    (evs : list (bool * WatchEvent * bool)) (s : AgentState) :
  exists c, (watch_loop parse evs s).1 = set_cfg s c /\ fixed_part c = fixed_part (cfg s).
Proof.
  revert s; induction evs as [|[[stop ev] stop'] evs IH]; intros s; cbn [watch_loop].
  { exists (cfg s). by destruct s. }
  assert (exists c, s = set_cfg s c /\ fixed_part c = fixed_part (cfg s)) as Hs
    by (exists (cfg s); by destruct s).
  destruct stop; [done|]. destruct ev as [f| | | |]; [|apply IH|apply IH|destruct stop'; [done|apply IH]|done].
  destruct (reload_config_fixed f parse s) as (c & Hc & Hf). rewrite Hc.
  destruct (IH (set_cfg s c)) as (c' & Hc' & Hf'). exists c'. by rewrite Hc', Hf'.
Qed.

(** C31: hot reload does not reach the policy: whatever files are written and
    read, the watch loop never changes the VIP backends, the watched VIPs, the
    allowed sources and ports or the default policy the agent works with, nor
    any of its run-time state. *)
Theorem reload_never_updates_policy (parse : string -> outcome string AgentConfig)
    (evs : list (bool * WatchEvent * bool)) (s : AgentState) :
  let s' := (watch_loop parse evs s).1 in
  vip_backends (cfg s') = vip_backends (cfg s) /\ vip_watch_list (cfg s') = vip_watch_list (cfg s) /\
  allowed_sources (cfg s') = allowed_sources (cfg s) /\ allowed_ports (cfg s') = allowed_ports (cfg s) /\
  cfg_default_policy (cfg s') = cfg_default_policy (cfg s) /\ s' = set_cfg s (cfg s').
Proof.
  destruct (watch_loop_fixed parse evs s) as (c & Hc & Hf). cbv zeta. rewrite Hc.
  apply fixed_part_policy in Hf as (? & ? & ? & ? & ?). by split_and!.
Qed.

Lemma elem_of_if {A} (b : bool) (x y : A) : x ∈ (if b then [y] else []) <-> b = true /\ x = y.
Proof. destruct b; rewrite ?list_elem_of_singleton, ?elem_of_nil; intuition congruence. Qed.

(** The API server, the UDP receiver, the seed, STUN and route tasks are
    always spawned, once each; the metrics, IPsec and VIP tasks exactly when
    configured; the configuration watcher is never spawned. *)
Lemma spawn_all_tasks (c : AgentConfig) (has_ipsec : bool) :
  let ts := spawn_all c has_ipsec in
  NoDup ts /\
  (forall t, t ∈ [ApiServer 9091; RecvLoop; SeedHealthLoop;
                  StunRefreshLoop (stun_refresh_interval c); RingbufConsumer; DiscoveryLoop] ->
             t ∈ ts) /\
  (forall p, MetricsServe p ∈ ts <-> 0 < metrics_port c /\ p = metrics_port c) /\
  (IpsecLoop ∈ ts <-> has_ipsec = true) /\ (VipProbeLoop ∈ ts <-> vip_enabled c = true) /\
  ConfigWatchLoop ∉ ts.
Proof.
  unfold spawn_all. cbv zeta. split.
  { destruct (0 <? metrics_port c), has_ipsec, (vip_enabled c); cbn [app];
      repeat (constructor; [rewrite ?elem_of_cons, ?elem_of_nil; intuition congruence|]);
      constructor. }
  setoid_rewrite elem_of_app. setoid_rewrite elem_of_app. setoid_rewrite elem_of_app.
  setoid_rewrite elem_of_if. setoid_rewrite elem_of_cons.
  split_and!; repeat setoid_rewrite elem_of_cons; setoid_rewrite elem_of_nil;
    intuition (try congruence); bool_to_prop; try lia; try congruence.
Qed.
