(* ===== verification/Stun.v ===== *)
(** * STUN: public endpoint discovery and NAT detection ([agent/src/stun.rs])

    The binding request, the response parser with its attribute loop, the
    two query functions over an environment that answers datagrams,
    [detect_nat_type], [discover] and the round of [refresh_loop].
    Indexing past the datagram panics, as in the source.  [Rfc5389] encodes
    responses the way the standard lays them out. *)

From S2P Require Import Prelude Common NetAddr Config.

Definition STUN_MAGIC_COOKIE : Z := 0x2112A442.

Record StunResult := mkStunResult { sr_public_ip : Ipv4Addr; sr_public_port : Z }.

#[global] Instance StunResult_eq_dec : EqDecision StunResult.
Proof. solve_decision. Defined.

(** ** The request *)

(** [req[off..off + bs.len()].copy_from_slice(bs)] *)
Definition copy_at (off : nat) (bs l : list byte) : list byte :=
  take off l ++ bs ++ drop (off + length bs) l.

(** The transaction id counts up from [first]: 1 in [query], 2 in
    [query_from_conn]. *)
Definition stun_request (first : Z) : list byte :=
  let req := replicate 20 x00 in
  let req := copy_at 0 (to_be_bytes 2 0x0001) req in
  let req := copy_at 4 (to_be_bytes 4 STUN_MAGIC_COOKIE) req in
  fold_left (fun r i => <[(8 + i)%nat := z2b (Z.of_nat i + first)]> r) (seq 0 12) req.

(** ** The response *)

(** [u16::from_be_bytes([data[i], data[j]])] *)
Definition be16_at (data : list byte) (i j : nat) : outcome string Z :=
  a ← idx data i; b ← idx data j; Ok (from_be_bytes [a; b]).

Definition xor8 (b : byte) (k : Z) : byte := z2b (Z.lxor (b2z b) k).

(** The body of the loop on an address attribute at [off]. *)
Definition read_address (data : list byte) (attr_type : Z) (off : nat) : outcome string StunResult :=
  port ← be16_at data (off + 4) (off + 5);
  a ← idx data (off + 6); b ← idx data (off + 7);
  c ← idx data (off + 8); d ← idx data (off + 9);
  if attr_type =? 0x0020 then
    Ok (mkStunResult (mkIpv4 (xor8 a 0x21) (xor8 b 0x12) (xor8 c 0xA4) (xor8 d 0x42))
          (Z.lxor port 0x2112))
  else Ok (mkStunResult (mkIpv4 a b c d) port).

(** The [while] loop from [off] to the message end [20 + len]; [None] is out
    of fuel.  Each round moves [off] by at least four. *)
Fixpoint attr_loop (fuel : nat) (data : list byte) (len off : nat) : option (outcome string StunResult) :=
  match fuel with
  | O => None
  | S f =>
      if Nat.leb (off + 4) (20 + len) then
        match (attr_type ← be16_at data off (off + 1);
               attr_len ← be16_at data (off + 2) (off + 3);
               Ok (attr_type, Z.to_nat attr_len)) with
        | Ok (attr_type, attr_len) =>
            if ((attr_type =? 0x0001) || (attr_type =? 0x0020)) && Nat.leb 8 attr_len
            then Some (read_address data attr_type off)
            else
              let off := (off + (4 + attr_len))%nat in
              let off := if Nat.eqb (attr_len mod 4) 0 then off
                         else (off + (4 - attr_len mod 4))%nat in
              attr_loop f data len off
        | Err e => Some (Err e)
        | Panic => Some Panic
        end
      else Some (Err "no mapped address")
  end%bool.

Definition parse_stun_response (data : list byte) : outcome string StunResult :=
  if Nat.ltb (length data) 20 then Err "too short"
  else
    msg_type ← be16_at data 0 1;
    if negb (msg_type =? 0x0101) then Err "not binding response"
    else
      len ← be16_at data 2 3;
      match attr_loop (S (Z.to_nat len)) data (Z.to_nat len) 20 with
      | Some r => r
      | None => Err "out of fuel"
      end.

(** ** Queries *)

(** The network as the queries use it: binding the socket, connecting it,
    and a request answered within the timeout (or an error). *)
Record StunNet := mkStunNet {
  net_bind : outcome string unit;
  net_connect : SocketAddr -> outcome string unit;
  net_exchange : SocketAddr -> list byte -> outcome string (list byte)
}.

Definition parse_server (server : string) : outcome string SocketAddr :=
  ok_or (parse_socket_addr server) "invalid socket address syntax".

Definition query (net : StunNet) (server : string) : outcome string StunResult :=
  _ ← net_bind net;
  remote ← parse_server server;
  _ ← net_connect net remote;
  buf ← net_exchange net remote (stun_request 1);
  parse_stun_response (take 1024 buf).

Definition query_from_conn (net : StunNet) (server : string) : outcome string StunResult :=
  remote ← parse_server server;
  buf ← net_exchange net remote (stun_request 2);
  parse_stun_response (take 1024 buf).

(** [detect_nat_type]; a panic inside a query propagates. *)
Definition detect_nat_type (net : StunNet) (servers : list string) : outcome string NatType :=
  match servers with
  | s0 :: s1 :: _ =>
      match net_bind net with
      | Ok _ =>
          match query_from_conn net s0 with
          | Panic => Panic
          | first =>
              match query_from_conn net s1 with
              | Panic => Panic
              | second =>
                  match first, second with
                  | Ok a, Ok b =>
                      if negb (sr_public_port a =? sr_public_port b) then Ok Symmetric else Ok Easy
                  | _, _ => Ok Unknown
                  end
              end
          end
      | Err _ => Ok Unknown
      | Panic => Panic
      end
  | _ => Ok Unknown
  end.

(** [*state.public_ip.write() = cfg.node_overlay_ip.parse()?] *)
Definition use_overlay_ip (s : AgentState) : AgentState * outcome string unit :=
  match parse_ipv4 (node_overlay_ip (cfg s)) with
  | Some ip => (set_public_ip s ip, Ok tt)
  | None => (s, Err "invalid IPv4 address syntax")
  end.

Definition discover (net : StunNet) (s : AgentState) : AgentState * outcome string unit :=
  match stun_servers (cfg s) with
  | [] => use_overlay_ip s
  | s0 :: _ =>
      let '(s1, r) :=
        match query net s0 with
        | Ok result =>
            (set_public_port (set_public_ip s (sr_public_ip result)) (sr_public_port result), Ok tt)
        | Err _ => use_overlay_ip s
        | Panic => (s, Panic)
        end in
      match r with
      | Ok _ =>
          match detect_nat_type net (stun_servers (cfg s)) with
          | Ok nat => (set_nat_type s1 nat, Ok tt)
          | Err e => (s1, Err e)
          | Panic => (s1, Panic)
          end
      | Err e => (s1, Err e)
      | Panic => (s1, Panic)
      end
  end.

(** A tick of [refresh_loop]: the new state and whether the change is logged;
    [None] for the second when [discover] panics, which ends the task. *)
Definition refresh_round (net : StunNet) (s : AgentState) : AgentState * option bool :=
  match discover net s with
  | (s', Panic) => (s', None)
  | (s', _) =>
      (s', Some (negb (bool_decide (public_ip s = public_ip s'))
                 || negb (public_port s =? public_port s'))%bool)
  end.

(** [refresh_loop]: one entry per tick, with [stop] at the head of the round,
    [stop] after the tick and the network at that time. *)
Fixpoint refresh_loop (ticks : list (bool * bool * StunNet)) (s : AgentState) : AgentState :=
  match ticks with
  | [] => s
  | (stop, stop', net) :: ticks' =>
      if ((stop : bool) || (stop' : bool))%bool then s
      else match refresh_round net s with
           | (s', Some _) => refresh_loop ticks' s'
           | (s', None) => s'
           end
  end.

(** ** Messages as a list of attributes *)

Record Attr := mkAttr { attr_type : Z; attr_value : list byte }.

Definition pad_len (n : nat) : nat := if Nat.eqb (n mod 4) 0 then 0 else (4 - n mod 4).

Definition attr_bytes (a : Attr) : list byte :=
  to_be_bytes 2 (attr_type a) ++ to_be_bytes 2 (Z.of_nat (length (attr_value a)))
  ++ attr_value a ++ replicate (pad_len (length (attr_value a))) x00.

Definition attrs_bytes (l : list Attr) : list byte := concat (map attr_bytes l).

(** A binding success response with the given attributes. *)
Definition stun_message (txid : list byte) (l : list Attr) : list byte :=
  to_be_bytes 2 0x0101 ++ to_be_bytes 2 (Z.of_nat (length (attrs_bytes l)))
  ++ to_be_bytes 4 STUN_MAGIC_COOKIE ++ txid ++ attrs_bytes l.

Definition wf_attr (a : Attr) : Prop := in_bytes 2 (attr_type a) /\ Z.of_nat (length (attr_value a)) < 65536.

Definition is_address (a : Attr) : bool :=
  ((attr_type a =? 0x0001) || (attr_type a =? 0x0020)) && Nat.leb 8 (length (attr_value a)).

(** The code's reading of an attribute that is alone in its buffer. *)
Definition read_attr (a : Attr) : outcome string StunResult :=
  read_address (replicate 4 x00 ++ attr_value a) (attr_type a) 0.

(** An address attribute in the layout the code expects: the port first, then
    the four bytes of the address (both XORed with the magic cookie in the
    XOR form), then anything. *)
Definition code_address (xored : bool) (ip : Ipv4Addr) (port : Z) (more : list byte) : Attr :=
  if xored
  then mkAttr 0x0020 (to_be_bytes 2 (Z.lxor port 0x2112)
         ++ [xor8 (oct1 ip) 0x21; xor8 (oct2 ip) 0x12; xor8 (oct3 ip) 0xA4; xor8 (oct4 ip) 0x42] ++ more)
  else mkAttr 0x0001 (to_be_bytes 2 port ++ octets ip ++ more).

(** ** The attribute layout of RFC 5389 *)
Module Rfc5389.

(** Section 15.2: a zero byte, the family (1 for IPv4), the port and the
    address, both XORed with the magic cookie. *)
Definition xor_mapped_address (ip : Ipv4Addr) (port : Z) : Attr :=
  mkAttr 0x0020
    ([x00; x01] ++ to_be_bytes 2 (Z.lxor port 0x2112)
     ++ [xor8 (oct1 ip) 0x21; xor8 (oct2 ip) 0x12; xor8 (oct3 ip) 0xA4; xor8 (oct4 ip) 0x42]).

Definition response (txid : list byte) (ip : Ipv4Addr) (port : Z) : list byte :=
  stun_message txid [xor_mapped_address ip port].

End Rfc5389.

(** ** Lemmas on the parser *)

Lemma idx_ext {E A} (l1 l2 : list A) (i j : nat) :
  l1 !! i = l2 !! j -> idx (E:=E) l1 i = idx l2 j.
Proof. unfold idx. by intros ->. Qed.

Lemma be16_at_ext (d1 d2 : list byte) (i j i' j' : nat) :
  d1 !! i = d2 !! i' -> d1 !! j = d2 !! j' -> be16_at d1 i j = be16_at d2 i' j'.
Proof. intros Hi Hj. unfold be16_at. by rewrite (idx_ext d1 d2 i i'), (idx_ext d1 d2 j j'). Qed.

Lemma read_address_ext (d1 d2 : list byte) (t : Z) (o1 o2 : nat) :
  (forall k, (4 <= k <= 9)%nat -> d1 !! (o1 + k)%nat = d2 !! (o2 + k)%nat) ->
  read_address d1 t o1 = read_address d2 t o2.
Proof.
  intros Hk. unfold read_address.
  rewrite (be16_at_ext d1 d2 (o1 + 4) (o1 + 5) (o2 + 4) (o2 + 5)) by (apply Hk; lia).
  rewrite (idx_ext d1 d2 (o1 + 6) (o2 + 6)), (idx_ext d1 d2 (o1 + 7) (o2 + 7)),
    (idx_ext d1 d2 (o1 + 8) (o2 + 8)), (idx_ext d1 d2 (o1 + 9) (o2 + 9)) by (apply Hk; lia).
  done.
Qed.

Lemma lookup_app_shift {A} (pre l : list A) (k : nat) : (pre ++ l) !! (length pre + k)%nat = l !! k.
Proof. rewrite lookup_app_r by lia. f_equal. lia. Qed.

(** Reading a big-endian 16-bit field behind a prefix. *)
Lemma be16_at_field (pre rest : list byte) (z : Z) (i : nat) :
  length pre = i -> in_bytes 2 z ->
  be16_at (pre ++ to_be_bytes 2 z ++ rest) i (i + 1) = Ok z.
Proof.
  intros <- Hz. pose proof (length_to_be_bytes 2 z) as Hl.
  pose proof (from_to_be_bytes 2 z Hz) as Hf.
  destruct (to_be_bytes 2 z) as [|a [|b [|? ?]]]; try done.
  unfold be16_at, idx. cbn [app]. rewrite (list_lookup_middle pre (b :: rest) a (length pre)) by done.
  rewrite lookup_app_shift. cbn. by rewrite Hf.
Qed.

Lemma length_attr_bytes (a : Attr) :
  length (attr_bytes a) = (4 + length (attr_value a) + pad_len (length (attr_value a)))%nat.
Proof. unfold attr_bytes. rewrite !length_app, length_replicate, !length_to_be_bytes. lia. Qed.

(** The header of an attribute at [off] behind a prefix. *)
Lemma attr_header (pre rest : list byte) (a : Attr) :
  wf_attr a ->
  be16_at (pre ++ attr_bytes a ++ rest) (length pre) (length pre + 1) = Ok (attr_type a) /\
  be16_at (pre ++ attr_bytes a ++ rest) (length pre + 2) (length pre + 3)
  = Ok (Z.of_nat (length (attr_value a))).
Proof.
  intros [Ht Hv]. unfold attr_bytes. rewrite <- !app_assoc. split.
  - by apply be16_at_field.
  - rewrite app_assoc. replace (length pre + 3)%nat with (length pre + 2 + 1)%nat by lia.
    apply be16_at_field; [by rewrite length_app, length_to_be_bytes|].
    unfold in_bytes. change (256 ^ Z.of_nat 2) with 65536. lia.
Qed.

Lemma read_address_attr (pre rest : list byte) (a : Attr) :
  (8 <= length (attr_value a))%nat ->
  read_address (pre ++ attr_bytes a ++ rest) (attr_type a) (length pre) = read_attr a.
Proof.
  intros Hl. apply read_address_ext. intros k Hk. rewrite lookup_app_shift. unfold attr_bytes.
  rewrite <- !app_assoc, app_assoc.
  rewrite lookup_app_r by (rewrite length_app, !length_to_be_bytes; lia).
  rewrite length_app, !length_to_be_bytes, lookup_app_l by lia.
  by rewrite (lookup_app_r (replicate 4 x00)) by (rewrite length_replicate; lia).
Qed.

(** The loop over well-formed attributes finds the first address attribute. *)
Lemma attr_loop_attrs (l : list Attr) (pre : list byte) (len fuel : nat) :
  Forall wf_attr l -> (20 + len = length pre + length (attrs_bytes l))%nat ->
  (length (attrs_bytes l) < fuel)%nat ->
  attr_loop fuel (pre ++ attrs_bytes l) len (length pre) =
  Some (match List.find is_address l with
        | Some a => read_attr a
        | None => Err "no mapped address"
        end).
Proof.
  intros Hwf. revert pre fuel; induction Hwf as [|a l Ha Hwf IH]; intros pre fuel Hlen Hf;
    (destruct fuel as [|fuel]; [lia|]); cbn [attr_loop].
  { destruct (Nat.leb _ _) eqn:E; bool_to_prop; [cbn in Hlen; lia|done]. }
  change (attrs_bytes (a :: l)) with (attr_bytes a ++ attrs_bytes l) in *.
  rewrite length_app, length_attr_bytes in Hlen, Hf.
  destruct (Nat.leb _ _) eqn:E; bool_to_prop; [|lia].
  destruct (attr_header pre (attrs_bytes l) a Ha) as [-> ->]. cbn [mbind outcome_bind].
  rewrite Nat2Z.id. cbn [List.find]. fold (is_address a).
  destruct (is_address a) eqn:Eadr.
  { f_equal. apply read_address_attr. unfold is_address in Eadr. bool_to_prop. lia. }
  cbv zeta. rewrite app_assoc.
  replace (if Nat.eqb (length (attr_value a) mod 4) 0 then _ else _)
    with (length (pre ++ attr_bytes a)).
  2: { rewrite length_app, length_attr_bytes. unfold pad_len.
       destruct (Nat.eqb _ 0); lia. }
  apply IH; [rewrite length_app, length_attr_bytes; lia|lia].
Qed.

(** Every round moves on by four bytes or more, so the fuel given by
    [parse_stun_response] never runs out. *)
Lemma attr_loop_fuel (data : list byte) (len off fuel : nat) :
  (20 + len - off < fuel)%nat -> is_Some (attr_loop fuel data len off).
Proof.
  revert off; induction fuel as [|f IH]; intros off Hf; [lia|]. cbn [attr_loop].
  destruct (Nat.leb _ _) eqn:E; bool_to_prop; [|eauto].
  destruct (_ ≫= _) as [[t n]|e|]; [|eauto..].
  destruct (_ && _)%bool; [eauto|]. apply IH. destruct (Nat.eqb _ 0); lia.
Qed.

Lemma be16_at_range (data : list byte) (i j : nat) (z : Z) :
  be16_at data i j = Ok z -> in_bytes 2 z.
Proof.
  unfold be16_at. destruct (idx data i) as [a|e|]; [|done..].
  destruct (idx data j) as [b|e|]; [|done..]. cbn [mbind outcome_bind].
  intros [= <-]. exact (from_be_bytes_range [a; b]).
Qed.

Lemma stun_message_header (txid : list byte) (l : list Attr) :
  length txid = 12%nat -> Z.of_nat (length (attrs_bytes l)) < 65536 ->
  exists pre, stun_message txid l = pre ++ attrs_bytes l /\ length pre = 20%nat /\
    be16_at (stun_message txid l) 0 1 = Ok 0x0101 /\
    be16_at (stun_message txid l) 2 3 = Ok (Z.of_nat (length (attrs_bytes l))).
Proof.
  intros Ht Hl. eexists. split; [unfold stun_message; by rewrite !app_assoc|].
  split; [by rewrite !length_app, !length_to_be_bytes, Ht|]. split.
  - apply (be16_at_field [] _ 0x0101 0); done.
  - unfold stun_message. rewrite (app_assoc (to_be_bytes 2 257)).
    rewrite <- (app_assoc (to_be_bytes 2 257)).
    apply (be16_at_field (to_be_bytes 2 0x0101) _ _ 2); [done|].
    unfold in_bytes. change (256 ^ Z.of_nat 2) with 65536. lia.
Qed.

Lemma parse_stun_message (txid : list byte) (l : list Attr) :
  length txid = 12%nat -> Forall wf_attr l -> Z.of_nat (length (attrs_bytes l)) < 65536 ->
  parse_stun_response (stun_message txid l) =
  match List.find is_address l with
  | Some a => read_attr a
  | None => Err "no mapped address"
  end.
Proof.
  intros Ht Hwf Hl. destruct (stun_message_header txid l Ht Hl) as (pre & Hm & Hp & H0 & H2).
  unfold parse_stun_response. rewrite H0, H2. cbn [mbind outcome_bind].
  destruct (Nat.ltb _ _) eqn:E; bool_to_prop; [rewrite Hm, length_app in E; lia|].
  cbn [Z.eqb Pos.eqb negb]. rewrite Nat2Z.id, Hm.
  pose proof (attr_loop_attrs l pre (length (attrs_bytes l)) (S (length (attrs_bytes l))) Hwf) as Hloop.
  rewrite Hp in Hloop. by rewrite Hloop by lia.
Qed.

(** The loop's only error is that no address was found. *)
Lemma attr_loop_errors (fuel : nat) (data : list byte) (len off : nat) (e : string) :
  attr_loop fuel data len off = Some (Err e) -> e = "no mapped address".
Proof.
  assert (forall i j e', be16_at data i j <> Err e') as Hb.
  { intros i j e'. unfold be16_at, idx. destruct (data !! i), (data !! j); cbn; congruence. }
  assert (forall t o e', read_address data t o <> Err e') as Hr.
  { intros t o e'. unfold read_address, mbind, outcome_bind.
    destruct (be16_at data (o + 4) (o + 5)) as [?|?|] eqn:E; [|by apply Hb in E|done].
    unfold idx. repeat case_match; congruence. }
  revert off; induction fuel as [|f IH]; intros off; [done|]. cbn [attr_loop].
  destruct (Nat.leb _ _); [|congruence].
  destruct (be16_at data off (off + 1)) as [t|?|] eqn:E1; cbn [mbind outcome_bind];
    [|by apply Hb in E1|done].
  destruct (be16_at data (off + 2) (off + 3)) as [n|?|] eqn:E2; cbn [mbind outcome_bind];
    [|by apply Hb in E2|done].
  destruct (_ && _)%bool; [|apply IH]. intros [= Ee]. by apply Hr in Ee.
Qed.

(** ** Properties *)

Lemma lxor_range (a b n : Z) : 0 <= n -> 0 <= a < 2 ^ n -> 0 <= b < 2 ^ n -> 0 <= Z.lxor a b < 2 ^ n.
Proof.
  intros Hn Ha Hb. split; [apply Z.lxor_nonneg; lia|].
  rewrite <- (Z.mod_small (Z.lxor a b) (2 ^ n) ); [apply Z.mod_pos_bound; lia|].
  rewrite <- (Z.mod_small a (2 ^ n)), <- (Z.mod_small b (2 ^ n)) by lia.
  rewrite <- !Z.land_ones by done.
  replace (Z.lxor (Z.land a (Z.ones n)) (Z.land b (Z.ones n))) with (Z.land (Z.lxor a b) (Z.ones n)).
  - rewrite Z.land_ones by done. apply Z.mod_pos_bound. lia.
  - apply Z.bits_inj'. intros k _. rewrite Z.land_spec, !Z.lxor_spec, !Z.land_spec.
    by destruct (Z.testbit a k), (Z.testbit b k), (Z.testbit (Z.ones n) k).
Qed.

Lemma xor8_xor8 (b : byte) (k : Z) : 0 <= k < 256 -> xor8 (xor8 b k) k = b.
Proof.
  intros Hk. unfold xor8. pose proof (lxor_range (b2z b) k 8 ltac:(lia) (b2z_range b) Hk) as Hr.
  rewrite (b2z_z2b (Z.lxor (b2z b) k)) by exact Hr.
  rewrite Z.lxor_assoc, Z.lxor_nilpotent, Z.lxor_0_r. apply z2b_b2z.
Qed.

(** The code decodes its own layout. *)
Lemma read_code_address (xored : bool) (ip : Ipv4Addr) (port : Z) (more : list byte) :
  in_bytes 2 port -> read_attr (code_address xored ip port more) = Ok (mkStunResult ip port).
Proof.
  intros Hp. unfold read_attr, code_address, read_address, be16_at.
  assert (in_bytes 2 (Z.lxor port 0x2112)) as Hx by (apply (lxor_range port 0x2112 16); [lia|exact Hp|lia]).
  destruct xored; cbn [attr_value attr_type].
  - pose proof (length_to_be_bytes 2 (Z.lxor port 0x2112)) as Hl.
    pose proof (from_to_be_bytes 2 _ Hx) as Hf.
    destruct (to_be_bytes 2 (Z.lxor port 0x2112)) as [|p0 [|p1 [|? ?]]]; try done.
    cbn [app idx lookup replicate]. unfold idx. cbn -[Z.lxor from_be_bytes xor8].
    rewrite !xor8_xor8 by lia. rewrite Hf, Z.lxor_assoc, Z.lxor_nilpotent, Z.lxor_0_r. by destruct ip.
  - pose proof (length_to_be_bytes 2 port) as Hl. pose proof (from_to_be_bytes 2 _ Hp) as Hf.
    destruct (to_be_bytes 2 port) as [|p0 [|p1 [|? ?]]]; try done.
    unfold idx. cbn -[from_be_bytes]. rewrite Hf. by destruct ip.
Qed.

(** C21: the parser finds the address in a binding response whatever attributes
    (with their padding) surround it: the first attribute of an address type
    with eight bytes or more is decoded, in the layout the code expects, to
    exactly the address and port that were put in, both as MAPPED-ADDRESS and
    as XOR-MAPPED-ADDRESS; and without such an attribute the result is the
    error "no mapped address". *)
Theorem stun_parse_roundtrip (txid : list byte) (before after : list Attr) (xored : bool)
    (ip : Ipv4Addr) (port : Z) (more : list byte) :
  let a := code_address xored ip port more in
  length txid = 12%nat -> Forall wf_attr (before ++ a :: after) ->
  Z.of_nat (length (attrs_bytes (before ++ a :: after))) < 65536 ->
  Forall (fun x => is_address x = false) before -> 0 <= port <= u16_max -> (2 <= length more)%nat ->
  parse_stun_response (stun_message txid (before ++ a :: after)) = Ok (mkStunResult ip port) /\
  parse_stun_response (stun_message txid before) = Err "no mapped address".
Proof.
  intros a Ht Hwf Hl Hb Hp Hm.
  assert (forall l, List.find is_address (before ++ l) = List.find is_address l) as Hskip.
  { intros l. clear -Hb. induction Hb as [|x before Hx _ IH]; [done|]. cbn [app List.find]. by rewrite Hx. }
  assert (is_address a = true) as Ha.
  { unfold a, code_address, is_address.
    destruct xored; cbn [attr_type attr_value]; rewrite !length_app, length_to_be_bytes; cbn [length octets];
      apply andb_true_iff; (split; [done|apply Nat.leb_le; lia]). }
  pose proof Hwf as [Hwf1 _]%Forall_app.
  rewrite parse_stun_message, Hskip by done. cbn [List.find]. rewrite Ha. split.
  - apply read_code_address. unfold in_bytes, u16_max in *. change (256 ^ Z.of_nat 2) with 65536. lia.
  - assert (length (attrs_bytes (before ++ a :: after))
      = length (attrs_bytes before) + length (attrs_bytes (a :: after)))%nat as Hla.
    { unfold attrs_bytes. by rewrite List.map_app, List.concat_app, length_app. }
    rewrite parse_stun_message by (try done; lia).
    by rewrite <- (app_nil_r before), Hskip.
Qed.

Lemma stun_parse_roundtrip_witness :
  parse_stun_response
    (stun_message (replicate 12 x07)
       ([mkAttr 0x8022 [x61; x62; x63; x64; x65]; mkAttr 1 [x1f; x90]]
        ++ code_address true (ipv4_new 203 0 113 7) 40000 [x00; x00] :: [mkAttr 0x8028 [x01; x02; x03]]))
  = Ok (mkStunResult (ipv4_new 203 0 113 7) 40000).
Proof.
  apply (stun_parse_roundtrip (replicate 12 x07)
    [mkAttr 0x8022 [x61; x62; x63; x64; x65]; mkAttr 1 [x1f; x90]] [mkAttr 0x8028 [x01; x02; x03]]
    true (ipv4_new 203 0 113 7) 40000 [x00; x00]);
    [reflexivity|repeat constructor; vm_compute; done|vm_compute; reflexivity|repeat constructor
    |vm_compute; split; discriminate|cbn; lia].
Defined.

(** Every access of the loop is at most nine bytes after an offset from which
    four bytes are announced. *)
Lemma attr_loop_no_panic (fuel : nat) (data : list byte) (len off : nat) :
  (26 + len <= length data)%nat -> attr_loop fuel data len off <> Some Panic.
Proof.
  intros Hl. revert off. induction fuel as [|f IH]; intros off; [done|]. cbn [attr_loop].
  destruct (Nat.leb _ _) eqn:E; bool_to_prop; [|done].
  assert (forall k, (k <= 9)%nat -> exists b, idx (E:=string) data (off + k)%nat = Ok b) as Hidx.
  { intros k Hk. destruct (idx_ok (E:=string) data (off + k)) as (b & Hb & _); [lia|]. by exists b. }
  unfold be16_at. destruct (Hidx 0%nat) as [b0 H0]; [lia|]. rewrite Nat.add_0_r in H0.
  destruct (Hidx 1%nat) as [b1 H1]; [lia|]. destruct (Hidx 2%nat) as [b2 H2]; [lia|].
  destruct (Hidx 3%nat) as [b3 H3]; [lia|]. rewrite H0, H1, H2, H3. cbn [mbind outcome_bind].
  destruct (_ && _)%bool; [|apply IH]. unfold read_address, be16_at.
  destruct (Hidx 4%nat) as [b4 ->]; [lia|]. destruct (Hidx 5%nat) as [b5 ->]; [lia|].
  destruct (Hidx 6%nat) as [b6 ->]; [lia|]. destruct (Hidx 7%nat) as [b7 ->]; [lia|].
  destruct (Hidx 8%nat) as [b8 ->]; [lia|]. destruct (Hidx 9%nat) as [b9 ->]; [lia|].
  cbn [mbind outcome_bind]. by destruct (_ =? 32).
Qed.

(** C22: the parser terminates on every datagram (the attribute loop ends
    within the fuel given), and it panics only on a datagram that has fewer
    than six bytes after the attributes its header announces. *)
Theorem stun_parse_total (data : list byte) :
  parse_stun_response data <> Err "out of fuel" /\
  (parse_stun_response data = Panic ->
   exists len, be16_at data 2 3 = Ok len /\ Z.of_nat (length data) < 26 + len).
Proof.
  assert (forall i j e, be16_at data i j <> Err e) as Hno.
  { intros i j e E. unfold be16_at, idx in E. by case_hyp E. }
  assert (forall i, (i <= 3)%nat -> (20 <= length data)%nat -> be16_at data i (S i) <> Panic) as Hin.
  { intros i Hi Hl. unfold be16_at.
    destruct (idx_ok (E:=string) data i) as (a & -> & _); [lia|].
    destruct (idx_ok (E:=string) data (S i)) as (b & -> & _); [lia|]. done. }
  unfold parse_stun_response. destruct (Nat.ltb _ _) eqn:El; bool_to_prop; [by split|].
  destruct (be16_at data 0 1) as [t|e|] eqn:E0; cbn [mbind outcome_bind];
    [|by destruct (Hno _ _ _ E0)|by destruct (Hin 0%nat ltac:(lia) El)].
  destruct (negb _); [by split|]. destruct (be16_at data 2 3) as [len|e|] eqn:E2;
    cbn [mbind outcome_bind]; [|by destruct (Hno _ _ _ E2)|by destruct (Hin 2%nat ltac:(lia) El)].
  destruct (attr_loop_fuel data (Z.to_nat len) 20 (S (Z.to_nat len))) as [r Hr]; [lia|].
  rewrite Hr. split.
  - intros ->. by apply attr_loop_errors in Hr.
  - intros ->. exists len. split; [done|]. apply be16_at_range in E2 as [H0 _].
    apply Z.nle_gt. intros Hle. refine (attr_loop_no_panic _ data (Z.to_nat len) 20 _ Hr). lia.
Qed.

(** An announced attribute that is not there. *)
Lemma attr_loop_truncated (l : list Attr) (pre : list byte) (len fuel : nat) :
  Forall wf_attr l -> Forall (fun a => is_address a = false) l ->
  (length pre + length (attrs_bytes l) + 4 <= 20 + len)%nat ->
  (length (attrs_bytes l) < fuel)%nat ->
  attr_loop fuel (pre ++ attrs_bytes l) len (length pre) = Some Panic.
Proof.
  intros Hwf Hna. revert pre fuel; induction Hwf as [|a l Ha Hwf IH]; intros pre fuel Hlen Hf;
    (destruct fuel as [|fuel]; [lia|]); cbn [attr_loop].
  - cbn [attrs_bytes map concat length] in *. rewrite app_nil_r.
    destruct (Nat.leb _ _) eqn:E; bool_to_prop; [|lia].
    unfold be16_at. by rewrite (proj2 (idx_panic_iff pre (length pre))) by lia.
  - inversion_clear Hna as [|? ? Hna0 Hna'].
    change (attrs_bytes (a :: l)) with (attr_bytes a ++ attrs_bytes l) in *.
    rewrite length_app, length_attr_bytes in Hlen, Hf.
    destruct (Nat.leb _ _) eqn:E; bool_to_prop; [|lia].
    destruct (attr_header pre (attrs_bytes l) a Ha) as [-> ->]. cbn [mbind outcome_bind].
    rewrite Nat2Z.id. fold (is_address a). rewrite Hna0. cbv zeta. rewrite app_assoc.
    replace (if Nat.eqb (length (attr_value a) mod 4) 0 then _ else _) with (length (pre ++ attr_bytes a)).
    2: { rewrite length_app, length_attr_bytes. unfold pad_len. destruct (Nat.eqb _ 0); lia. }
    apply IH; [done|rewrite length_app, length_attr_bytes; lia|lia].
Qed.

(** A datagram that ends at the end of an attribute although its header
    announces at least four bytes more makes the parser panic, whatever
    attributes without an address it has: one such response ends the task
    that refreshes the public endpoint. *)
Theorem stun_truncated_panics (txid : list byte) (l : list Attr) (len : Z) :
  length txid = 12%nat -> Forall wf_attr l -> Forall (fun a => is_address a = false) l ->
  Z.of_nat (length (attrs_bytes l)) + 4 <= len < 65536 ->
  parse_stun_response (to_be_bytes 2 0x0101 ++ to_be_bytes 2 len ++ to_be_bytes 4 STUN_MAGIC_COOKIE
                       ++ txid ++ attrs_bytes l) = Panic.
Proof.
  intros Ht Hwf Hna Hl.
  assert (in_bytes 2 len) as Hb by (unfold in_bytes; change (256 ^ Z.of_nat 2) with 65536; lia).
  unfold parse_stun_response.
  pose proof (be16_at_field [] (to_be_bytes 2 len ++ to_be_bytes 4 STUN_MAGIC_COOKIE ++ txid ++ attrs_bytes l)
    0x0101 0 eq_refl ltac:(done)) as H0.
  pose proof (be16_at_field (to_be_bytes 2 0x0101) (to_be_bytes 4 STUN_MAGIC_COOKIE ++ txid ++ attrs_bytes l)
    len 2 eq_refl Hb) as H2. cbn [app] in H0. cbn [Nat.add] in H0, H2.
  destruct (Nat.ltb _ _) eqn:E; bool_to_prop;
    [rewrite !length_app, !length_to_be_bytes, Ht in E; lia|].
  rewrite H0. cbn [mbind outcome_bind]. cbn [Z.eqb Pos.eqb negb]. rewrite H2. cbn [mbind outcome_bind].
  pose proof (attr_loop_truncated l (to_be_bytes 2 0x0101 ++ to_be_bytes 2 len
    ++ to_be_bytes 4 STUN_MAGIC_COOKIE ++ txid) (Z.to_nat len) (S (Z.to_nat len)) Hwf Hna) as Hloop.
  rewrite !length_app, !length_to_be_bytes, Ht, <- !app_assoc in Hloop. cbn [Nat.add] in Hloop.
  by rewrite Hloop by lia.
Qed.

Lemma stun_truncated_panics_witness :
  parse_stun_response (to_be_bytes 2 0x0101 ++ to_be_bytes 2 24 ++ to_be_bytes 4 STUN_MAGIC_COOKIE
     ++ replicate 12 x07 ++ attrs_bytes [mkAttr 0x8022 [x61; x62; x63; x64; x65]]) = Panic.
Proof.
  apply (stun_truncated_panics (replicate 12 x07) [mkAttr 0x8022 [x61; x62; x63; x64; x65]] 24);
    [reflexivity| |repeat constructor|vm_compute; split; [discriminate|reflexivity]].
  repeat constructor; vm_compute; done.
Defined.

Lemma rfc_attr_wf (ip : Ipv4Addr) (port : Z) : Forall wf_attr [Rfc5389.xor_mapped_address ip port].
Proof.
  apply Forall_singleton. unfold wf_attr, Rfc5389.xor_mapped_address.
  cbn [attr_type attr_value]. rewrite !length_app, length_to_be_bytes.
  split; [split; vm_compute; congruence|done].
Qed.

Lemma rfc_attr_length (ip : Ipv4Addr) (port : Z) :
  length (attrs_bytes [Rfc5389.xor_mapped_address ip port]) = 12%nat.
Proof.
  unfold attrs_bytes. cbn [map concat]. rewrite app_nil_r, length_attr_bytes.
  cbn [attr_value Rfc5389.xor_mapped_address]. rewrite !length_app, length_to_be_bytes. done.
Qed.

Lemma xor8_twice (b : byte) (j k : Z) :
  0 <= j < 256 -> 0 <= k < 256 -> xor8 (xor8 b j) k = xor8 b (Z.lxor j k).
Proof.
  intros Hj Hk. unfold xor8. pose proof (lxor_range (b2z b) j 8 ltac:(lia) (b2z_range b) Hj) as Hr.
  rewrite (b2z_z2b (Z.lxor (b2z b) j)) by exact Hr. by rewrite Z.lxor_assoc.
Qed.

(** XOR of a big-endian field, byte by byte. *)
Lemma to_be_bytes_xor (port : Z) :
  in_bytes 2 port ->
  to_be_bytes 2 (Z.lxor port 0x2112)
  = [xor8 (z2b (port / 256)) 0x21; xor8 (z2b port) 0x12].
Proof.
  intros [H0 H1]. change (256 ^ Z.of_nat 2) with 65536 in H1.
  change (to_be_bytes 2 ?z) with [z2b (z / 256); z2b z]. unfold xor8.
  assert (Z.lxor port 0x2112 / 256 = Z.lxor (port / 256) 0x21) as ->.
  { change 256 with (2 ^ 8). rewrite <- !Z.shiftr_div_pow2 by lia. by rewrite Z.shiftr_lxor. }
  rewrite (b2z_z2b (port / 256)) by (split; [apply Z.div_pos; lia|apply Z.div_lt_upper_bound; lia]).
  f_equal. f_equal. apply (inj b2z). rewrite !b2z_z2b_mod. change 256 with (2 ^ 8).
  apply Z.bits_inj'. intros k Hk. destruct (decide (k < 8)).
  - rewrite !Z.mod_pow2_bits_low, !Z.lxor_spec, Z.mod_pow2_bits_low by lia.
    assert (k = 0 \/ k = 1 \/ k = 2 \/ k = 3 \/ k = 4 \/ k = 5 \/ k = 6 \/ k = 7) as Hcases by lia.
    by repeat destruct Hcases as [->|Hcases]; [..|subst k].
  - by rewrite !Z.mod_pow2_bits_high by lia.
Qed.

(** What the code makes of a response of the standard. *)
Lemma rfc_response_read (txid : list byte) (ip : Ipv4Addr) (port : Z) :
  length txid = 12%nat -> in_bytes 2 port ->
  parse_stun_response (Rfc5389.response txid ip port)
  = Ok (mkStunResult (mkIpv4 (z2b (port / 256)) (z2b port) (xor8 (oct1 ip) 0x85) (xor8 (oct2 ip) 0x50))
          0x2113).
Proof.
  intros Ht Hp. unfold Rfc5389.response.
  rewrite parse_stun_message; [|done|apply rfc_attr_wf|by rewrite rfc_attr_length].
  cbn [List.find]. unfold is_address, read_attr, Rfc5389.xor_mapped_address. cbn [attr_type attr_value].
  rewrite to_be_bytes_xor by done. unfold read_address, be16_at, idx.
  cbn -[Z.lxor xor8 Z.div z2b]. rewrite !xor8_xor8, !xor8_twice by lia. reflexivity.
Qed.

(** C40: a response laid out as RFC 5389 section 15.2 prescribes is misread:
    the offsets of the code are two bytes off, so that the port returned is
    always 0x2113 (the family field), and the address is made of the two
    bytes of the port and the first two of the address, with the wrong part of
    the magic cookie. *)
Theorem stun_rfc_response_misread (txid : list byte) (ip : Ipv4Addr) (port : Z) :
  length txid = 12%nat -> 0 <= port <= u16_max ->
  parse_stun_response (Rfc5389.response txid ip port)
  = Ok (mkStunResult (mkIpv4 (z2b (port / 256)) (z2b port) (xor8 (oct1 ip) 0x85) (xor8 (oct2 ip) 0x50))
          0x2113).
Proof.
  intros Ht Hp. apply rfc_response_read; [done|].
  unfold in_bytes, u16_max in *. change (256 ^ Z.of_nat 2) with 65536. lia.
Qed.

(** The endpoint 203.0.113.7:40000 is read as 156.64.78.80:8467. *)
Lemma stun_rfc_response_misread_witness :
  parse_stun_response (Rfc5389.response (replicate 12 x01) (ipv4_new 203 0 113 7) 40000)
  = Ok (mkStunResult (ipv4_new 156 64 78 80) 8467).
Proof.
  rewrite (stun_rfc_response_misread (replicate 12 x01) (ipv4_new 203 0 113 7) 40000);
    [vm_compute; reflexivity|reflexivity|vm_compute; split; discriminate].
Defined.

Lemma take_rfc_response (txid : list byte) (ip : Ipv4Addr) (port : Z) :
  length txid = 12%nat -> take 1024 (Rfc5389.response txid ip port) = Rfc5389.response txid ip port.
Proof.
  intros Ht. apply take_ge. unfold Rfc5389.response, stun_message.
  rewrite !length_app, !length_to_be_bytes, Ht, rfc_attr_length. lia.
Qed.

(** Against two servers that answer as RFC 5389 prescribes, NAT detection
    reports an easy NAT whatever ports they observed, so a symmetric NAT is
    never detected. *)
Theorem symmetric_nat_undetected (net : StunNet) (s0 s1 : string) (rest : list string)
    (a0 a1 : SocketAddr) (tx0 tx1 : list byte) (ip0 ip1 : Ipv4Addr) (p0 p1 : Z) :
  net_bind net = Ok tt ->
  parse_socket_addr s0 = Some a0 -> parse_socket_addr s1 = Some a1 ->
  length tx0 = 12%nat -> length tx1 = 12%nat -> 0 <= p0 <= u16_max -> 0 <= p1 <= u16_max ->
  net_exchange net a0 (stun_request 2) = Ok (Rfc5389.response tx0 ip0 p0) ->
  net_exchange net a1 (stun_request 2) = Ok (Rfc5389.response tx1 ip1 p1) ->
  detect_nat_type net (s0 :: s1 :: rest) = Ok Easy.
Proof.
  intros Hb H0 H1 Ht0 Ht1 Hp0 Hp1 Hx0 Hx1.
  assert (forall p, 0 <= p <= u16_max -> in_bytes 2 p) as Hu
    by (intros p ?; unfold in_bytes, u16_max in *; change (256 ^ Z.of_nat 2) with 65536; lia).
  unfold detect_nat_type, query_from_conn, parse_server.
  rewrite Hb, H0, H1. cbn [ok_or mbind outcome_bind].
  rewrite Hx0, Hx1. cbn [mbind outcome_bind].
  by rewrite !take_rfc_response, !rfc_response_read by auto.
Qed.

(** Two servers that see different ports, as behind a symmetric NAT. *)
Definition demo_symmetric_net : StunNet :=
  mkStunNet (Ok tt) (fun _ => Ok tt)
    (fun a _ => Ok (Rfc5389.response (replicate 12 x01) (ipv4_new 203 0 113 7)
                      (if decide (a = SockV4 (ipv4_new 192 0 2 1) 3478) then 40000 else 50000))).

Lemma symmetric_nat_undetected_witness :
  detect_nat_type demo_symmetric_net ["192.0.2.1:3478"; "192.0.2.2:3478"] = Ok Easy.
Proof.
  apply (symmetric_nat_undetected demo_symmetric_net _ _ [] (SockV4 (ipv4_new 192 0 2 1) 3478)
    (SockV4 (ipv4_new 192 0 2 2) 3478) (replicate 12 x01) (replicate 12 x01)
    (ipv4_new 203 0 113 7) (ipv4_new 203 0 113 7) 40000 50000); try reflexivity;
    vm_compute; split; discriminate.
Defined.

Lemma detect_nat_type_no_err (net : StunNet) (servers : list string) (e : string) :
  detect_nat_type net servers <> Err e.
Proof.
  destruct servers as [|s0 [|s1 ss]]; [done..|]. cbn [detect_nat_type].
  destruct (net_bind net); [|done..].
  destruct (query_from_conn net s0), (query_from_conn net s1); try done; by destruct (negb _).
Qed.

(** [discover] never touches the configuration or the start time, and
    when it fails it leaves the whole state as it was. *)
Lemma discover_frame (net : StunNet) (s s' : AgentState) (r : outcome string unit) :
  discover net s = (s', r) ->
  cfg s' = cfg s /\ start_time s' = start_time s /\ (forall e, r = Err e -> s' = s).
Proof.
  unfold discover, use_overlay_ip. intros E.
  pose proof (detect_nat_type_no_err net (stun_servers (cfg s))) as Hd.
  destruct (stun_servers (cfg s)) as [|s0 ss].
  { destruct (parse_ipv4 _); injection E as <- <-; cbn; split_and!; congruence. }
  destruct (query net s0) as [res|e|]; [|destruct (parse_ipv4 _)|];
    destruct (detect_nat_type net (s0 :: ss)); try destruct (Hd _ eq_refl); cbn in E;
    injection E as <- <-; cbn; split_and!; congruence.
Qed.

(** A STUN server given by host name is never queried: it does not parse
    as a socket address, so discovery falls back to the overlay address and
    the configured port.  The default configuration is of this kind. *)
Theorem discover_hostname_falls_back (net : StunNet) (s : AgentState) (host : string)
    (ip : Ipv4Addr) :
  stun_servers (cfg s) = [host] -> parse_socket_addr host = None ->
  net_bind net <> Panic -> parse_ipv4 (node_overlay_ip (cfg s)) = Some ip ->
  discover net s = (set_nat_type (set_public_ip s ip) Unknown, Ok tt).
Proof.
  intros Hs Hh Hb Hip. unfold discover. rewrite Hs. unfold query, parse_server.
  rewrite Hh. unfold use_overlay_ip. rewrite Hip.
  destruct (net_bind net) as [[]|e|]; cbn; done.
Qed.

Lemma discover_hostname_falls_back_witness :
  discover demo_symmetric_net (AgentState_new 0 AgentConfig_default)
  = (set_public_ip (AgentState_new 0 AgentConfig_default) (ipv4_new 10 244 0 1), Ok tt).
Proof.
  apply (discover_hostname_falls_back demo_symmetric_net (AgentState_new 0 AgentConfig_default)
           "stun.l.google.com:19302" (ipv4_new 10 244 0 1)); done.
Defined.
