(* ===== verification/Json.v ===== *)
(** * The JSON library as the program uses it

    serde_json is not part of the sources: the agent and the plugin use it
    through [from_slice]/[from_str] into a [Value], indexing with [as_str],
    and [to_string] of an object of strings.  [Json] is that interface and
    [JsonLaws] the documented behaviour the program relies on.  [Flat] is a
    codec for flat objects of strings that meets the laws, so that they can
    be used at a concrete input. *)

From S2P Require Import Prelude RustStr.

(** The first value under a key. *)
Fixpoint assoc (k : string) (fields : list (string * string)) : option string :=
  match fields with
  | [] => None
  | (k', v) :: fields' => if String.eqb k k' then Some v else assoc k fields'
  end.

(** No byte that JSON escapes: printable ASCII other than the quote and the
    backslash. *)
Fixpoint plain (s : string) : bool :=
  match s with
  | EmptyString => true
  | String c s' => in_range 32 126 c && negb (code c =? 34) && negb (code c =? 92) && plain s'
  end.

Class Json (V : Type) := {
  (** [serde_json::from_slice::<Value>] *)
  from_slice : list byte -> outcome string V;
  (** [v[key].as_str()] *)
  index_str : V -> string -> option string;
  (** [serde_json::to_string] of an object whose values are strings *)
  obj_to_string : list (string * string) -> string
}.

(** A text of an object of strings parses to those fields; plain strings are
    written as they are; the output has no NUL byte and is valid UTF-8; the
    empty text and a text followed by other bytes than white space are
    errors, never a panic. *)
Class JsonLaws (V : Type) `{Json V} := {
  json_roundtrip : forall fields,
    NoDup fields.*1 -> Forall (fun kv => valid_utf8 kv.1 && valid_utf8 kv.2 = true) fields ->
    exists v, from_slice (as_bytes (obj_to_string fields)) = Ok v /\
      forall k, index_str v k = assoc k fields;
  json_plain : forall k v, plain k = true -> plain v = true ->
    obj_to_string [(k, v)] = "{" +:+ dq +:+ k +:+ dq +:+ ":" +:+ dq +:+ v +:+ dq +:+ "}";
  json_nonempty : forall fields, obj_to_string fields <> "";
  json_empty : exists e, from_slice [] = Err e;
  json_trailing : forall fields n, exists e,
    from_slice (as_bytes (obj_to_string fields) ++ x00 :: replicate n x00) = Err e;
  json_no_panic : forall bs, from_slice bs <> Panic
}.

(** ** A codec for flat objects *)

Module Flat.

(** An escaped character: the quote and the backslash with a backslash,
    control characters as a four-digit code. *)
Definition esc_char (c : ascii) (rest : string) : string :=
  if (code c =? 34) || (code c =? 92) then String "\"%char (String c rest)
  else if code c <? 32 then
    String "\"%char (String "u"%char (String "0"%char (String "0"%char
      (String (hex_char (code c / 16)) (String (hex_char (code c mod 16)) rest)))))
  else String c rest.

Fixpoint esc (s rest : string) : string :=
  match s with
  | EmptyString => rest
  | String c s' => esc_char c (esc s' rest)
  end.

(** The literal of [s], followed by [rest]. *)
Definition quoted (s rest : string) : string := dq +:+ esc s (dq +:+ rest).

Definition field (kv : string * string) (rest : string) : string :=
  quoted kv.1 (":" +:+ quoted kv.2 rest).

Fixpoint show_fields (fields : list (string * string)) (rest : string) : string :=
  match fields with
  | [] => rest
  | [kv] => field kv rest
  | kv :: fields' => field kv ("," +:+ show_fields fields' rest)
  end.

Definition show (fields : list (string * string)) : string :=
  "{" +:+ show_fields fields "}".

(** The content of a literal after its opening quote, and what follows it. *)
Fixpoint read_lit (s : string) : option (string * string) :=
  match s with
  | EmptyString => None
  | String c s1 =>
      if code c =? 34 then Some (EmptyString, s1)
      else if code c =? 92 then
        match s1 with
        | String d s2 =>
            if (code d =? 34) || (code d =? 92) then
              '(t, r) ← read_lit s2; Some (String d t, r)
            else if code d =? 117 then
              match s2 with
              | String z1 (String z2 (String h (String l s3))) =>
                  if (code z1 =? 48) && (code z2 =? 48) then
                    hi ← hex_val h; lo ← hex_val l;
                    '(t, r) ← read_lit s3;
                    Some (String (ascii_of_N (Z.to_N (hi * 16 + lo))) t, r)
                  else None
              | _ => None
              end
            else None
        | EmptyString => None
        end
      else if code c <? 32 then None
      else '(t, r) ← read_lit s1; Some (String c t, r)
  end.

Definition expect (c : ascii) (s : string) : option string :=
  match s with String d s' => if Ascii.eqb c d then Some s' else None | EmptyString => None end.

Definition quote_char : ascii := ascii_of_nat 34.

Definition read_field (s : string) : option ((string * string) * string) :=
  s ← expect quote_char s;
  '(k, s) ← read_lit s;
  s ← expect ":"%char s;
  s ← expect quote_char s;
  '(v, s) ← read_lit s;
  Some ((k, v), s).

(** Fields up to the closing brace; each takes at least a byte. *)
Fixpoint read_fields (fuel : nat) (s : string) : option (list (string * string) * string) :=
  match fuel with
  | O => None
  | S f =>
      '(kv, s) ← read_field s;
      match s with
      | String c s' =>
          if Ascii.eqb c "}"%char then Some ([kv], s')
          else if Ascii.eqb c ","%char then '(l, r) ← read_fields f s'; Some (kv :: l, r)
          else None
      | EmptyString => None
      end
  end.

Definition read_obj (s : string) : option (list (string * string) * string) :=
  s ← expect "{"%char s;
  match s with
  | String c s' => if Ascii.eqb c "}"%char then Some ([], s') else read_fields (str_len s) s
  | EmptyString => None
  end.

Definition parse (bs : list byte) : outcome string (list (string * string)) :=
  match read_obj (String.string_of_list_byte bs) with
  | Some (l, EmptyString) => Ok l
  | Some _ => Err "trailing characters"
  | None => Err "expected value"
  end.

Lemma esc_char_read (c : ascii) (s : string) :
  read_lit (esc_char c s) = '(t, r) ← read_lit s; Some (String c t, r).
Proof.
  destruct c as [[] [] [] [] [] [] [] []]; cbn [esc_char]; vm_compute code; reflexivity.
Qed.

Lemma read_lit_esc (s rest : string) : read_lit (esc s (dq +:+ rest)) = Some (s, rest).
Proof.
  induction s as [|c s IH]; cbn [esc]; [done|]. by rewrite esc_char_read, IH.
Qed.

Lemma read_field_show (kv : string * string) (rest : string) :
  read_field (field kv rest) = Some (kv, rest).
Proof.
  destruct kv as [k v]. unfold field, quoted, read_field. cbn [fst snd].
  change (expect quote_char (dq +:+ ?s)) with (Some s). cbn [mbind option_bind].
  rewrite read_lit_esc. cbn [mbind option_bind].
  change (expect ":"%char (":" +:+ ?s)) with (Some s). cbn [mbind option_bind].
  change (expect quote_char (dq +:+ ?s)) with (Some s). cbn [mbind option_bind].
  by rewrite read_lit_esc.
Qed.

Lemma show_fields_cons (kv kv' : string * string) (l : list (string * string)) (rest : string) :
  show_fields (kv :: kv' :: l) rest = field kv ("," +:+ show_fields (kv' :: l) rest).
Proof. done. Qed.

Lemma read_fields_show (fields : list (string * string)) (rest : string) (fuel : nat) :
  fields <> [] -> (length fields <= fuel)%nat ->
  read_fields fuel (show_fields fields ("}" +:+ rest)) = Some (fields, rest).
Proof.
  revert fuel. induction fields as [|kv fields IH]; intros fuel Hne Hf; [done|].
  destruct fuel as [|fuel]; cbn [length] in Hf; [lia|]. cbn [read_fields].
  destruct fields as [|kv' fields].
  - cbn [show_fields]. by rewrite read_field_show.
  - rewrite show_fields_cons, read_field_show.
    change ("," +:+ ?x) with (String ","%char x). cbn [mbind option_bind Ascii.eqb Bool.eqb].
    rewrite IH; [done|done|cbn [length] in *; lia].
Qed.

Lemma esc_app (s a b : string) : esc s (a +:+ b) = esc s a +:+ b.
Proof.
  induction s as [|c s IH]; [done|]. cbn [esc]. rewrite IH. unfold esc_char.
  destruct (_ || _); [by rewrite !string_app_cons|].
  destruct (_ <? _); by rewrite !string_app_cons.
Qed.

Lemma field_app (kv : string * string) (a b : string) : field kv (a +:+ b) = field kv a +:+ b.
Proof. unfold field, quoted. by rewrite <- !string_app_assoc, !esc_app, !string_app_assoc. Qed.

Lemma show_fields_app (fields : list (string * string)) (a b : string) :
  show_fields fields (a +:+ b) = show_fields fields a +:+ b.
Proof.
  induction fields as [|kv [|kv' l] IH]; [done|apply field_app|].
  by rewrite !show_fields_cons, IH, <- string_app_assoc, field_app.
Qed.

Lemma show_fields_length (fields : list (string * string)) (rest : string) :
  (length fields <= str_len (show_fields fields rest))%nat.
Proof.
  assert (forall kv r, (1 + str_len r <= str_len (field kv r))%nat) as Hf.
  { intros kv r. rewrite <- (string_app_nil_l r), field_app. unfold field, quoted, str_len.
    rewrite !string_length_app. cbn. lia. }
  induction fields as [|kv [|kv' l] IH]; [cbn; lia|specialize (Hf kv rest); cbn [show_fields length]; lia|].
  rewrite show_fields_cons. specialize (Hf kv ("," +:+ show_fields (kv' :: l) rest)).
  unfold str_len in *. rewrite string_length_app in Hf. cbn [length] in *. lia.
Qed.

Lemma read_obj_show (fields : list (string * string)) (rest : string) :
  read_obj (show fields +:+ rest) = Some (fields, rest).
Proof.
  unfold show. rewrite string_app_assoc, <- show_fields_app.
  unfold read_obj. change (expect "{"%char ("{" +:+ ?x)) with (Some x). cbn [mbind option_bind].
  destruct fields as [|[k v] l]; [done|].
  destruct (show_fields ((k, v) :: l) ("}" +:+ rest)) as [|c t] eqn:E.
  { destruct l; done. }
  assert (c = quote_char) as ->. { destruct l; by injection E. }
  change (Ascii.eqb quote_char "}"%char) with false. cbv iota. rewrite <- E.
  apply read_fields_show; [done|]. apply show_fields_length.
Qed.

Lemma esc_plain (s rest : string) : plain s = true -> esc s rest = s +:+ rest.
Proof.
  induction s as [|c s IH]; [done|]. cbn [plain esc]. intros H. bool_to_prop.
  rewrite IH, string_app_cons by done. unfold esc_char, in_range in *. bool_to_prop.
  replace (code c =? 34) with false by (symmetry; by apply Z.eqb_neq).
  replace (code c =? 92) with false by (symmetry; by apply Z.eqb_neq).
  replace (code c <? 32) with false by (symmetry; by apply Z.ltb_ge). done.
Qed.

Lemma parse_show (fields : list (string * string)) : parse (as_bytes (show fields)) = Ok fields.
Proof.
  unfold parse. rewrite string_of_as_bytes, <- (string_app_nil_r (show fields)).
  by rewrite read_obj_show.
Qed.

Lemma parse_show_nul (fields : list (string * string)) (n : nat) :
  parse (as_bytes (show fields) ++ x00 :: replicate n x00) = Err "trailing characters".
Proof.
  unfold parse. rewrite <- (String.list_byte_of_string_of_list_byte (x00 :: replicate n x00)).
  change (String.list_byte_of_string ?x) with (as_bytes x).
  rewrite <- as_bytes_app, string_of_as_bytes, read_obj_show. done.
Qed.

End Flat.

#[export] Instance Flat_Json : Json (list (string * string)) := {
  from_slice := Flat.parse;
  index_str v k := assoc k v;
  obj_to_string := Flat.show
}.

#[export, refine] Instance Flat_JsonLaws : JsonLaws (list (string * string)) := {}.
Proof.
  - intros fields _ _. exists fields. split; [apply Flat.parse_show|done].
  - intros k v Hk Hv. cbn. unfold Flat.show, Flat.show_fields, Flat.field, Flat.quoted. cbn [fst snd].
    by rewrite !Flat.esc_plain by done.
  - by intros fields.
  - by eexists.
  - intros fields n. exists "trailing characters". apply Flat.parse_show_nul.
  - intros bs. cbn. unfold Flat.parse. by case_match; repeat case_match.
Defined.
