(* ===== verification/Api.v ===== *)
(** * The container API ([agent/src/api.rs])

    [ContainerManager] with its table of containers, the address allocation
    over the BPF route map, the HTTP connection handler and the dispatch of
    container commands.  The BPF manager is reached through a
    [std::sync::Mutex]: a panic while it is held poisons it.  The handler is
    generic in the route store ([RouteStore] of BpfMgr) and the JSON library
    ([Json]); [checks] says whether the build checks integer overflow (the
    debug profile) or wraps (release). *)

From S2P Require Import Prelude RustStr NetAddr Common Kernel BpfMgr Json.

(** ** State *)

Record ContainerInfo := mkContainerInfo {
  ci_container_id : string;
  ci_ip : string;
  ci_host_iface : string
}.

Definition ContainerManager : Type := gmap string ContainerInfo.

(** What the connections share. *)
Record ApiState (B : Type) := mkApiState { containers : ContainerManager; bpf : Mutex B }.
Arguments mkApiState {B}.
Arguments containers {B}.
Arguments bpf {B}.

(** ** The table of containers *)

Definition cm_new : ContainerManager := ∅.

Definition cm_add (cm : ContainerManager) (container_id ip iface : string) : ContainerManager :=
  <[container_id := mkContainerInfo container_id ip iface]> cm.

Definition cm_remove (cm : ContainerManager) (container_id : string) : ContainerManager :=
  delete container_id cm.

(** The key under which a recovered address is entered. *)
Definition recovered_id (ip : Z) : string := "recovered-" +:+ show_ipv4 (ipv4_of_u32 ip).

(** The body of the loop of [recover_from_bpf]. *)
Definition recover_one (cm : ContainerManager) (ip : Z) : outcome string ContainerManager :=
  let addr := ipv4_of_u32 ip in
  let cid := recovered_id ip in
  p ← str_prefix cid (Nat.min (str_len cid) 8);
  Ok (<[cid := mkContainerInfo cid (show_ipv4 addr) ("veth-" +:+ p)]> cm).

Fixpoint recover_all (cm : ContainerManager) (ips : list Z) : outcome string ContainerManager :=
  match ips with
  | [] => Ok cm
  | ip :: ips' => cm ← recover_one cm ip; recover_all cm ips'
  end.

(** ** Address allocation *)

(** [bytes().fold(0u32, |acc, b| acc.wrapping_mul(31).wrapping_add(b as u32))] *)
Definition hash31 (s : string) : Z :=
  foldl (fun acc b => wrap32 (wrap32 (acc * 31) + b2z b)) 0 (as_bytes s).

(** [u32::from(Ipv4Addr::new(10, 244, 0, host))] *)
Definition host_ip (host : Z) : Z := ipv4_to_u32 (ipv4_new 10 244 0 host).

(** [(2u8 + ((hash as u8).wrapping_add(offset))) % 254] *)
Definition alloc_host (checks : bool) (hash offset : Z) : outcome string Z :=
  x ← add_at checks u8_max 2 (wrap8 (wrap8 hash + offset));
  Ok (x mod 254).

Section Allocate.
Context {B : Type} `{RouteStore B}.

(** The loop over the offsets: the store after the route is recorded and the
    address, or [None] when every candidate is taken. *)
Fixpoint alloc_loop (checks : bool) (hash : Z) (offsets : list Z) (b : B)
    : outcome string (option (B * Z)) :=
  match offsets with
  | [] => Ok None
  | offset :: offsets' =>
      host ← alloc_host checks hash offset;
      if host <? 2 then alloc_loop checks hash offsets' b
      else if is_ip_allocated b (host_ip host) then alloc_loop checks hash offsets' b
      else Ok (Some ((update_container_route b (host_ip host) 1).1, host_ip host))
  end.

Definition allocate_from_bpf (checks : bool) (m : Mutex B) (container_id : string)
    : Mutex B * outcome string string :=
  if poisoned m then (m, Panic)
  else
    let hash := hash31 container_id in
    match alloc_loop checks hash (seqZ 0 253) (inner m) with
    | Ok (Some (b, ip)) => (mkMutex false b, Ok (show_ipv4 (ipv4_of_u32 ip)))
    | Ok None =>
        (m, Ok (show_ipv4 (ipv4_of_u32 (host_ip (2 + hash mod 253)))))
    | Err e => (m, Err e)
    | Panic => (mkMutex true (inner m), Panic)
    end.

(** [recover_from_bpf]; a poisoned mutex makes [unwrap] panic *)
Definition recover_from_bpf (s : ApiState B) : ApiState B * outcome string unit :=
  if poisoned (bpf s) then (s, Panic)
  else match recover_all (containers s) (list_container_ips (inner (bpf s))) with
       | Ok cm => (mkApiState cm (bpf s), Ok tt)
       | Err e => (s, Err e)
       | Panic => (s, Panic)
       end.

End Allocate.

(** ** Container commands *)

(** [format!("...{{\"key\":\"{}\"}}", v)]: an object with one string field,
    written without escaping. *)
Definition json1 (k v : string) : string :=
  "{" +:+ dq +:+ k +:+ dq +:+ ":" +:+ dq +:+ v +:+ dq +:+ "}".

Definition ok_200 (body : string) : string := "200 OK" +:+ crlf +:+ crlf +:+ body.
Definition bad_400 (body : string) : string := "400 Bad Request" +:+ crlf +:+ crlf +:+ body.

Section Commands.
Context {B V : Type} `{RouteStore B} `{Json V}.

(** [if let Ok(ip_addr) = ip.parse() { if let Ok(bpf) = bpf.lock() { op } }]:
    the error of the operation is only logged. *)
Definition with_route (m : Mutex B) (ip : string) (op : B -> Z -> B * outcome string unit) : Mutex B :=
  match parse_ipv4 ip with
  | Some ip_addr =>
      if poisoned m then m else mkMutex false (op (inner m) (ipv4_to_u32 ip_addr)).1
  | None => m
  end.

Definition handle_container_cmd (checks : bool) (s : ApiState B) (body : list byte)
    : ApiState B * outcome string string :=
  match from_slice (V:=V) body with
  | Err e => (s, Ok (bad_400 (json1 "error" ("json: " +:+ e))))
  | Panic => (s, Panic)
  | Ok parsed =>
      let action := default "" (index_str parsed "action") in
      let container_id := default "" (index_str parsed "container_id") in
      let ip := default "0.0.0.0" (index_str parsed "ip") in
      let iface := default "" (index_str parsed "iface") in
      if String.eqb action "allocate" then
        let '(m, r) := allocate_from_bpf checks (bpf s) container_id in
        (mkApiState (containers s) m, (fun ip => ok_200 (json1 "ip" ip)) <$> r)
      else if String.eqb action "add" then
        (mkApiState (cm_add (containers s) container_id ip iface)
           (with_route (bpf s) ip (fun b a => update_container_route b a 1)),
         Ok (ok_200 (json1 "status" "added")))
      else if String.eqb action "del" then
        (mkApiState (cm_remove (containers s) container_id)
           (with_route (bpf s) ip remove_container_route),
         Ok (ok_200 (json1 "status" "removed")))
      else (s, Ok (bad_400 (json1 "error" "unknown action")))
  end.

End Commands.

(** ** Allocation: lemmas *)

(** The host number tried at an offset when additions wrap. *)
Definition candidate (hash offset : Z) : Z := wrap8 (2 + wrap8 (wrap8 hash + offset)) mod 254.

(** The hosts tried, in order. *)
Definition tried (hash : Z) (offsets : list Z) : list Z :=
  List.filter (fun h => 2 <=? h) (map (candidate hash) offsets).

Lemma wrap8_idemp (z : Z) : wrap8 (wrap8 z) = wrap8 z.
Proof. unfold wrap8. by rewrite Z.mod_mod. Qed.

Lemma wrap8_range (z : Z) : 0 <= wrap8 z < 256.
Proof. unfold wrap8. apply Z.mod_pos_bound. lia. Qed.

Lemma alloc_host_wraps (hash offset : Z) :
  alloc_host false hash offset = Ok (candidate hash offset).
Proof.
  unfold alloc_host, add_at, candidate. pose proof (wrap8_range (wrap8 hash + offset)) as Hr.
  set (x := wrap8 (wrap8 hash + offset)) in *. change u8_max with 255.
  destruct (_ <=? _) eqn:E; bool_to_prop; cbn [mbind outcome_bind]; [|done].
  unfold wrap8. by rewrite (Z.mod_small (2 + x) (2 ^ 8)) by (change (2 ^ 8) with 256; lia).
Qed.

(** With overflow checks the result is the same or a panic. *)
Lemma alloc_host_checked (hash offset : Z) :
  alloc_host true hash offset = Panic \/ alloc_host true hash offset = alloc_host false hash offset.
Proof. unfold alloc_host, add_at. destruct (_ <=? _); [by right|by left]. Qed.

(** The hash byte plus an offset, and the host it stands for: the last four
    values are skipped. *)
Definition slot (hash offset : Z) : Z := wrap8 (wrap8 hash + offset).

Lemma candidate_slot (hash offset : Z) :
  candidate hash offset = if slot hash offset <=? 251 then slot hash offset + 2
                          else slot hash offset mod 2.
Proof.
  unfold candidate. fold (slot hash offset). pose proof (wrap8_range (wrap8 hash + offset)) as Hr.
  fold (slot hash offset) in Hr. set (x := slot hash offset) in *. unfold wrap8.
  change (2 ^ 8) with 256. destruct (x <=? 251) eqn:E; bool_to_prop.
  - rewrite (Z.mod_small _ 256), Z.mod_small by lia. lia.
  - assert (x = 252 \/ x = 253 \/ x = 254 \/ x = 255) as [->|[->|[->| ->]]] by lia; done.
Qed.

Lemma tried_slots (hash : Z) (offsets : list Z) :
  tried hash offsets
  = map (Z.add 2) (List.filter (fun x => x <=? 251) (map (slot hash) offsets)).
Proof.
  unfold tried. induction offsets as [|o offsets IH]; [done|]. cbn [map List.filter].
  rewrite candidate_slot. pose proof (wrap8_range (wrap8 hash + o)) as Hr. fold (slot hash o) in Hr.
  pose proof (Z.mod_pos_bound (slot hash o) 2 ltac:(lia)).
  destruct (slot hash o <=? 251) eqn:E; bool_to_prop.
  - replace (2 <=? slot hash o + 2) with true by (symmetry; apply Z.leb_le; lia).
    cbn [map]. rewrite IH. f_equal. lia.
  - by replace (2 <=? slot hash o mod 2) with false by (symmetry; apply Z.leb_gt; lia).
Qed.

Lemma slots_NoDup (hash : Z) : NoDup (map (slot hash) (seqZ 0 253)).
Proof.
  apply NoDup_fmap_2_strong; [|apply NoDup_seqZ]. intros a b Ha Hb E.
  apply elem_of_seqZ in Ha, Hb. unfold slot, wrap8 in E. change (2 ^ 8) with 256 in E.
  pose proof (Z.mod_pos_bound hash 256 ltac:(lia)).
  destruct (Z.lt_ge_cases (hash mod 256 + a) 256), (Z.lt_ge_cases (hash mod 256 + b) 256).
  all: rewrite ?(Z.mod_small (_ + a)), ?(Z.mod_small (_ + b)) in E by lia.
  all: rewrite <- ?(Z.mod_unique (hash mod 256 + a) 256 1 (hash mod 256 + a - 256)) in E by lia.
  all: rewrite <- ?(Z.mod_unique (hash mod 256 + b) 256 1 (hash mod 256 + b - 256)) in E by lia.
  all: lia.
Qed.

Lemma filter_length_split {A} (f : A -> bool) (l : list A) :
  (length l = length (List.filter f l) + length (List.filter (fun x => negb (f x)) l))%nat.
Proof. induction l as [|x l IH]; [done|]. cbn. destruct (f x); cbn; lia. Qed.

Lemma tried_facts (hash : Z) :
  NoDup (tried hash (seqZ 0 253)) /\ (249 <= length (tried hash (seqZ 0 253)))%nat /\
  Forall (fun x => 2 <= x <= 253) (tried hash (seqZ 0 253)).
Proof.
  rewrite tried_slots. pose proof (slots_NoDup hash) as Hnd.
  assert (Forall (fun x => 0 <= x < 256) (map (slot hash) (seqZ 0 253))) as Hr.
  { apply Forall_map, Forall_forall. intros o _. apply wrap8_range. }
  assert (length (map (slot hash) (seqZ 0 253)) = 253%nat) as Hlen by (by rewrite length_map, length_seqZ).
  set (xs := map (slot hash) (seqZ 0 253)) in *. clearbody xs.
  split_and!.
  - apply NoDup_fmap_2; [intros x y; lia|]. apply NoDup_ListNoDup, List.NoDup_filter. by apply NoDup_ListNoDup.
  - rewrite length_map. pose proof (filter_length_split (fun x => x <=? 251) xs).
    assert (length (List.filter (fun x : Z => negb (x <=? 251)%Z) xs)
            <= length [252; 253; 254; 255]%Z)%nat as H4.
    { apply NoDup_incl_length; [apply List.NoDup_filter; by apply NoDup_ListNoDup|].
      intros x [Hx Hp]%List.filter_In. bool_to_prop. rewrite Forall_forall in Hr.
      apply list_elem_of_In, Hr in Hx. cbn. lia. }
    cbn [length] in H4. lia.
  - apply Forall_map, Forall_forall. intros x Hx. apply list_elem_of_In, List.filter_In in Hx as [Hx Hp].
    bool_to_prop. rewrite Forall_forall in Hr. apply list_elem_of_In, Hr in Hx. lia.
Qed.

(** The order of the search, from the hash byte [h]: the hosts from [h + 2]
    up, then those from 2 on. *)
Definition search_order (h : Z) : list Z := seqZ (h + 2) (252 - h) ++ seqZ 2 (h - 3).

Lemma seqZ_neg (a n : Z) : n <= 0 -> seqZ a n = [].
Proof. intros Hn. unfold seqZ. by replace (Z.to_nat n) with 0%nat by lia. Qed.

Lemma filter_seqZ_le (a n c : Z) :
  0 <= n -> List.filter (fun x => x <=? c) (seqZ a n) = seqZ a (Z.min n (c + 1 - a)).
Proof.
  intros Hn. set (k := Z.max 0 (Z.min n (c + 1 - a))).
  assert (seqZ a (Z.min n (c + 1 - a)) = seqZ a k) as ->.
  { destruct (Z.le_gt_cases (Z.min n (c + 1 - a)) 0); [rewrite !seqZ_neg by lia; done|f_equal; lia]. }
  replace n with (k + (n - k)) by lia. rewrite seqZ_app, List.filter_app by lia.
  rewrite (List.filter_ext_in _ (fun _ => true) (seqZ a k)), List.filter_true.
  2: { intros x Hx%list_elem_of_In%elem_of_seqZ. apply Z.leb_le. lia. }
  rewrite (List.filter_ext_in _ (fun _ => false) (seqZ (a + k) _)), List.filter_false.
  2: { intros x Hx%list_elem_of_In%elem_of_seqZ. apply Z.leb_gt. lia. }
  apply app_nil_r.
Qed.

(** The slots tried are consecutive up to the wrap. *)
Lemma map_slot_seqZ (hash a n b : Z) :
  0 <= b -> (forall o, a <= o < a + n -> slot hash o = b + (o - a)) ->
  map (slot hash) (seqZ a n) = seqZ b n.
Proof.
  intros Hb Ho. rewrite (List.map_ext_in _ (Z.add (b - a))).
  - transitivity (seqZ (b - a + a) n); [apply fmap_add_seqZ|]. f_equal. lia.
  - intros o Hin%list_elem_of_In%elem_of_seqZ. rewrite Ho by lia. lia.
Qed.

Lemma tried_search_order (hash : Z) : tried hash (seqZ 0 253) = search_order (wrap8 hash).
Proof.
  rewrite tried_slots. pose proof (wrap8_range hash) as Hh. set (h := wrap8 hash) in *.
  assert (forall o, h + o < 256 -> 0 <= o -> slot hash o = h + o) as Hlow.
  { intros o ? ?. unfold slot. fold h. unfold wrap8 at 1. apply Z.mod_small. change (2 ^ 8) with 256. lia. }
  assert (forall o, 256 <= h + o < 512 -> slot hash o = h + o - 256) as Hhigh.
  { intros o ?. unfold slot. fold h. unfold wrap8 at 1. change (2 ^ 8) with 256.
    symmetry. apply Z.mod_unique with 1; lia. }
  assert (forall a n, map (Z.add 2) (seqZ a n) = seqZ (a + 2) n) as Hmap.
  { intros a n. transitivity (seqZ (2 + a) n); [apply fmap_add_seqZ|]. f_equal. lia. }
  unfold search_order. destruct (Z.le_gt_cases h 3).
  - rewrite (map_slot_seqZ hash 0 253 h) by (try lia; intros; rewrite Hlow; lia).
    rewrite filter_seqZ_le, Hmap, (seqZ_neg 2) by lia. rewrite app_nil_r. f_equal. lia.
  - replace 253 with ((256 - h) + (h - 3)) by lia. rewrite seqZ_app, List.map_app, List.filter_app by lia.
    rewrite (map_slot_seqZ hash 0 (256 - h) h) by (try lia; intros; rewrite Hlow; lia).
    rewrite (map_slot_seqZ hash (0 + (256 - h)) (h - 3) 0) by (try lia; intros; rewrite Hhigh; lia).
    rewrite !filter_seqZ_le, List.map_app, !Hmap by lia. f_equal; [|f_equal; lia].
    destruct (Z.le_gt_cases 252 h); [rewrite !seqZ_neg by lia; done|f_equal; lia].
Qed.

Lemma elem_of_search_order (h x : Z) :
  0 <= h < 256 -> x ∈ search_order h <-> 2 <= x <= 253 /\ ~ (h - 1 <= x <= h + 1).
Proof. intros Hh. unfold search_order. rewrite elem_of_app, !elem_of_seqZ. lia. Qed.

Section AllocFacts.
Context {B : Type} `{RouteStore B}.

(** The first candidate that the store does not know. *)
Definition first_free (hash : Z) (b : B) : option Z :=
  List.find (fun h => negb (is_ip_allocated b (host_ip h))) (tried hash (seqZ 0 253)).

Lemma alloc_loop_find (hash : Z) (offsets : list Z) (b : B) :
  alloc_loop false hash offsets b
  = Ok (match List.find (fun h => negb (is_ip_allocated b (host_ip h))) (tried hash offsets) with
        | Some h => Some ((update_container_route b (host_ip h) 1).1, host_ip h)
        | None => None
        end).
Proof.
  induction offsets as [|o offsets IH]; [done|].
  cbn [alloc_loop]. rewrite alloc_host_wraps. cbn [mbind outcome_bind].
  unfold tried in *. cbn [map List.filter]. rewrite Z.leb_antisym.
  destruct (candidate hash o <? 2); cbn [negb]; [done|].
  cbn [List.find]. by destruct (is_ip_allocated _ _).
Qed.

(** With overflow checks the loop panics or does the same. *)
Lemma alloc_loop_checked (hash : Z) (offsets : list Z) (b : B) :
  alloc_loop true hash offsets b = Panic \/
  alloc_loop true hash offsets b = alloc_loop false hash offsets b.
Proof.
  induction offsets as [|o offsets IH]; [by right|]. cbn [alloc_loop].
  destruct (alloc_host_checked hash o) as [->| ->]; [by left|].
  rewrite alloc_host_wraps. cbn [mbind outcome_bind].
  destruct (_ <? _); [done|]. destruct (is_ip_allocated _ _); [done|by right].
Qed.

Lemma first_free_Some (hash : Z) (b : B) (h : Z) :
  first_free hash b = Some h -> is_ip_allocated b (host_ip h) = false /\ 2 <= h <= 253.
Proof.
  intros E. apply List.find_some in E as [Hin Hfree]. bool_to_prop. split; [done|].
  destruct (tried_facts hash) as (_ & _ & Hr). rewrite Forall_forall in Hr.
  by apply Hr, list_elem_of_In.
Qed.

Lemma allocate_release (m : Mutex B) (cid : string) :
  poisoned m = false ->
  allocate_from_bpf false m cid
  = match first_free (hash31 cid) (inner m) with
    | Some h => (mkMutex false (update_container_route (inner m) (host_ip h) 1).1,
                 Ok (show_ipv4 (ipv4_new 10 244 0 h)))
    | None => (m, Ok (show_ipv4 (ipv4_new 10 244 0 (2 + hash31 cid mod 253))))
    end.
Proof.
  intros Hp. unfold allocate_from_bpf. rewrite Hp, alloc_loop_find.
  unfold first_free, host_ip. destruct (List.find _ _); by rewrite ipv4_of_to_u32.
Qed.

Lemma allocate_no_err (checks : bool) (m : Mutex B) (cid : string) :
  (forall e, (allocate_from_bpf checks m cid).2 <> Err e) /\
  (checks = false -> poisoned m = false -> (allocate_from_bpf checks m cid).2 <> Panic).
Proof.
  unfold allocate_from_bpf. destruct (poisoned m); [by split|].
  destruct checks;
    [destruct (alloc_loop_checked (hash31 cid) (seqZ 0 253) (inner m)) as [->| ->]; [by split|]|];
    rewrite alloc_loop_find; by destruct (List.find _ _).
Qed.

End AllocFacts.

Lemma host_ip_inj (a b : Z) : 0 <= a < 256 -> 0 <= b < 256 -> host_ip a = host_ip b -> a = b.
Proof.
  intros Ha Hb E. apply ipv4_to_u32_inj in E. injection E as E.
  apply (f_equal b2z) in E. by rewrite !b2z_z2b in E by lia.
Qed.

(** ** Properties: allocation *)

(** C14: in a build without overflow checks the allocation loop is a search
    for the first free host in a fixed order, the hosts after the one the
    hash gives and then from 2 on; with none free the address is computed
    from the hash.  The order has each host once, and leaves out exactly the
    three hosts in front of its start. *)
Theorem allocate_is_search {B} `{RouteStore B} (m : Mutex B) (cid : string) :
  poisoned m = false ->
  let h := wrap8 (hash31 cid) in
  allocate_from_bpf false m cid
  = match List.find (fun x => negb (is_ip_allocated (inner m) (host_ip x))) (search_order h) with
    | Some x => (mkMutex false (update_container_route (inner m) (host_ip x) 1).1,
                 Ok (show_ipv4 (ipv4_new 10 244 0 x)))
    | None => (m, Ok (show_ipv4 (ipv4_new 10 244 0 (2 + hash31 cid mod 253))))
    end /\
  NoDup (search_order h) /\
  (forall x, x ∈ search_order h <-> 2 <= x <= 253 /\ ~ (h - 1 <= x <= h + 1)).
Proof.
  intros Hp h. rewrite allocate_release by done. unfold first_free.
  rewrite tried_search_order. split_and!; [done| |].
  - unfold h. rewrite <- tried_search_order. apply tried_facts.
  - intros x. apply elem_of_search_order, wrap8_range.
Qed.

(** The hash byte of the identifier is 97: host 99 is taken, 100 is next. *)
Lemma allocate_is_search_witness :
  (allocate_from_bpf false (mkMutex false ({[host_ip 99]} : gset Z)) "a").2 = Ok "10.244.0.100".
Proof.
  rewrite (proj1 (allocate_is_search (mkMutex false ({[host_ip 99]} : gset Z)) "a" eq_refl)).
  vm_compute. reflexivity.
Defined.

(** Whatever the store answers, an allocation that returns gives an
    address 10.244.0.h with h between 2 and 254, and in a build without
    overflow checks it always returns (unless the mutex is poisoned). *)
Theorem allocate_in_subnet {B} `{RouteStore B} (checks : bool) (m : Mutex B) (cid : string) :
  poisoned m = false ->
  (exists h, 2 <= h <= 254 /\
     (allocate_from_bpf checks m cid).2 = Ok (show_ipv4 (ipv4_new 10 244 0 h))) \/
  (checks = true /\ allocate_from_bpf checks m cid = (mkMutex true (inner m), Panic)).
Proof.
  intros Hp. assert (exists h, 2 <= h <= 254 /\
     (allocate_from_bpf false m cid).2 = Ok (show_ipv4 (ipv4_new 10 244 0 h))) as Hrel.
  { rewrite allocate_release by done. pose proof (Z.mod_pos_bound (hash31 cid) 253 ltac:(lia)).
    destruct (first_free _ _) as [h|] eqn:E; cbn [snd]; eexists; (split; [|done]); [|lia].
    apply first_free_Some in E. lia. }
  destruct checks; [|by left].
  unfold allocate_from_bpf in *. rewrite Hp in *.
  destruct (alloc_loop_checked (hash31 cid) (seqZ 0 253) (inner m)) as [->| ->]; [by right|by left].
Qed.

Lemma allocate_in_subnet_witness :
  exists h, 2 <= h <= 254 /\
    (allocate_from_bpf false (mkMutex false (∅ : gset Z)) "c1").2
    = Ok (show_ipv4 (ipv4_new 10 244 0 h)).
Proof.
  destruct (allocate_in_subnet false (mkMutex false (∅ : gset Z)) "c1" eq_refl) as [H|[H _]];
    [exact H|discriminate H].
Defined.

(** The BPF manager reports every address as free: the first host of the
    search order is taken, whatever its routes are. *)
Lemma allocate_manager {M R} `{KernelMap M} (m : Mutex (BpfManager M R)) (cid : string) :
  poisoned m = false ->
  exists x, hd_error (search_order (wrap8 (hash31 cid))) = Some x /\
    allocate_from_bpf false m cid
    = (mkMutex false (bpf_update_container_route (inner m) (host_ip x) 1).1,
       Ok (show_ipv4 (ipv4_new 10 244 0 x))).
Proof.
  intros Hp. rewrite allocate_release by done. unfold first_free.
  destruct (tried_facts (hash31 cid)) as (_ & Hlen & _). rewrite tried_search_order in *.
  destruct (search_order (wrap8 (hash31 cid))) as [|x l]; cbn [length] in Hlen; [lia|]. by exists x.
Qed.

(** C35: against the BPF manager, whose allocation test always says no, the
    address depends on the low byte of the hash only: two containers whose
    hashes agree there get the same address, one right after the other. *)
Theorem allocate_collides {M R} `{KernelMap M} (m : Mutex (BpfManager M R)) (c1 c2 : string) :
  poisoned m = false -> wrap8 (hash31 c1) = wrap8 (hash31 c2) ->
  exists ip, (allocate_from_bpf false m c1).2 = Ok ip /\
    (allocate_from_bpf false (allocate_from_bpf false m c1).1 c2).2 = Ok ip.
Proof.
  intros Hp Hh. destruct (allocate_manager m c1 Hp) as (x & Hx & ->). cbn [fst snd].
  exists (show_ipv4 (ipv4_new 10 244 0 x)). split; [done|]. rewrite Hh in Hx.
  match goal with |- context [allocate_from_bpf false ?m' c2] =>
    destruct (allocate_manager m' c2 eq_refl) as (y & Hy & ->) end.
  rewrite Hx in Hy. by injection Hy as <-.
Qed.

Lemma allocate_collides_witness :
  exists ip, (allocate_from_bpf false (mkMutex false (demo_manager ∅)) "Aa").2 = Ok ip /\
    (allocate_from_bpf false (allocate_from_bpf false (mkMutex false (demo_manager ∅)) "Aa").1 "BB").2
    = Ok ip.
Proof. apply allocate_collides; vm_compute; reflexivity. Defined.

(** Commands one after the other. *)
Definition run_cmds {B} (V : Type) `{RouteStore B} `{Json V} (checks : bool) (s : ApiState B)
    (bodies : list (list byte)) : ApiState B :=
  foldl (fun s body => (handle_container_cmd (V:=V) checks s body).1) s bodies.

Lemma poisoned_kept {B V} `{RouteStore B} `{Json V} (checks : bool) (s : ApiState B) (body : list byte) :
  poisoned (bpf s) = true -> bpf (handle_container_cmd (V:=V) checks s body).1 = bpf s.
Proof.
  intros Hp. unfold handle_container_cmd, allocate_from_bpf, with_route. rewrite Hp.
  repeat case_match; done.
Qed.

(** In a build with overflow checks, allocating for a container whose
    hash ends in 254 or 255 panics while the lock is held; from then on no
    command records or removes a route any more. *)
Theorem overflow_poisons_routes {B V} `{RouteStore B} `{Json V} (s : ApiState B) (cid : string)
    (body : list byte) (v : V) (later : list (list byte)) :
  poisoned (bpf s) = false -> 254 <= wrap8 (hash31 cid) ->
  from_slice body = Ok v -> index_str v "action" = Some "allocate" ->
  index_str v "container_id" = Some cid ->
  handle_container_cmd (V:=V) true s body
  = (mkApiState (containers s) (mkMutex true (inner (bpf s))), Panic) /\
  bpf (run_cmds V true s (body :: later)) = mkMutex true (inner (bpf s)).
Proof.
  intros Hp Hh Hb Ha Hc.
  assert (handle_container_cmd (V:=V) true s body
    = (mkApiState (containers s) (mkMutex true (inner (bpf s))), Panic)) as E.
  { unfold handle_container_cmd. rewrite Hb, Ha, Hc.
    cbn [from_option id String.eqb Ascii.eqb Bool.eqb].
    unfold allocate_from_bpf. rewrite Hp.
    change (seqZ 0 253) with (0 :: seqZ 1 252). cbn [alloc_loop].
    unfold alloc_host, add_at. rewrite Z.add_0_r, wrap8_idemp.
    replace (2 + wrap8 (hash31 cid) <=? u8_max) with false; [done|].
    symmetry. apply Z.leb_gt. change u8_max with 255. lia. }
  split; [done|]. unfold run_cmds. cbn [foldl]. rewrite E. cbn [fst].
  set (s' := mkApiState _ _). change (mkMutex true (inner (bpf s))) with (bpf s').
  assert (poisoned (bpf s') = true) as Hp' by done. clearbody s'.
  revert s' Hp'. induction later as [|b later IH]; intros s' Hp'; cbn [foldl]; [done|].
  pose proof (poisoned_kept (V:=V) true s' b Hp') as Hk. rewrite IH; congruence.
Qed.

Lemma overflow_poisons_routes_witness :
  bpf (run_cmds (list (string * string)) true (mkApiState cm_new (mkMutex false (demo_manager ∅)))
    [as_bytes (obj_to_string [("action", "allocate"); ("container_id", "Ge")]);
     as_bytes (obj_to_string [("action", "add"); ("container_id", "c"); ("ip", "10.244.0.9")])])
  = mkMutex true (demo_manager ∅).
Proof.
  eapply (overflow_poisons_routes (V:=list (string * string))
    (mkApiState cm_new (mkMutex false (demo_manager ∅))) "Ge"); [reflexivity| |reflexivity..].
  vm_compute. discriminate.
Defined.

(** ** Properties: recovery *)

(** The entry made for a recovered address: the interface name is cut after
    eight bytes of the identifier, the same for all. *)
Definition recovered_info (ip : Z) : ContainerInfo :=
  mkContainerInfo (recovered_id ip) (show_ipv4 (ipv4_of_u32 ip)) "veth-recovere".

Lemma recover_one_ok (cm : ContainerManager) (ip : Z) :
  recover_one cm ip = Ok (<[recovered_id ip := recovered_info ip]> cm).
Proof. reflexivity. Qed.

Lemma recover_all_ok (cm : ContainerManager) (ips : list Z) :
  recover_all cm ips
  = Ok (foldl (fun cm ip => <[recovered_id ip := recovered_info ip]> cm) cm ips).
Proof. revert cm. induction ips as [|ip ips IH]; intros cm; [done|]. apply IH. Qed.

Lemma recovered_id_info (a b : Z) : recovered_id a = recovered_id b -> recovered_info a = recovered_info b.
Proof.
  intros E. unfold recovered_info. rewrite E. unfold recovered_id in E.
  by apply string_app_inj_len in E as [_ ->].
Qed.

Lemma recovered_lookup (cm : ContainerManager) (ips : list Z) :
  let cm' := foldl (fun cm ip => <[recovered_id ip := recovered_info ip]> cm) cm ips in
  (forall ip, ip ∈ ips -> cm' !! recovered_id ip = Some (recovered_info ip)) /\
  (forall k, (forall ip, ip ∈ ips -> recovered_id ip <> k) -> cm' !! k = cm !! k).
Proof.
  revert cm. induction ips as [|i ips IH]; intros cm; cbn [foldl].
  { split; [by intros ip ?%not_elem_of_nil|done]. }
  destruct (IH (<[recovered_id i := recovered_info i]> cm)) as [Hin Hout]. split.
  - intros ip Hip. apply elem_of_cons in Hip as [->|Hip]; [|by apply Hin].
    destruct (decide (recovered_id i ∈ map recovered_id ips)) as [Hm|Hm].
    + apply list_elem_of_fmap in Hm as (j & Ej & Hj).
      specialize (Hin j Hj). rewrite <- Ej in Hin. rewrite Hin. f_equal.
      symmetry. by apply recovered_id_info.
    + rewrite Hout; [apply lookup_insert_eq|]. intros j Hj Ej. apply Hm. rewrite <- Ej.
      by apply list_elem_of_fmap_2.
  - intros k Hk. rewrite Hout by (intros; apply Hk; by right).
    apply lookup_insert_ne, Hk. by left.
Qed.

(** Recovery enters exactly the addresses the store lists, each under its
    recovered identifier, and leaves every other entry alone. *)
Theorem recover_lists {B} `{RouteStore B} (s : ApiState B) :
  poisoned (bpf s) = false ->
  exists cm, recover_from_bpf s = (mkApiState cm (bpf s), Ok tt) /\
    (forall ip, ip ∈ list_container_ips (inner (bpf s)) ->
       cm !! recovered_id ip = Some (recovered_info ip)) /\
    (forall k, (forall ip, ip ∈ list_container_ips (inner (bpf s)) -> recovered_id ip <> k) ->
       cm !! k = containers s !! k).
Proof.
  intros Hp. unfold recover_from_bpf. rewrite Hp, recover_all_ok.
  destruct (recovered_lookup (containers s) (list_container_ips (inner (bpf s)))) as [Hin Hout].
  eexists. split; [reflexivity|]. by split.
Qed.

(** ** Properties: commands *)

(** The JSON body of a container command. *)
Definition cmd_fields (action cid ip iface : string) : list (string * string) :=
  [("action", action); ("container_id", cid); ("ip", ip); ("iface", iface)].

Section CommandFacts.
Context {B V : Type} `{RouteStore B} `{JsonLaws V}.

Lemma cmd_parsed (action cid ip iface : string) :
  valid_utf8 action = true -> valid_utf8 cid = true -> valid_utf8 ip = true ->
  valid_utf8 iface = true ->
  exists v : V, from_slice (as_bytes (obj_to_string (cmd_fields action cid ip iface))) = Ok v /\
    index_str v "action" = Some action /\ index_str v "container_id" = Some cid /\
    index_str v "ip" = Some ip /\ index_str v "iface" = Some iface.
Proof.
  intros Ha Hc Hi Hf.
  destruct (json_roundtrip (V:=V) (cmd_fields action cid ip iface)) as (v & Hv & Hk).
  - refine (bool_decide_unpack _ _). vm_compute. exact I.
  - repeat (constructor; [cbn [fst snd]; by rewrite ?Ha, ?Hc, ?Hi, ?Hf|]). constructor.
  - exists v. by rewrite !Hk.
Qed.

Lemma handle_add (checks : bool) (s : ApiState B) (cid ip iface : string) :
  valid_utf8 cid = true -> valid_utf8 ip = true -> valid_utf8 iface = true ->
  handle_container_cmd (V:=V) checks s (as_bytes (obj_to_string (cmd_fields "add" cid ip iface)))
  = (mkApiState (cm_add (containers s) cid ip iface)
       (with_route (bpf s) ip (fun b a => update_container_route b a 1)),
     Ok (ok_200 (json1 "status" "added"))).
Proof.
  intros Hc Hi Hf. destruct (cmd_parsed "add" cid ip iface) as (v & Hv & Ea & Ec & Ei & Ef); [done..|].
  unfold handle_container_cmd. by rewrite Hv, Ea, Ec, Ei, Ef.
Qed.

Lemma handle_del (checks : bool) (s : ApiState B) (cid ip iface : string) :
  valid_utf8 cid = true -> valid_utf8 ip = true -> valid_utf8 iface = true ->
  handle_container_cmd (V:=V) checks s (as_bytes (obj_to_string (cmd_fields "del" cid ip iface)))
  = (mkApiState (cm_remove (containers s) cid) (with_route (bpf s) ip remove_container_route),
     Ok (ok_200 (json1 "status" "removed"))).
Proof.
  intros Hc Hi Hf. destruct (cmd_parsed "del" cid ip iface) as (v & Hv & Ea & Ec & Ei & Ef); [done..|].
  unfold handle_container_cmd. by rewrite Hv, Ea, Ec, Ei, Ef.
Qed.

Lemma handle_allocate (checks : bool) (s : ApiState B) (cid : string) :
  valid_utf8 cid = true ->
  handle_container_cmd (V:=V) checks s
    (as_bytes (obj_to_string [("action", "allocate"); ("container_id", cid)]))
  = let '(m, r) := allocate_from_bpf checks (bpf s) cid in
    (mkApiState (containers s) m, (fun ip => ok_200 (json1 "ip" ip)) <$> r).
Proof.
  intros Hc. destruct (json_roundtrip (V:=V) [("action", "allocate"); ("container_id", cid)])
    as (v & Hv & Hk).
  - refine (bool_decide_unpack _ _). vm_compute. exact I.
  - repeat (constructor; [cbn [fst snd]; by rewrite ?Hc|]). constructor.
  - unfold handle_container_cmd. by rewrite Hv, !Hk.
Qed.
End CommandFacts.

(** The text of an address is ASCII. *)
Lemma show_ipv4_utf8 (ip : Ipv4Addr) : valid_utf8 (show_ipv4 ip) = true.
Proof.
  apply valid_utf8_ascii. unfold show_ipv4.
  assert (forall b : byte, is_ascii (show_dec (b2z b)) = true) as Hb by (by intros []).
  rewrite !is_ascii_app, !Hb. done.
Qed.

Section RouteCommands.
Context {M : Type -> Type} {R V : Type} `{KernelMapLaws M} `{JsonLaws V}.

(** Adding a route of an address to an unpoisoned manager that has the map. *)
Lemma with_route_add (m : Mutex (BpfManager M R)) (a : Ipv4Addr) :
  poisoned m = false -> is_Some (container_route (maps (inner m))) ->
  (bpf_update_container_route (inner m) (ipv4_to_u32 a) 1).2 = Ok tt ->
  let m' := with_route m (show_ipv4 a) (fun b a => update_container_route b a 1) in
  poisoned m' = false /\ is_Some (container_route (maps (inner m'))) /\
  route_of (inner m') (ipv4_to_u32 a) = Some 1 /\
  forall k, k <> ipv4_to_u32 a -> route_of (inner m') k = route_of (inner m) k.
Proof.
  intros Hp Hm Hu. unfold with_route. rewrite parse_show_ipv4, Hp.
  cbn [poisoned inner update_container_route BpfManager_RouteStore].
  destruct (bpf_update_container_route _ _ _) as [b' r] eqn:E. cbn [fst snd] in *. subst r.
  pose proof (update_route_lookup _ _ _ _ Hm E) as [? ?]. split_and!; try done.
  destruct Hm as [mm Hm]. unfold bpf_update_container_route in E. rewrite Hm in E.
  destruct (kinsert _ _ _) as [m' r']. destruct r'; [|done]. injection E as <-. by eexists.
Qed.

(** C5: adding a container and deleting it with its address restores the
    state: the table of containers, and every container route. *)
Theorem add_del_restores (checks : bool) (s : ApiState (BpfManager M R)) (cid iface : string)
    (a : Ipv4Addr) :
  valid_utf8 cid = true -> valid_utf8 iface = true ->
  containers s !! cid = None -> poisoned (bpf s) = false ->
  is_Some (container_route (maps (inner (bpf s)))) ->
  route_of (inner (bpf s)) (ipv4_to_u32 a) = None ->
  (bpf_update_container_route (inner (bpf s)) (ipv4_to_u32 a) 1).2 = Ok tt ->
  let body action := as_bytes (obj_to_string (cmd_fields action cid (show_ipv4 a) iface)) in
  let s1 := (handle_container_cmd (V:=V) checks s (body "add")).1 in
  let s2 := (handle_container_cmd (V:=V) checks s1 (body "del")).1 in
  containers s1 !! cid = Some (mkContainerInfo cid (show_ipv4 a) iface) /\
  route_of (inner (bpf s1)) (ipv4_to_u32 a) = Some 1 /\
  containers s2 = containers s /\
  forall k, route_of (inner (bpf s2)) k = route_of (inner (bpf s)) k.
Proof.
  intros Hc Hf Hnew Hp Hm Hr Hu body s1 s2.
  unfold s2, s1, body. rewrite handle_add by (try apply show_ipv4_utf8; done). cbn [fst].
  rewrite handle_del by (try apply show_ipv4_utf8; done). cbn [fst containers bpf].
  pose proof (with_route_add (bpf s) a Hp Hm Hu) as (Hp1 & Hm1 & Hr1 & Ho1).
  set (m1 := with_route (bpf s) _ _) in *.
  split_and!.
  - apply lookup_insert_eq.
  - done.
  - by apply delete_insert_id.
  - intros k. pose proof (remove_route_present (inner m1) (ipv4_to_u32 a) ltac:(by eexists)) as Hrem.
    unfold with_route. rewrite parse_show_ipv4, Hp1.
    cbn [inner remove_container_route BpfManager_RouteStore].
    destruct (bpf_remove_container_route (inner m1) (ipv4_to_u32 a)) as [b' r] eqn:E.
    cbn [fst snd] in *. subst r. pose proof (remove_route_lookup _ _ _ Hm1 E) as [Hn Ho].
    destruct (decide (k = ipv4_to_u32 a)) as [->|Hk]; [congruence|]. by rewrite Ho, Ho1 by done.
Qed.

(** After a restart the pinned map still holds the route of an added
    container, but recovery finds nothing: the table stays empty. *)
Theorem restart_forgets_containers (checks : bool) (s : ApiState (BpfManager M R))
    (cid iface : string) (a : Ipv4Addr) :
  valid_utf8 cid = true -> valid_utf8 iface = true -> poisoned (bpf s) = false ->
  is_Some (container_route (maps (inner (bpf s)))) ->
  (bpf_update_container_route (inner (bpf s)) (ipv4_to_u32 a) 1).2 = Ok tt ->
  let s1 := (handle_container_cmd (V:=V) checks s
               (as_bytes (obj_to_string (cmd_fields "add" cid (show_ipv4 a) iface)))).1 in
  let restarted := mkApiState cm_new (bpf s1) in
  route_of (inner (bpf s1)) (ipv4_to_u32 a) = Some 1 /\
  is_Some (containers s1 !! cid) /\ recover_from_bpf restarted = (restarted, Ok tt).
Proof.
  intros Hc Hf Hp Hm Hu s1 restarted.
  unfold restarted, s1. rewrite handle_add by (try apply show_ipv4_utf8; done). cbn [fst containers bpf].
  pose proof (with_route_add (bpf s) a Hp Hm Hu) as (Hp1 & Hm1 & Hr1 & _).
  split_and!; [done|eexists; apply lookup_insert_eq|].
  unfold recover_from_bpf. cbn [bpf]. by rewrite Hp1.
Qed.
End RouteCommands.

Lemma add_del_restores_witness :
  let s := mkApiState cm_new (mkMutex false (demo_manager ∅)) in
  let body action := as_bytes (obj_to_string (cmd_fields action "c1" "10.244.0.9" "veth-c1")) in
  let s1 := (handle_container_cmd (V:=list (string * string)) false s (body "add")).1 in
  containers (handle_container_cmd (V:=list (string * string)) false s1 (body "del")).1 = cm_new.
Proof.
  apply (add_del_restores (V:=list (string * string)) false
    (mkApiState cm_new (mkMutex false (demo_manager ∅))) "c1" "veth-c1" (ipv4_new 10 244 0 9));
    try reflexivity. by eexists.
Defined.

Lemma restart_forgets_containers_witness :
  let s := mkApiState cm_new (mkMutex false (demo_manager ∅)) in
  let s1 := (handle_container_cmd (V:=list (string * string)) false s
    (as_bytes (obj_to_string (cmd_fields "add" "c1" "10.244.0.9" "veth-c1")))).1 in
  recover_from_bpf (mkApiState cm_new (bpf s1)) = (mkApiState cm_new (bpf s1), Ok tt).
Proof.
  apply (restart_forgets_containers (V:=list (string * string)) false
    (mkApiState cm_new (mkMutex false (demo_manager ∅))) "c1" "veth-c1" (ipv4_new 10 244 0 9));
    try reflexivity. by eexists.
Defined.
