(* ===== verification/ApiRace.v ===== *)
(** * Concurrent container commands ([agent/src/api.rs])

    [api_server] runs every connection as a task of its own.  A command takes
    the lock on the table of containers, gives it back, and then takes the
    lock on the BPF manager: between the two other tasks may run.  Here each
    critical section is one step of [api_step], and a list of commands runs
    in any interleaving of their steps. *)

From S2P Require Import Prelude RustStr NetAddr Common Kernel BpfMgr Json Api.

(** ** Steps *)

Inductive RouteOp := RouteAdd | RouteDel.

(** Where a command is: its body was read; its table was updated and the
    route operation is still to come, with the response to send; or the
    response was computed, [warned] telling whether the error of the route
    operation was logged. *)
Inductive cmd_phase :=
| Received (body : list byte)
| Routing (op : RouteOp) (ip : string) (resp : string)
| Replied (warned : bool) (r : outcome string string).

Section Steps.
Context {B V : Type} `{RouteStore B} `{Json V}.

Definition route_op (op : RouteOp) (b : B) (a : Z) : B * outcome string unit :=
  match op with
  | RouteAdd => update_container_route b a 1
  | RouteDel => remove_container_route b a
  end.

(** The command up to its first critical section, that included. *)
Definition cmd_begin (checks : bool) (s : ApiState B) (body : list byte) : ApiState B * cmd_phase :=
  match from_slice (V:=V) body with
  | Err e => (s, Replied false (Ok (bad_400 (json1 "error" ("json: " +:+ e)))))
  | Panic => (s, Replied false Panic)
  | Ok parsed =>
      let action := default "" (index_str parsed "action") in
      let container_id := default "" (index_str parsed "container_id") in
      let ip := default "0.0.0.0" (index_str parsed "ip") in
      let iface := default "" (index_str parsed "iface") in
      if String.eqb action "allocate" then
        let '(m, r) := allocate_from_bpf checks (bpf s) container_id in
        (mkApiState (containers s) m, Replied false ((fun ip => ok_200 (json1 "ip" ip)) <$> r))
      else if String.eqb action "add" then
        (mkApiState (cm_add (containers s) container_id ip iface) (bpf s),
         Routing RouteAdd ip (ok_200 (json1 "status" "added")))
      else if String.eqb action "del" then
        (mkApiState (cm_remove (containers s) container_id) (bpf s),
         Routing RouteDel ip (ok_200 (json1 "status" "removed")))
      else (s, Replied false (Ok (bad_400 (json1 "error" "unknown action"))))
  end.

(** The rest: the route operation under the lock on the manager. *)
Definition cmd_finish (s : ApiState B) (op : RouteOp) (ip resp : string) : ApiState B * cmd_phase :=
  match parse_ipv4 ip with
  | Some a =>
      if poisoned (bpf s) then (s, Replied false (Ok resp))
      else let '(b, r) := route_op op (inner (bpf s)) (ipv4_to_u32 a) in
           (mkApiState (containers s) (mkMutex false b), Replied (negb (is_ok r)) (Ok resp))
  | None => (s, Replied false (Ok resp))
  end.

Inductive api_step (checks : bool) :
  ApiState B * list cmd_phase -> ApiState B * list cmd_phase -> Prop :=
| api_begin (s s' : ApiState B) (ts : list cmd_phase) (i : nat) (body : list byte) (p : cmd_phase) :
    ts !! i = Some (Received body) -> cmd_begin checks s body = (s', p) ->
    api_step checks (s, ts) (s', <[i := p]> ts)
| api_route (s s' : ApiState B) (ts : list cmd_phase) (i : nat) (op : RouteOp) (ip resp : string)
    (p : cmd_phase) :
    ts !! i = Some (Routing op ip resp) -> cmd_finish s op ip resp = (s', p) ->
    api_step checks (s, ts) (s', <[i := p]> ts).

(** ** A command alone *)

(** The outcome of the handler, from the last phase. *)
Definition reply (p : cmd_phase) : option (outcome string string) :=
  match p with Replied _ r => Some r | _ => None end.

Lemma cmd_finish_route (s : ApiState B) (op : RouteOp) (ip resp : string) :
  exists warned, cmd_finish s op ip resp
  = (mkApiState (containers s) (with_route (bpf s) ip (route_op op)), Replied warned (Ok resp)).
Proof.
  unfold cmd_finish, with_route. destruct s as [cm m]. cbn [bpf containers].
  destruct (parse_ipv4 ip); [|by eexists]. destruct (poisoned m); [by eexists|].
  destruct (route_op _ _ _) as [b r]. by eexists.
Qed.

(** Without interference the two steps are the handler. *)
Lemma cmd_alone (checks : bool) (s : ApiState B) (body : list byte) :
  exists warned s' r, handle_container_cmd (V:=V) checks s body = (s', r) /\
    rtc (api_step checks) (s, [Received body]) (s', [Replied warned r]).
Proof.
  assert (forall s' p, cmd_begin checks s body = (s', p) ->
    rtc (api_step checks) (s, [Received body]) (s', [p])) as Hbegin.
  { intros s' p E. by apply rtc_once, (api_begin checks s s' [Received body] 0 body). }
  assert (forall s' op ip resp, cmd_begin checks s body = (s', Routing op ip resp) ->
    exists warned, rtc (api_step checks) (s, [Received body])
      (mkApiState (containers s') (with_route (bpf s') ip (route_op op)), [Replied warned (Ok resp)]))
    as Htwo.
  { intros s' op ip resp E. destruct (cmd_finish_route s' op ip resp) as [w Ew]. exists w.
    eapply rtc_r; [by apply Hbegin|]. by apply (api_route checks s' _ [_] 0 op ip resp). }
  unfold cmd_begin in Hbegin, Htwo. unfold handle_container_cmd.
  destruct (from_slice (V:=V) body) as [v|e|]; [|by eauto 10..].
  destruct (String.eqb _ "allocate").
  { destruct (allocate_from_bpf _ _ _) as [m r]. eauto 10. }
  destruct (String.eqb _ "add"); [|destruct (String.eqb _ "del"); [|by eauto 10]].
  all: destruct (Htwo _ _ _ _ eq_refl) as [w Hw]; exists w; eauto.
Qed.

(** ** Every run ends *)

Definition work (p : cmd_phase) : nat :=
  match p with Received _ => 2 | Routing _ _ _ => 1 | Replied _ _ => 0 end.

Lemma cmd_begin_work (checks : bool) (s s' : ApiState B) (body : list byte) (p : cmd_phase) :
  cmd_begin checks s body = (s', p) -> (work p <= 1)%nat.
Proof.
  unfold cmd_begin. intros E. destruct (from_slice (V:=V) body) as [v|e|]; [|injection E as _ <-; cbn; lia..].
  destruct (String.eqb _ "allocate"); [destruct (allocate_from_bpf _ _ _)|
    destruct (String.eqb _ "add"); [|destruct (String.eqb _ "del")]]; injection E as _ <-; cbn; lia.
Qed.

Lemma sum_insert (f : cmd_phase -> nat) (ts : list cmd_phase) (i : nat) (p q : cmd_phase) :
  ts !! i = Some p ->
  (sum_list (f <$> <[i := q]> ts) + f p = sum_list (f <$> ts) + f q)%nat.
Proof.
  revert i. induction ts as [|t ts IH]; intros [|i] E; [done|done|..]; cbn in E |- *.
  - injection E as ->. lia.
  - specialize (IH i E). rewrite <- !Nat.add_assoc. f_equal. exact IH.
Qed.

Lemma api_step_work (checks : bool) (c c' : ApiState B * list cmd_phase) :
  api_step checks c c' -> (sum_list (work <$> c'.2) < sum_list (work <$> c.2))%nat.
Proof.
  intros Hs. destruct Hs as [s s' ts i body p Hi E|s s' ts i op ip resp p Hi E]; cbn [snd];
    pose proof (sum_insert work ts i _ p Hi) as Hsum; cbn [work] in Hsum.
  - apply cmd_begin_work in E. lia.
  - destruct (cmd_finish_route s op ip resp) as [w Ew]. rewrite Ew in E. injection E as _ <-.
    cbn [work] in Hsum. lia.
Qed.

Lemma api_step_enabled (checks : bool) (s : ApiState B) (ts : list cmd_phase) :
  Exists (fun p => (0 < work p)%nat) ts -> exists c', api_step checks (s, ts) c'.
Proof.
  intros (p & Hp & Hw)%Exists_exists. apply list_elem_of_lookup in Hp as [i Hi].
  destruct p as [body|op ip resp|]; cbn in Hw; [| |lia].
  - destruct (cmd_begin checks s body) as [s' p] eqn:E. eexists. by eapply api_begin.
  - destruct (cmd_finish s op ip resp) as [s' p] eqn:E. eexists. by eapply api_route.
Qed.
Lemma work_dec (ts : list cmd_phase) :
  Forall (fun p => is_Some (reply p)) ts \/ Exists (fun p => (0 < work p)%nat) ts.
Proof.
  induction ts as [|p ts [IH|IH]]; [by left| |right; by right].
  destruct p as [| |w r]; [right; left; cbn; lia..|]. left. constructor; [by eexists|done].
Qed.

Lemma api_run_to_end (checks : bool) (s : ApiState B) (ts : list cmd_phase) :
  exists s' ts', rtc (api_step checks) (s, ts) (s', ts') /\ Forall (fun p => is_Some (reply p)) ts'.
Proof.
  remember (sum_list (work <$> ts)) as n eqn:Hn. revert s ts Hn.
  induction n as [n IH] using lt_wf_ind. intros s ts ->.
  destruct (work_dec ts) as [Hd|Hd]; [by exists s, ts|].
  destruct (api_step_enabled checks s ts Hd) as [[s1 ts1] Hs].
  destruct (IH _ (api_step_work checks _ _ Hs) s1 ts1 eq_refl) as (s' & ts' & Hr & Hd').
  exists s', ts'. split; [by eapply rtc_l|done].
Qed.
End Steps.
Arguments api_step {B} V {_ _}.
Arguments cmd_begin {B} V {_ _}.

(** ** Commands on different containers *)

(** A command as a client sends it. *)
Record Request := mkRequest {
  rq_op : RouteOp; rq_cid : string; rq_ip : Ipv4Addr; rq_iface : string }.

Definition rq_action (rq : Request) : string :=
  match rq_op rq with RouteAdd => "add" | RouteDel => "del" end.

Definition rq_resp (rq : Request) : string :=
  ok_200 (json1 "status" match rq_op rq with RouteAdd => "added" | RouteDel => "removed" end).

(** What it makes of its table entry. *)
Definition rq_entry (rq : Request) : option ContainerInfo :=
  match rq_op rq with
  | RouteAdd => Some (mkContainerInfo (rq_cid rq) (show_ipv4 (rq_ip rq)) (rq_iface rq))
  | RouteDel => None
  end.

Definition rq_text (rq : Request) : Prop :=
  valid_utf8 (rq_cid rq) = true /\ valid_utf8 (rq_iface rq) = true.

Section Independent.
Context {M : Type -> Type} {R V : Type} `{KernelMapLaws M} `{JsonLaws V}.

Definition rq_body (rq : Request) : list byte :=
  as_bytes (obj_to_string (cmd_fields (rq_action rq) (rq_cid rq) (show_ipv4 (rq_ip rq)) (rq_iface rq))).

(** The route a request leaves when the map answered [warned]: an insertion
    that failed leaves it as it was, a removal always leaves none. *)
Definition rq_route (rq : Request) (warned : bool) (before : option Z) : option Z :=
  match rq_op rq with
  | RouteAdd => if warned then before else Some 1
  | RouteDel => None
  end.

Lemma begin_request (checks : bool) (s : ApiState (BpfManager M R)) (rq : Request) :
  rq_text rq ->
  exists cm, cmd_begin V checks s (rq_body rq)
    = (mkApiState cm (bpf s), Routing (rq_op rq) (show_ipv4 (rq_ip rq)) (rq_resp rq)) /\
    cm !! rq_cid rq = rq_entry rq /\
    forall k, k <> rq_cid rq -> cm !! k = containers s !! k.
Proof.
  intros [Hc Hi]. unfold cmd_begin, rq_body, rq_entry, rq_resp.
  destruct (cmd_parsed (V:=V) (rq_action rq) (rq_cid rq) (show_ipv4 (rq_ip rq)) (rq_iface rq))
    as (v & -> & -> & -> & -> & ->); try done; [by destruct rq as [[] ? ? ?]|apply show_ipv4_utf8|].
  destruct rq as [[] c a f]; cbn; eexists; (split; [reflexivity|]); (split; [|intros k Hk]).
  - apply lookup_insert_eq.
  - by apply lookup_insert_ne.
  - apply lookup_delete_eq.
  - by apply lookup_delete_ne.
Qed.

Lemma remove_route_err (b b' : BpfManager M R) (ip : Z) (e : string) :
  bpf_remove_container_route b ip = (b', Err e) ->
  route_of b ip = None /\ forall k, route_of b' k = route_of b k.
Proof.
  intros E. split.
  - destruct (route_of b ip) eqn:Er; [|done].
    pose proof (remove_route_present b ip ltac:(rewrite Er; by eexists)) as Ho. by rewrite E in Ho.
  - intros k. unfold bpf_remove_container_route, route_of in *.
    destruct (container_route (maps b)) as [m|]; [|by simplify_eq].
    destruct (kremove m ip) as [m' []] eqn:Ei; simplify_eq/=. by apply (kremove_err _ _ _ Ei).
Qed.

(** A route operation on a manager that has the map. *)
Lemma route_op_effect (rq : Request) (b : BpfManager M R) :
  is_Some (container_route (maps b)) ->
  let '(b', r) := route_op (rq_op rq) b (ipv4_to_u32 (rq_ip rq)) in
  is_Some (container_route (maps b')) /\
  route_of b' (ipv4_to_u32 (rq_ip rq))
  = rq_route rq (negb (is_ok r)) (route_of b (ipv4_to_u32 (rq_ip rq))) /\
  forall k, k <> ipv4_to_u32 (rq_ip rq) -> route_of b' k = route_of b k.
Proof.
  intros Hm. pose proof Hm as [m Em]. unfold rq_route, route_op.
  destruct (rq_op rq); cbn [update_container_route remove_container_route BpfManager_RouteStore].
  - destruct (bpf_update_container_route _ _ _) as [b' r] eqn:E.
    assert (is_Some (container_route (maps b'))) as Hm'.
    { unfold bpf_update_container_route in E. rewrite Em in E.
      destruct (kinsert _ _ _). injection E as <- _. by eexists. }
    destruct r as [[]|e|]; cbn [is_ok negb].
    + destruct (update_route_lookup _ _ _ _ Hm E). by split_and!.
    + pose proof (update_route_err _ _ _ _ _ E) as Hk. by split_and!.
    + unfold bpf_update_container_route in E. rewrite Em in E. destruct (kinsert _ _ _) as [? []]; done.
  - destruct (bpf_remove_container_route _ _) as [b' r] eqn:E.
    assert (is_Some (container_route (maps b'))) as Hm'.
    { unfold bpf_remove_container_route in E. rewrite Em in E.
      destruct (kremove _ _). injection E as <- _. by eexists. }
    destruct r as [[]|e|].
    + destruct (remove_route_lookup _ _ _ Hm E). by split_and!.
    + destruct (remove_route_err _ _ _ _ E) as [Hn Hk]. rewrite Hk. by split_and!.
    + unfold bpf_remove_container_route in E. rewrite Em in E. destruct (kremove _ _) as [? []]; done.
Qed.

(** A request handled alone. *)
Lemma handle_request_alone (checks : bool) (s : ApiState (BpfManager M R)) (rq : Request) :
  rq_text rq -> poisoned (bpf s) = false ->
  exists cm, handle_container_cmd (V:=V) checks s (rq_body rq)
    = (mkApiState cm (mkMutex false (route_op (rq_op rq) (inner (bpf s)) (ipv4_to_u32 (rq_ip rq))).1),
       Ok (rq_resp rq)) /\
    cm !! rq_cid rq = rq_entry rq.
Proof.
  intros [Hc Hi] Hp. unfold rq_body. destruct rq as [[] c a f]; cbn [rq_action rq_op rq_cid rq_ip rq_iface] in *.
  - rewrite handle_add by (try apply show_ipv4_utf8; done). unfold with_route.
    rewrite parse_show_ipv4, Hp. eexists. split; [reflexivity|apply lookup_insert_eq].
  - rewrite handle_del by (try apply show_ipv4_utf8; done). unfold with_route.
    rewrite parse_show_ipv4, Hp. eexists. split; [reflexivity|apply lookup_delete_eq].
Qed.

Lemma request_effect (checks : bool) (s : ApiState (BpfManager M R)) (rq : Request) :
  rq_text rq -> poisoned (bpf s) = false -> is_Some (container_route (maps (inner (bpf s)))) ->
  let s' := (handle_container_cmd (V:=V) checks s (rq_body rq)).1 in
  let r := route_op (rq_op rq) (inner (bpf s)) (ipv4_to_u32 (rq_ip rq)) in
  bpf s' = mkMutex false r.1 /\ is_Some (container_route (maps (inner (bpf s')))) /\
  containers s' !! rq_cid rq = rq_entry rq /\
  route_of (inner (bpf s')) (ipv4_to_u32 (rq_ip rq))
  = rq_route rq (negb (is_ok r.2)) (route_of (inner (bpf s)) (ipv4_to_u32 (rq_ip rq))).
Proof.
  intros Ht Hp Hm. cbv zeta. destruct (handle_request_alone checks s rq Ht Hp) as (cm & -> & Hcm).
  cbn [fst bpf containers inner]. pose proof (route_op_effect rq (inner (bpf s)) Hm) as He.
  destruct (route_op _ _ _) as [b r]. destruct He as (? & ? & _). by split_and!.
Qed.

End Independent.
Arguments rq_body V {_}.

(** A command: an addition or removal, or the allocation of an address. *)
Inductive Cmd :=
| Manage (rq : Request)
| Allocate (cid : string).

(** The host the manager hands out for an identifier. *)
Definition alloc_first (cid : string) : Z := default 2 (hd_error (search_order (wrap8 (hash31 cid)))).

(** What a command touches: the table entry, if it has one, and the route. *)
Definition cmd_key (c : Cmd) : option string :=
  match c with Manage rq => Some (rq_cid rq) | Allocate _ => None end.

Definition cmd_addr (c : Cmd) : Z :=
  match c with Manage rq => ipv4_to_u32 (rq_ip rq) | Allocate cid => host_ip (alloc_first cid) end.

(** What it asks for: the entry, the route and the response. *)
Definition cmd_entry (c : Cmd) : option ContainerInfo :=
  match c with Manage rq => rq_entry rq | Allocate _ => None end.

Definition cmd_route (c : Cmd) : option Z :=
  match c with
  | Manage rq => match rq_op rq with RouteAdd => Some 1 | RouteDel => None end
  | Allocate _ => Some 1
  end.

Definition cmd_resp (c : Cmd) : string :=
  match c with
  | Manage rq => rq_resp rq
  | Allocate cid => ok_200 (json1 "ip" (show_ipv4 (ipv4_new 10 244 0 (alloc_first cid))))
  end.

(** The text is text, and the sum in the allocation does not overflow in a
    build that checks it. *)
Definition cmd_ok (checks : bool) (c : Cmd) : Prop :=
  match c with
  | Manage rq => rq_text rq
  | Allocate cid => valid_utf8 cid = true /\ (checks = true -> wrap8 (hash31 cid) <= 251)
  end.

(** Commands on different containers and different addresses. *)
Definition independent (checks : bool) (cmds : list Cmd) : Prop :=
  NoDup (omap cmd_key cmds) /\ NoDup (cmd_addr <$> cmds) /\ Forall (cmd_ok checks) cmds.

Section Commands.
Context {M : Type -> Type} {R V : Type} `{KernelMapLaws M} `{JsonLaws V}.

Definition cmd_body (c : Cmd) : list byte :=
  match c with
  | Manage rq => rq_body V rq
  | Allocate cid => as_bytes (obj_to_string [("action", "allocate"); ("container_id", cid)])
  end.

Lemma alloc_loop_first (checks : bool) (hash x : Z) (l : list Z) (b : BpfManager M R) :
  alloc_host checks hash 0 = Ok x -> 2 <= x ->
  alloc_loop checks hash (0 :: l) b = Ok (Some ((update_container_route b (host_ip x) 1).1, host_ip x)).
Proof.
  intros E Hx. cbn [alloc_loop]. rewrite E. cbn [mbind outcome_bind].
  by replace (x <? 2) with false by (symmetry; by apply Z.ltb_ge).
Qed.

Lemma alloc_host_first (checks : bool) (hash : Z) :
  wrap8 hash <= 251 -> alloc_host checks hash 0 = Ok (2 + wrap8 hash).
Proof.
  intros Hh. unfold alloc_host, add_at. rewrite Z.add_0_r, wrap8_idemp.
  pose proof (wrap8_range hash).
  replace (2 + wrap8 hash <=? u8_max) with true by (symmetry; apply Z.leb_le; change u8_max with 255; lia).
  cbn [mbind outcome_bind]. by rewrite Z.mod_small by lia.
Qed.

(** Allocation through the manager, also with overflow checks. *)
Lemma allocate_first (checks : bool) (m : Mutex (BpfManager M R)) (cid : string) :
  poisoned m = false -> (checks = true -> wrap8 (hash31 cid) <= 251) ->
  allocate_from_bpf checks m cid
  = (mkMutex false (bpf_update_container_route (inner m) (host_ip (alloc_first cid)) 1).1,
     Ok (show_ipv4 (ipv4_new 10 244 0 (alloc_first cid)))).
Proof.
  intros Hp Hc. destruct (allocate_manager m cid Hp) as (x & Hx & E).
  unfold alloc_first. rewrite Hx. cbn [default from_option id]. rewrite <- E.
  destruct checks; [|done]. specialize (Hc eq_refl). unfold allocate_from_bpf. rewrite Hp.
  pose proof (wrap8_range (hash31 cid)).
  assert (seqZ 0 253 = 0 :: seqZ 1 252) as -> by reflexivity.
  rewrite !(alloc_loop_first _ _ (2 + wrap8 (hash31 cid))) by (try apply alloc_host_first; lia).
  reflexivity.
Qed.

Lemma begin_allocate (checks : bool) (s : ApiState (BpfManager M R)) (cid : string) :
  cmd_ok checks (Allocate cid) -> poisoned (bpf s) = false ->
  cmd_begin V checks s (cmd_body (Allocate cid))
  = (mkApiState (containers s)
       (mkMutex false (bpf_update_container_route (inner (bpf s)) (cmd_addr (Allocate cid)) 1).1),
     Replied false (Ok (cmd_resp (Allocate cid)))).
Proof.
  intros [Hv Hc] Hp. unfold cmd_begin, cmd_body.
  destruct (json_roundtrip (V:=V) [("action", "allocate"); ("container_id", cid)]) as (v & -> & Hk).
  - refine (bool_decide_unpack _ _). vm_compute. exact I.
  - repeat (constructor; [cbn [fst snd]; by rewrite ?Hv|]). constructor.
  - rewrite !Hk. cbn [assoc String.eqb Ascii.eqb Bool.eqb default from_option id].
    by rewrite allocate_first.
Qed.

(** How far a command is: its entry is written, its route is. *)
Definition entered (p : cmd_phase) : bool :=
  match p with Received _ => false | _ => true end.
Definition replied (p : cmd_phase) : bool :=
  match p with Replied _ _ => true | _ => false end.

(** A place in the map a command may still take. *)
Definition reserve (p : cmd_phase) : nat := if replied p then 0 else 1.

Definition phase_ok (c : Cmd) (p : cmd_phase) : Prop :=
  match p with
  | Received body => body = cmd_body c
  | Routing op ip resp => exists rq, c = Manage rq /\ op = rq_op rq /\
      ip = show_ipv4 (rq_ip rq) /\ resp = rq_resp rq
  | Replied _ r => r = Ok (cmd_resp c)
  end.

(** Where a command stands, against the state before all of them. *)
Definition cmd_inv (s0 s : ApiState (BpfManager M R)) (c : Cmd) (p : cmd_phase) : Prop :=
  phase_ok c p /\
  (forall k, cmd_key c = Some k ->
     containers s !! k = if entered p then cmd_entry c else containers s0 !! k) /\
  route_of (inner (bpf s)) (cmd_addr c)
  = if replied p then cmd_route c else route_of (inner (bpf s0)) (cmd_addr c).

Definition run_inv (s0 : ApiState (BpfManager M R)) (cmds : list Cmd)
    (x : ApiState (BpfManager M R) * list cmd_phase) : Prop :=
  poisoned (bpf x.1) = false /\ is_Some (container_route (maps (inner (bpf x.1)))) /\
  (sum_list (reserve <$> x.2) <= route_room (inner (bpf x.1)))%nat /\
  Forall2 (cmd_inv s0 x.1) cmds x.2 /\
  (forall k, k ∉ omap cmd_key cmds -> containers x.1 !! k = containers s0 !! k) /\
  (forall a, a ∉ cmd_addr <$> cmds ->
     route_of (inner (bpf x.1)) a = route_of (inner (bpf s0)) a).

(** The keys of different commands differ. *)
Lemma keys_differ (cmds : list Cmd) (i j : nat) (c d : Cmd) (k : string) :
  NoDup (omap cmd_key cmds) -> cmds !! i = Some c -> cmds !! j = Some d -> i <> j ->
  cmd_key c = Some k -> cmd_key d <> Some k.
Proof.
  revert i j. induction cmds as [|x cmds IH]; intros i j Hnd Hi Hj Hij Hc Hd; [done|].
  assert (forall y n, cmds !! n = Some y -> cmd_key y = Some k -> k ∈ omap cmd_key cmds) as Hin.
  { intros y n Hn Hy. apply list_elem_of_omap. exists y. split; [by eapply list_elem_of_lookup_2|done]. }
  cbn [omap list_omap] in Hnd. destruct i as [|i], j as [|j]; [done|..]; cbn in Hi, Hj.
  - injection Hi as ->. rewrite Hc in Hnd. apply NoDup_cons in Hnd as [Hn _]. by eapply Hn, Hin.
  - injection Hj as ->. rewrite Hd in Hnd. apply NoDup_cons in Hnd as [Hn _]. by eapply Hn, Hin.
  - eapply (IH i j); eauto. by destruct (cmd_key x); [apply NoDup_cons in Hnd as [_ ?]|].
Qed.

(** Changing only what command [i] touches, and its phase so that it fits,
    keeps what is known of the others. *)
Lemma cmd_inv_frame (checks : bool) (s0 s s' : ApiState (BpfManager M R)) (cmds : list Cmd)
    (ts : list cmd_phase) (i : nat) (c : Cmd) (p : cmd_phase) :
  independent checks cmds -> Forall2 (cmd_inv s0 s) cmds ts -> cmds !! i = Some c ->
  (forall k, cmd_key c <> Some k -> containers s' !! k = containers s !! k) ->
  (forall a, a <> cmd_addr c -> route_of (inner (bpf s')) a = route_of (inner (bpf s)) a) ->
  cmd_inv s0 s' c p -> Forall2 (cmd_inv s0 s') cmds (<[i := p]> ts).
Proof.
  intros (Hc & Ha & _) HF Hi Hcm Hrt Hp. apply Forall2_lookup. intros j.
  rewrite Forall2_lookup in HF. specialize (HF j).
  destruct (decide (j = i)) as [->|Hne].
  - rewrite Hi in HF |- *. inversion HF as [? t Ht Et|].
    rewrite list_lookup_insert_eq; [by constructor|]. by eapply lookup_lt_Some.
  - rewrite list_lookup_insert_ne by done.
    destruct (cmds !! j) as [d|] eqn:Ej; inversion HF as [? t (Hph & Hk & Hr) Et|]; constructor.
    split_and!; [done| |].
    + intros k Hd. rewrite Hcm by (by eapply (keys_differ cmds j i)). by apply Hk.
    + rewrite Hrt; [done|]. intros E. apply Hne. eapply (NoDup_lookup _ _ _ (cmd_addr c) Ha);
        rewrite list_lookup_fmap; [by rewrite Ej; cbn; rewrite E|by rewrite Hi].
Qed.

(** A change that gives command [i] its next phase keeps the invariant. *)
Lemma run_inv_update (checks : bool) (s0 s s' : ApiState (BpfManager M R)) (cmds : list Cmd)
    (ts : list cmd_phase) (i : nat) (c : Cmd) (q p : cmd_phase) :
  independent checks cmds -> run_inv s0 cmds (s, ts) -> cmds !! i = Some c -> ts !! i = Some q ->
  poisoned (bpf s') = false -> is_Some (container_route (maps (inner (bpf s')))) ->
  (route_room (inner (bpf s)) + reserve p <= route_room (inner (bpf s')) + reserve q)%nat ->
  (forall k, cmd_key c <> Some k -> containers s' !! k = containers s !! k) ->
  (forall a, a <> cmd_addr c -> route_of (inner (bpf s')) a = route_of (inner (bpf s)) a) ->
  cmd_inv s0 s' c p -> run_inv s0 cmds (s', <[i := p]> ts).
Proof.
  intros Hind (_ & _ & Hroom & HF & Hoc & Hor) Hi Hq Hp Hm Hsum Hcm Hrt Hinv.
  cbn [fst snd] in *. unfold run_inv. cbn [fst snd]. split_and!; try done.
  - pose proof (sum_insert reserve ts i q p Hq). lia.
  - by eapply cmd_inv_frame.
  - intros k Hk. rewrite Hcm; [by apply Hoc|]. intros E. apply Hk, list_elem_of_omap.
    exists c. split; [by eapply list_elem_of_lookup_2|done].
  - intros a Hn. rewrite Hrt; [by apply Hor|]. intros ->. apply Hn.
    by eapply list_elem_of_fmap_2, list_elem_of_lookup_2.
Qed.

(** The route operation of a request where there is room. *)
Lemma route_op_exact (rq : Request) (b : BpfManager M R) :
  is_Some (container_route (maps b)) -> (0 < route_room b)%nat ->
  let b' := (route_op (rq_op rq) b (ipv4_to_u32 (rq_ip rq))).1 in
  is_Some (container_route (maps b')) /\ (route_room b <= S (route_room b'))%nat /\
  route_of b' (ipv4_to_u32 (rq_ip rq)) = cmd_route (Manage rq) /\
  forall k, k <> ipv4_to_u32 (rq_ip rq) -> route_of b' k = route_of b k.
Proof.
  intros Hm Hr. unfold route_op, cmd_route.
  destruct (rq_op rq); cbn [update_container_route remove_container_route BpfManager_RouteStore].
  - split_and!; [by apply update_route_kept|apply update_room|by apply update_route_exact..].
  - split_and!; [by apply remove_route_kept| |by apply remove_route_exact..].
    pose proof (remove_room b (ipv4_to_u32 (rq_ip rq))). lia.
Qed.

(** A place is left while a command has not replied. *)
Lemma room_left (ts : list cmd_phase) (i n : nat) (p : cmd_phase) :
  ts !! i = Some p -> replied p = false -> (sum_list (reserve <$> ts) <= n)%nat -> (0 < n)%nat.
Proof.
  intros Hi Hp Hn. pose proof (sum_insert reserve ts i p (Replied false Panic) Hi) as Hs.
  unfold reserve at 2 4 in Hs. rewrite Hp in Hs. cbn in Hs. lia.
Qed.

Lemma run_inv_step (checks : bool) (s0 : ApiState (BpfManager M R)) (cmds : list Cmd)
    (x x' : ApiState (BpfManager M R) * list cmd_phase) :
  independent checks cmds -> run_inv s0 cmds x -> api_step V checks x x' -> run_inv s0 cmds x'.
Proof.
  intros Hind Hinv Hs. pose proof Hinv as (Hp & Hm & Hroom & HF & _). pose proof Hind as (_ & _ & Hok).
  destruct Hs as [s s' ts i body p Hi E|s s' ts i op ip resp p Hi E]; cbn [fst snd] in *;
    destruct (Forall2_lookup_r _ _ _ _ _ HF Hi) as (c & Hc & Hph & Hk & Hr);
    pose proof (room_left ts i _ _ Hi eq_refl Hroom) as Hpos;
    pose proof (Forall_lookup_1 _ _ _ _ Hok Hc) as Htext.
  - cbn [phase_ok] in Hph. subst body. destruct c as [rq|cid].
    + destruct (begin_request (V:=V) checks s rq) as (cm & Eb & Hcm & Hco); [done|].
      cbn [cmd_body] in E. rewrite Eb in E. injection E as <- <-.
      eapply run_inv_update; [done|done|done|done|done|done|cbn; lia| |done|].
      * intros k Hkey. apply Hco. intros ->. by apply Hkey.
      * split_and!; [by exists rq| |done]. intros k [= <-]. exact Hcm.
    + rewrite begin_allocate in E by done. injection E as <- <-.
      pose proof (update_room (inner (bpf s)) (cmd_addr (Allocate cid)) 1).
      destruct (update_route_exact (inner (bpf s)) (cmd_addr (Allocate cid)) 1 Hpos) as [Hset Hother].
      eapply run_inv_update; [done|done|done|done|done| | |done|done|].
      * by apply update_route_kept.
      * cbn [bpf inner]. unfold reserve. cbn [replied]. change (host_ip (alloc_first cid)) with (cmd_addr (Allocate cid)). lia.
      * by split_and!.
  - cbn [phase_ok] in Hph. destruct Hph as (rq & -> & -> & -> & ->).
    unfold cmd_finish in E. rewrite parse_show_ipv4, Hp in E.
    destruct (route_op_exact rq (inner (bpf s)) Hm Hpos) as (Hm' & Hrm & Hset & Hother).
    destruct (route_op _ _ _) as [b r]. injection E as <- <-. cbn [fst] in *.
    eapply run_inv_update; [done|done|done|done|done|done| |done|done|].
    * cbn [bpf inner]. unfold reserve. cbn [replied]. lia.
    * by split_and!.
Qed.

Lemma run_inv_rtc (checks : bool) (s0 : ApiState (BpfManager M R)) (cmds : list Cmd)
    (x x' : ApiState (BpfManager M R) * list cmd_phase) :
  independent checks cmds -> run_inv s0 cmds x -> rtc (api_step V checks) x x' -> run_inv s0 cmds x'.
Proof. intros Hind Hx Hr. induction Hr; eauto using run_inv_step. Qed.

Lemma run_inv_start (s : ApiState (BpfManager M R)) (cmds : list Cmd) :
  poisoned (bpf s) = false -> is_Some (container_route (maps (inner (bpf s)))) ->
  (length cmds <= route_room (inner (bpf s)))%nat ->
  run_inv s cmds (s, Received ∘ cmd_body <$> cmds).
Proof.
  intros Hp Hm Hl. unfold run_inv. cbn [fst snd]. split_and!; try done.
  - etransitivity; [|exact Hl]. clear. induction cmds as [|c l IH]; [done|]. apply le_n_S. exact IH.
  - apply Forall2_fmap_r, Forall_Forall2_diag, Forall_forall. by intros c _.
Qed.
End Commands.
Arguments cmd_body V {_}.

(** ** Properties *)

(** C7: commands handled at the same time on different containers and
    addresses do not interfere, however their critical sections interleave,
    when the route map has room for all of them: once all have replied, every
    one of them has the response, the table entry and the route that it asks
    for, which are those it gets when it is handled alone; and nothing else
    changed. *)
Theorem commands_independent {M R V} `{KernelMapLaws M} `{JsonLaws V} (checks : bool)
    (s s' : ApiState (BpfManager M R)) (cmds : list Cmd) (ts : list cmd_phase) :
  independent checks cmds -> poisoned (bpf s) = false ->
  is_Some (container_route (maps (inner (bpf s)))) ->
  (length cmds <= route_room (inner (bpf s)))%nat ->
  rtc (api_step V checks) (s, Received ∘ cmd_body V <$> cmds) (s', ts) ->
  Forall (fun p => is_Some (reply p)) ts ->
  Forall2 (fun c p =>
    let alone := handle_container_cmd (V:=V) checks s (cmd_body V c) in
    reply p = Some (Ok (cmd_resp c)) /\ alone.2 = Ok (cmd_resp c) /\
    (forall k, cmd_key c = Some k ->
       containers s' !! k = cmd_entry c /\ containers alone.1 !! k = cmd_entry c) /\
    route_of (inner (bpf s')) (cmd_addr c) = cmd_route c /\
    route_of (inner (bpf alone.1)) (cmd_addr c) = cmd_route c) cmds ts /\
  (forall k, k ∉ omap cmd_key cmds -> containers s' !! k = containers s !! k) /\
  (forall a, a ∉ cmd_addr <$> cmds -> route_of (inner (bpf s')) a = route_of (inner (bpf s)) a).
Proof.
  intros Hind Hp Hm Hroom Hr Hdone.
  assert (forall l s' ts, independent checks l -> (length l <= route_room (inner (bpf s)))%nat ->
    rtc (api_step V checks) (s, Received ∘ cmd_body V <$> l) (s', ts) -> run_inv (V:=V) s l (s', ts)) as Hinv.
  { intros l s1 ts1 Hl Hlen Hrun. eapply run_inv_rtc; [done|by apply run_inv_start|exact Hrun]. }
  destruct (Hinv _ _ _ Hind Hroom Hr) as (_ & _ & _ & HF & Hc & Ha). cbn [fst snd] in *.
  split_and!; try done. apply Forall2_same_length_lookup_2; [by eapply Forall2_length|].
  intros i c p Hci Hi. destruct (Forall2_lookup_lr _ _ _ _ _ _ HF Hci Hi) as (Hph & Hk & Hrt).
  destruct (Forall_lookup_1 _ _ _ _ Hdone Hi) as [r Hrep].
  destruct p as [?|? ? ?|warned r']; [done..|]. cbn in Hph. subst r'.
  (* the same argument for the command alone *)
  destruct (cmd_alone (V:=V) checks s (cmd_body V c)) as (w & s1 & r1 & -> & Hrun).
  destruct (Hinv [c] s1 [Replied w r1]) as (_ & _ & _ & HF1 & _ & _); [..|exact Hrun|].
  { destruct Hind as (_ & _ & Hok). split_and!.
    - cbn. destruct (cmd_key c); [apply NoDup_singleton|constructor].
    - apply NoDup_singleton.
    - constructor; [by eapply Forall_lookup_1|constructor]. }
  { destruct cmds; [done|]. cbn [length] in *. lia. }
  apply Forall2_cons_1 in HF1 as [(Hph1 & Hk1 & Hrt1) _]. cbn in Hph1, Hk1, Hrt1. subst r1. cbn [fst snd].
  split_and!; try done. intros k Hkey. split; [by apply Hk|by apply Hk1].
Qed.

Lemma both_absent {A A'} (o : option A) (o' : option A') :
  o = None -> o' = None -> is_Some o <-> is_Some o'.
Proof. intros -> ->. by split; intros []. Qed.

Lemma both_present {A A'} (o : option A) (o' : option A') (x : A) (y : A') :
  o = Some x -> o' = Some y -> is_Some o <-> is_Some o'.
Proof. intros -> ->. split; eauto. Qed.

(** The interleaving in which the table is updated by ADD and then DEL, and
    the routes by DEL and then ADD. *)
Lemma race_run {M R V} `{KernelMapLaws M} `{JsonLaws V} (checks : bool)
    (s : ApiState (BpfManager M R)) (cid iface : string) (a : Ipv4Addr)
    (add := mkRequest RouteAdd cid a iface) (del := mkRequest RouteDel cid a iface)
    (b1 b2 : BpfManager M R) (r1 r2 : outcome string unit) :
  rq_text add -> poisoned (bpf s) = false ->
  bpf_remove_container_route (inner (bpf s)) (ipv4_to_u32 a) = (b1, r1) ->
  bpf_update_container_route b1 (ipv4_to_u32 a) 1 = (b2, r2) ->
  exists cm, cm !! cid = None /\
    rtc (api_step V checks) (s, [Received (rq_body V add); Received (rq_body V del)])
      (mkApiState cm (mkMutex false b2),
       [Replied (negb (is_ok r2)) (Ok (rq_resp add)); Replied (negb (is_ok r1)) (Ok (rq_resp del))]).
Proof.
  intros Ht Hp Er Eu.
  destruct (begin_request (V:=V) checks s add Ht) as (cm1 & Eb1 & _).
  destruct (begin_request (V:=V) checks (mkApiState cm1 (bpf s)) del Ht) as (cm2 & Eb2 & Hcm2 & _).
  exists cm2. split; [done|].
  eapply rtc_l; [exact (api_begin checks _ _ [_; _] 0 _ _ eq_refl Eb1)|].
  eapply rtc_l; [exact (api_begin checks _ _ [_; _] 1 _ _ eq_refl Eb2)|].
  eapply rtc_l; [eapply (api_route checks _ (mkApiState cm2 (mkMutex false b1)) _ 1); [reflexivity|]|].
  { unfold cmd_finish. cbn [bpf inner containers rq_ip del rq_op route_op].
    rewrite parse_show_ipv4, Hp. cbn [remove_container_route BpfManager_RouteStore]. by rewrite Er. }
  apply rtc_once. eapply (api_route checks _ _ [_; _] 0); [reflexivity|].
  unfold cmd_finish. cbn [bpf inner containers poisoned rq_ip add rq_op route_op].
  rewrite parse_show_ipv4. cbn [update_container_route BpfManager_RouteStore]. by rewrite Eu.
Qed.

(** C34: the two critical sections are not one: when an ADD and a DEL of the
    same container overlap, the container may end up unknown with its route
    set, which no order of the two commands gives (after either order the
    entry and the route are both there or both gone). *)
Theorem add_del_race {M R V} `{KernelMapLaws M} `{JsonLaws V} (checks : bool)
    (s : ApiState (BpfManager M R)) (cid iface : string) (a : Ipv4Addr) :
  let add := mkRequest RouteAdd cid a iface in
  let del := mkRequest RouteDel cid a iface in
  let ip := ipv4_to_u32 a in
  let alone st rq := (handle_container_cmd (V:=V) checks st (rq_body V rq)).1 in
  let agrees st := is_Some (containers st !! cid) <-> is_Some (route_of (inner (bpf st)) ip) in
  rq_text add -> poisoned (bpf s) = false -> is_Some (container_route (maps (inner (bpf s)))) ->
  (bpf_update_container_route (bpf_remove_container_route (inner (bpf s)) ip).1 ip 1).2 = Ok tt ->
  (exists s' warned, rtc (api_step V checks) (s, [Received (rq_body V add); Received (rq_body V del)])
     (s', [Replied false (Ok (rq_resp add)); Replied warned (Ok (rq_resp del))]) /\
     containers s' !! cid = None /\ route_of (inner (bpf s')) ip = Some 1) /\
  agrees (alone (alone s add) del) /\ agrees (alone (alone s del) add).
Proof.
  intros add del ip alone agrees Ht Hp Hm Hroom. unfold agrees, alone.
  pose proof (request_effect (V:=V) checks s del Ht Hp Hm) as (Eb & Hm1 & _ & Hr1).
  pose proof (request_effect (V:=V) checks s add Ht Hp Hm) as (Eb' & Hm2 & _ & _).
  cbv zeta in *. split_and!.
  - destruct (bpf_remove_container_route (inner (bpf s)) ip) as [b1 r1] eqn:Er.
    destruct (bpf_update_container_route b1 ip 1) as [b2 r2] eqn:Eu. cbn [fst snd] in Hroom.
    rewrite Eu in Hroom. cbn [snd] in Hroom. subst r2.
    destruct (race_run (V:=V) checks s cid iface a b1 b2 r1 (Ok tt) Ht Hp Er Eu) as (cm & Hcm & Hrun).
    eexists _, _. split; [exact Hrun|]. split; [done|]. cbn [bpf inner].
    rewrite Eb in Hm1. change (route_op _ _ _) with (bpf_remove_container_route (inner (bpf s)) ip) in Hm1.
    rewrite Er in Hm1. exact (proj1 (update_route_lookup b1 b2 ip 1 Hm1 Eu)).
  - destruct (request_effect (V:=V) checks _ del Ht ltac:(by rewrite Eb') Hm2) as (_ & _ & Hc & Hr).
    exact (both_absent _ _ Hc Hr).
  - destruct (request_effect (V:=V) checks _ add Ht ltac:(by rewrite Eb) Hm1) as (_ & _ & Hc & Hr).
    apply (both_present _ _ _ 1 Hc). etransitivity; [exact Hr|]. rewrite Eb.
    cbn [inner rq_op rq_ip add del route_op update_container_route remove_container_route
      BpfManager_RouteStore]. fold ip. by rewrite Hroom.
Qed.

(** ** Witnesses *)

Definition demo_api_state : ApiState (BpfManager bmap ring) :=
  mkApiState cm_new (mkMutex false (demo_manager ∅)).
Definition demo_cmds : list Cmd :=
  [Manage (mkRequest RouteAdd "c1" (ipv4_new 10 244 0 9) "veth-c1");
   Manage (mkRequest RouteDel "c2" (ipv4_new 10 244 0 8) "veth-c2"); Allocate "c3"].

Lemma demo_independent : independent false demo_cmds.
Proof.
  split_and!; [refine (bool_decide_unpack _ _); vm_compute; exact I..|].
  repeat (constructor; [by split|]). constructor.
Qed.

(** The hash of the third container gives it the address 10.244.0.50. *)
Lemma commands_independent_witness :
  exists s' ts, rtc (api_step (list (string * string)) false)
      (demo_api_state, Received ∘ cmd_body (list (string * string)) <$> demo_cmds) (s', ts) /\
    containers s' !! "c1" = Some (mkContainerInfo "c1" "10.244.0.9" "veth-c1") /\
    route_of (inner (bpf s')) (host_ip (alloc_first "c3")) = Some 1 /\
    containers s' !! "c3" = None.
Proof.
  destruct (api_run_to_end (V:=list (string * string)) false demo_api_state
    (Received ∘ cmd_body (list (string * string)) <$> demo_cmds)) as (s' & ts & Hr & Hd).
  destruct (commands_independent false demo_api_state s' demo_cmds ts demo_independent eq_refl
    ltac:(by eexists) ltac:(apply Nat.leb_le; vm_compute; reflexivity) Hr Hd) as (HF & Hc & _).
  exists s', ts. split_and!; [exact Hr| | |].
  - destruct (Forall2_lookup_l _ _ _ 0%nat _ HF eq_refl) as (p & _ & _ & _ & E & _).
    exact (proj1 (E "c1" eq_refl)).
  - destruct (Forall2_lookup_l _ _ _ 2%nat _ HF eq_refl) as (p & _ & _ & _ & _ & E & _). exact E.
  - rewrite Hc; [reflexivity|]. refine (bool_decide_unpack _ _). vm_compute. exact I.
Defined.

Lemma add_del_race_witness :
  exists s' warned, rtc (api_step (list (string * string)) false)
      (demo_api_state,
       [Received (rq_body _ (mkRequest RouteAdd "c1" (ipv4_new 10 244 0 9) "veth-c1"));
        Received (rq_body _ (mkRequest RouteDel "c1" (ipv4_new 10 244 0 9) "veth-c1"))])
      (s', [Replied false (Ok (ok_200 (json1 "status" "added")));
            Replied warned (Ok (ok_200 (json1 "status" "removed")))]) /\
    containers s' !! "c1" = None /\ route_of (inner (bpf s')) 183762953 = Some 1.
Proof.
  apply (add_del_race (V:=list (string * string)) false demo_api_state "c1" "veth-c1"
    (ipv4_new 10 244 0 9)); [by split|reflexivity|by eexists|vm_compute; reflexivity].
Defined.
