(* ===== verification/ApiLocks.v ===== *)
(** * The locks of the container API ([agent/src/api.rs])

    The table of containers is behind a [tokio::sync::RwLock] (only ever
    locked for writing here), the BPF manager behind a [std::sync::Mutex].
    This file takes the commands of [ApiRace] apart down to the acquisition
    and release of the two guards: a task that wants a lock another task
    holds is blocked, and a panic while the mutex is held unwinds, releases
    it and leaves it poisoned.  The theorems say that the locks exclude, that
    no set of commands deadlocks, and that every run of this machine is a run
    of [api_step]. *)

From S2P Require Import Prelude RustStr NetAddr Common Kernel BpfMgr Json Api ApiRace.

(** ** Tasks *)

(** Where the task of a command is.  [Has...] and the phase after it hold
    the guard. *)
Inductive task :=
| TStart (body : list byte)
| TWantTable (op : RouteOp) (cid ip iface resp : string)
| THasTable (op : RouteOp) (cid ip iface resp : string)
| TTableDone (op : RouteOp) (ip resp : string)
| TWantRoute (op : RouteOp) (a : Ipv4Addr) (resp : string)
| THasRoute (op : RouteOp) (a : Ipv4Addr) (resp : string)
| TRouteDone (warned : bool) (resp : string)
| TWantAlloc (cid : string)
| THasAlloc (cid : string)
| TAllocDone (r : outcome string string)
| TUnwinding
| TDone (warned : bool) (r : outcome string string).

Definition holds_table (t : task) : bool :=
  match t with THasTable _ _ _ _ _ | TTableDone _ _ _ => true | _ => false end.

Definition holds_mutex (t : task) : bool :=
  match t with
  | THasRoute _ _ _ | TRouteDone _ _ | THasAlloc _ | TAllocDone _ | TUnwinding => true
  | _ => false
  end.

Definition finished (t : task) : bool := match t with TDone _ _ => true | _ => false end.

(** The shared state, the holders of the locks, and the tasks. *)
Record Config (B : Type) := mkConfig {
  shared : ApiState B;
  table_by : option nat;
  mutex_by : option nat;
  tasks : list task
}.
Arguments mkConfig {B}.
Arguments shared {B}.
Arguments table_by {B}.
Arguments mutex_by {B}.
Arguments tasks {B}.

Section Machine.
Context {B V : Type} `{RouteStore B} `{Json V}.

(** The command up to its first lock. *)
Definition dispatch_cmd (body : list byte) : task :=
  match from_slice (V:=V) body with
  | Err e => TDone false (Ok (bad_400 (json1 "error" ("json: " +:+ e))))
  | Panic => TDone false Panic
  | Ok parsed =>
      let action := default "" (index_str parsed "action") in
      let container_id := default "" (index_str parsed "container_id") in
      let ip := default "0.0.0.0" (index_str parsed "ip") in
      let iface := default "" (index_str parsed "iface") in
      if String.eqb action "allocate" then TWantAlloc container_id
      else if String.eqb action "add" then
        TWantTable RouteAdd container_id ip iface (ok_200 (json1 "status" "added"))
      else if String.eqb action "del" then
        TWantTable RouteDel container_id ip iface (ok_200 (json1 "status" "removed"))
      else TDone false (Ok (bad_400 (json1 "error" "unknown action")))
  end.

(** [cm.add] or [cm.remove] under the write guard. *)
Definition table_op (op : RouteOp) (cm : ContainerManager) (cid ip iface : string) : ContainerManager :=
  match op with RouteAdd => cm_add cm cid ip iface | RouteDel => cm_remove cm cid end.

(** After the guard on the table is dropped. *)
Definition after_table (op : RouteOp) (ip resp : string) : task :=
  match parse_ipv4 ip with
  | Some a => TWantRoute op a resp
  | None => TDone false (Ok resp)
  end.

(** The allocation under the mutex: the store and the next phase. *)
Definition alloc_op (checks : bool) (b : B) (cid : string) : B * task :=
  let hash := hash31 cid in
  match alloc_loop checks hash (seqZ 0 253) b with
  | Ok (Some (b', ip)) => (b', TAllocDone (Ok (show_ipv4 (ipv4_of_u32 ip))))
  | Ok None => (b, TAllocDone (Ok (show_ipv4 (ipv4_of_u32 (host_ip (2 + hash mod 253))))))
  | Err e => (b, TAllocDone (Err e))
  | Panic => (b, TUnwinding)
  end.

(** The next step of task [i]: [None] when it has finished or is blocked.
    Taking a poisoned mutex gives an error that still has the guard inside:
    the route commands drop it, the [unwrap] of the allocation unwinds. *)
Definition task_step (checks : bool) (c : Config B) (i : nat) : option (Config B) :=
  let s := shared c in
  let m := bpf s in
  let go t := Some (mkConfig s (table_by c) (mutex_by c) (<[i := t]> (tasks c))) in
  t ← tasks c !! i;
  match t with
  | TStart body => go (dispatch_cmd body)
  | TWantTable op cid ip iface resp =>
      match table_by c with
      | None => Some (mkConfig s (Some i) (mutex_by c) (<[i := THasTable op cid ip iface resp]> (tasks c)))
      | Some _ => None
      end
  | THasTable op cid ip iface resp =>
      Some (mkConfig (mkApiState (table_op op (containers s) cid ip iface) m) (table_by c) (mutex_by c)
              (<[i := TTableDone op ip resp]> (tasks c)))
  | TTableDone op ip resp =>
      Some (mkConfig s None (mutex_by c) (<[i := after_table op ip resp]> (tasks c)))
  | TWantRoute op a resp =>
      match mutex_by c with
      | None => Some (mkConfig s (table_by c) (Some i)
                  (<[i := if poisoned m then TRouteDone false resp else THasRoute op a resp]> (tasks c)))
      | Some _ => None
      end
  | THasRoute op a resp =>
      let '(b, r) := route_op op (inner m) (ipv4_to_u32 a) in
      Some (mkConfig (mkApiState (containers s) (mkMutex (poisoned m) b)) (table_by c) (mutex_by c)
              (<[i := TRouteDone (negb (is_ok r)) resp]> (tasks c)))
  | TRouteDone warned resp =>
      Some (mkConfig s (table_by c) None (<[i := TDone warned (Ok resp)]> (tasks c)))
  | TWantAlloc cid =>
      match mutex_by c with
      | None => Some (mkConfig s (table_by c) (Some i)
                  (<[i := if poisoned m then TUnwinding else THasAlloc cid]> (tasks c)))
      | Some _ => None
      end
  | THasAlloc cid =>
      let '(b, t) := alloc_op checks (inner m) cid in
      Some (mkConfig (mkApiState (containers s) (mkMutex (poisoned m) b)) (table_by c) (mutex_by c)
              (<[i := t]> (tasks c)))
  | TAllocDone r =>
      Some (mkConfig s (table_by c) None
              (<[i := TDone false ((fun ip => ok_200 (json1 "ip" ip)) <$> r)]> (tasks c)))
  | TUnwinding =>
      Some (mkConfig (mkApiState (containers s) (mkMutex true (inner m))) (table_by c) None
              (<[i := TDone false Panic]> (tasks c)))
  | TDone _ _ => None
  end.

Definition lock_step (checks : bool) (c c' : Config B) : Prop :=
  exists i, task_step checks c i = Some c'.

(** Commands just received, no lock taken. *)
Definition start (s : ApiState B) (bodies : list (list byte)) : Config B :=
  mkConfig s None None (TStart <$> bodies).

End Machine.
Arguments dispatch_cmd V {_}.
Arguments task_step {B} V {_ _}.
Arguments lock_step {B} V {_ _}.

(** ** Ownership and progress *)

(** The recorded holder of a lock is the task in a phase that holds it. *)
Definition owner_ok (holds : task -> bool) (o : option nat) (ts : list task) : Prop :=
  forall i, o = Some i <-> exists t, ts !! i = Some t /\ holds t = true.

(** How the holder changes when a task goes from a phase that holds the lock
    ([h]) to one that holds it ([h']). *)
Definition moves (h h' : bool) (o o' : option nat) (i : nat) : Prop :=
  match h, h' with
  | false, true => o = None /\ o' = Some i
  | true, false => o' = None
  | _, _ => o' = o
  end.

Lemma owner_update (holds : task -> bool) (o o' : option nat) (ts : list task) (i : nat) (t t' : task) :
  owner_ok holds o ts -> ts !! i = Some t -> moves (holds t) (holds t') o o' i ->
  owner_ok holds o' (<[i := t']> ts).
Proof.
  intros Ho Hi Hm j. pose proof (lookup_lt_Some _ _ _ Hi) as Hlt.
  assert (holds t = true <-> o = Some i) as Hoi.
  { rewrite (Ho i), Hi. split; [eauto|by intros (? & [= <-] & ?)]. }
  unfold moves in Hm. destruct (decide (j = i)) as [->|Hne].
  - rewrite list_lookup_insert_eq by done.
    assert ((exists u, Some t' = Some u /\ holds u = true) <-> holds t' = true) as ->.
    { split; [by intros (? & [= <-] & ?)|eauto]. }
    destruct (holds t), (holds t'); [subst o'|subst o'|destruct Hm as [-> ->]|subst o'].
    all: split; intros; try done; by apply Hoi.
  - rewrite list_lookup_insert_ne, <- (Ho j) by done.
    destruct (holds t), (holds t'); [by subst o'|subst o'|destruct Hm as [-> ->]|by subst o'].
    + destruct Hoi as [Hoi _]. rewrite Hoi by done. split; [done|]. by intros [= <-].
    + split; [|done]. by intros [= <-].
Qed.

(** Steps a task has left at most. *)
Definition task_work (t : task) : nat :=
  match t with
  | TStart _ => 7
  | TWantTable _ _ _ _ _ => 6
  | THasTable _ _ _ _ _ => 5
  | TTableDone _ _ _ => 4
  | TWantRoute _ _ _ | TWantAlloc _ => 3
  | THasRoute _ _ _ | THasAlloc _ => 2
  | TRouteDone _ _ | TAllocDone _ | TUnwinding => 1
  | TDone _ _ => 0
  end.

Section Locks.
Context {B V : Type} `{RouteStore B} `{Json V}.

Lemma dispatch_free (body : list byte) :
  let t := dispatch_cmd V body in
  holds_table t = false /\ holds_mutex t = false /\ (task_work t < 7)%nat.
Proof.
  unfold dispatch_cmd. destruct (from_slice (V:=V) body); [|by cbn; lia..].
  destruct (String.eqb _ _); [|destruct (String.eqb _ _); [|destruct (String.eqb _ _)]]; cbn; lia.
Qed.

Lemma alloc_op_holds (checks : bool) (b : B) (cid : string) :
  let t := (alloc_op checks b cid).2 in
  holds_table t = false /\ holds_mutex t = true /\ task_work t = 1%nat.
Proof. unfold alloc_op. by destruct (alloc_loop _ _ _ _) as [[[]|]| |]. Qed.

Local Ltac shape :=
  eexists; split_and!; [done|done|cbn; lia|by repeat split..].

(** Every step changes the phase of its task, keeps the holders in step with
    it, and brings the task nearer to its end. *)
Lemma task_step_shape (checks : bool) (c c' : Config B) (i : nat) :
  task_step V checks c i = Some c' ->
  exists t t', tasks c !! i = Some t /\ tasks c' = <[i := t']> (tasks c) /\
    (task_work t' < task_work t)%nat /\
    moves (holds_table t) (holds_table t') (table_by c) (table_by c') i /\
    moves (holds_mutex t) (holds_mutex t') (mutex_by c) (mutex_by c') i.
Proof.
  unfold task_step. destruct (tasks c !! i) as [t|]; [|done]. cbn [mbind option_bind].
  intros E. exists t. destruct t.
  - pose proof (dispatch_free body) as (Ht & Hm & Hw). injection E as <-. eexists. split_and!; try done;
      by cbn [table_by mutex_by]; rewrite ?Ht, ?Hm.
  - destruct (table_by c) eqn:Et; [done|]. injection E as <-. shape.
  - injection E as <-. shape.
  - injection E as <-. unfold after_table. destruct (parse_ipv4 ip); shape.
  - destruct (mutex_by c) eqn:Et; [done|]. injection E as <-. destruct (poisoned _); shape.
  - destruct (route_op _ _ _). injection E as <-. shape.
  - injection E as <-. shape.
  - destruct (mutex_by c) eqn:Et; [done|]. injection E as <-. destruct (poisoned _); shape.
  - pose proof (alloc_op_holds checks (inner (bpf (shared c))) cid) as (Ht & Hm & Hw).
    destruct (alloc_op _ _ _) as [b t']. injection E as <-. eexists. cbn [snd] in *.
    split_and!; [done|done|cbn [task_work]; lia|..]; by cbn [table_by mutex_by]; rewrite ?Ht, ?Hm.
  - injection E as <-. shape.
  - injection E as <-. shape.
  - done.
Qed.

Definition lock_inv (c : Config B) : Prop :=
  owner_ok holds_table (table_by c) (tasks c) /\ owner_ok holds_mutex (mutex_by c) (tasks c).

Lemma lock_inv_step (checks : bool) (c c' : Config B) :
  lock_inv c -> lock_step V checks c c' -> lock_inv c'.
Proof.
  intros [Ht Hm] [i Hs]. destruct (task_step_shape _ _ _ _ Hs) as (t & t' & Hi & E & _ & Mt & Mm).
  unfold lock_inv. rewrite E. split; by eapply owner_update.
Qed.

Lemma start_inv (s : ApiState B) (bodies : list (list byte)) : lock_inv (start s bodies).
Proof.
  split; intros i; (split; [done|]); intros (t & Ht & Hh); cbn [tasks start] in Ht;
    apply list_lookup_fmap_Some in Ht as (b & -> & _); done.
Qed.

Lemma lock_inv_run (checks : bool) (s : ApiState B) (bodies : list (list byte)) (c : Config B) :
  rtc (lock_step V checks) (start s bodies) c -> lock_inv c.
Proof.
  intros Hr. pose proof (start_inv s bodies) as Hi. induction Hr; eauto using lock_inv_step.
Qed.

(** A task that holds a lock is never blocked. *)
Lemma holder_steps (checks : bool) (c : Config B) (j : nat) (t : task) :
  tasks c !! j = Some t -> holds_table t = true \/ holds_mutex t = true ->
  is_Some (task_step V checks c j).
Proof.
  intros Hj Hh. unfold task_step. rewrite Hj. cbn [mbind option_bind].
  destruct t; try (by destruct Hh); try (by eexists).
  - destruct (route_op _ _ _). by eexists.
  - destruct (alloc_op _ _ _). by eexists.
Qed.

(** An unfinished task can step, or waits for one that can. *)
Lemma task_progress (checks : bool) (c : Config B) (i : nat) (t : task) :
  lock_inv c -> tasks c !! i = Some t -> finished t = false ->
  is_Some (task_step V checks c i) \/
  exists j, (table_by c = Some j \/ mutex_by c = Some j) /\ is_Some (task_step V checks c j).
Proof.
  intros [Ht Hm] Hi Hf.
  destruct (task_step V checks c i) as [c'|] eqn:E; [left; by eexists|right].
  unfold task_step in E. rewrite Hi in E. cbn [mbind option_bind] in E.
  destruct t; try done.
  - destruct (table_by c) as [j|] eqn:Ej; [|done]. exists j. split; [by left|].
    destruct (proj1 (Ht j) eq_refl) as (t & Hj & Hh). eapply holder_steps; [exact Hj|by left].
  - destruct (mutex_by c) as [j|] eqn:Ej; [|done]. exists j. split; [by right|].
    destruct (proj1 (Hm j) eq_refl) as (t & Hj & Hh). eapply holder_steps; [exact Hj|by right].
  - by destruct (route_op _ _ _).
  - destruct (mutex_by c) as [j|] eqn:Ej; [|done]. exists j. split; [by right|].
    destruct (proj1 (Hm j) eq_refl) as (t & Hj & Hh). eapply holder_steps; [exact Hj|by right].
  - by destruct (alloc_op _ _ _).
Qed.

Lemma tasks_sum_insert (ts : list task) (i : nat) (t t' : task) :
  ts !! i = Some t ->
  (sum_list (task_work <$> <[i := t']> ts) + task_work t = sum_list (task_work <$> ts) + task_work t')%nat.
Proof.
  revert i. induction ts as [|u ts IH]; intros [|i] E; [done|done|..]; cbn in E |- *.
  - injection E as ->. lia.
  - specialize (IH i E). rewrite <- !Nat.add_assoc. f_equal. exact IH.
Qed.

Lemma lock_nsteps_work (checks : bool) (n : nat) (c c' : Config B) :
  nsteps (lock_step V checks) n c c' ->
  (n + sum_list (task_work <$> tasks c') <= sum_list (task_work <$> tasks c))%nat.
Proof.
  induction 1 as [|n x y z [i Hs] _ IH]; [lia|].
  destruct (task_step_shape _ _ _ _ Hs) as (t & t' & Hi & E & Hw & _). rewrite E in IH.
  pose proof (tasks_sum_insert (tasks x) i t t' Hi). lia.
Qed.
End Locks.

(** ** The commands of ApiRace *)

Section Refinement.
Context {B V : Type} `{RouteStore B} `{Json V} (checks : bool).

(** The phase of [api_step] a task is in: a command counts as begun when its
    table or the allocation is done, as routed when the route is. *)
Definition abs_task (t : task) (q : cmd_phase) : Prop :=
  match t with
  | TStart body => q = Received body
  | TWantTable op cid ip iface resp | THasTable op cid ip iface resp =>
      exists body, q = Received body /\ forall s : ApiState B,
        cmd_begin V checks s body
        = (mkApiState (table_op op (containers s) cid ip iface) (bpf s), Routing op ip resp)
  | TTableDone op ip resp => q = Routing op ip resp
  | TWantRoute op a resp | THasRoute op a resp =>
      exists ip, q = Routing op ip resp /\ parse_ipv4 ip = Some a
  | TRouteDone warned resp => q = Replied warned (Ok resp)
  | TWantAlloc cid | THasAlloc cid =>
      exists body, q = Received body /\ forall s : ApiState B,
        cmd_begin V checks s body
        = let '(m, r) := allocate_from_bpf checks (bpf s) cid in
          (mkApiState (containers s) m, Replied false ((fun ip => ok_200 (json1 "ip" ip)) <$> r))
  | TAllocDone r => q = Replied false ((fun ip => ok_200 (json1 "ip" ip)) <$> r)
  | TUnwinding => q = Replied false Panic
  | TDone warned r => q = Replied warned r
  end.

Definition unwinds (ts : list task) : Prop := exists j, ts !! j = Some TUnwinding.

(** The phases in which the manager is used: the mutex was not poisoned. *)
Definition uses (t : task) : bool :=
  match t with THasRoute _ _ _ | THasAlloc _ => true | _ => false end.

(** A panic poisons the mutex of [api_step] at once, and here when the guard
    is dropped. *)
Definition sim (c : Config B) (x : ApiState B * list cmd_phase) : Prop :=
  lock_inv c /\ Forall2 abs_task (tasks c) x.2 /\
  containers x.1 = containers (shared c) /\ inner (bpf x.1) = inner (bpf (shared c)) /\
  (poisoned (bpf x.1) = true <-> poisoned (bpf (shared c)) = true \/ unwinds (tasks c)) /\
  (forall j t, tasks c !! j = Some t -> uses t = true -> poisoned (bpf (shared c)) = false).

(** While the mutex is free, or held by a task that is not unwinding, none
    is. *)
Lemma not_unwinding (c : Config B) :
  lock_inv c ->
  (mutex_by c = None \/ exists i t, tasks c !! i = Some t /\ holds_mutex t = true /\ t <> TUnwinding) ->
  ~ unwinds (tasks c).
Proof.
  intros [_ Hm] Hfree [j Hj]. assert (mutex_by c = Some j) as Ej by (apply Hm; by exists TUnwinding).
  destruct Hfree as [E|(i & t & Hi & Hh & Hne)]; [congruence|].
  assert (mutex_by c = Some i) as Ei by (apply Hm; by exists t). congruence.
Qed.

Lemma uses_holds (t : task) : uses t = true -> holds_mutex t = true.
Proof. by destruct t. Qed.

(** Only one task uses the manager. *)
Lemma uses_unique (c : Config B) (i j : nat) (t u : task) :
  lock_inv c -> tasks c !! i = Some t -> holds_mutex t = true ->
  tasks c !! j = Some u -> uses u = true -> j = i.
Proof.
  intros [_ Hm] Hi Ht Hj Hu. apply uses_holds in Hu.
  assert (mutex_by c = Some i) by (apply Hm; eauto).
  assert (mutex_by c = Some j) by (apply Hm; eauto). congruence.
Qed.

Lemma unwinds_insert (ts : list task) (i : nat) (t t' : task) :
  ts !! i = Some t -> t <> TUnwinding -> t' <> TUnwinding -> unwinds (<[i := t']> ts) <-> unwinds ts.
Proof.
  intros Hi Ht Ht'. pose proof (lookup_lt_Some _ _ _ Hi).
  split; intros [j Hj]; exists j; (destruct (decide (j = i)) as [->|Hne]; [exfalso|]).
  - rewrite list_lookup_insert_eq in Hj by done. congruence.
  - by rewrite list_lookup_insert_ne in Hj.
  - congruence.
  - by rewrite list_lookup_insert_ne.
Qed.

(** A step of task [i] and the matching change on the other side. *)
Lemma sim_update (c c' : Config B) (sa sa' : ApiState B) (qs : list cmd_phase) (i : nat)
    (t t' : task) (q' : cmd_phase) :
  sim c (sa, qs) -> lock_inv c' -> tasks c !! i = Some t -> tasks c' = <[i := t']> (tasks c) ->
  abs_task t' q' ->
  containers sa' = containers (shared c') -> inner (bpf sa') = inner (bpf (shared c')) ->
  (poisoned (bpf sa') = true <-> poisoned (bpf (shared c')) = true \/ unwinds (tasks c')) ->
  (uses t' = true -> poisoned (bpf (shared c')) = false) ->
  (poisoned (bpf (shared c')) = poisoned (bpf (shared c)) \/ holds_mutex t = true) ->
  sim c' (sa', <[i := q']> qs).
Proof.
  intros (Hinv & HF & _ & _ & _ & Hu) Hinv' Hi E Hq Hc Hb Hp Hu' Hsame.
  unfold sim. cbn [fst snd] in *. split_and!; try done.
  - rewrite E. by apply Forall2_insert.
  - rewrite E. intros j u Hj Hus. pose proof (lookup_lt_Some _ _ _ Hi).
    destruct (decide (j = i)) as [->|Hne].
    + rewrite list_lookup_insert_eq in Hj by done. injection Hj as <-. by apply Hu'.
    + rewrite list_lookup_insert_ne in Hj by done. destruct Hsame as [->|Hh]; [by eapply Hu|].
      by destruct (Hne (uses_unique c i j t u Hinv Hi Hh Hj Hus)).
Qed.

(** What is sent before any lock is taken. *)
Lemma dispatch_sim (body : list byte) :
  match dispatch_cmd V body with
  | TDone warned r => forall s : ApiState B, cmd_begin V checks s body = (s, Replied warned r)
  | t => abs_task t (Received body) /\ t <> TUnwinding /\ uses t = false
  end.
Proof.
  unfold dispatch_cmd, abs_task, cmd_begin.
  destruct (from_slice (V:=V) body) as [v|e|] eqn:Ev; [|done|done]. cbv zeta.
  destruct (String.eqb _ "allocate") eqn:E1;
    [|destruct (String.eqb _ "add") eqn:E2; [|destruct (String.eqb _ "del") eqn:E3; [|done]]].
  all: split; [exists body; split; [done|]; intros s; by rewrite Ev, E1, ?E2, ?E3|done].
Qed.

(** The allocation on a mutex that is not poisoned. *)
Lemma alloc_op_allocate (m : Mutex B) (cid : string) :
  poisoned m = false ->
  match alloc_op checks (inner m) cid with
  | (b, TUnwinding) => allocate_from_bpf checks m cid = (mkMutex true b, Panic)
  | (b, TAllocDone r) => allocate_from_bpf checks m cid = (mkMutex false b, r) /\ r <> Panic
  | _ => False
  end.
Proof.
  intros Hp. unfold alloc_op, allocate_from_bpf. rewrite Hp. destruct m as [p b]. cbn in Hp. subst p.
  cbn [inner]. destruct (alloc_loop _ _ _ _) as [[[b' ip]|]|e|]; first [done|by split].
Qed.

Lemma cmd_finish_noip (s : ApiState B) (op : RouteOp) (ip resp : string) :
  parse_ipv4 ip = None -> cmd_finish s op ip resp = (s, Replied false (Ok resp)).
Proof. intros E. unfold cmd_finish. by rewrite E. Qed.

Lemma cmd_finish_poisoned (s : ApiState B) (op : RouteOp) (ip resp : string) (a : Ipv4Addr) :
  parse_ipv4 ip = Some a -> poisoned (bpf s) = true ->
  cmd_finish s op ip resp = (s, Replied false (Ok resp)).
Proof. intros E Hp. unfold cmd_finish. by rewrite E, Hp. Qed.

Lemma cmd_finish_op (s : ApiState B) (op : RouteOp) (ip resp : string) (a : Ipv4Addr) :
  parse_ipv4 ip = Some a -> poisoned (bpf s) = false ->
  cmd_finish s op ip resp
  = (mkApiState (containers s) (mkMutex false (route_op op (inner (bpf s)) (ipv4_to_u32 a)).1),
     Replied (negb (is_ok (route_op op (inner (bpf s)) (ipv4_to_u32 a)).2)) (Ok resp)).
Proof. intros E Hp. unfold cmd_finish. rewrite E, Hp. by destruct (route_op _ _ _). Qed.

(** Where nobody unwinds the two poison flags agree. *)
Lemma poison_agrees (c : Config B) (sa : ApiState B) (qs : list cmd_phase) :
  sim c (sa, qs) -> ~ unwinds (tasks c) -> poisoned (bpf sa) = poisoned (bpf (shared c)).
Proof.
  intros (_ & _ & _ & _ & Hp & _) Hn. apply eq_true_iff_eq. rewrite Hp. cbn. tauto.
Qed.

(** The new configuration is simulated by what the command does. *)
Definition simulated (c' : Config B) (x : ApiState B * list cmd_phase) : Prop :=
  exists x', rtc (api_step V checks) x x' /\ sim c' x'.

(** A step that leaves the shared state: the command does not move. *)
Lemma sim_stay (c : Config B) (sa : ApiState B) (qs : list cmd_phase) (i : nat) (t t' : task)
    (q : cmd_phase) (tb mb : option nat) :
  let c' := mkConfig (shared c) tb mb (<[i := t']> (tasks c)) in
  sim c (sa, qs) -> lock_inv c' -> tasks c !! i = Some t -> qs !! i = Some q -> abs_task t' q ->
  t <> TUnwinding -> t' <> TUnwinding ->
  (uses t' = true -> poisoned (bpf (shared c)) = false) -> simulated c' (sa, qs).
Proof.
  intros c' Hsim Hinv Hi Hq Ha Ht Ht' Hu. exists (sa, qs). split; [done|].
  rewrite <- (list_insert_id qs i q Hq). pose proof Hsim as (_ & _ & Hc & Hb & Hp & _).
  eapply (sim_update c c' sa); [done|done|exact Hi|done|done|done|done| |done|by left].
  cbn [c' shared tasks]. by rewrite (unwinds_insert _ _ _ _ Hi Ht Ht').
Qed.

(** A step that is one of the command, without a panic. *)
Lemma sim_move (c : Config B) (sa sa' s' : ApiState B) (qs : list cmd_phase) (i : nat) (t t' : task)
    (q' : cmd_phase) (tb mb : option nat) :
  let c' := mkConfig s' tb mb (<[i := t']> (tasks c)) in
  sim c (sa, qs) -> lock_inv c' -> tasks c !! i = Some t ->
  api_step V checks (sa, qs) (sa', <[i := q']> qs) -> abs_task t' q' ->
  t <> TUnwinding -> t' <> TUnwinding -> uses t' = false ->
  containers sa' = containers s' -> inner (bpf sa') = inner (bpf s') ->
  poisoned (bpf sa') = poisoned (bpf sa) -> poisoned (bpf s') = poisoned (bpf (shared c)) ->
  simulated c' (sa, qs).
Proof.
  intros c' Hsim Hinv Hi Hs Ha Ht Ht' Hu Hc Hb Hpa Hp. eexists. split; [by apply rtc_once|].
  pose proof Hsim as (_ & _ & _ & _ & Hpo & _).
  eapply (sim_update c c' sa); [done|done|exact Hi|done|done|done|done| | |by left].
  - cbn [c' shared tasks]. by rewrite (unwinds_insert _ _ _ _ Hi Ht Ht'), Hpa, Hp.
  - by rewrite Hu.
Qed.

(** The flags agree while a task holds the mutex and does not unwind. *)
Lemma poison_held (c : Config B) (sa : ApiState B) (qs : list cmd_phase) (i : nat) (t : task) :
  sim c (sa, qs) -> tasks c !! i = Some t -> holds_mutex t = true -> t <> TUnwinding ->
  poisoned (bpf sa) = poisoned (bpf (shared c)).
Proof.
  intros Hsim Hi Hh Hne. pose proof Hsim as (Hinv & _).
  apply (poison_agrees c sa qs Hsim), not_unwinding; [done|]. right. by exists i, t.
Qed.

Lemma poison_free (c : Config B) (sa : ApiState B) (qs : list cmd_phase) :
  sim c (sa, qs) -> mutex_by c = None -> poisoned (bpf sa) = poisoned (bpf (shared c)).
Proof.
  intros Hsim Hn. pose proof Hsim as (Hinv & _).
  apply (poison_agrees c sa qs Hsim), not_unwinding; [done|by left].
Qed.

(** The phases on the table. *)
Lemma sim_step_table (c c' : Config B) (i : nat) (t : task) (sa : ApiState B) (qs : list cmd_phase) :
  sim c (sa, qs) -> lock_inv c' -> tasks c !! i = Some t ->
  match t with TStart _ | TWantTable _ _ _ _ _ | THasTable _ _ _ _ _ | TTableDone _ _ _ => True | _ => False end ->
  task_step V checks c i = Some c' -> simulated c' (sa, qs).
Proof.
  intros Hsim Hinv' Hi Hkind E. pose proof Hsim as (Hinv & HF & Hc & Hb & _).
  destruct (Forall2_lookup_l _ _ _ _ _ HF Hi) as (q & Hq & Habs).
  unfold task_step in E. rewrite Hi in E. cbn [mbind option_bind snd fst] in *.
  destruct t as [body|op cid ip iface resp|op cid ip iface resp|op ip resp| | | | | | | |];
    try done; cbn [abs_task] in Habs.
  - subst q. injection E as <-. pose proof (dispatch_sim body) as Hd.
    destruct (dispatch_cmd V body) eqn:Et; try (destruct Hd as (Ha & Hne & Hus);
      eapply sim_stay; [done|done|exact Hi|exact Hq|done|done|done|by rewrite Hus]).
    eapply (sim_move c sa sa); [done|done|exact Hi| |done..].
    eapply (api_begin checks sa sa qs i body); [done|apply Hd].
  - destruct (table_by c); [done|]. injection E as <-.
    eapply sim_stay; [done|done|exact Hi|exact Hq|exact Habs|done..].
  - destruct Habs as (body & -> & Hbeg). injection E as <-.
    eapply (sim_move c sa (mkApiState (table_op op (containers sa) cid ip iface) (bpf sa)));
      [done|done|exact Hi| |done|done|done|done| | |done|done].
    + eapply (api_begin checks); [exact Hq|apply Hbeg].
    + cbn. by rewrite Hc.
    + exact Hb.
  - subst q. injection E as <-. unfold after_table in *. destruct (parse_ipv4 ip) as [a|] eqn:Ea.
    + eapply sim_stay; [done|done|exact Hi|exact Hq|by exists ip|done..].
    + eapply (sim_move c sa sa); [done|done|exact Hi| |done..].
      eapply (api_route checks); [exact Hq|by apply cmd_finish_noip].
Qed.

(** The phases of a route operation. *)
Lemma sim_step_route (c c' : Config B) (i : nat) (t : task) (sa : ApiState B) (qs : list cmd_phase) :
  sim c (sa, qs) -> lock_inv c' -> tasks c !! i = Some t ->
  match t with TWantRoute _ _ _ | THasRoute _ _ _ | TRouteDone _ _ => True | _ => False end ->
  task_step V checks c i = Some c' -> simulated c' (sa, qs).
Proof.
  intros Hsim Hinv' Hi Hkind E. pose proof Hsim as (Hinv & HF & Hc & Hb & _ & Hu).
  destruct (Forall2_lookup_l _ _ _ _ _ HF Hi) as (q & Hq & Habs).
  pose proof (poison_held c sa qs i t Hsim Hi) as Hheld. pose proof (poison_free c sa qs Hsim) as Hfree.
  unfold task_step in E. rewrite Hi in E. cbn [mbind option_bind snd fst] in *.
  destruct t as [| | | |op a resp|op a resp|w resp| | | | |]; try done; cbn [abs_task] in Habs.
  - destruct Habs as (ip & -> & Ea). destruct (mutex_by c); [done|]. injection E as <-.
    specialize (Hfree eq_refl). destruct (poisoned (bpf (shared c))) eqn:Ep.
    + eapply (sim_move c sa sa); [done|done|exact Hi| |done..].
      eapply (api_route checks); [exact Hq|by eapply cmd_finish_poisoned].
    + eapply sim_stay; [done|done|exact Hi|exact Hq|by exists ip|done..].
  - destruct Habs as (ip & -> & Ea). specialize (Hu i _ Hi eq_refl). specialize (Hheld eq_refl ltac:(done)).
    pose proof (cmd_finish_op sa op ip resp a Ea ltac:(congruence)) as Hf. rewrite Hb in Hf.
    destruct (route_op op (inner (bpf (shared c))) (ipv4_to_u32 a)) as [b r]. injection E as <-.
    eapply (sim_move c sa (mkApiState (containers sa) (mkMutex false b)));
      [done|done|exact Hi| |done|done|done|done|done|done| |].
    + eapply (api_route checks); [exact Hq|exact Hf].
    + cbn. congruence.
    + done.
  - subst q. injection E as <-. eapply sim_stay; [done|done|exact Hi|exact Hq|done..].
Qed.

(** The phases of an allocation. *)
Lemma sim_step_alloc (c c' : Config B) (i : nat) (t : task) (sa : ApiState B) (qs : list cmd_phase) :
  sim c (sa, qs) -> lock_inv c' -> tasks c !! i = Some t ->
  match t with TWantAlloc _ | THasAlloc _ | TAllocDone _ | TUnwinding => True | _ => False end ->
  task_step V checks c i = Some c' -> simulated c' (sa, qs).
Proof.
  intros Hsim Hinv' Hi Hkind E. pose proof Hsim as (Hinv & HF & Hc & Hb & Hp & Hu).
  destruct (Forall2_lookup_l _ _ _ _ _ HF Hi) as (q & Hq & Habs).
  pose proof (poison_held c sa qs i t Hsim Hi) as Hheld. pose proof (poison_free c sa qs Hsim) as Hfree.
  assert (unwinds (<[i := TUnwinding]> (tasks c))) as Hunw.
  { exists i. apply list_lookup_insert_eq. by eapply lookup_lt_Some. }
  unfold task_step in E. rewrite Hi in E. cbn [mbind option_bind snd fst] in *.
  destruct t as [| | | | | | |cid|cid|r| |]; try done; cbn [abs_task] in Habs.
  - destruct Habs as (body & -> & Hbeg). destruct (mutex_by c); [done|]. injection E as <-.
    specialize (Hfree eq_refl). destruct (poisoned (bpf (shared c))) eqn:Ep.
    + exists (mkApiState (containers sa) (bpf sa), <[i := Replied false Panic]> qs). split.
      * apply rtc_once. eapply (api_begin checks); [exact Hq|]. rewrite Hbeg.
        unfold allocate_from_bpf. by rewrite Hfree.
      * eapply (sim_update c _ sa); [done|done|exact Hi|done|done|done|done| |done|by left].
        cbn. rewrite Hfree. by split; [right|].
    + eapply sim_stay; [done|done|exact Hi|exact Hq|by exists body|done..].
  - destruct Habs as (body & -> & Hbeg). specialize (Hu i _ Hi eq_refl).
    specialize (Hheld eq_refl ltac:(done)). rewrite Hu in Hheld.
    pose proof (alloc_op_allocate (bpf sa) cid Hheld) as Ha. rewrite Hb in Ha.
    destruct (alloc_op checks (inner (bpf (shared c))) cid) as [b t'] eqn:Eo. injection E as <-.
    destruct t'; try done.
    + destruct Ha as [Ha _]. eapply (sim_move c sa (mkApiState (containers sa) (mkMutex false b)));
        [done|done|exact Hi| |done|done|done|done|done|done| |].
      * eapply (api_begin checks); [exact Hq|]. rewrite Hbeg, Ha. reflexivity.
      * by rewrite Hheld.
      * done.
    + exists (mkApiState (containers sa) (mkMutex true b), <[i := Replied false Panic]> qs). split.
      * apply rtc_once. eapply (api_begin checks); [exact Hq|]. by rewrite Hbeg, Ha.
      * eapply (sim_update c _ sa); [done|done|exact Hi|done|done|done|done| |done|by left].
        by split; [right|].
  - subst q. injection E as <-. eapply sim_stay; [done|done|exact Hi|exact Hq|done..].
  - subst q. injection E as <-. exists (sa, qs). split; [done|].
    rewrite <- (list_insert_id qs i _ Hq).
    eapply (sim_update c _ sa); [done|done|exact Hi|done|done|done|done| |done|by right].
    cbn [shared bpf poisoned]. rewrite Hp. split; [by left|]. intros _. right. by exists i.
Qed.

(** Every step of a task is matched by at most one step of its command. *)
Lemma sim_step (c c' : Config B) (x : ApiState B * list cmd_phase) :
  sim c x -> lock_step V checks c c' -> simulated c' x.
Proof.
  intros Hsim [i E]. destruct x as [sa qs]. pose proof Hsim as (Hinv & _).
  pose proof (lock_inv_step checks c c' Hinv (ex_intro _ i E)) as Hinv'.
  destruct (tasks c !! i) as [t|] eqn:Hi; [|unfold task_step in E; by rewrite Hi in E].
  destruct t; try (by eapply sim_step_table); try (by eapply sim_step_route);
    try (by eapply sim_step_alloc). unfold task_step in E. by rewrite Hi in E.
Qed.

Lemma sim_start (s : ApiState B) (bodies : list (list byte)) : sim (start s bodies) (s, Received <$> bodies).
Proof.
  assert (forall j t, tasks (start s bodies) !! j = Some t -> exists b, t = TStart b) as Hs.
  { intros j t Ht. cbn in Ht. apply list_lookup_fmap_Some in Ht as (b & -> & _). by exists b. }
  unfold sim. split_and!; try done.
  - apply start_inv.
  - cbn. apply Forall2_fmap_2, Forall_Forall2_diag, Forall_forall. done.
  - cbn [shared start]. split; [by left|]. intros [?|[j Hj]]; [done|]. by destruct (Hs _ _ Hj).
  - intros j t Ht Hu. by destruct (Hs _ _ Ht) as [b ->].
Qed.

Lemma sim_run (c c' : Config B) (x : ApiState B * list cmd_phase) :
  sim c x -> rtc (lock_step V checks) c c' -> simulated c' x.
Proof.
  intros Hsim Hr. revert x Hsim. induction Hr as [c|c c1 c' Hs _ IH]; intros x Hsim; [by exists x|].
  destruct (sim_step c c1 x Hsim Hs) as (x1 & Hx1 & Hsim1).
  destruct (IH x1 Hsim1) as (x' & Hx' & Hsim'). exists x'. split; [by etrans|done].
Qed.
End Refinement.

(** ** Properties *)

(** The phase of a finished task. *)
Definition task_reply (t : task) : cmd_phase :=
  match t with TDone warned r => Replied warned r | _ => Replied false Panic end.

(** C9: commands never deadlock.  In every state a set of commands can reach,
    at most one task holds a lock (for each of the two), a task that has not
    finished can go on or waits for the holder of a lock, which can; and no
    run has more than seven steps for each command, so that every run that
    goes on as long as it can ends with all commands finished. *)
Theorem locks_never_deadlock {B V} `{RouteStore B} `{Json V} (checks : bool) (s : ApiState B)
    (bodies : list (list byte)) (n : nat) (c : Config B) :
  nsteps (lock_step V checks) n (start s bodies) c ->
  (n <= 7 * length bodies)%nat /\
  (forall i j t u, tasks c !! i = Some t -> tasks c !! j = Some u ->
     ((holds_table t && holds_table u) || (holds_mutex t && holds_mutex u))%bool = true -> i = j) /\
  (forall i t, tasks c !! i = Some t -> finished t = false ->
     is_Some (task_step V checks c i) \/
     exists j, (table_by c = Some j \/ mutex_by c = Some j) /\ is_Some (task_step V checks c j)).
Proof.
  intros Hr. assert (lock_inv c) as Hinv.
  { eapply lock_inv_run. apply rtc_nsteps; by exists n. }
  split_and!.
  - apply lock_nsteps_work in Hr. assert (forall l : list (list byte),
      sum_list (task_work <$> (TStart <$> l)) = 7 * length l)%nat as Hw; [|cbn [tasks start] in Hr;
      rewrite Hw in Hr; lia].
    intros l. induction l as [|b l IH]; [done|]. cbn in IH |- *. lia.
  - destruct Hinv as [Ht Hm]. intros i j t u Hi Hj Hh.
    apply orb_true_iff in Hh as [[H1 H2]%andb_true_iff|[H1 H2]%andb_true_iff].
    + pose proof (proj2 (Ht i) ltac:(eauto)). pose proof (proj2 (Ht j) ltac:(eauto)). congruence.
    + pose proof (proj2 (Hm i) ltac:(eauto)). pose proof (proj2 (Hm j) ltac:(eauto)). congruence.
  - intros i t. by apply task_progress.
Qed.

(** C8: the locks make the critical sections atomic: whatever the tasks of a
    set of commands do down to single lock operations, panics and poisoning
    included, the table and the routes are those of a run of [api_step], and
    once all tasks have finished the whole state and the replies are. *)
Theorem locks_refine_commands {B V} `{RouteStore B} `{Json V} (checks : bool) (s : ApiState B)
    (bodies : list (list byte)) (c : Config B) :
  rtc (lock_step V checks) (start s bodies) c ->
  (exists sa qs, rtc (api_step V checks) (s, Received <$> bodies) (sa, qs) /\
     containers sa = containers (shared c) /\ inner (bpf sa) = inner (bpf (shared c)) /\
     length qs = length (tasks c)) /\
  (Forall (fun t => finished t = true) (tasks c) ->
     rtc (api_step V checks) (s, Received <$> bodies) (shared c, task_reply <$> tasks c)).
Proof.
  intros Hr. destruct (sim_run checks _ _ _ (sim_start checks s bodies) Hr) as ([sa qs] & Hx & Hsim).
  pose proof Hsim as (_ & HF & Hc & Hb & Hp & _). cbn [fst snd] in *. split.
  { exists sa, qs. split_and!; [done..|]. symmetry. by eapply Forall2_length. }
  intros Hfin. assert (sa = shared c) as <-.
  { assert (~ unwinds (tasks c)) as Hn.
    { intros [j Hj]. by pose proof (Forall_lookup_1 _ _ _ _ Hfin Hj). }
    pose proof (poison_agrees checks c sa qs Hsim Hn) as Hpp. destruct sa as [cm [p b]], (shared c) as [cm' [p' b']].
    cbn in *. by subst. }
  replace (task_reply <$> tasks c) with qs; [done|].
  clear -HF Hfin. induction HF as [|t q ts qs Ha _ IH]; [done|].
  apply Forall_cons_1 in Hfin as [Ht Hts]. cbn [fmap list_fmap]. rewrite IH by done. f_equal.
  by destruct t.
Qed.

(** ** Witnesses *)

(** Tasks stepping in a given order. *)
Fixpoint schedule {B} (V : Type) `{RouteStore B} `{Json V} (checks : bool) (c : Config B) (order : list nat)
    : option (Config B) :=
  match order with
  | [] => Some c
  | i :: order' => c' ← task_step V checks c i; schedule V checks c' order'
  end.

Lemma schedule_nsteps {B V} `{RouteStore B} `{Json V} (checks : bool) (order : list nat) (c c' : Config B) :
  schedule V checks c order = Some c' -> nsteps (lock_step V checks) (length order) c c'.
Proof.
  revert c. induction order as [|i order IH]; intros c E; cbn [schedule length] in *.
  - injection E as ->. constructor.
  - destruct (task_step V checks c i) as [c1|] eqn:E1; [|done]. cbn in E.
    econstructor; [by exists i|by apply IH].
Qed.

(** An ADD, a DEL of the same container and an allocation. *)
Definition demo_bodies : list (list byte) :=
  cmd_body (list (string * string)) <$>
    [Manage (mkRequest RouteAdd "c1" (ipv4_new 10 244 0 9) "veth-c1");
     Manage (mkRequest RouteDel "c1" (ipv4_new 10 244 0 9) "veth-c1"); Allocate "c3"].

Definition demo_start : Config (BpfManager bmap ring) := start demo_api_state demo_bodies.

(** The DEL waits for the table, which the ADD holds. *)
Lemma locks_never_deadlock_witness :
  exists c, schedule (list (string * string)) false demo_start [0; 1; 0]%nat = Some c /\
    task_step (list (string * string)) false c 1 = None /\
    exists j, (table_by c = Some j \/ mutex_by c = Some j) /\
      is_Some (task_step (list (string * string)) false c j).
Proof.
  destruct (schedule (list (string * string)) false demo_start [0; 1; 0]%nat) as [c|] eqn:E;
    [|vm_compute in E; discriminate E].
  exists c. split; [reflexivity|].
  destruct (locks_never_deadlock (V:=list (string * string)) false demo_api_state demo_bodies 3 c
    (schedule_nsteps (V:=list (string * string)) false [0; 1; 0]%nat demo_start c E)) as (_ & _ & Hprog).
  assert (task_step (list (string * string)) false c 1 = None) as Hb.
  { vm_compute in E. injection E as <-. vm_compute. reflexivity. }
  split; [exact Hb|].
  destruct (Hprog 1%nat (TWantTable RouteDel "c1" "10.244.0.9" "veth-c1" (ok_200 (json1 "status" "removed"))))
    as [[c' E']|Hj].
  - vm_compute in E. injection E as <-. vm_compute. reflexivity.
  - reflexivity.
  - rewrite Hb in E'. discriminate E'.
  - exact Hj.
Defined.

Lemma locks_refine_commands_witness :
  exists c, schedule (list (string * string)) false demo_start
      [0; 1; 2; 0; 2; 0; 0; 1; 1; 1; 2; 2; 1; 1; 1; 0; 0; 0]%nat = Some c /\
    rtc (api_step (list (string * string)) false) (demo_api_state, Received <$> demo_bodies)
      (shared c, task_reply <$> tasks c).
Proof.
  destruct (schedule (list (string * string)) false demo_start
    [0; 1; 2; 0; 2; 0; 0; 1; 1; 1; 2; 2; 1; 1; 1; 0; 0; 0]%nat) as [c|] eqn:E;
    [|vm_compute in E; discriminate E].
  exists c. split; [reflexivity|].
  apply (locks_refine_commands (V:=list (string * string)) false demo_api_state demo_bodies c).
  - apply rtc_nsteps. eexists. exact (schedule_nsteps (V:=list (string * string)) false _ demo_start c E).
  - vm_compute in E. injection E as <-. repeat constructor.
Defined.
