(* ===== verification/ApiHttp.v ===== *)
(** * The HTTP side of the container API ([agent/src/api.rs])

    [handle_api_connection] on the bytes of a connection, the dispatch on
    method and path, and [api_server].  A request as an HTTP client writes it
    is a request line, header lines, an empty line and a body; the theorems
    say which body reaches [handle_container_cmd]. *)

From S2P Require Import Prelude RustStr NetAddr Common Kernel BpfMgr Json Api.

(** ** Reading the connection *)

(** A connection's input: the bytes that arrive, and whether the stream then
    ends ([true]) or fails ([false]). *)
Record Stream := mkStream { pending : string; clean_end : bool }.

(** The first line, newline included, and what follows. *)
Fixpoint split_line (s : string) : string * option string :=
  match s with
  | EmptyString => (EmptyString, None)
  | String c s' =>
      if code c =? 10 then (String c EmptyString, Some s')
      else let '(l, r) := split_line s' in (String c l, r)
  end.

(** [reader.read_line(&mut line)] into an empty [line]: the line read ([""]
    at the end), or an error for invalid UTF-8 or a failing stream. *)
Definition read_line (st : Stream) : outcome string string * Stream :=
  match split_line (pending st) with
  | (l, Some rest) =>
      (if valid_utf8 l then Ok l else Err "stream did not contain valid UTF-8",
       mkStream rest (clean_end st))
  | (l, None) =>
      (if negb (clean_end st) then Err "I/O error"
       else if valid_utf8 l then Ok l else Err "stream did not contain valid UTF-8",
       mkStream EmptyString (clean_end st))
  end.

(** The value a header line gives [content_length], if it gives one.  The
    lower-casing is only compared with an ASCII prefix none of whose letters
    is the lower case of a non-ASCII character, so ASCII lower case decides
    it. *)
Definition content_length_of (header : string) : option Z :=
  if starts_with (to_ascii_lowercase header) "content-length:"
  then parse_uint usize_max (trim (trim_start_matches header "Content-Length:"))
  else None.

(** The loop over the header lines.  Every round that continues consumes a
    byte at least, so the length of the input is enough fuel. *)
Fixpoint read_headers (fuel : nat) (content_length : Z) (st : Stream) : option (Z * Stream) :=
  match fuel with
  | O => None
  | S f =>
      let '(r, st) := read_line st in
      let header := default EmptyString (ok r) in
      if (Nat.eqb (str_len header) 0 || String.eqb (trim header) EmptyString)%bool
      then Some (content_length, st)
      else read_headers f (default content_length (content_length_of header)) st
  end.

(** [vec![0u8; n]] panics above [isize::MAX]. *)
Definition isize_max : Z := 2 ^ 63 - 1.

Definition bad_request : string :=
  "HTTP/1.1 400 Bad Request" +:+ crlf +:+ "Content-Length: 15" +:+ crlf +:+ crlf
  +:+ "invalid request".

Section Http.
Context {B V : Type} `{RouteStore B} `{Json V}.

(** The dispatch on method and path. *)
Definition route_request (checks : bool) (s : ApiState B) (method path : string) (body : list byte)
    : ApiState B * outcome string string :=
  if (String.eqb method "POST" && String.eqb path "/api/v1/container")%bool
  then handle_container_cmd (V:=V) checks s body
  else if (String.eqb method "GET" && String.eqb path "/api/v1/health")%bool
  then (s, Ok (ok_200 (json1 "status" "ok")))
  else (s, Ok ("404 Not Found" +:+ crlf +:+ crlf +:+ json1 "error" "not found")).

(** [handle_api_connection]: the state and the response sent, [None] when the
    connection is closed without one. *)
Definition handle_api_connection (checks : bool) (s : ApiState B) (st : Stream)
    : ApiState B * outcome string (option string) :=
  match read_line st with
  | (Ok request_line, st) =>
      match split_whitespace request_line with
      | method :: path :: _ :: _ =>
          match read_headers (S (str_len (pending st))) 0 st with
          | None => (s, Err "out of fuel")
          | Some (content_length, st) =>
              if isize_max <? content_length then (s, Panic)
              else if Z.of_nat (str_len (pending st)) <? content_length then (s, Ok None)
              else
                let body := take (Z.to_nat content_length) (as_bytes (pending st)) in
                let '(s, r) := route_request checks s method path body in
                (s, Some <$> r)
          end
      | _ => (s, Ok (Some bad_request))
      end
  | (_, _) => (s, Ok None)
  end.

(** [api_server] after the bind: the connections it accepts, in order, with
    the value of [stop] read after each [accept].  Each connection runs as a
    task of its own; the model runs them one after the other. *)
Inductive ServerEvent :=
| Accepted (stop : bool) (st : Stream)
| AcceptError (stop : bool)
| CtrlC.

Fixpoint api_server (checks : bool) (s : ApiState B) (evs : list ServerEvent)
    : ApiState B * list (outcome string (option string)) :=
  match evs with
  | [] => (s, [])
  | CtrlC :: _ => (s, [])
  | AcceptError stop :: evs' => if (stop : bool) then (s, []) else api_server checks s evs'
  | Accepted stop st :: evs' =>
      if (stop : bool) then (s, [])
      else
        let '(s, r) := handle_api_connection checks s st in
        let '(s, rs) := api_server checks s evs' in
        (s, r :: rs)
  end.

End Http.
Arguments route_request {B} V {_ _}.
Arguments handle_api_connection {B} V {_ _}.
Arguments api_server {B} V {_ _}.

(** ** Requests as text *)

(** No line feed inside. *)
Fixpoint no_lf (s : string) : bool :=
  match s with EmptyString => true | String c s' => negb (code c =? 10) && no_lf s' end.

(** The header lines, the empty line and what follows. *)
Definition header_block (hs : list string) (rest : string) : string :=
  foldr (fun h t => h +:+ crlf +:+ t) (crlf +:+ rest) hs.

Definition http_request (request_line : string) (hs : list string) (rest : string) : string :=
  request_line +:+ crlf +:+ header_block hs rest.

(** A line that is one line, is text and is not blank. *)
Definition wf_header (h : string) : Prop :=
  no_lf h = true /\ valid_utf8 (h +:+ crlf) = true /\ trim (h +:+ crlf) <> "".

(** The length the header lines announce. *)
Definition announced (cl : Z) (hs : list string) : Z :=
  foldl (fun cl h => default cl (content_length_of (h +:+ crlf))) cl hs.

Lemma split_line_crlf (l rest : string) :
  no_lf l = true -> split_line (l +:+ crlf +:+ rest) = (l +:+ crlf, Some rest).
Proof.
  induction l as [|c l IH]; [done|]. rewrite !string_app_cons. cbn [no_lf split_line].
  intros Hl. bool_to_prop. replace (code c =? 10) with false by (symmetry; by apply Z.eqb_neq).
  by rewrite IH.
Qed.

Lemma read_line_crlf (l rest : string) (e : bool) :
  no_lf l = true -> valid_utf8 (l +:+ crlf) = true ->
  read_line (mkStream (l +:+ crlf +:+ rest) e) = (Ok (l +:+ crlf), mkStream rest e).
Proof. intros Hl Hv. unfold read_line. cbn [pending clean_end]. by rewrite split_line_crlf, Hv. Qed.

Lemma crlf_line_nonempty (h : string) : Nat.eqb (str_len (h +:+ crlf)) 0 = false.
Proof. apply Nat.eqb_neq. unfold str_len. rewrite string_length_app. cbn. lia. Qed.

Lemma read_headers_block (hs : list string) (rest : string) (e : bool) (cl : Z) (fuel : nat) :
  Forall wf_header hs -> (length hs < fuel)%nat ->
  read_headers fuel cl (mkStream (header_block hs rest) e) = Some (announced cl hs, mkStream rest e).
Proof.
  revert cl fuel. induction hs as [|h hs IH]; intros cl fuel Hw Hf; cbn [length] in Hf;
    (destruct fuel as [|fuel]; [lia|]); cbn [read_headers header_block foldr].
  { change (crlf +:+ rest) with (EmptyString +:+ crlf +:+ rest). by rewrite read_line_crlf. }
  inversion_clear Hw as [|? ? (Hl & Hv & Ht) Hw']. rewrite read_line_crlf by done.
  cbn [ok default from_option id]. rewrite crlf_line_nonempty.
  rewrite (proj2 (String.eqb_neq _ _) Ht). cbn [orb]. apply IH; [done|lia].
Qed.

(** The block is long enough to be the fuel. *)
Lemma header_block_length (hs : list string) (rest : string) :
  (length hs < S (str_len (header_block hs rest)))%nat.
Proof.
  induction hs as [|h hs IH]; cbn [length]; [lia|].
  change (header_block (h :: hs) rest) with (h +:+ crlf +:+ header_block hs rest).
  unfold str_len in *. rewrite !string_length_app. change (String.length crlf) with 2%nat. lia.
Qed.

Section Requests.
Context {B V : Type} `{RouteStore B} `{Json V}.

(** The handler on a request whose body is at least as long as announced. *)
Lemma handle_request (checks : bool) (s : ApiState B) (rl : string) (hs : list string)
    (rest method path version : string) (more : list string) (e : bool) :
  no_lf rl = true -> valid_utf8 (rl +:+ crlf) = true ->
  split_whitespace (rl +:+ crlf) = method :: path :: version :: more ->
  Forall wf_header hs -> 0 <= announced 0 hs <= isize_max ->
  announced 0 hs <= Z.of_nat (str_len rest) ->
  handle_api_connection V checks s (mkStream (http_request rl hs rest) e)
  = let '(s', r) := route_request V checks s method path
                      (take (Z.to_nat (announced 0 hs)) (as_bytes rest)) in
    (s', Some <$> r).
Proof.
  intros Hl Hv Hs Hw Hb Hr. unfold handle_api_connection, http_request.
  rewrite read_line_crlf, Hs by done. cbn [pending].
  rewrite read_headers_block by (try apply header_block_length; done). cbn [pending].
  replace (isize_max <? announced 0 hs) with false by (symmetry; apply Z.ltb_ge; lia).
  by replace (Z.of_nat (str_len rest) <? announced 0 hs) with false by (symmetry; by apply Z.ltb_ge).
Qed.
End Requests.

(** ** The announced length *)

Lemma content_length_canonical (n : Z) :
  0 <= n <= usize_max -> content_length_of (("Content-Length: " +:+ show_dec n) +:+ crlf) = Some n.
Proof.
  intros Hn. rewrite string_app_assoc.
  change (parse_uint usize_max (trim (" " +:+ show_dec n +:+ crlf)) = Some n).
  rewrite <- (parse_uint_show_dec usize_max n) by (unfold usize_max in *; lia).
  f_equal. unfold trim. change (trim_start (" " +:+ ?x)) with (trim_start x).
  assert (all_digits (show_dec n) = true) as Hd by (apply all_digits_show; lia).
  rewrite <- (trim_end_digits (show_dec n)) at 2 by done. f_equal.
  destruct (show_dec n) as [|c s] eqn:E.
  { exfalso. pose proof (parse_uint_show_dec usize_max n) as Hp. rewrite E in Hp.
    by specialize (Hp ltac:(unfold usize_max in *; lia) ltac:(lia)). }
  cbn [all_digits] in Hd. bool_to_prop. rewrite string_app_cons. apply trim_start_head. lia.
Qed.

Lemma content_length_lower (x : string) : content_length_of (("content-length: " +:+ x) +:+ crlf) = None.
Proof.
  rewrite string_app_assoc. set (y := x +:+ crlf). unfold content_length_of.
  destruct (starts_with _ _); [|done].
  change (trim_start_matches ("content-length: " +:+ y) "Content-Length:")
    with (String "c"%char ("ontent-length: " +:+ y)).
  unfold trim. rewrite trim_start_head, trim_end_head by (vm_compute; split; [discriminate|reflexivity]).
  done.
Qed.

Lemma announced_app (cl : Z) (hs hs' : list string) :
  announced cl (hs ++ hs') = announced (announced cl hs) hs'.
Proof. apply foldl_app. Qed.

(** Lines that announce no length leave it. *)
Lemma announced_none (cl : Z) (hs : list string) :
  Forall (fun h => content_length_of (h +:+ crlf) = None) hs -> announced cl hs = cl.
Proof.
  induction 1 as [|h hs Hh _ IH]; [done|]. cbn [announced foldl]. by rewrite Hh.
Qed.

(** The empty line and short requests consume bytes: the header loop always
    comes to an end within its fuel. *)
Lemma split_line_shorter (s : string) (l rest : string) :
  split_line s = (l, Some rest) -> (str_len rest < str_len s)%nat.
Proof.
  revert l. induction s as [|c s IH]; intros l; cbn [split_line]; [done|].
  destruct (code c =? 10); [intros [= <- <-]; unfold str_len; cbn; lia|].
  destruct (split_line s) as [l' [r|]] eqn:E; intros Heq; [|done].
  injection Heq as _ <-. specialize (IH _ eq_refl). unfold str_len in *. cbn. lia.
Qed.

Lemma split_line_end (s l : string) : split_line s = (l, None) -> l = s.
Proof.
  revert l. induction s as [|c s IH]; intros l; cbn [split_line]; [by intros [= <-]|].
  destruct (code c =? 10); [done|]. destruct (split_line s) as [l' [r|]]; [done|].
  intros Heq. injection Heq as <-. by rewrite (IH _ eq_refl).
Qed.

Lemma read_headers_total (fuel : nat) (cl : Z) (st : Stream) :
  (str_len (pending st) < fuel)%nat -> is_Some (read_headers fuel cl st).
Proof.
  revert cl st. induction fuel as [|fuel IH]; intros cl st Hf; [lia|]. cbn [read_headers].
  unfold read_line. destruct (split_line (pending st)) as [l [rest|]] eqn:E.
  - apply split_line_shorter in E. destruct (_ || _); [by eexists|]. apply IH. cbn [pending]. lia.
  - apply split_line_end in E as ->.
    destruct (str_len (pending st)) as [|n] eqn:El.
    { unfold str_len in El. destruct (pending st); [|done]. by destruct (negb _); eexists. }
    destruct (_ || _); [by eexists|]. apply IH. cbn. lia.
Qed.

(** ** Properties *)

Section HttpProperties.
Context {B V : Type} `{RouteStore B} `{JsonLaws V}.

(** C6: a request with one Content-Length header, whatever the other header
    lines are, is dispatched on its method and path with exactly the body of
    that length, also when more bytes follow it. *)
Theorem http_request_dispatch (checks : bool) (s : ApiState B) (rl : string) (hs hs' : list string)
    (body extra method path version : string) (more : list string) (e : bool) :
  no_lf rl = true -> valid_utf8 (rl +:+ crlf) = true ->
  split_whitespace (rl +:+ crlf) = method :: path :: version :: more ->
  Forall (fun h => wf_header h /\ content_length_of (h +:+ crlf) = None) (hs ++ hs') ->
  wf_header ("Content-Length: " +:+ show_dec (Z.of_nat (str_len body))) ->
  Z.of_nat (str_len body) <= isize_max ->
  handle_api_connection V checks s
    (mkStream (http_request rl
       (hs ++ ("Content-Length: " +:+ show_dec (Z.of_nat (str_len body))) :: hs') (body +:+ extra)) e)
  = let '(s', r) := route_request V checks s method path (as_bytes body) in (s', Some <$> r).
Proof.
  intros Hl Hv Hs Hh Hw Hn.
  apply Forall_and in Hh as [Hwf Hnone]. apply Forall_app in Hwf as [Hw1 Hw2].
  apply Forall_app in Hnone as [Hn1 Hn2].
  set (n := Z.of_nat (str_len body)) in *.
  assert (announced 0 (hs ++ ("Content-Length: " +:+ show_dec n) :: hs') = n) as Ha.
  { rewrite announced_app, (announced_none 0 hs) by done. cbn [announced foldl].
    rewrite content_length_canonical by (unfold usize_max, u64_max, isize_max in *; lia).
    by apply announced_none. }
  rewrite (handle_request checks s rl _ (body +:+ extra) method path version more e Hl Hv Hs).
  - rewrite Ha. unfold n. rewrite Nat2Z.id, as_bytes_app, <- length_as_bytes, take_app_length. done.
  - apply Forall_app. split; [done|]. by constructor.
  - rewrite Ha. lia.
  - rewrite Ha. unfold n, str_len. rewrite string_length_app. lia.
Qed.

(** A container command whose request announces no length, or announces
    it in lower case as [content-length], never reaches the dispatch of the
    actions: the body is taken to be empty and the request is refused as bad
    JSON with the state unchanged. *)
Lemma unsized_command_refused (checks : bool) (s : ApiState B) (hs : list string) (body : string)
    (e : bool) :
  Forall (fun h => wf_header h /\
    (starts_with (to_ascii_lowercase (h +:+ crlf)) "content-length:" = false \/
     exists n, h = "content-length: " +:+ show_dec n)) hs ->
  exists err, handle_api_connection V checks s
    (mkStream (http_request "POST /api/v1/container HTTP/1.1" hs body) e)
    = (s, Ok (Some (bad_400 (json1 "error" ("json: " +:+ err))))).
Proof.
  intros Hh. apply Forall_and in Hh as [Hwf Hnone].
  assert (announced 0 hs = 0) as Ha.
  { apply announced_none. eapply Forall_impl; [exact Hnone|]. intros h [Hs|[n ->]];
      [unfold content_length_of; by rewrite Hs|apply content_length_lower]. }
  destruct (json_empty (V:=V)) as [err Herr]. exists err.
  rewrite (handle_request checks s "POST /api/v1/container HTTP/1.1" hs body "POST"
    "/api/v1/container" "HTTP/1.1" [] e); [|reflexivity..|exact Hwf| |]; rewrite Ha.
  - unfold route_request. cbn [String.eqb Ascii.eqb Bool.eqb andb].
    unfold handle_container_cmd. change (take _ (as_bytes body)) with ([] : list byte). by rewrite Herr.
  - unfold isize_max. lia.
  - lia.
Qed.

Lemma route_request_no_status (checks : bool) (s : ApiState B) (method path : string)
    (body : list byte) (r : string) :
  (route_request V checks s method path body).2 = Ok r -> starts_with r "HTTP/" = false.
Proof.
  unfold route_request, handle_container_cmd.
  repeat match goal with |- context [if ?b then _ else _] => destruct b end;
    try (intros [= <-]; reflexivity).
  all: destruct (from_slice (V:=V) body); [|by intros [= <-]|done].
  all: repeat match goal with |- context [if ?b then _ else _] => destruct b end;
    try (intros [= <-]; reflexivity).
  all: destruct (allocate_from_bpf _ _ _) as [m [ip|?|]]; by intros [= <-].
Qed.

(** Without overflow checks and poisoning, a dispatched request is answered. *)
Lemma route_request_no_err (checks : bool) (s : ApiState B) (method path : string)
    (body : list byte) :
  (forall e, (route_request V checks s method path body).2 <> Err e) /\
  (checks = false -> poisoned (bpf s) = false ->
   (route_request V checks s method path body).2 <> Panic).
Proof.
  unfold route_request, handle_container_cmd.
  destruct (_ && _); [|by destruct (_ && _)].
  pose proof (json_no_panic (V:=V) body).
  destruct (from_slice (V:=V) body) as [v|e|]; [|done..].
  set (c := default "" (index_str v "container_id")).
  pose proof (allocate_no_err checks (bpf s) c) as [He Hp].
  destruct (String.eqb _ _).
  { destruct (allocate_from_bpf checks (bpf s) c) as [m [ip|e|]]; cbn [snd fmap outcome_fmap] in *;
      [done|by destruct (He e)|]. split; [done|]. intros Hc Hn. by destruct (Hp Hc Hn). }
  by destruct (String.eqb _ _); [|destruct (String.eqb _ _)].
Qed.

Lemma response_status (checks : bool) (s s' : ApiState B) (st : Stream) (resp : string) :
  handle_api_connection V checks s st = (s', Ok (Some resp)) ->
  starts_with resp "HTTP/" = false \/ (resp = bad_request /\ s' = s).
Proof.
  intros E. unfold handle_api_connection in E.
  destruct (read_line st) as [[rl|?|] st1]; [|by simplify_eq..].
  destruct (split_whitespace rl) as [|m [|p [|v more]]];
    [by injection E as <- <-; right..|].
  destruct (read_headers _ _ _) as [[cl st2]|]; [|done].
  destruct (isize_max <? cl); [done|]. destruct (_ <? cl); [done|].
  pose proof (route_request_no_status checks s m p (take (Z.to_nat cl) (as_bytes (pending st2)))) as Hn.
  destruct (route_request V checks s m p _) as [s2 [r|?|]]; simplify_eq/=.
  left. by apply Hn.
Qed.

(** No response to a dispatched request begins with an HTTP status line:
    a response that does is the one for a malformed request line. *)
Theorem responses_lack_status_line (checks : bool) (s s' : ApiState B) (st : Stream) (resp : string) :
  handle_api_connection V checks s st = (s', Ok (Some resp)) ->
  starts_with resp "HTTP/" = true ->
  resp = bad_request /\ s' = s.
Proof. intros E Hr. destruct (response_status _ _ _ _ _ E) as [Hn|]; [congruence|done]. Qed.
End HttpProperties.

(** A JSON body of the demonstration requests. *)
Definition demo_body : string := Flat.show [("action", "add"); ("container_id", "c1"); ("ip", "10.244.0.9")].
Definition demo_api : ApiState (gset Z) := mkApiState cm_new (mkMutex false ∅).

Lemma http_request_dispatch_witness :
  (handle_api_connection (list (string * string)) false demo_api
    (mkStream (http_request "POST /api/v1/container HTTP/1.1"
       (["Host: agent"] ++ ("Content-Length: " +:+ show_dec (Z.of_nat (str_len demo_body)))
          :: ["Accept: */*"]) (demo_body +:+ "GET")) true)).1
  = mkApiState (cm_add cm_new "c1" "10.244.0.9" "") (mkMutex false {[host_ip 9]}).
Proof.
  rewrite (http_request_dispatch (V:=list (string * string)) false demo_api
    "POST /api/v1/container HTTP/1.1" ["Host: agent"] ["Accept: */*"] demo_body "GET"
    "POST" "/api/v1/container" "HTTP/1.1" [] true);
    [| |reflexivity| |repeat constructor|split_and!|].
  all: vm_compute; congruence.
Defined.

Example unsized_demo :
  (handle_api_connection (list (string * string)) false demo_api
    (mkStream (http_request "POST /api/v1/container HTTP/1.1"
       ["Transfer-Encoding: chunked"; "content-length: 57"] demo_body) true)).1 = demo_api.
Proof. vm_compute. reflexivity. Qed.

Lemma responses_lack_status_line_witness :
  exists resp, handle_api_connection (list (string * string)) false demo_api
    (mkStream "nonsense" true) = (demo_api, Ok (Some resp)) /\ resp = bad_request.
Proof.
  eexists. split; [reflexivity|].
  apply (responses_lack_status_line (V:=list (string * string)) false demo_api demo_api
    (mkStream "nonsense" true)); reflexivity.
Defined.

(** C25: the handler terminates on every byte stream (the header loop never
    runs out) with a state and a response, a close or a panic; without
    overflow checks and with the lock not poisoned, the only panic is the
    allocation of a body longer than [isize::MAX]. *)
Theorem connection_total {B V} `{RouteStore B} `{JsonLaws V} (checks : bool) (s : ApiState B) (st : Stream) :
  (forall e, (handle_api_connection V checks s st).2 <> Err e) /\
  (checks = false -> poisoned (bpf s) = false ->
   (handle_api_connection V checks s st).2 = Panic ->
   exists cl st', read_headers (S (str_len (pending (read_line st).2))) 0 (read_line st).2
                  = Some (cl, st') /\ isize_max < cl).
Proof.
  unfold handle_api_connection. destruct (read_line st) as [[rl|?|] st1]; [|by split..].
  cbn [snd]. destruct (split_whitespace rl) as [|m [|p [|v more]]]; [by split..|].
  destruct (read_headers_total (S (str_len (pending st1))) 0 st1) as [[cl st2] Hr]; [lia|].
  rewrite Hr. destruct (isize_max <? cl) eqn:Ec; bool_to_prop; [split; [done|by eauto]|].
  destruct (_ <? cl); [by split|].
  pose proof (route_request_no_err checks s m p (take (Z.to_nat cl) (as_bytes (pending st2)))) as [He Hp].
  destruct (route_request V checks s m p _) as [s2 [r|e|]]; cbn [snd fmap outcome_fmap] in *.
  - by split.
  - by destruct (He e).
  - split; [done|]. intros Hc Hn. by destruct (Hp Hc Hn).
Qed.

Lemma connection_total_witness :
  exists cl st', read_headers 60 0 (mkStream ("Content-Length: 9223372036854775808" +:+ crlf) true)
    = Some (cl, st') /\ isize_max < cl.
Proof.
  apply (connection_total (V:=list (string * string)) false demo_api
    (mkStream ("GET / HTTP/1.1" +:+ crlf +:+ "Content-Length: 9223372036854775808" +:+ crlf) true));
    reflexivity.
Defined.
