(* ===== verification/Route.v ===== *)
(** * Route misses ([agent/src/route.rs])

    [RouteManager] collects the addresses the egress classifier reported,
    drops those reported again within the cooldown, and hands the rest out in
    batches to [discovery_loop].  Instants are milliseconds of the monotonic
    clock.  The ring buffer and the maps are those of [Kernel] and [BpfMgr]. *)

From S2P Require Import Prelude RustStr Common Kernel BpfMgr.

(** ** State *)

Definition BATCH_INTERVAL_MS : Z := 100.
Definition COOLDOWN_SECS : Z := 5.
Definition MAX_PENDING : nat := 4096.

Record RouteManager := mkRouteManager {
  pending : list Z;
  cooldowns : gmap Z Z
}.

Definition RouteManager_new : RouteManager := mkRouteManager [] ∅.

(** [Duration::from_secs(COOLDOWN_SECS)], in milliseconds *)
Definition cooldown : Z := COOLDOWN_SECS * 1000.

(** ** Operations *)

(** The length test and the push are two sections of the lock on the queue;
    the only caller is the one task of [ringbuf_consumer], and a drain in
    between only shortens the queue. *)
Definition submit_miss (rm : RouteManager) (overlay_ip : Z) : RouteManager :=
  if Nat.leb MAX_PENDING (length (pending rm)) then rm
  else mkRouteManager (pending rm ++ [overlay_ip]) (cooldowns rm).

(** The loop of [drain_batch] over the drained addresses. *)
Fixpoint drain_go (now : Z) (cd : gmap Z Z) (batch ips : list Z) : gmap Z Z * list Z :=
  match ips with
  | [] => (cd, batch)
  | ip :: ips' =>
      match cd !! ip with
      | Some _ => drain_go now cd batch ips'
      | None => drain_go now (<[ip := now + cooldown]> cd) (batch ++ [ip]) ips'
      end
  end.

Definition drain_batch (rm : RouteManager) (now : Z) : RouteManager * list Z :=
  let cd := base.filter (fun kv => now < kv.2) (cooldowns rm) in
  let '(cd, batch) := drain_go now cd [] (pending rm) in
  (mkRouteManager [] cd, batch).

(** The unbounded channel of queries: whether its receiver still exists, and
    the queries waiting in it. *)
Record KadChannel := mkKadChannel {
  rx_alive : bool;
  queued : list Z
}.

(** [tx.send(x)]: refused once the receiver is dropped *)
Definition kad_send (c : KadChannel) (x : Z) : KadChannel * bool :=
  if rx_alive c then (mkKadChannel true (queued c ++ [x]), true) else (c, false).

(** The receiver is dropped, and what was waiting with it. *)
Definition kad_drop_rx (c : KadChannel) : KadChannel := mkKadChannel false [].

Section Loops.
Context {M : Type -> Type} {R : Type} `{KernelMap M} `{KernelRing R}.

(** The body of the loop of [discovery_loop] over a batch: a query sent when
    there is a channel, whose failure is ignored, and the route recorded
    through the manager.  A poisoned lock makes [unwrap] panic, after the
    query was sent. *)
Fixpoint discover_batch (m : Mutex (BpfManager M R)) (kad_tx : option KadChannel) (batch : list Z)
    : outcome string (Mutex (BpfManager M R)) * option KadChannel :=
  match batch with
  | [] => (Ok m, kad_tx)
  | overlay_ip :: batch' =>
      let kad_tx := (fun tx => (kad_send tx overlay_ip).1) <$> kad_tx in
      if poisoned m then (Panic, kad_tx)
      else discover_batch
             (mkMutex false (bpf_update_container_route (inner m) overlay_ip 1).1) kad_tx batch'
  end.

(** The state [discovery_loop] works on. *)
Record DiscoveryState := mkDiscoveryState {
  route_mgr : RouteManager;
  d_bpf : Mutex (BpfManager M R);
  kad_queue : option KadChannel
}.

(** A round of [discovery_loop] after the tick at [now]. *)
Definition discovery_round (s : DiscoveryState) (now : Z) : DiscoveryState * outcome string unit :=
  let '(rm, batch) := drain_batch (route_mgr s) now in
  match discover_batch (d_bpf s) (kad_queue s) batch with
  | (Ok m, q) => (mkDiscoveryState rm m q, Ok tt)
  | (Err e, q) => (mkDiscoveryState rm (d_bpf s) q, Err e)
  | (Panic, q) => (mkDiscoveryState rm (d_bpf s) q, Panic)
  end.

(** [discovery_loop]: one entry per tick, with [stop] before and after the
    tick and the time. *)
Fixpoint discovery_loop (s : DiscoveryState) (ticks : list (bool * bool * Z)) : DiscoveryState :=
  match ticks with
  | [] => s
  | (stop, stop', now) :: ticks' =>
      if ((stop : bool) || (stop' : bool))%bool then s
      else match discovery_round s now with
           | (s, Ok _) => discovery_loop s ticks'
           | (s, _) => s
           end
  end.

(** A round of [ringbuf_consumer]: the oldest record of the ring buffer, as a
    native (little-endian) integer; shorter records are dropped. *)
Definition consume_one (rb : option R) (rm : RouteManager) : option R * RouteManager :=
  match rb with
  | None => (rb, rm)
  | Some r =>
      match rb_next r with
      | None => (rb, rm)
      | Some (data, r') =>
          if Nat.leb 4 (length data)
          then (Some r', submit_miss rm (from_le_bytes (take 4 data)))
          else (Some r', rm)
      end
  end.

(** [ringbuf_consumer] for a number of rounds. *)
Fixpoint ringbuf_consumer (rounds : nat) (rb : option R) (rm : RouteManager) : option R * RouteManager :=
  match rounds with
  | O => (rb, rm)
  | S n => let '(rb, rm) := consume_one rb rm in ringbuf_consumer n rb rm
  end.

End Loops.
Arguments DiscoveryState : clear implicits.
Arguments mkDiscoveryState {M R}.
Arguments route_mgr {M R}.
Arguments d_bpf {M R}.
Arguments kad_queue {M R}.

(** The events a route manager sees: a report, or a drain at a time. *)
Inductive RouteEvent :=
| Submit (ip : Z)
| Drain (now : Z).

(** The manager after the events, and the batches with their times. *)
Fixpoint run_events (rm : RouteManager) (evs : list RouteEvent) : RouteManager * list (Z * list Z) :=
  match evs with
  | [] => (rm, [])
  | Submit ip :: evs' => run_events (submit_miss rm ip) evs'
  | Drain now :: evs' =>
      let '(rm, batch) := drain_batch rm now in
      let '(rm, bs) := run_events rm evs' in
      (rm, (now, batch) :: bs)
  end.

(** The clock does not go backwards (it is monotonic). *)
Fixpoint drains_from (lo : Z) (evs : list RouteEvent) : Prop :=
  match evs with
  | [] => True
  | Submit _ :: evs' => drains_from lo evs'
  | Drain now :: evs' => lo <= now /\ drains_from now evs'
  end.

(** ** Lemmas on draining *)

Lemma drain_go_spec (now : Z) (cd : gmap Z Z) (batch ips : list Z) :
  exists cd' new, drain_go now cd batch ips = (cd', batch ++ new) /\ NoDup new /\
    (forall ip, ip ∈ new <-> ip ∈ ips /\ cd !! ip = None) /\
    (forall ip, ip ∈ new -> cd' !! ip = Some (now + cooldown)) /\
    (forall ip, ip ∉ new -> cd' !! ip = cd !! ip).
Proof.
  revert cd batch. induction ips as [|i ips IH]; intros cd batch; cbn [drain_go].
  { exists cd, []. rewrite app_nil_r. split_and!; [done|constructor|set_solver..]. }
  destruct (cd !! i) as [e|] eqn:Ei.
  - destruct (IH cd batch) as (cd' & new & E & Hnd & Hin & Hn & Ho).
    exists cd', new. split_and!; try done. intros ip. rewrite Hin, elem_of_cons. naive_solver.
  - destruct (IH (<[i := now + cooldown]> cd) (batch ++ [i])) as (cd' & new & E & Hnd & Hin & Hn & Ho).
    assert (i ∉ new) as Hi. { rewrite Hin, lookup_insert_eq. naive_solver. }
    exists cd', (i :: new). rewrite <- app_assoc in E. split_and!; [done|by constructor|..]; intros ip.
    + rewrite !elem_of_cons, Hin. destruct (decide (ip = i)) as [->|Hne]; [naive_solver|].
      rewrite lookup_insert_ne by done. naive_solver.
    + intros [->|Hip]%elem_of_cons; [|by apply Hn]. by rewrite Ho, lookup_insert_eq.
    + intros [Hne Hip]%not_elem_of_cons. by rewrite Ho, lookup_insert_ne.
Qed.

Lemma retained_lookup (cd : gmap Z Z) (now ip : Z) :
  base.filter (fun kv : Z * Z => now < kv.2) cd !! ip
  = match cd !! ip with Some e => if now <? e then Some e else None | None => None end.
Proof.
  rewrite map_lookup_filter. destruct (cd !! ip) as [e|]; cbn; [|done].
  destruct (now <? e) eqn:E; bool_to_prop.
  - by rewrite option_guard_True.
  - rewrite option_guard_False; [done|]. cbn. lia.
Qed.

(** The contract of [drain_batch] in one lemma. *)
Lemma drain_batch_contract (rm : RouteManager) (now : Z) :
  exists cd' batch, drain_batch rm now = (mkRouteManager [] cd', batch) /\ NoDup batch /\
    (forall ip, ip ∈ batch <-> ip ∈ pending rm /\ forall e, cooldowns rm !! ip = Some e -> e <= now) /\
    (forall ip, ip ∈ batch -> cd' !! ip = Some (now + cooldown)) /\
    (forall ip e, ip ∉ batch -> cooldowns rm !! ip = Some e -> now < e -> cd' !! ip = Some e).
Proof.
  unfold drain_batch. destruct (drain_go_spec now
    (base.filter (fun kv : Z * Z => now < kv.2) (cooldowns rm)) [] (pending rm))
    as (cd' & new & E & Hnd & Hin & Hn & Ho).
  rewrite E. cbn [app]. exists cd', new. split_and!; try done.
  - intros ip. rewrite Hin, retained_lookup. destruct (cooldowns rm !! ip) as [e|].
    + destruct (now <? e) eqn:El; bool_to_prop; split; intros [? He]; split; try done.
      * specialize (He e eq_refl). lia.
      * intros e' [= <-]. lia.
    + naive_solver.
  - intros ip e Hip He Hlt. rewrite Ho, retained_lookup, He by done.
    by apply Z.ltb_lt in Hlt as ->.
Qed.

Lemma run_events_times (evs : list RouteEvent) (rm : RouteManager) (lo t : Z) (b : list Z) :
  drains_from lo evs -> (t, b) ∈ (run_events rm evs).2 -> lo <= t.
Proof.
  revert rm lo. induction evs as [|[ip|now] evs IH]; intros rm lo Hd Hin; cbn [run_events drains_from] in *.
  - by apply not_elem_of_nil in Hin.
  - by eapply IH.
  - destruct Hd as [Hlo Hd]. destruct (drain_batch rm now) as [rm' batch].
    specialize (IH rm' now Hd). destruct (run_events rm' evs) as [rm2 bs].
    cbn [snd] in *. apply elem_of_cons in Hin as [[= -> ->]|Hin]; [done|]. specialize (IH Hin). lia.
Qed.

(** An address in cooldown until [e] is in no batch before [e]. *)
Lemma cooldown_holds (evs : list RouteEvent) (rm : RouteManager) (lo ip e t : Z) (b : list Z) :
  drains_from lo evs -> cooldowns rm !! ip = Some e ->
  (t, b) ∈ (run_events rm evs).2 -> ip ∈ b -> e <= t.
Proof.
  revert rm lo. induction evs as [|[i|now] evs IH]; intros rm lo Hd He Hin Hb;
    cbn [run_events drains_from] in *.
  - by apply not_elem_of_nil in Hin.
  - eapply IH; [exact Hd| |exact Hin|done]. unfold submit_miss. by destruct (Nat.leb _ _).
  - destruct Hd as [Hlo Hd]. destruct (drain_batch_contract rm now)
      as (cd' & batch & E & _ & Hbatch & _ & Hkeep). rewrite E in Hin.
    pose proof (run_events_times evs (mkRouteManager [] cd') now t b Hd) as Ht.
    specialize (IH (mkRouteManager [] cd') now Hd).
    destruct (run_events (mkRouteManager [] cd') evs) as [rm2 bs]. cbn [snd] in *.
    apply elem_of_cons in Hin as [[= -> ->]|Hin].
    + apply Hbatch in Hb as [_ Hb]. by apply Hb.
    + destruct (Z.le_gt_cases e now) as [Hle|Hgt]; [specialize (Ht Hin); lia|].
      apply IH; [|done|done]. apply Hkeep; [|done|lia]. intros Hc.
      apply Hbatch in Hc as [_ Hc]. specialize (Hc _ He). lia.
Qed.

(** ** Properties *)

(** C12: [drain_batch] empties the queue into a batch without duplicates that
    holds exactly the queued addresses not in cooldown, and starts their
    cooldown: no reported miss is lost except within five seconds of a batch
    that had it. *)
Theorem drain_batch_spec (rm : RouteManager) (now : Z) :
  let '(rm', batch) := drain_batch rm now in
  pending rm' = [] /\ NoDup batch /\
  (forall ip, ip ∈ batch <-> ip ∈ pending rm /\ forall e, cooldowns rm !! ip = Some e -> e <= now) /\
  (forall ip, ip ∈ batch -> cooldowns rm' !! ip = Some (now + 5000)).
Proof.
  destruct (drain_batch_contract rm now) as (cd' & batch & -> & Hnd & Hb & Hc & _).
  by split_and!.
Qed.

(** C11: however reports and drains alternate, an address handed out at [t1]
    is not handed out again before [t1] plus five seconds. *)
Theorem cooldown_respected (rm : RouteManager) (lo : Z) (evs : list RouteEvent) (i j : nat)
    (t1 t2 ip : Z) (b1 b2 : list Z) :
  drains_from lo evs ->
  (run_events rm evs).2 !! i = Some (t1, b1) -> (run_events rm evs).2 !! j = Some (t2, b2) ->
  (i < j)%nat -> ip ∈ b1 -> ip ∈ b2 -> t1 + 5000 <= t2.
Proof.
  revert rm lo i j. induction evs as [|[p|now] evs IH]; intros rm lo i j Hd Hi Hj Hij H1 H2;
    cbn [run_events drains_from] in *; [done|by eapply IH|].
  destruct Hd as [Hlo Hd].
  destruct (drain_batch_contract rm now) as (cd' & batch & E & _ & _ & Hc & _). rewrite E in *.
  specialize (IH (mkRouteManager [] cd') now).
  pose proof (cooldown_holds evs (mkRouteManager [] cd') now ip (now + cooldown) t2 b2 Hd) as Hcd.
  destruct (run_events (mkRouteManager [] cd') evs) as [rm2 bs]. cbn [snd] in *.
  destruct j as [|j]; [lia|]. cbn in Hj. destruct i as [|i]; cbn in Hi.
  - injection Hi as <- <-. apply Hcd; [by apply Hc|by eapply list_elem_of_lookup_2|done].
  - eapply (IH i j); [done|done|done|lia|done|done].
Qed.

Lemma cooldown_respected_witness :
  (run_events RouteManager_new [Submit 7; Drain 0; Submit 7; Drain 100; Submit 7; Drain 5000]).2
  = [(0, [7]); (100, []); (5000, [7])] /\ 0 + 5000 <= 5000.
Proof.
  split; [vm_compute; reflexivity|].
  apply (cooldown_respected RouteManager_new 0
    [Submit 7; Drain 0; Submit 7; Drain 100; Submit 7; Drain 5000] 0 2 0 5000 7 [7] [7]);
    try (vm_compute; reflexivity); [cbn; lia|lia|by left|by left].
Defined.

(** C24: whatever is reported, the queue holds at most [MAX_PENDING] addresses
    and so does every batch. *)
Theorem pending_bounded (rm : RouteManager) (evs : list RouteEvent) :
  (length (pending rm) <= MAX_PENDING)%nat ->
  (length (pending (run_events rm evs).1) <= MAX_PENDING)%nat /\
  Forall (fun tb => (length tb.2 <= MAX_PENDING)%nat) (run_events rm evs).2.
Proof.
  revert rm. induction evs as [|[ip|now] evs IH]; intros rm Hl; cbn [run_events].
  - by split.
  - apply IH. unfold submit_miss. destruct (Nat.leb _ _) eqn:E; bool_to_prop; [done|].
    cbn [pending]. rewrite length_app. cbn [length]. lia.
  - destruct (drain_batch_contract rm now) as (cd' & batch & E & Hnd & Hb & _). rewrite E.
    specialize (IH (mkRouteManager [] cd')). destruct (run_events _ evs) as [rm2 bs].
    destruct IH as [IH1 IH2]; [cbn; lia|]. split; [done|]. constructor; [|done]. cbn [snd].
    etransitivity; [|exact Hl]. apply NoDup_incl_length; [by apply NoDup_ListNoDup|].
    intros x Hx. apply list_elem_of_In, Hb in Hx as [Hx _]. by apply list_elem_of_In.
Qed.

Lemma pending_bounded_witness :
  (length (pending (run_events RouteManager_new [Submit 7; Submit 8]).1) <= MAX_PENDING)%nat.
Proof. apply (pending_bounded RouteManager_new [Submit 7; Submit 8]). cbn. lia. Defined.

(** ** Properties: discovery *)

Section Discovery.
Context {M : Type -> Type} {R : Type} `{KernelMapLaws M}.

(** The queries of a batch, all sent. *)
Lemma kad_send_all (c : KadChannel) (batch : list Z) :
  foldl (fun c x => (kad_send c x).1) c batch
  = if rx_alive c then mkKadChannel true (queued c ++ batch) else c.
Proof.
  revert c. induction batch as [|a batch IH]; intros [[] q]; cbn [foldl rx_alive queued].
  - by rewrite app_nil_r.
  - done.
  - rewrite IH. cbn. by rewrite <- app_assoc.
  - apply IH.
Qed.

Lemma discover_batch_routes (batch : list Z) (m : Mutex (BpfManager M R)) (q : option KadChannel) :
  poisoned m = false -> (length batch <= route_room (inner m))%nat ->
  exists m', discover_batch m q batch
      = (Ok m', (fun c => foldl (fun c x => (kad_send c x).1) c batch) <$> q) /\
    poisoned m' = false /\
    (forall k, k ∉ batch -> route_of (inner m') k = route_of (inner m) k) /\
    (forall k, k ∈ batch -> route_of (inner m') k = Some 1).
Proof.
  revert m q. induction batch as [|a batch IH]; intros m q Hp Hm; cbn [discover_batch length] in *.
  { exists m. split_and!; [by destruct q|done|done|by intros k ?%not_elem_of_nil]. }
  rewrite Hp. set (b1 := (bpf_update_container_route (inner m) a 1).1).
  destruct (update_route_exact (inner m) a 1) as [Ha Hk]; [lia|]. fold b1 in Ha, Hk.
  pose proof (update_room (inner m) a 1) as Hr. fold b1 in Hr.
  destruct (IH (mkMutex false b1) ((fun tx => (kad_send tx a).1) <$> q) eq_refl)
    as (m' & -> & Hp' & Ho & Hin); [cbn [inner]; lia|].
  exists m'. cbn [inner] in *. split_and!; [by destruct q|done|..]; intros k.
  - intros [Hne Hkb]%not_elem_of_cons. rewrite Ho by done. by apply Hk.
  - intros Hkb. destruct (decide (k ∈ batch)) as [|Hn]; [by apply Hin|].
    apply elem_of_cons in Hkb as [->|]; [|done]. by rewrite Ho.
Qed.

(** C16: a discovery round gives every address of the batch the route it asks
    for and leaves every other route as it was, as long as the map has room
    for the batch; the batch joins the queries, in order, exactly when the
    receiver of the channel still exists; and the round does not fail. *)
Theorem discovery_round_spec (s : DiscoveryState M R) (now : Z) :
  poisoned (d_bpf s) = false ->
  (length (drain_batch (route_mgr s) now).2 <= route_room (inner (d_bpf s)))%nat ->
  let '(rm', batch) := drain_batch (route_mgr s) now in
  exists m', discovery_round s now
    = (mkDiscoveryState rm' m'
         ((fun c => if rx_alive c then mkKadChannel true (queued c ++ batch) else c) <$> kad_queue s),
       Ok tt) /\
    poisoned m' = false /\
    (forall k, k ∉ batch -> route_of (inner m') k = route_of (inner (d_bpf s)) k) /\
    (forall k, k ∈ batch -> route_of (inner m') k = Some 1).
Proof.
  intros Hp Hm. unfold discovery_round. destruct (drain_batch (route_mgr s) now) as [rm' batch].
  destruct (discover_batch_routes batch (d_bpf s) (kad_queue s) Hp Hm) as (m' & -> & Hrest).
  exists m'. split; [|done]. do 2 f_equal. destruct (kad_queue s) as [c|]; [|done].
  cbn. by rewrite kad_send_all.
Qed.
End Discovery.

Lemma discovery_round_spec_witness :
  let s kad := mkDiscoveryState (mkRouteManager [7; 8; 7; 6] {[8 := 9000]})
      (mkMutex false (demo_manager {[6 := 3]})) (Some kad) in
  exists m', discovery_round (s (mkKadChannel true [5])) 100
    = (mkDiscoveryState (mkRouteManager [] {[6 := 5100; 7 := 5100; 8 := 9000]}) m'
         (Some (mkKadChannel true [5; 7; 6])), Ok tt) /\
    route_of (inner m') 6 = Some 1 /\ route_of (inner m') 7 = Some 1 /\ route_of (inner m') 8 = None.
Proof.
  intros s. destruct (discovery_round_spec (s (mkKadChannel true [5])) 100 eq_refl) as (m' & E & _ & Ho & Hi).
  { apply Nat.leb_le. vm_compute. reflexivity. }
  exists m'. split_and!; [etransitivity; [exact E|reflexivity]|apply Hi|apply Hi|apply Ho];
    refine (bool_decide_unpack _ _); vm_compute; exact I.
Defined.
