(* ===== verification/Vip.v ===== *)
(** * VIP health monitoring ([agent/src/vip.rs])

    [VipMonitor] with its table of backends, the probing rounds of
    [probe_loop] and the entry [update_bpf_vip] writes for the connect
    balancer of [Ebpf].  Whether a TCP connection to a backend succeeds is an
    input of each round. *)

From S2P Require Import Prelude RustStr NetAddr Common Kernel Ebpf BpfMgr Config.

(** ** State *)

Record BackendHealth := mkBackendHealth { bh_ip : Ipv4Addr; bh_port : Z; bh_alive : bool }.

(** [VipMonitor]: the map [backends]. *)
Definition VipMonitor : Type := gmap string (list BackendHealth).

Definition VipMonitor_new : VipMonitor := ∅.

(** ** Operations *)

Definition set_backends (mon : VipMonitor) (vip : string) (bs : list (Ipv4Addr * Z)) : VipMonitor :=
  <[vip := map (fun '(ip, port) => mkBackendHealth ip port true) bs]> mon.

Definition get_alive (mon : VipMonitor) (vip : string) : list Ipv4Addr :=
  default [] ((fun l => map bh_ip (List.filter bh_alive l)) <$> mon !! vip).

(** The closure of the [filter_map]: an address with an optional port. *)
Definition parse_backend (s : string) : option (Ipv4Addr * Z) :=
  match split_on colon s with
  | [] => None
  | p0 :: ps =>
      ip ← parse_ipv4 p0;
      Some (ip, default 80 (hd_error ps ≫= parse_uint u16_max))
  end.

(** The initialisation from the configuration. *)
Definition init_monitor (mon : VipMonitor) (cfgs : list VipBackendCfg) : VipMonitor :=
  foldl (fun mon vc => set_backends mon (vbc_vip vc) (omap parse_backend (vbc_backends vc))) mon cfgs.

(** [probe_backend]: [connect] is [TcpStream::connect] on the text of an
    address. *)
Definition probe_backend (connect : string -> outcome string unit) (ip : Ipv4Addr) (port : Z) : bool :=
  is_ok (connect (show_ipv4 ip +:+ ":" +:+ show_dec port)).

(** Whether a probe of some backend of [vip] differs from its recorded state. *)
Definition probe_changed (probe : Ipv4Addr -> Z -> bool) (mon : VipMonitor) (vip : string) : bool :=
  match mon !! vip with
  | Some l => existsb (fun b => negb (Bool.eqb (probe (bh_ip b) (bh_port b)) (bh_alive b))) l
  | None => false
  end.

(** The array assignments of [update_bpf_vip], from index [i]. *)
Fixpoint fill_backends (i : nat) (ips : list Ipv4Addr) (arr : list VipBackend) : list VipBackend :=
  match ips with
  | [] => arr
  | ip :: ips' => fill_backends (S i) ips' (<[i := mkVipBackend (ipv4_to_u32 ip) 0 1 0]> arr)
  end.

(** The entry built from the live backends; the first sixteen are used. *)
Definition vip_info_of (backends : list Ipv4Addr) : VipInfo :=
  mkVipInfo (fill_backends 0 (take 16 backends) (vi_backends VipInfo_default))
    (Z.of_nat (Nat.min (length backends) 16)) 0 (vi_pad VipInfo_default).

Section Probe.
Context {M : Type -> Type} {R : Type} `{KernelMap M}.

Definition update_bpf_vip (b : BpfManager M R) (vip_ip : Ipv4Addr) (backends : list Ipv4Addr)
    : BpfManager M R * outcome string unit :=
  match vip_map (maps b) with
  | Some m => let '(m', r) := kinsert m (ipv4_to_u32 vip_ip) (vip_info_of backends) in
              (set_vip_entries b m', map_result r)
  | None => (b, Ok tt)
  end.

(** The body of the loop over the VIPs. *)
Definition probe_vip (probe : Ipv4Addr -> Z -> bool) (mon : VipMonitor)
    (m : Mutex (BpfManager M R)) (vip : string) : Mutex (BpfManager M R) :=
  if probe_changed probe mon vip then
    match get_alive mon vip with
    | [] => m
    | alive =>
        match parse_ipv4 vip with
        | Some vip_ip =>
            if poisoned m then m else mkMutex false (update_bpf_vip (inner m) vip_ip alive).1
        | None => m
        end
    end
  else m.

(** A round of [probe_loop]: [vips] is the order in which the keys of the
    hash map are visited. *)
Definition probe_round (probe : Ipv4Addr -> Z -> bool) (vips : list string) (mon : VipMonitor)
    (m : Mutex (BpfManager M R)) : Mutex (BpfManager M R) :=
  foldl (probe_vip probe mon) m vips.

(** [probe_loop]: the initialisation, then one entry per tick with [stop]
    before and after it, the order of the keys and how connecting goes.  The
    monitor is only read. *)
Fixpoint probe_ticks (ticks : list (bool * bool * list string * (string -> outcome string unit)))
    (mon : VipMonitor) (m : Mutex (BpfManager M R)) : Mutex (BpfManager M R) :=
  match ticks with
  | [] => m
  | (stop, stop', vips, connect) :: ticks' =>
      if ((stop : bool) || (stop' : bool))%bool then m
      else probe_ticks ticks' mon (probe_round (probe_backend connect) vips mon m)
  end.

Definition probe_loop (c : AgentConfig) (mon : VipMonitor)
    (ticks : list (bool * bool * list string * (string -> outcome string unit)))
    (m : Mutex (BpfManager M R)) : VipMonitor * Mutex (BpfManager M R) :=
  let mon := init_monitor mon (vip_backends c) in (mon, probe_ticks ticks mon m).

End Probe.

(** ** The entry written *)

Lemma fill_backends_length (i : nat) (ips : list Ipv4Addr) (arr : list VipBackend) :
  length (fill_backends i ips arr) = length arr.
Proof.
  revert i arr. induction ips as [|ip ips IH]; intros i arr; cbn [fill_backends]; [done|].
  by rewrite IH, length_insert.
Qed.

Lemma fill_backends_lookup (ips : list Ipv4Addr) (i k : nat) (arr : list VipBackend) :
  (i + length ips <= length arr)%nat ->
  fill_backends i ips arr !! k
  = if (Nat.leb i k && Nat.ltb k (i + length ips))%bool
    then (fun ip => mkVipBackend (ipv4_to_u32 ip) 0 1 0) <$> ips !! (k - i)%nat
    else arr !! k.
Proof.
  revert i arr. induction ips as [|ip ips IH]; intros i arr Hl; cbn [fill_backends length] in *.
  { destruct (Nat.leb i k) eqn:E1, (Nat.ltb k (i + 0)) eqn:E2; cbn; bool_to_prop; [lia|done..]. }
  rewrite IH by (rewrite length_insert; lia).
  destruct (decide (k = i)) as [->|Hne].
  - replace (Nat.leb (S i) i) with false by (symmetry; apply Nat.leb_gt; lia).
    rewrite list_lookup_insert_eq by lia. rewrite Nat.leb_refl, Nat.sub_diag.
    by replace (Nat.ltb i (i + S (length ips))) with true by (symmetry; apply Nat.ltb_lt; lia).
  - rewrite list_lookup_insert_ne by done.
    destruct (Nat.leb (S i) k) eqn:E1, (Nat.leb i k) eqn:E2; bool_to_prop; cbn [andb]; try done; try lia.
    replace (Nat.ltb k (i + S (length ips))) with (Nat.ltb k (S i + length ips)) by (f_equal; lia).
    destruct (Nat.ltb k _); [|done]. by replace (k - i)%nat with (S (k - S i)) by lia.
Qed.

Lemma vip_info_ok (ips : list Ipv4Addr) : ips <> [] -> vip_ok (vip_info_of ips).
Proof.
  intros Hne. unfold vip_ok, vip_info_of. cbn [vi_backends vi_count vi_next_idx].
  rewrite fill_backends_length. destruct ips as [|ip ips]; [done|]. cbn [length].
  split; [done|]. split; [lia|]. done.
Qed.

(** Backend [i] of the entry is the address [i], and its port is zero. *)
Lemma vip_info_addr (ips : list Ipv4Addr) (i : nat) :
  (i < Nat.min (length ips) 16)%nat ->
  backend_addr (vip_info_of ips) i = (fun ip => mkSockAddr (ipv4_to_u32 ip) 0) <$> ips !! i.
Proof.
  intros Hi. unfold backend_addr, vip_info_of. cbn [vi_backends].
  rewrite fill_backends_lookup by (rewrite length_take; change (length (vi_backends VipInfo_default)) with 16%nat; lia).
  rewrite length_take, Nat.sub_0_r.
  replace (Nat.ltb i (0 + Nat.min 16 (length ips))) with true by (symmetry; apply Nat.ltb_lt; lia).
  cbn [Nat.leb andb]. rewrite lookup_take_lt by lia. by destruct (ips !! i).
Qed.

Lemma update_vip_lookup {M R} `{KernelMapLaws M} (b b' : BpfManager M R) (vip : Ipv4Addr)
    (ips : list Ipv4Addr) (m' : M VipInfo) :
  is_Some (vip_map (maps b)) -> update_bpf_vip b vip ips = (b', Ok tt) ->
  vip_map (maps b') = Some m' ->
  kget m' (ipv4_to_u32 vip) = Some (vip_info_of ips) /\
  (forall m k, vip_map (maps b) = Some m -> k <> ipv4_to_u32 vip -> kget m' k = kget m k).
Proof.
  intros [m Hm] E Hm'. unfold update_bpf_vip in E. rewrite Hm in E.
  destruct (kinsert m _ _) as [mm []] eqn:Ei; simplify_eq/=.
  apply kinsert_ok in Ei as [Hk Ho]. split; [done|].
  intros m2 k Hm2. rewrite Hm in Hm2. injection Hm2 as <-. apply Ho.
Qed.

(** ** Properties *)

(** The connections the entry written for a list of backends leads to: as
    many as there are backends (at most sixteen) go to them in order, to port
    zero. *)
Lemma vip_entry_connects {M R} `{KernelMapLaws M, KernelRing R}
    (s : BpfState M R) (ips : list Ipv4Addr) (c : SockAddr) :
  kget (VIP_MAP s) (user_ip c) = Some (vip_info_of ips) -> ips <> [] ->
  exists s', connects (length (take 16 ips)) s c
    = Ok (map (fun ip => (0, mkSockAddr (ipv4_to_u32 ip) 0)) (take 16 ips), s').
Proof.
  intros Hk Hne.
  destruct (connects_lookup (length (take 16 ips)) s c _ Hk (vip_info_ok ips Hne))
    as (cs & s' & Hr & Hl & Hj).
  exists s'. rewrite Hr. do 2 f_equal. apply list_eq. intros j.
  rewrite length_take in *.
  destruct (decide (j < Nat.min 16 (length ips))%nat) as [Hlt|Hge].
  - rewrite Hj by done. cbn [vi_next_idx vi_count vip_info_of]. rewrite Z.add_0_l.
    rewrite Z.mod_small, Nat2Z.id by lia. rewrite vip_info_addr by lia.
    rewrite list_lookup_fmap, lookup_take_lt by lia. by destruct (ips !! j).
  - rewrite (lookup_ge_None_2 cs) by lia. symmetry. apply lookup_ge_None_2.
    rewrite length_map, length_take. lia.
Qed.

(** An address as the kernel presents it to a program (its bytes in network
    order), and the address whose bytes are reversed. *)
Definition wire_ip (a : Ipv4Addr) : Z := from_le_bytes (octets a).
Definition reversed (a : Ipv4Addr) : Ipv4Addr := mkIpv4 (oct4 a) (oct3 a) (oct2 a) (oct1 a).

(** The integer of an address is how the kernel presents its reversal. *)
Lemma wire_reversed (a : Ipv4Addr) : wire_ip (reversed a) = ipv4_to_u32 a.
Proof. reflexivity. Qed.

(** C38: between the host order of the agent's keys and the network order in
    which the kernel presents a destination address, a VIP entry is found
    only when the address reads the same backwards: a connection to any
    other VIP is left alone. *)
Theorem vip_key_byte_order {M R} `{KernelMapLaws M, KernelRing R}
    (b b' : BpfManager M R) (s : BpfState M R) (vip : Ipv4Addr) (ips : list Ipv4Addr)
    (m : M VipInfo) (c : SockAddr) :
  vip_map (maps b) = Some m -> update_bpf_vip b vip ips = (b', Ok tt) ->
  vip_map (maps b') = Some (VIP_MAP s) ->
  user_ip c = from_le_bytes (octets vip) -> kget m (user_ip c) = None ->
  octets vip <> rev (octets vip) ->
  vip_load_balance s c = Ok (0, s, c).
Proof.
  intros Hm Hu Hs Hc Hnone Hpal.
  assert (user_ip c <> ipv4_to_u32 vip) as Hne.
  { rewrite Hc. unfold ipv4_to_u32, from_be_bytes. intros E. apply Hpal.
    pose proof (to_from_le_bytes (octets vip)) as Hle.
    pose proof (to_from_le_bytes (rev (octets vip))) as Hbe.
    change (length (octets vip)) with 4%nat in Hle.
    change (length (rev (octets vip))) with 4%nat in Hbe. congruence. }
  destruct (update_vip_lookup b b' vip ips _ ltac:(by eexists) Hu Hs) as [_ Ho].
  unfold vip_load_balance, try_vip. by rewrite (Ho m _ Hm Hne), Hnone.
Qed.

Lemma init_monitor_alive (cfgs : list VipBackendCfg) (mon : VipMonitor) (vip : string)
    (l : list BackendHealth) :
  (forall v l, mon !! v = Some l -> Forall (fun b => bh_alive b = true) l) ->
  init_monitor mon cfgs !! vip = Some l -> Forall (fun b => bh_alive b = true) l.
Proof.
  revert mon. induction cfgs as [|vc cfgs IH]; intros mon Hmon; cbn [init_monitor foldl]; [apply Hmon|].
  apply IH. intros v l'. unfold set_backends.
  destruct (decide (v = vbc_vip vc)) as [->|Hne].
  - intros E. assert (Some l' = Some (map (fun '(ip, port) => mkBackendHealth ip port true)
      (omap parse_backend (vbc_backends vc)))) as [= ->] by (rewrite <- E; apply lookup_insert_eq).
    apply Forall_map, Forall_forall. by intros [ip port].
  - intros E. apply (Hmon v). rewrite <- E. symmetry. by apply lookup_insert_ne.
Qed.

(** Probing never marks a backend dead: when a probe of a configured VIP
    finds dead backends, the entry written still lists every configured
    backend. *)
Lemma dead_backends_kept {M R} `{KernelMap M} (cfgs : list VipBackendCfg)
    (probe : Ipv4Addr -> Z -> bool) (m : Mutex (BpfManager M R)) (vip : string) (vip_ip : Ipv4Addr)
    (l : list BackendHealth) (dead : BackendHealth) :
  init_monitor VipMonitor_new cfgs !! vip = Some l -> parse_ipv4 vip = Some vip_ip ->
  poisoned m = false -> dead ∈ l -> probe (bh_ip dead) (bh_port dead) = false ->
  probe_vip probe (init_monitor VipMonitor_new cfgs) m vip
  = mkMutex false (update_bpf_vip (inner m) vip_ip (map bh_ip l)).1 /\
  bh_ip dead ∈ map bh_ip l.
Proof.
  intros Hl Hip Hp Hdead Hprobe.
  pose proof (init_monitor_alive cfgs VipMonitor_new vip l ltac:(by intros ? ? [=]) Hl) as Hall.
  assert (List.filter bh_alive l = l) as Hf.
  { clear -Hall. induction Hall as [|b l Hb _ IH]; [done|]. cbn [List.filter]. by rewrite Hb, IH. }
  assert (bh_ip dead ∈ map bh_ip l) as Hin by (by apply list_elem_of_fmap_2).
  split; [|done]. unfold probe_vip, probe_changed, get_alive. rewrite Hl.
  assert (existsb (fun b => negb (Bool.eqb (probe (bh_ip b) (bh_port b)) (bh_alive b))) l = true) as ->.
  { apply existsb_exists. exists dead. split; [by apply list_elem_of_In|].
    rewrite Hprobe. rewrite Forall_forall in Hall. by rewrite Hall. }
  cbn [fmap option_fmap option_map from_option id default]. rewrite Hf, Hip, Hp.
  destruct (map bh_ip l) eqn:E; [by apply not_elem_of_nil in Hin|done].
Qed.

(** C23: what the prober and the balancer do together: when a probe finds a
    backend of a configured VIP dead, the next connections to the address
    whose bytes are those of the VIP reversed are rewritten, in turn, to the
    reversed addresses of all the configured backends (the dead one among
    them, at most sixteen), to port zero, with the verdict 0. *)
Theorem probed_vip_balances {M R} `{KernelMapLaws M, KernelRing R} (cfgs : list VipBackendCfg)
    (probe : Ipv4Addr -> Z -> bool) (m : Mutex (BpfManager M R)) (mv : M VipInfo) (vip : string)
    (vip_ip : Ipv4Addr) (l : list BackendHealth) (dead : BackendHealth) (s : BpfState M R)
    (c : SockAddr) :
  init_monitor VipMonitor_new cfgs !! vip = Some l -> parse_ipv4 vip = Some vip_ip ->
  poisoned m = false -> dead ∈ l -> probe (bh_ip dead) (bh_port dead) = false ->
  vip_map (maps (inner m)) = Some mv -> (0 < kroom mv)%nat ->
  vip_map (maps (inner (probe_vip probe (init_monitor VipMonitor_new cfgs) m vip))) = Some (VIP_MAP s) ->
  user_ip c = wire_ip (reversed vip_ip) ->
  exists s', connects (length (take 16 l)) s c
    = Ok (map (fun b => (0, mkSockAddr (wire_ip (reversed (bh_ip b))) 0)) (take 16 l), s').
Proof.
  intros Hl Hip Hp Hdead Hprobe Hmv Hroom Hs Hc.
  destruct (dead_backends_kept cfgs probe m vip vip_ip l dead Hl Hip Hp Hdead Hprobe) as [E Hin].
  rewrite E in Hs. cbn [inner] in Hs.
  pose proof (kinsert_room mv (ipv4_to_u32 vip_ip) (vip_info_of (map bh_ip l)) Hroom) as Hok.
  unfold update_bpf_vip in Hs. rewrite Hmv in Hs.
  destruct (kinsert mv _ _) as [mv' r] eqn:Ei. cbn in Hok. subst r. cbn in Hs. injection Hs as ->.
  apply kinsert_ok in Ei as [Hk _].
  destruct (vip_entry_connects s (map bh_ip l) c) as [s' Hcon].
  { by rewrite Hc, wire_reversed. }
  { intros En. rewrite En in Hin. by apply not_elem_of_nil in Hin. }
  exists s'. rewrite firstn_map, List.map_map, length_map in Hcon. exact Hcon.
Qed.

(** With a manager as [load] makes it, monitoring never writes a VIP
    entry, whatever the configuration and the probes. *)
Theorem loaded_manager_no_vip {M R} `{KernelMap M}
    (load_file : string -> outcome string (Bpf M R)) (b : BpfManager M R) (p : bool)
    (c : AgentConfig) (mon : VipMonitor)
    (ticks : list (bool * bool * list string * (string -> outcome string unit))) :
  BpfMgr.load load_file = Ok b ->
  (probe_loop c mon ticks (mkMutex p b)).2 = mkMutex p b.
Proof.
  intros Hload. assert (vip_map (maps b) = None) as Hnone.
  { unfold BpfMgr.load in Hload. destruct (load_file "bin/mesh.bpf.o"); simplify_eq/=. done. }
  assert (forall probe mon vip, probe_vip probe mon (mkMutex p b) vip = mkMutex p b) as Hv.
  { intros probe mn vip. unfold probe_vip, update_bpf_vip. cbn [inner poisoned]. rewrite Hnone.
    destruct (probe_changed _ _ _); [|done]. destruct (get_alive _ _); [done|].
    destruct (parse_ipv4 vip); [|done]. by destruct p. }
  assert (forall probe vips mon, probe_round probe vips mon (mkMutex p b) = mkMutex p b) as Hr.
  { intros probe vips mn. unfold probe_round. induction vips as [|v vips IH]; [done|].
    cbn [foldl]. by rewrite Hv. }
  unfold probe_loop. cbn [snd]. generalize (init_monitor mon (vip_backends c)).
  induction ticks as [|[[[st st'] vips] probe] ticks IH]; intros mn; cbn [probe_ticks]; [done|].
  destruct (_ || _); [done|]. by rewrite Hr.
Qed.

(** ** Witnesses *)

(** A manager that has a VIP map. *)
Definition demo_vip_manager (vips : gmap Z VipInfo) : BpfManager bmap ring :=
  set_vip_entries (demo_manager ∅) (mkBmap 64 vips).

Definition demo_vip_ip : Ipv4Addr := ipv4_new 10 96 0 1.
Definition demo_backends : list Ipv4Addr := [ipv4_new 10 244 0 5; ipv4_new 10 244 0 6].

Lemma vip_key_byte_order_witness :
  vip_load_balance (demo_state 1 {[ipv4_to_u32 demo_vip_ip := vip_info_of demo_backends]})
    (mkSockAddr (from_le_bytes (octets demo_vip_ip)) 80)
  = Ok (0, demo_state 1 {[ipv4_to_u32 demo_vip_ip := vip_info_of demo_backends]},
        mkSockAddr (from_le_bytes (octets demo_vip_ip)) 80).
Proof.
  apply (vip_key_byte_order (demo_vip_manager ∅)
    (demo_vip_manager {[ipv4_to_u32 demo_vip_ip := vip_info_of demo_backends]})
    (demo_state 1 {[ipv4_to_u32 demo_vip_ip := vip_info_of demo_backends]})
    demo_vip_ip demo_backends (mkBmap 64 ∅)); try (vm_compute; reflexivity).
  vm_compute. discriminate.
Defined.

Definition demo_vip_cfg : list VipBackendCfg :=
  [mkVipBackendCfg "10.96.0.1" ["10.244.0.5:80"; "10.244.0.6"]].

(** The first backend is down; the VIP is 10.96.0.1, the destination of the
    connections 1.0.96.10, and the first goes to 5.0.244.10. *)
Lemma probed_vip_balances_witness :
  exists s', connects 2 (demo_state 1 {[ipv4_to_u32 demo_vip_ip := vip_info_of demo_backends]})
      (mkSockAddr (wire_ip (ipv4_new 1 0 96 10)) 80)
    = Ok ([(0, mkSockAddr (wire_ip (ipv4_new 5 0 244 10)) 0);
           (0, mkSockAddr (wire_ip (ipv4_new 6 0 244 10)) 0)], s').
Proof.
  apply (probed_vip_balances demo_vip_cfg (fun ip _ => negb (bool_decide (ip = ipv4_new 10 244 0 5)))
    (mkMutex false (demo_vip_manager ∅)) (mkBmap 64 ∅) "10.96.0.1" demo_vip_ip
    [mkBackendHealth (ipv4_new 10 244 0 5) 80 true; mkBackendHealth (ipv4_new 10 244 0 6) 80 true]
    (mkBackendHealth (ipv4_new 10 244 0 5) 80 true)); try (vm_compute; reflexivity); [by left|].
  apply Nat.ltb_lt. vm_compute. reflexivity.
Defined.

Lemma loaded_manager_no_vip_witness :
  (probe_loop AgentConfig_default VipMonitor_new [(false, false, ["10.96.0.1"], fun _ => Err "refused")]
     (mkMutex false (mkBpfManager (mesh (demo_manager ∅)) None None
        (mkBpfMaps None None None None None None None) false None))).2
  = mkMutex false (mkBpfManager (mesh (demo_manager ∅)) None None
        (mkBpfMaps None None None None None None None) false None).
Proof.
  apply (loaded_manager_no_vip
    (fun f => if String.eqb f "bin/mesh.bpf.o" then Ok (mesh (demo_manager ∅)) else Err "none")).
  reflexivity.
Defined.
