(* ===== verification/VipRace.v ===== *)
(** * The prober and the balancer at the same VIP entry

    The agent rewrites a VIP entry ([update_bpf_vip] of [agent/src/vip.rs])
    while connections are being balanced ([try_vip] of [ebpf/src/main.rs]) on
    other CPUs.  [VIP_MAP.get] gives the program a pointer into the map, and
    every use of [vip_info] is a read through it: the element may have been
    replaced meanwhile, and its memory given to another.  Here each such read
    is a step of its own and returns the field of any entry that was ever
    stored, and the copy [*vip_info] may take each field from another entry.
    Connections to several addresses run at the same time. *)

From S2P Require Import Prelude RustStr NetAddr Common Kernel Ebpf BpfMgr Config Vip.

(** ** Steps of a connection *)

(** Where a connection to the address [ip] is in [try_vip]; the address it is
    sent to so far, and [Panicked] when a division by zero or an index out of
    range would have been reached. *)
Inductive conn_phase :=
| Begin (ip : Z)
| Found (ip : Z)
| Counted (ip : Z)
| NextRead (ip n : Z)
| Chosen (ip idx : Z)
| IpSet (ip idx a : Z)
| PortSet (ip idx : Z) (c : SockAddr)
| NextChosen (ip next : Z) (c : SockAddr)
| Copying (ip next : Z) (c : SockAddr)
| Copied (ip : Z) (info : VipInfo) (c : SockAddr)
| Finished (c : option SockAddr)
| Panicked.

(** The reads, each from an entry [v] through the pointer: [count > 0],
    [next_idx], [count] for the index, the address and the port of the backend,
    [count] for the next index, and [next_idx] to compare it with. *)
Definition conn_read (v : VipInfo) (p : conn_phase) : option conn_phase :=
  match p with
  | Found ip => Some (if 0 <? vi_count v then Counted ip else Finished None)
  | Counted ip => Some (NextRead ip (vi_next_idx v))
  | NextRead ip n =>
      Some (if vi_count v =? 0 then Panicked else Chosen ip (n mod vi_count v))
  | Chosen ip idx =>
      Some (match vi_backends v !! Z.to_nat idx with
            | Some b => IpSet ip idx (vb_ip b)
            | None => Panicked
            end)
  | IpSet ip idx a =>
      Some (match vi_backends v !! Z.to_nat idx with
            | Some b => PortSet ip idx (mkSockAddr a (u16_from_be (vb_port b)))
            | None => Panicked
            end)
  | PortSet ip idx c =>
      Some (if vi_count v =? 0 then Panicked
            else NextChosen ip (wrap8 ((idx + 1) mod vi_count v)) c)
  | NextChosen ip next c =>
      Some (if next =? vi_next_idx v then Finished (Some c) else Copying ip next c)
  | _ => None
  end.

(** [info] has every field from some entry of [H]. *)
Definition slot_of (H : list VipInfo) (f : VipBackend -> Z) (i : nat) (x : Z) : Prop :=
  exists w b, w ∈ H /\ vi_backends w !! i = Some b /\ f b = x.

Definition mixture (H : list VipInfo) (info : VipInfo) : Prop :=
  length (vi_backends info) = 16%nat /\
  (forall i b, vi_backends info !! i = Some b ->
     slot_of H vb_ip i (vb_ip b) /\ slot_of H vb_port i (vb_port b)) /\
  (exists w, w ∈ H /\ vi_count info = vi_count w).

Section Steps.
Context {M : Type -> Type} {R : Type} `{KernelMap M}.

(** The manager that has the map, the entries ever stored in it, and the
    connections. *)
Record RaceState := mkRaceState {
  rs_mgr : BpfManager M R;
  rs_stored : list VipInfo;
  rs_conns : list conn_phase
}.

(** A connection looks its entry up, reads a field of it, copies it or writes
    the copy back with the next index; or the agent writes one of the VIPs
    and lists of backends in [W] (never an empty one: [probe_loop] does not). *)
Inductive race_step (W : list (Ipv4Addr * list Ipv4Addr)) : RaceState -> RaceState -> Prop :=
| race_lookup b m H ts i ip :
    vip_map (maps b) = Some m -> ts !! i = Some (Begin ip) ->
    race_step W (mkRaceState b H ts)
      (mkRaceState b H (<[i := if bool_decide (is_Some (kget m ip)) then Found ip else Finished None]> ts))
| race_read b H ts i p p' v :
    ts !! i = Some p -> v ∈ H -> conn_read v p = Some p' ->
    race_step W (mkRaceState b H ts) (mkRaceState b H (<[i := p']> ts))
| race_copy b H ts i ip next c info :
    ts !! i = Some (Copying ip next c) -> mixture H info ->
    race_step W (mkRaceState b H ts)
      (mkRaceState b H (<[i := Copied ip (with_next_idx info next) c]> ts))
| race_insert b m H ts i ip info c :
    vip_map (maps b) = Some m -> ts !! i = Some (Copied ip info c) ->
    race_step W (mkRaceState b H ts)
      (mkRaceState (set_vip_entries b (kinsert m ip info).1) (info :: H) (<[i := Finished (Some c)]> ts))
| race_agent b H ts vip ips :
    (vip, ips) ∈ W -> ips <> [] ->
    race_step W (mkRaceState b H ts)
      (mkRaceState (update_bpf_vip b vip ips).1 (vip_info_of ips :: H) ts).

(** What was written as an entry: what was there first, and what the agent
    writes. *)
Definition written (H0 : list VipInfo) (W : list (Ipv4Addr * list Ipv4Addr)) : list VipInfo :=
  H0 ++ map (fun vi => vip_info_of vi.2) (List.filter (fun vi => negb (bool_decide (vi.2 = []))) W).

End Steps.
Arguments RaceState : clear implicits.
Arguments mkRaceState {M R}.
Arguments rs_mgr {M R}.
Arguments rs_stored {M R}.
Arguments rs_conns {M R}.

(** ** Mixtures *)

Lemma mixture_elem (H : list VipInfo) (v : VipInfo) :
  v ∈ H -> length (vi_backends v) = 16%nat -> mixture H v.
Proof.
  intros Hv Hl. split_and!; [done| |by exists v].
  intros i b Hb. split; by exists v, b.
Qed.

Lemma mixture_next (H : list VipInfo) (v : VipInfo) (n : Z) : mixture H v -> mixture H (with_next_idx v n).
Proof. done. Qed.

(** A mixture of mixtures is one. *)
Lemma mixture_trans (H H' : list VipInfo) (v : VipInfo) :
  (forall w, w ∈ H -> mixture H' w) -> mixture H v -> mixture H' v.
Proof.
  intros HH (Hl & Hs & w & Hw & Hc). split_and!; [done| |].
  - intros i b Hb. destruct (Hs i b Hb) as [(w1 & b1 & Hw1 & Hb1 & E1) (w2 & b2 & Hw2 & Hb2 & E2)].
    destruct (HH w1 Hw1) as (_ & Hs1 & _), (HH w2 Hw2) as (_ & Hs2 & _).
    rewrite <- E1, <- E2. split; [by apply (Hs1 i b1)|by apply (Hs2 i b2)].
  - destruct (HH w Hw) as (_ & _ & w' & Hw' & Hc'). exists w'. split; [done|congruence].
Qed.

Section Facts.
Context {M : Type -> Type} {R : Type} `{KernelMapLaws M}.
Context (A : list VipInfo) (Hok : Forall vip_ok A).

(** What is known of a connection: its index is below the count of an entry
    of [A], and what it took comes from that slot of entries of [A]. *)
Definition idx_ok_in (idx : Z) : Prop := exists w, w ∈ A /\ 0 <= idx < vi_count w.

Definition addr_in (idx : Z) (c : SockAddr) : Prop :=
  idx_ok_in idx /\ slot_of A vb_ip (Z.to_nat idx) (user_ip c) /\
  exists port, slot_of A vb_port (Z.to_nat idx) port /\ user_port c = u16_from_be port.

Definition phase_inv (p : conn_phase) : Prop :=
  match p with
  | Begin _ | Found _ | Counted _ => True
  | NextRead _ n => 0 <= n
  | Chosen _ idx => idx_ok_in idx
  | IpSet _ idx a => idx_ok_in idx /\ slot_of A vb_ip (Z.to_nat idx) a
  | PortSet _ idx c => addr_in idx c
  | NextChosen _ next c | Copying _ next c => 0 <= next <= u8_max /\ exists idx, addr_in idx c
  | Copied _ info c => mixture A info /\ 0 <= vi_next_idx info <= u8_max /\ exists idx, addr_in idx c
  | Finished None => True
  | Finished (Some c) => exists idx, addr_in idx c
  | Panicked => False
  end.

(** A stored entry: a mixture of entries of [A] with a byte for an index. *)
Definition entry_inv (v : VipInfo) : Prop := mixture A v /\ 0 <= vi_next_idx v <= u8_max.

Definition race_inv (st : RaceState M R) : Prop :=
  (forall m k v, vip_map (maps (rs_mgr st)) = Some m -> kget m k = Some v -> entry_inv v) /\
  Forall entry_inv (rs_stored st) /\ Forall phase_inv (rs_conns st).

Lemma entry_count (v : VipInfo) : entry_inv v -> 1 <= vi_count v <= 16.
Proof.
  intros [(_ & _ & w & Hw & ->) _]. rewrite Forall_forall in Hok. by destruct (Hok w Hw) as (_ & ? & _).
Qed.

(** A slot below a count is there in every entry. *)
Lemma entry_slot (v : VipInfo) (idx : Z) :
  entry_inv v -> idx_ok_in idx -> is_Some (vi_backends v !! Z.to_nat idx).
Proof.
  intros [(Hl & _) _] (w & Hw & Hi). apply lookup_lt_is_Some_2.
  rewrite Forall_forall in Hok. destruct (Hok w Hw) as (_ & Hc & _). lia.
Qed.

(** No read panics, and what is read comes from an entry of [A]. *)
Lemma conn_read_inv (v : VipInfo) (p p' : conn_phase) :
  entry_inv v -> phase_inv p -> conn_read v p = Some p' -> phase_inv p'.
Proof.
  intros Hv Hp E. pose proof (entry_count v Hv) as Hc. pose proof Hv as [(_ & Hs & w & Hw & Hcw) Hn].
  destruct p as [|ip|ip|ip n|ip idx|ip idx a|ip idx c|ip next c| | | |]; try done;
    cbn [conn_read] in E; injection E as <-.
  - by destruct (0 <? vi_count v).
  - cbn. lia.
  - destruct (vi_count v =? 0) eqn:E0; bool_to_prop; [lia|]. exists w. split; [done|].
    rewrite <- Hcw. apply Z.mod_pos_bound. lia.
  - destruct (entry_slot v idx Hv Hp) as [b Hb]. rewrite Hb. split; [done|]. by apply (Hs _ b).
  - destruct Hp as [Hi Ha]. destruct (entry_slot v idx Hv Hi) as [b Hb]. rewrite Hb.
    split_and!; [done|done|]. exists (vb_port b). split; [by apply (Hs _ b)|done].
  - destruct (vi_count v =? 0) eqn:E0; bool_to_prop; [lia|]. split; [|by exists idx].
    unfold wrap8, u8_max. pose proof (Z.mod_pos_bound ((idx + 1) mod vi_count v) (2 ^ 8) ltac:(lia)). lia.
  - destruct Hp as [Hnx Ha]. destruct (next =? vi_next_idx v); [exact Ha|by split].
Qed.

Lemma race_inv_step (W : list (Ipv4Addr * list Ipv4Addr)) (st st' : RaceState M R) :
  (forall vip ips, (vip, ips) ∈ W -> ips <> [] -> vip_info_of ips ∈ A) ->
  race_inv st -> race_step W st st' -> race_inv st'.
Proof.
  intros HW (Hm & HH & Hts) Hs.
  assert (forall v, entry_inv v -> Forall entry_inv (v :: rs_stored st)) as Hstore by (by constructor).
  destruct Hs as [b m H1 ts i ip Em Hi|b H1 ts i p p' v Hi Hv E|b H1 ts i ip next c info Hi Hmix
    |b m H1 ts i ip info c Em Hi|b H1 ts vip ips Hin Hne];
    unfold race_inv; cbn [rs_mgr rs_stored rs_conns] in *; try rewrite Forall_lookup in Hts.
  - split_and!; [done..|]. apply Forall_insert; [by apply Forall_lookup|]. by destruct (bool_decide _).
  - split_and!; [done..|]. apply Forall_insert; [by apply Forall_lookup|].
    eapply conn_read_inv; [|exact (Hts i _ Hi)|exact E]. rewrite Forall_forall in HH. by apply HH.
  - split_and!; [done..|]. apply Forall_insert; [by apply Forall_lookup|].
    destruct (Hts i _ Hi) as [Hn Ha]. split; [|by split].
    apply mixture_next. eapply mixture_trans; [|exact Hmix]. intros w Hw. rewrite Forall_forall in HH.
    by apply HH.
  - destruct (Hts i _ Hi) as (Hmix & Hn & Ha). split_and!.
    + intros m' k v [= <-] Hk. destruct (kinsert m ip info) as [m1 []] eqn:Ei; cbn [fst] in Hk.
      * apply kinsert_ok in Ei as [E1 E2]. destruct (decide (k = ip)) as [->|Hne].
        { rewrite E1 in Hk. by injection Hk as <-. }
        rewrite E2 in Hk by done. by apply (Hm m k).
      * rewrite (kinsert_err _ _ _ _ Ei) in Hk. by apply (Hm m k).
    + by apply Hstore.
    + apply Forall_insert; [by apply Forall_lookup|done].
  - assert (entry_inv (vip_info_of ips)) as Hnew.
    { destruct (vip_info_ok ips Hne) as (Hl & _ & Hn). split; [|done]. apply mixture_elem; [by eapply HW|done]. }
    split_and!; [|by apply Hstore|by apply Forall_lookup].
    intros m' k v Em Hk. unfold update_bpf_vip in Em. destruct (vip_map (maps b)) as [m|] eqn:Ev;
      [|cbn in Em; congruence].
    destruct (kinsert m _ _) as [m1 []] eqn:Ei; cbn in Em; injection Em as <-.
    + apply kinsert_ok in Ei as [E1 E2]. destruct (decide (k = ipv4_to_u32 vip)) as [->|Hk'].
      { rewrite E1 in Hk. by injection Hk as <-. }
      rewrite E2 in Hk by done. by apply (Hm m k).
    + rewrite (kinsert_err _ _ _ _ Ei) in Hk. by apply (Hm m k).
Qed.

Lemma race_inv_rtc (W : list (Ipv4Addr * list Ipv4Addr)) (st st' : RaceState M R) :
  (forall vip ips, (vip, ips) ∈ W -> ips <> [] -> vip_info_of ips ∈ A) ->
  race_inv st -> rtc (race_step W) st st' -> race_inv st'.
Proof. intros HW Hst Hr. induction Hr; eauto using race_inv_step. Qed.
End Facts.

(** ** A connection alone *)

Section Alone.
Context {M : Type -> Type} {R : Type} `{KernelMap M} (W : list (Ipv4Addr * list Ipv4Addr)).

(** A read when [v] is the only entry there ever was. *)
Lemma read_one (b : BpfManager M R) (v : VipInfo) (p p' : conn_phase) :
  conn_read v p = Some p' -> race_step W (mkRaceState b [v] [p]) (mkRaceState b [v] [p']).
Proof. intros Hp. apply (race_read W b [v] [p] 0 p p' v eq_refl); [by left|done]. Qed.

(** The reads up to the next index. *)
Lemma race_reads (b : BpfManager M R) (m : M VipInfo) (ip : Z) (v : VipInfo) (be : VipBackend) :
  let idx := vi_next_idx v mod vi_count v in
  vip_map (maps b) = Some m -> kget m ip = Some v -> 0 < vi_count v ->
  vi_backends v !! Z.to_nat idx = Some be ->
  rtc (race_step W) (mkRaceState b [v] [Begin ip])
    (mkRaceState b [v] [NextChosen ip (wrap8 ((idx + 1) mod vi_count v))
                          (mkSockAddr (vb_ip be) (u16_from_be (vb_port be)))]).
Proof.
  intros idx Hb Hv Hc Eb. assert (vi_count v <> 0) as Hz by lia.
  set (c := mkSockAddr (vb_ip be) (u16_from_be (vb_port be))).
  pose proof (race_lookup W b m [v] [Begin ip] 0 ip Hb eq_refl) as Hl.
  rewrite bool_decide_eq_true_2 in Hl by (by rewrite Hv).
  eapply rtc_l; [exact Hl|].
  eapply rtc_l; [apply (read_one b v _ (Counted ip)); cbn; by rewrite (proj2 (Z.ltb_lt _ _) Hc)|].
  eapply rtc_l; [apply read_one; reflexivity|].
  eapply rtc_l; [apply (read_one b v _ (Chosen ip idx)); cbn; by rewrite (proj2 (Z.eqb_neq _ _) Hz)|].
  eapply rtc_l; [apply (read_one b v _ (IpSet ip idx (vb_ip be))); cbn; by rewrite Eb|].
  eapply rtc_l; [apply (read_one b v _ (PortSet ip idx c)); cbn; by rewrite Eb|].
  apply rtc_once, read_one. cbn. by rewrite (proj2 (Z.eqb_neq _ _) Hz).
Qed.

(** From there to the copy of the entry. *)
Lemma race_copies (b : BpfManager M R) (ip next : Z) (v : VipInfo) (c : SockAddr) :
  length (vi_backends v) = 16%nat -> next <> vi_next_idx v ->
  rtc (race_step W) (mkRaceState b [v] [NextChosen ip next c])
    (mkRaceState b [v] [Copied ip (with_next_idx v next) c]).
Proof.
  intros Hl Hn. eapply rtc_l.
  - apply (read_one b v _ (Copying ip next c)). cbn. by rewrite (proj2 (Z.eqb_neq _ _) Hn).
  - apply rtc_once, (race_copy W b [v] [_] 0 ip next c v eq_refl), mixture_elem; [by left|done].
Qed.

(** A connection that runs alone does what [vip_load_balance] does. *)
Lemma race_alone `{KernelRing R} (b : BpfManager M R) (s s' : BpfState M R) (c c' : SockAddr) (v : VipInfo) :
  vip_map (maps b) = Some (VIP_MAP s) -> kget (VIP_MAP s) (user_ip c) = Some v ->
  vip_ok v -> vip_load_balance s c = Ok (0, s', c') ->
  exists b' H', rtc (race_step W) (mkRaceState b [v] [Begin (user_ip c)])
                  (mkRaceState b' H' [Finished (Some c')]) /\
    vip_map (maps b') = Some (VIP_MAP s').
Proof.
  intros Hb Hv (Hlen & Hc & Hn) E. unfold vip_load_balance, try_vip in E. rewrite Hv in E.
  destruct (0 <? vi_count v) eqn:E0; bool_to_prop; [|lia]. cbv zeta in E. unfold Prelude.idx in E.
  destruct (vi_backends v !! _) as [be|] eqn:Eb; cbn [mbind outcome_bind] in E; [|done].
  pose proof (race_reads b _ _ v be Hb Hv E0 Eb) as Hpre. cbv zeta in Hpre.
  set (next := wrap8 _) in *. set (sa := mkSockAddr (vb_ip be) _) in *.
  destruct (next =? vi_next_idx v) eqn:En; cbn [negb] in E.
  - injection E as <- <-. exists b, [v]. split; [|done].
    eapply rtc_r; [exact Hpre|]. apply read_one. cbn. by rewrite En.
  - destruct (kinsert _ _ _) as [m1 ?] eqn:Ei. injection E as <- <-. apply Z.eqb_neq in En.
    exists (set_vip_entries b m1), [with_next_idx v next; v]. split; [|done].
    eapply rtc_r; [etrans; [exact Hpre|by apply race_copies]|].
    pose proof (race_insert W b (VIP_MAP s) [v] [Copied (user_ip c) (with_next_idx v next) sa] 0
      _ _ _ Hb eq_refl) as Hins. rewrite Ei in Hins. exact Hins.
Qed.
End Alone.

(** ** Properties *)

(** C17: however connections interleave with each other and with rewrites of
    the entries by the agent, and whatever a read through the pointer finds
    there, no connection reaches a division by zero or an index out of range;
    every entry is made of the fields of entries that were written (with a
    count of 1 to 16); and every connection that is rewritten goes to the
    address and the port of one slot of written entries, the slot being below
    the count of one. *)
Theorem vip_reads_safe {M R} `{KernelMapLaws M} (b : BpfManager M R) (m : M VipInfo)
    (V0 : list VipInfo) (W : list (Ipv4Addr * list Ipv4Addr)) (ips : list Z) (st : RaceState M R) :
  let A := written V0 W in
  vip_map (maps b) = Some m -> (forall k v, kget m k = Some v -> v ∈ V0) -> Forall vip_ok V0 ->
  rtc (race_step W) (mkRaceState b V0 (Begin <$> ips)) st ->
  (forall i, rs_conns st !! i <> Some Panicked) /\
  (forall m' k v, vip_map (maps (rs_mgr st)) = Some m' -> kget m' k = Some v ->
     mixture A v /\ 1 <= vi_count v <= 16 /\ 0 <= vi_next_idx v <= u8_max) /\
  (forall i c, rs_conns st !! i = Some (Finished (Some c)) ->
     exists idx w port, w ∈ A /\ 0 <= idx < vi_count w /\
       slot_of A vb_ip (Z.to_nat idx) (user_ip c) /\
       slot_of A vb_port (Z.to_nat idx) port /\ user_port c = u16_from_be port).
Proof.
  intros A Hb Hm Hok Hr.
  assert (forall vip l, (vip, l) ∈ W -> l <> [] -> vip_info_of l ∈ A) as HW.
  { intros vip l Hin Hne. apply elem_of_app. right. apply list_elem_of_In, List.in_map_iff.
    exists (vip, l). split; [done|]. apply List.filter_In. split; [by apply list_elem_of_In|].
    by rewrite bool_decide_eq_false_2. }
  assert (Forall vip_ok A) as HA.
  { apply Forall_app. split; [done|]. apply Forall_map, Forall_forall. intros [vip l] Hin.
    apply list_elem_of_In, List.filter_In in Hin as [_ Hne]. apply vip_info_ok.
    intros E. cbn in E, Hne. by rewrite E in Hne. }
  assert (forall v, v ∈ V0 -> entry_inv A v) as Hent.
  { intros v Hv. rewrite Forall_forall in Hok. destruct (Hok v Hv) as (Hl & _ & Hn).
    split; [|done]. apply mixture_elem; [apply elem_of_app; by left|done]. }
  assert (race_inv A (mkRaceState b V0 (Begin <$> ips))) as Hinit.
  { split_and!; cbn [rs_mgr rs_stored rs_conns].
    - intros m1 k v Em Hk. rewrite Hb in Em. injection Em as <-. eauto.
    - by apply Forall_forall.
    - apply Forall_fmap, Forall_forall. done. }
  destruct (race_inv_rtc A HA W _ _ HW Hinit Hr) as (Hme & _ & Hts). rewrite Forall_lookup in Hts.
  split_and!.
  - intros i Hi. exact (Hts i _ Hi).
  - intros m' k v Em Hk. pose proof (Hme m' k v Em Hk) as Hv. pose proof (entry_count A HA v Hv).
    by destruct Hv.
  - intros i c Hi. destruct (Hts i _ Hi) as (idx & (w & Hw & Hidx) & Hip & port & Hport & E).
    by exists idx, w, port.
Qed.




(** ** Witnesses *)

(** Runs as lists of actions: of connection [i], with the number of the
    stored entry it reads, or of the agent. *)
Inductive race_act :=
| ActLookup (i : nat)
| ActRead (i k : nat)
| ActCopy (i k : nat)
| ActInsert (i : nat)
| ActAgent (vip : Ipv4Addr) (ips : list Ipv4Addr).

Section Runs.
Context {M : Type -> Type} {R : Type} `{KernelMap M}.

Definition race_exec (W : list (Ipv4Addr * list Ipv4Addr)) (st : RaceState M R) (a : race_act)
    : option (RaceState M R) :=
  let '(mkRaceState b H ts) := st in
  match a with
  | ActLookup i =>
      match vip_map (maps b), ts !! i with
      | Some m, Some (Begin ip) =>
          Some (mkRaceState b H
            (<[i := if bool_decide (is_Some (kget m ip)) then Found ip else Finished None]> ts))
      | _, _ => None
      end
  | ActRead i k =>
      p ← ts !! i; v ← H !! k; p' ← conn_read v p; Some (mkRaceState b H (<[i := p']> ts))
  | ActCopy i k =>
      match ts !! i, H !! k with
      | Some (Copying ip next c), Some v =>
          if decide (length (vi_backends v) = 16%nat)
          then Some (mkRaceState b H (<[i := Copied ip (with_next_idx v next) c]> ts)) else None
      | _, _ => None
      end
  | ActInsert i =>
      match vip_map (maps b), ts !! i with
      | Some m, Some (Copied ip info c) =>
          Some (mkRaceState (set_vip_entries b (kinsert m ip info).1) (info :: H)
                  (<[i := Finished (Some c)]> ts))
      | _, _ => None
      end
  | ActAgent vip ips =>
      if decide ((vip, ips) ∈ W /\ ips <> [])
      then Some (mkRaceState (update_bpf_vip b vip ips).1 (vip_info_of ips :: H) ts) else None
  end.

Lemma race_exec_step (W : list (Ipv4Addr * list Ipv4Addr)) (st st' : RaceState M R) (a : race_act) :
  race_exec W st a = Some st' -> race_step W st st'.
Proof.
  destruct st as [b H1 ts], a as [i|i k|i k|i|vip ips]; cbn [race_exec]; intros E.
  - destruct (vip_map (maps b)) as [m|] eqn:Em; [|done]. destruct (ts !! i) as [[]|] eqn:Ei; try done.
    injection E as <-. by apply race_lookup.
  - destruct (ts !! i) as [p|] eqn:Ei; [|done]. destruct (H1 !! k) as [v|] eqn:Ev; [|done].
    cbn in E. destruct (conn_read v p) as [p'|] eqn:Ep; [|done]. injection E as <-.
    eapply race_read; [done|by eapply list_elem_of_lookup_2|done].
  - destruct (ts !! i) as [[]|] eqn:Ei; try done. destruct (H1 !! k) as [v|] eqn:Ev; [|done].
    destruct (decide _) as [Hl|]; [|done]. injection E as <-.
    eapply race_copy; [done|]. apply mixture_elem; [by eapply list_elem_of_lookup_2|done].
  - destruct (vip_map (maps b)) as [m|] eqn:Em; [|done]. destruct (ts !! i) as [[]|] eqn:Ei; try done.
    injection E as <-. by apply race_insert.
  - destruct (decide _) as [[Hin Hne]|]; [|done]. injection E as <-. by apply race_agent.
Qed.

Lemma race_exec_run (W : list (Ipv4Addr * list Ipv4Addr)) (acts : list race_act) (st st' : RaceState M R) :
  foldl (fun o a => o ≫= fun st => race_exec W st a) (Some st) acts = Some st' ->
  rtc (race_step W) st st'.
Proof.
  revert st. induction acts as [|a acts IH]; intros st E; cbn [foldl] in E; [by injection E as ->|].
  cbn [mbind option_bind] in E. destruct (race_exec W st a) as [st1|] eqn:E1.
  - eapply rtc_l; [by eapply race_exec_step|by apply IH].
  - exfalso. clear -E. induction acts; cbn [foldl mbind option_bind] in E; [done|by apply IHacts].
Qed.
End Runs.

(** Two connections and a rewrite to one backend between their reads: the
    first looked the old entry up and copies it, the second takes its index
    from the old entry and the backend from the new one. *)
Definition demo_W : list (Ipv4Addr * list Ipv4Addr) := [(demo_vip_ip, [ipv4_new 10 244 0 7])].

Definition demo_acts : list race_act :=
  [ActLookup 0; ActRead 0 0; ActRead 0 0; ActRead 0 0; ActLookup 1; ActRead 1 0; ActRead 1 0;
   ActRead 0 0; ActRead 0 0; ActRead 0 0; ActRead 0 0; ActCopy 0 0;
   ActAgent demo_vip_ip [ipv4_new 10 244 0 7];
   ActRead 1 1; ActRead 1 0; ActRead 1 0; ActRead 1 1; ActRead 1 0; ActInsert 0; ActCopy 1 2; ActInsert 1].

Definition demo_race : RaceState bmap ring :=
  mkRaceState (demo_vip_manager {[ipv4_to_u32 demo_vip_ip := vip_info_of demo_backends]})
    [vip_info_of demo_backends] (Begin <$> replicate 2 (ipv4_to_u32 demo_vip_ip)).

Lemma vip_reads_safe_witness :
  exists st, rtc (race_step demo_W) demo_race st /\
    rs_conns st !! 1%nat = Some (Finished (Some (mkSockAddr (ipv4_to_u32 (ipv4_new 10 244 0 7)) 0))) /\
    rs_conns st !! 0%nat <> Some Panicked /\
    exists idx w, w ∈ written [vip_info_of demo_backends] demo_W /\ 0 <= idx < vi_count w /\
      slot_of (written [vip_info_of demo_backends] demo_W) vb_ip (Z.to_nat idx)
        (ipv4_to_u32 (ipv4_new 10 244 0 7)).
Proof.
  destruct (foldl (fun o a => o ≫= fun st => race_exec demo_W st a) (Some demo_race) demo_acts)
    as [st|] eqn:E; [|vm_compute in E; discriminate E].
  pose proof (race_exec_run _ _ _ _ E) as Hr. exists st. split; [exact Hr|].
  assert (rs_conns st !! 1%nat
    = Some (Finished (Some (mkSockAddr (ipv4_to_u32 (ipv4_new 10 244 0 7)) 0)))) as H1.
  { vm_compute in E. injection E as <-. vm_compute. reflexivity. }
  split; [exact H1|].
  destruct (vip_reads_safe (rs_mgr demo_race)
    (mkBmap 64 {[ipv4_to_u32 demo_vip_ip := vip_info_of demo_backends]}) [vip_info_of demo_backends]
    demo_W (replicate 2 (ipv4_to_u32 demo_vip_ip)) st) as (Hp & _ & Ha); [reflexivity| | |exact Hr|].
  - intros k v Hk. cbn in Hk. apply lookup_singleton_Some in Hk as [_ <-]. by left.
  - constructor; [by apply vip_info_ok|constructor].
  - split; [apply Hp|]. destruct (Ha 1%nat _ H1) as (idx & w & port & Hw & Hi & Hs & _).
    exists idx, w. split_and!; [exact Hw|apply Hi|apply Hi|exact Hs].
Defined.

