(* ===== verification/Cni.v ===== *)
(** * The CNI plugin ([cni/src/lib.rs])

    [run] with [cmd_add] and [cmd_del], the address request [allocate_ip] and
    the notification [notify_agent].  The plugin acts on the world by running
    commands, posting to the agent and printing; these actions are the events
    of a trace ([Trace]), and what the environment answers may depend on the
    trace so far. *)

From S2P Require Import Prelude RustStr Trace NetAddr Json Api.

(** ** Data *)

Record CniCmd := mkCniCmd {
  cni_version : string;
  command : option string;
  container_id : option string;
  netns : option string;
  if_name : option string;
  args : option string;
  cni_name : option string;
  cni_type : option string
}.

Record CniIp := mkCniIp { ip_version : string; address : string; gateway : option string }.

Record CniDns := mkCniDns { nameservers : list string }.

Record CniResult := mkCniResult {
  res_version : string;
  ips : list CniIp;
  dns : option CniDns
}.

Definition GATEWAY : string := "10.244.0.1".
Definition AGENT_API : string := "http://127.0.0.1:9091".

(** What is printed, as a value: a result or the bare version object. *)
Inductive CniOutput :=
| OutResult (r : CniResult)
| OutVersion (v : string).

(** The output of a command that ran: whether it succeeded, and [stderr]. *)
Record Output := mkOutput { success : bool; stderr : string }.

(** ** Effects *)

Inductive Event :=
| Exec (program : string) (argv : list string)
| Post (url payload : string)
| Println (out : CniOutput).

(** The environment: the result of running a command ([Err] when it cannot
    be started), and of a POST through ureq (the body of the response as
    text, or an error; an error of [into_string] has the same effect). *)
Record Env := mkEnv {
  env_exec : list Event -> string -> list string -> outcome string Output;
  env_post : list Event -> string -> string -> outcome string string
}.

Abbreviation Cni := (Traced Event).

Section Plugin.
Context (env : Env) {V : Type} `{Json V}.

(** [Command::new(program).args(argv).output()?] *)
Definition exec (program : string) (argv : list string) : Cni Output :=
  perform (Exec program argv) (fun tr => env_exec env tr program argv).

Definition post (url payload : string) : Cni string :=
  perform (Post url payload) (fun tr => env_post env tr url payload).

Definition println (out : CniOutput) : Cni unit := perform (Println out) (fun _ => Ok tt).

(** ** Operations *)

(** [format!("veth-{}", &container_id[..8.min(container_id.len())])] *)
Definition host_iface_of (cid : string) : outcome string string :=
  p ← str_prefix cid (Nat.min 8 (str_len cid)); Ok ("veth-" +:+ p).

(** The address when the agent gives none. *)
Definition fallback_ip (cid : string) : Ipv4Addr := ipv4_new 10 244 0 (2 + hash31 cid mod 253).

Definition api_url : string := AGENT_API +:+ "/api/v1/container".

(** The address in the agent's response. *)
Definition response_ip (body : string) : option Ipv4Addr :=
  match from_slice (V:=V) (as_bytes body) with
  | Ok json => index_str json "ip" ≫= parse_ipv4
  | _ => None
  end.

Definition allocate_ip (cid : string) : Cni Ipv4Addr :=
  resp ← try (post api_url (obj_to_string [("action", "allocate"); ("container_id", cid)]));
  mret (default (fallback_ip cid) (ok resp ≫= response_ip)).

Definition notify_agent (action cid ip iface : string) : Cni unit :=
  _ ← post api_url (obj_to_string (cmd_fields action cid ip iface));
  mret tt.

(** [netns.trim_start_matches("/proc/").trim_end_matches("/ns/net")] *)
Definition ns_target_of (netns : string) : string :=
  trim_end_matches (trim_start_matches netns "/proc/") "/ns/net".

Definition nsenter (ns_target : string) (argv : list string) : Cni Output :=
  exec "nsenter" (["--target"; ns_target; "--net"; "--"] ++ argv).

Definition cmd_add (cmd : CniCmd) (version : string) : Cni unit :=
  let cid := default "unknown" (container_id cmd) in
  let netns := default "/proc/1/ns/net" (netns cmd) in
  let if_name := default "eth0" (if_name cmd) in
  host_iface ← lift (host_iface_of cid);
  output ← exec "ip" ["link"; "add"; host_iface; "type"; "veth"; "peer"; "name"; if_name];
  if (negb (success output) && negb (contains (stderr output) "File exists"))%bool
  then lift (Err ("veth create failed: " +:+ stderr output))
  else
    _ ← exec "ip" ["link"; "set"; if_name; "netns"; netns];
    container_ip ← allocate_ip cid;
    _ ← exec "ip" ["addr"; "add"; show_ipv4 container_ip +:+ "/32"; "dev"; host_iface];
    _ ← exec "ip" ["link"; "set"; host_iface; "up"];
    let ns_target := ns_target_of netns in
    _ ← nsenter ns_target ["ip"; "addr"; "add"; show_ipv4 container_ip +:+ "/16"; "dev"; if_name];
    _ ← nsenter ns_target ["ip"; "link"; "set"; if_name; "up"];
    _ ← nsenter ns_target ["ip"; "route"; "add"; "default"; "via"; GATEWAY; "dev"; if_name];
    _ ← try (notify_agent "add" cid (show_ipv4 container_ip) host_iface);
    println (OutResult (mkCniResult version
      [mkCniIp "4" (show_ipv4 container_ip +:+ "/16") (Some GATEWAY)] None)).

Definition cmd_del (cmd : CniCmd) (version : string) : Cni unit :=
  let cid := default "unknown" (container_id cmd) in
  host_iface ← lift (host_iface_of cid);
  _ ← exec "ip" ["link"; "delete"; host_iface];
  _ ← try (notify_agent "del" cid "" host_iface);
  println (OutVersion version).

(** [run]: [input] is what [read_to_string] gives, [parse_cmd] serde_json's
    deserialisation of a [CniCmd]. *)
Definition run (input : outcome string string) (parse_cmd : string -> outcome string CniCmd) : Cni unit :=
  input ← lift input;
  cmd ← lift (parse_cmd input);
  match command cmd with
  | None => cmd_add cmd (cni_version cmd)
  | Some c =>
      if String.eqb c "ADD" then cmd_add cmd (cni_version cmd)
      else if String.eqb c "DEL" then cmd_del cmd (cni_version cmd)
      else lift (Err ("unknown CNI command: " +:+ c))
  end.

End Plugin.

(** [main]: the exit code; a panic exits with 101. *)
Definition main {A} (r : list Event * outcome string A) : Z :=
  match r.2 with Ok _ => 0 | Err _ => 1 | Panic => 101 end.

(** ** Lemmas *)

Lemma length_substring (s : string) (n : nat) :
  (n <= String.length s)%nat -> String.length (String.substring 0 n s) = n.
Proof.
  revert n. induction s as [|c s IH]; intros [|n] Hn; cbn in *; [done|lia|done|].
  by rewrite IH by lia.
Qed.

Lemma get_lt (s : string) (n : nat) : (n < String.length s)%nat -> is_Some (String.get n s).
Proof.
  revert n. induction s as [|c s IH]; intros n Hn; cbn in *; [lia|].
  destruct n; [by eexists|]. apply IH. lia.
Qed.

Lemma trim_start_matches_once (p s : string) :
  p <> "" -> strip_prefix s p = None -> trim_start_matches (p +:+ s) p = s.
Proof.
  intros Hp Hs. unfold trim_start_matches.
  assert (forall a, strip_prefix (a +:+ s) a = Some s) as Hstrip.
  { intros a. induction a as [|c a IH]; [by destruct s|]. rewrite string_app_cons. cbn.
    by rewrite Ascii.eqb_refl. }
  destruct (str_len (p +:+ s)) as [|f] eqn:E.
  { destruct p; [done|]. unfold str_len in E. rewrite string_app_cons in E. done. }
  cbn [trim_start_matches_fuel]. rewrite Hstrip.
  destruct f; cbn [trim_start_matches_fuel]; [done|]. by rewrite Hs.
Qed.

(** ** Properties *)

(** The name of the host side of the veth pair fits in an interface name
    (at most 13 bytes) and has eight bytes of the identifier, or all of it;
    the slice panics only inside a multi-byte character. *)
Theorem veth_name_bounded (cid : string) :
  match host_iface_of cid with
  | Ok h => str_len h = (5 + Nat.min 8 (str_len cid))%nat /\ (str_len h <= 13)%nat
  | Err _ => False
  | Panic => (8 < str_len cid)%nat /\ exists c, String.get 8 cid = Some c /\ 128 <= code c <= 191
  end.
Proof.
  unfold host_iface_of, str_prefix.
  destruct (is_char_boundary cid (Nat.min 8 (str_len cid))) eqn:E; cbn [mbind outcome_bind].
  - unfold str_len in *. rewrite string_length_app, length_substring by lia.
    change (String.length "veth-") with 5%nat. lia.
  - unfold is_char_boundary in E. destruct (Nat.eqb (Nat.min 8 (str_len cid)) 0) eqn:E0; [done|].
    destruct (Nat.eqb (Nat.min 8 (str_len cid)) (str_len cid)) eqn:E1; [done|].
    apply Nat.eqb_neq in E1. assert (Nat.min 8 (str_len cid) = 8%nat) as E8 by lia.
    rewrite E8 in E. split; [lia|].
    destruct (get_lt cid 8) as [c Hc]; [unfold str_len in *; lia|]. rewrite Hc in E.
    exists c. split; [done|]. bool_to_prop. lia.
Qed.

(** For the network namespace of a process, [/proc/<pid>/ns/net], the
    target given to nsenter is the process number. *)
Theorem ns_target_pid (pid : Z) :
  0 <= pid <= u64_max ->
  ns_target_of ("/proc/" +:+ show_dec pid +:+ "/ns/net") = show_dec pid.
Proof.
  intros Hpid. unfold ns_target_of.
  assert (all_digits (show_dec pid) = true) as Hd by (apply all_digits_show; lia).
  assert (forall s, all_digits s = true -> s <> "" -> forall c p t,
    code c < 48 \/ 57 < code c -> strip_prefix (s +:+ t) (String c p) = None) as Hno.
  { intros [|d s] Hs Hne c p t Hc; [done|]. cbn [all_digits] in Hs. bool_to_prop.
    rewrite string_app_cons. cbn [strip_prefix]. destruct (Ascii.eqb c d) eqn:E; [|done].
    apply Ascii.eqb_eq in E. subst. lia. }
  assert (show_dec pid <> "") as Hne.
  { intros E. pose proof (parse_uint_show_dec u64_max pid ltac:(lia) ltac:(lia)) as Hp.
    by rewrite E in Hp. }
  rewrite trim_start_matches_once; [|done|apply Hno; [done|done|vm_compute; by left]].
  unfold trim_end_matches. rewrite string_rev_app.
  rewrite trim_start_matches_once; [apply string_rev_involutive|done|].
  rewrite <- (string_app_nil_r (String.rev (show_dec pid))).
  apply Hno; [by rewrite all_digits_rev| |vm_compute; by right].
  intros E. apply Hne. rewrite <- (string_rev_involutive (show_dec pid)), E. done.
Qed.

Lemma ns_target_pid_witness : ns_target_of "/proc/4242/ns/net" = "4242".
Proof. apply (ns_target_pid 4242). unfold u64_max. lia. Defined.

(** ** What the plugin emits *)

(** Posts go to the agent's container endpoint only. *)
Definition to_agent (e : Event) : Prop :=
  match e with Post url _ => url = api_url | _ => True end.

(** An event that prints nothing. *)
Definition silent (e : Event) : Prop :=
  match e with Println _ => False | _ => True end.

(** The outputs printed. *)
Definition printed (tr : list Event) : list CniOutput :=
  omap (fun e => match e with Println o => Some o | _ => None end) tr.

Lemma printed_silent (tr : list Event) : Forall silent tr -> printed tr = [].
Proof. induction 1 as [|[] tr He Htr IH]; by cbn in *. Qed.

(** A computation that prints its output last, and only when it succeeds. *)
Definition prints_last (m : Cni unit) : Prop :=
  forall tr, exists new, (m tr).1 = tr ++ new /\
    match (m tr).2 with
    | Ok _ => exists quiet out, new = quiet ++ [Println out] /\ Forall silent quiet
    | _ => Forall silent new
    end.

Lemma prints_last_bind {A} (m : Cni A) (k : A -> Cni unit) :
  emits silent m -> (forall a, prints_last (k a)) -> prints_last (m ≫= k).
Proof.
  intros Hm Hk tr. rewrite bind_run. destruct (Hm tr) as (new & E & Hnew).
  destruct (m tr) as [tr1 [a|e|]]; cbn [fst snd] in *; [|by exists new..].
  destruct (Hk a tr1) as (new' & E' & Hnew'). exists (new ++ new'). subst tr1.
  rewrite E', <- app_assoc. split; [done|].
  destruct (k a (tr ++ new)).2; [|by apply Forall_app..].
  destruct Hnew' as (quiet & o & -> & Hq). exists (new ++ quiet), o. rewrite <- app_assoc.
  split; [done|by apply Forall_app].
Qed.

Lemma prints_last_println (out : CniOutput) : prints_last (println out).
Proof. intros tr. exists [Println out]. split; [done|]. exists [], out. by split. Qed.

Lemma prints_last_lift (o : outcome string unit) : is_ok o = false -> prints_last (lift o).
Proof. intros Ho tr. exists []. rewrite app_nil_r. split; [done|]. destruct o; [done|constructor..]. Qed.

Section Emissions.
Context (env : Env) {V : Type} `{Json V} (P : Event -> Prop).
Context (Hexec : forall p a, P (Exec p a)).
Context (Hpost : forall payload, P (Post api_url payload)).

Lemma emits_exec (p : string) (a : list string) : emits P (exec env p a).
Proof using Hexec. by apply emits_perform. Qed.

Lemma emits_nsenter (t : string) (a : list string) : emits P (nsenter env t a).
Proof using Hexec. by apply emits_perform. Qed.

Lemma emits_allocate_ip (cid : string) : emits P (allocate_ip env (V:=V) cid).
Proof using Hpost. apply emits_bind; [|auto with traced]. by apply emits_try, emits_perform. Qed.

Lemma emits_notify (action cid ip iface : string) : emits P (notify_agent env action cid ip iface).
Proof using Hpost. apply emits_bind; [by apply emits_perform|auto with traced]. Qed.
End Emissions.

#[export] Hint Resolve emits_exec emits_nsenter emits_allocate_ip emits_notify : traced.

(** Steps through the sequence of a command. *)
Ltac emit_steps rule :=
  repeat first
    [ apply rule; [solve [eauto with traced]|intros ?]
    | progress cbv zeta
    | case_match ].

Section Commands.
Context (env : Env) {V : Type} `{Json V}.

Lemma silent_exec p a : silent (Exec p a).
Proof. exact I. Qed.
Lemma silent_post url payload : silent (Post url payload).
Proof. exact I. Qed.
Hint Resolve silent_exec silent_post : traced.

Lemma run_prints (input : outcome string string) (parse_cmd : string -> outcome string CniCmd) :
  prints_last (run env (V:=V) input parse_cmd).
Proof using.
  unfold run, cmd_add, cmd_del. emit_steps @prints_last_bind;
    first [apply prints_last_println|by apply prints_last_lift].
Qed.

(** Every request of the plugin goes to the agent's endpoint. *)
Lemma run_to_agent (input : outcome string string) (parse_cmd : string -> outcome string CniCmd) :
  emits to_agent (run env (V:=V) input parse_cmd).
Proof using.
  assert (forall p a, to_agent (Exec p a)) as He by done.
  assert (forall payload, to_agent (Post api_url payload)) as Hp by done.
  assert (forall o, emits to_agent (println o)) as Ho by (intros; by apply emits_perform).
  unfold run, cmd_add, cmd_del. emit_steps @emits_bind; auto with traced.
Qed.

(** C27: a run of the plugin prints at most one result on standard output,
    after everything else it does, and prints it exactly when it exits with
    0: whatever the commands and the agent answer, no error path prints a
    result, and no result is followed by further effects. *)
Theorem run_prints_once (input : outcome string string)
    (parse_cmd : string -> outcome string CniCmd) :
  let r := run env (V:=V) input parse_cmd [] in
  if main r =? 0
  then exists before out, r.1 = before ++ [Println out] /\ printed before = []
  else printed r.1 = [].
Proof using.
  intros r. destruct (run_prints input parse_cmd []) as (new & E & Hr). fold r in E, Hr.
  cbn [app] in E. rewrite E. unfold main. destruct r.2 as [u|e|]; cbn [Z.eqb].
  - destruct Hr as (quiet & out & -> & Hq). exists quiet, out. split; [done|by apply printed_silent].
  - by apply printed_silent.
  - by apply printed_silent.
Qed.

(** [run] does ADD for a missing or ["ADD"] command, DEL for ["DEL"], and
    refuses anything else, as unreadable input, with exit code 1 and without
    any effect. *)
Theorem run_dispatch (input : outcome string string) (parse_cmd : string -> outcome string CniCmd)
    (tr : list Event) :
  match input ≫= parse_cmd with
  | Ok cmd =>
      match command cmd with
      | None => run env (V:=V) input parse_cmd tr = cmd_add env (V:=V) cmd (cni_version cmd) tr
      | Some c =>
          (c = "ADD" -> run env (V:=V) input parse_cmd tr = cmd_add env (V:=V) cmd (cni_version cmd) tr) /\
          (c = "DEL" -> run env (V:=V) input parse_cmd tr = cmd_del env (V:=V) cmd (cni_version cmd) tr) /\
          (c <> "ADD" -> c <> "DEL" ->
           (run env (V:=V) input parse_cmd tr).1 = tr /\ main (run env (V:=V) input parse_cmd tr) = 1)
      end
  | Err _ => (run env (V:=V) input parse_cmd tr).1 = tr /\ main (run env (V:=V) input parse_cmd tr) = 1
  | Panic => True
  end.
Proof using.
  unfold run. rewrite bind_run, lift_run. destruct input as [s|e|]; cbn [mbind outcome_bind]; [|done..].
  rewrite bind_run, lift_run.
  destruct (parse_cmd s) as [cmd|e|]; [|done..]. destruct (command cmd) as [c|]; [|done].
  split_and!; [by intros ->|by intros ->|]. intros Ha Hd.
  by rewrite (proj2 (String.eqb_neq _ _) Ha), (proj2 (String.eqb_neq _ _) Hd).
Qed.
End Commands.

(** An environment in which every command succeeds and the agent answers a
    request with an address. *)
Definition demo_env : Env :=
  mkEnv (fun _ _ _ => Ok (mkOutput true ""))
        (fun _ _ _ => Ok (Flat.show [("ip", "10.244.0.9")])).
Definition demo_cmd : CniCmd :=
  mkCniCmd "1.0.0" (Some "ADD") (Some "0123456789ab") (Some "/proc/42/ns/net") None None None None.

(** The address of the result is the one the agent answered. *)
Example demo_add_prints :
  printed (cmd_add demo_env (V:=list (string * string)) demo_cmd "1.0.0" []).1
  = [OutResult (mkCniResult "1.0.0" [mkCniIp "4" "10.244.0.9/16" (Some GATEWAY)] None)].
Proof. reflexivity. Qed.

(** A pair that can not be created: nothing more is done. *)
Example demo_add_fails :
  cmd_add (mkEnv (fun _ _ _ => Ok (mkOutput false "Operation not permitted")) (env_post demo_env))
    (V:=list (string * string)) demo_cmd "1.0.0" []
  = ([Exec "ip" ["link"; "add"; "veth-01234567"; "type"; "veth"; "peer"; "name"; "eth0"]],
     Err "veth create failed: Operation not permitted").
Proof. reflexivity. Qed.
