(* ===== verification/Ipsec.v ===== *)
(** * IPsec between nodes ([agent/src/ipsec.rs])

    [IpsecManager]: its key, security parameter index and peers, the [ip
    xfrm] commands it runs and the hourly rotation of [ipsec_loop].  The
    events are the argument vectors of [ip]; the random generator and the
    hex crate are parameters. *)

From S2P Require Import Prelude RustStr Trace NetAddr Config.

Record IpsecManager := mkIpsecManager {
  spi : Z;
  key : list byte;
  peers : list (string * string)
}.

(** The exit status of [ip], or that it could not be started. *)
Definition IpEnv : Type := list (list string) -> list string -> outcome string bool.

(** The hex crate: [decode] and [encode]. *)
Class Hex := {
  hex_decode : string -> option (list byte);
  hex_encode : list byte -> string
}.

(** What is encoded decodes to itself, two digits a byte. *)
Class HexLaws `{Hex} := {
  hex_roundtrip : forall k, hex_decode (hex_encode k) = Some k;
  hex_length : forall k, str_len (hex_encode k) = (2 * length k)%nat
}.

Section Ipsec.
Context `{Hex} (env : IpEnv).

(** [IpsecManager::new]; [random] is what [generate_key] yields *)
Definition ipsec_new (spi : Z) (key : string) (random : list byte) : IpsecManager :=
  mkIpsecManager spi
    (if String.eqb key "" then random
     else match hex_decode key with Some d => d | None => as_bytes key end) [].

(** [Command::new("ip").args(argv).status().await?] *)
Definition ip_status (argv : list string) : Traced (list string) bool :=
  perform argv (fun tr => env tr argv).

(** The arguments of one [ip xfrm state add]. *)
Definition state_add (m : IpsecManager) (src dst : string) : list string :=
  let key_hex := hex_encode (key m) in
  ["xfrm"; "state"; "add"; "src"; src; "dst"; dst; "proto"; "esp"; "spi"; show_hex 8 (spi m);
   "reqid"; show_dec (spi m); "mode"; "tunnel"; "auth"; "sha256"; key_hex; "enc"; "aes"; key_hex].

(** Run a command that must succeed. *)
Definition must_succeed (argv : list string) (error : string) : Traced (list string) unit :=
  status ← ip_status argv;
  if (status : bool) then mret tt else lift (Err error).

Definition add_state (m : IpsecManager) (src dst : string) : Traced (list string) unit :=
  _ ← must_succeed (state_add m src dst)
        ("ip xfrm state add (in) failed for " +:+ src +:+ " -> " +:+ dst);
  must_succeed (state_add m dst src)
    ("ip xfrm state add (out) failed for " +:+ src +:+ " -> " +:+ dst).

Definition policy_add (m : IpsecManager) (src dst dir tsrc tdst : string) : list string :=
  ["xfrm"; "policy"; "add"; "src"; src; "dst"; dst; "dir"; dir; "tmpl"; "src"; tsrc; "dst"; tdst;
   "proto"; "esp"; "mode"; "tunnel"; "reqid"; show_dec (spi m)].

Definition add_policy (m : IpsecManager) (src_subnet dst_subnet tunnel_src tunnel_dst : string)
    : Traced (list string) unit :=
  _ ← must_succeed (policy_add m src_subnet dst_subnet "out" tunnel_src tunnel_dst)
        ("ip xfrm policy add (out) failed for " +:+ src_subnet +:+ " -> " +:+ dst_subnet);
  must_succeed (policy_add m dst_subnet src_subnet "in" tunnel_dst tunnel_src)
    ("ip xfrm policy add (in) failed for " +:+ dst_subnet +:+ " -> " +:+ src_subnet).

(** [let _ = ...status().await]: a result that is not looked at. *)
Definition ignore (argv : list string) : Traced (list string) unit :=
  _ ← try (ip_status argv); mret tt.

Definition state_del (m : IpsecManager) (src dst : string) : list string :=
  ["xfrm"; "state"; "del"; "src"; src; "dst"; dst; "spi"; show_hex 8 (spi m); "proto"; "esp"].

Definition delete_state (m : IpsecManager) (src dst : string) : Traced (list string) unit :=
  _ ← ignore (state_del m src dst); ignore (state_del m dst src).

Definition delete_policy (src_subnet dst_subnet dir : string) : Traced (list string) unit :=
  ignore ["xfrm"; "policy"; "del"; "src"; src_subnet; "dst"; dst_subnet; "dir"; dir].

(** The new index and key. *)
Definition rekey (m : IpsecManager) (random : list byte) : IpsecManager :=
  mkIpsecManager (wrap32 (spi m + 1)) random (peers m).

(** [rotate_key]: the manager afterwards and what was run *)
Definition rotate_key (m : IpsecManager) (random : list byte)
    : IpsecManager * Traced (list string) unit :=
  let m := rekey m random in
  (m, for_each (fun '(src, dst) => _ ← try (add_state m src dst); mret tt) (peers m)).

Definition add_peer (m : IpsecManager) (src dst : string) : IpsecManager :=
  if bool_decide ((src, dst) ∈ peers m) then m
  else mkIpsecManager (spi m) (key m) (peers m ++ [(src, dst)]).

(** [ipsec_loop]: one entry per tick, with [stop] before and after it and
    the random key; a poisoned lock ends the task.  No command is run. *)
Fixpoint ipsec_ticks (m : Mutex IpsecManager) (ticks : list (bool * bool * list byte))
    : Mutex IpsecManager :=
  match ticks with
  | [] => m
  | (stop, stop', random) :: ticks' =>
      if ((stop : bool) || (stop' : bool) || poisoned m)%bool then m
      else ipsec_ticks (mkMutex false (rekey (inner m) random)) ticks'
  end.

Definition ipsec_loop (c : AgentConfig) (m : Mutex IpsecManager)
    (ticks : list (bool * bool * list byte)) : Mutex IpsecManager :=
  if ipsec_enabled c then ipsec_ticks m ticks else m.

End Ipsec.

(** ** A hex codec *)

Fixpoint hex_encode_bytes (k : list byte) : string :=
  match k with [] => "" | b :: k' => show_hex_byte b +:+ hex_encode_bytes k' end.

Fixpoint hex_decode_string (s : string) : option (list byte) :=
  match s with
  | EmptyString => Some []
  | String h (String l s') =>
      hi ← hex_val h; lo ← hex_val l; k ← hex_decode_string s'; Some (z2b (hi * 16 + lo) :: k)
  | _ => None
  end.

#[export] Instance hex_codec : Hex := {
  hex_decode := hex_decode_string; hex_encode := hex_encode_bytes }.

Lemma hex_decode_byte (b : byte) (s : string) :
  hex_decode_string (show_hex_byte b +:+ s) = k ← hex_decode_string s; Some (b :: k).
Proof. by destruct b; vm_compute (show_hex_byte _); rewrite !string_app_cons. Qed.

#[export] Instance hex_codec_laws : HexLaws.
Proof.
  split; intros k; cbn.
  - induction k as [|b k IH]; [done|]. cbn [hex_encode_bytes]. by rewrite hex_decode_byte, IH.
  - induction k as [|b k IH]; [done|]. unfold str_len in *. cbn [hex_encode_bytes].
    rewrite string_length_app, IH. unfold show_hex_byte.
    pose proof (length_show_hex 2 (b2z b)) as Hl. unfold str_len in Hl. rewrite Hl. cbn. lia.
Qed.

(** ** Properties *)

Section IpsecFacts.
Context `{HexLaws} (env : IpEnv).
Context (Henv : forall tr argv, env tr argv <> Panic).

(** What one attempt of [add_state] runs: the second command only after the
    first succeeded. *)
Definition added (m : IpsecManager) (tr : list (list string)) (src dst : string) : list (list string) :=
  match env tr (state_add m src dst) with
  | Ok true => [state_add m src dst; state_add m dst src]
  | _ => [state_add m src dst]
  end.

Lemma add_state_run (m : IpsecManager) (src dst : string) (tr : list (list string)) :
  (add_state env m src dst tr).1 = tr ++ added m tr src dst /\
  ((add_state env m src dst tr).2 = Ok tt <->
   env tr (state_add m src dst) = Ok true /\
   env (tr ++ [state_add m src dst]) (state_add m dst src) = Ok true).
Proof.
  unfold add_state, must_succeed, ip_status, perform, added. rewrite !bind_run.
  destruct (env tr (state_add m src dst)) as [[]|e|]; [|by split; [|split; [|intros [? _]]]..].
  cbn [mret Traced_ret]. rewrite bind_run.
  destruct (env (tr ++ [state_add m src dst]) (state_add m dst src)) as [[]|e|];
    cbn; rewrite <- app_assoc; split; try done; naive_solver.
Qed.
End IpsecFacts.

(** A key given in hexadecimal is the key used. *)
Lemma ipsec_new_hex `{HexLaws} (spi : Z) (k random : list byte) :
  k <> [] -> key (ipsec_new spi (hex_encode k) random) = k.
Proof.
  intros Hk. cbn. destruct (String.eqb _ _) eqn:E; [|by rewrite hex_roundtrip].
  bool_to_prop. pose proof (hex_length k) as Hl. rewrite E in Hl. by destruct k.
Qed.

(** Adding peers keeps the list without duplicates. *)
Lemma add_peer_NoDup (m : IpsecManager) (src dst : string) :
  NoDup (peers m) -> NoDup (peers (add_peer m src dst)).
Proof.
  intros Hn. unfold add_peer. case_bool_decide as Hin; [done|]. cbn [peers].
  apply NoDup_app. split_and!; [done| |apply NoDup_singleton].
  intros x Hx Hx1%list_elem_of_singleton. by subst.
Qed.

(** C26: a rotation moves to the next index (modulo 2^32) and a new key, and,
    when the commands succeed, installs both directions of every peer's
    state with them; it runs nothing else, so the states with the old index
    and key stay installed. *)
Theorem rotate_key_installs `{HexLaws} (env : IpEnv) (m : IpsecManager) (random : list byte)
    (tr : list (list string)) :
  (forall tr argv, env tr argv = Ok true) ->
  let '(m', act) := rotate_key env m random in
  spi m' = (spi m + 1) mod 2 ^ 32 /\ key m' = random /\ peers m' = peers m /\
  act tr = (tr ++ concat (map (fun '(src, dst) => [state_add m' src dst; state_add m' dst src])
                            (peers m)), Ok tt) /\
  (forall src dst, (src, dst) ∈ peers m ->
     state_add m' src dst ∈ (act tr).1 /\ state_add m' dst src ∈ (act tr).1) /\
  (forall argv, argv ∈ (act []).1 -> argv !! 2%nat = Some "add").
Proof.
  intros Henv. unfold rotate_key. set (m' := rekey m random).
  assert (forall tr, for_each (fun '(src, dst) => _ ← try (add_state env m' src dst); mret tt) (peers m') tr
    = (tr ++ concat (map (fun '(src, dst) => [state_add m' src dst; state_add m' dst src]) (peers m)),
       Ok tt)) as Hrun.
  { intros tr0. change (peers m') with (peers m).
    apply (for_each_run _ (fun '(src, dst) => [state_add m' src dst; state_add m' dst src])).
    intros [src dst] tr1. rewrite bind_run. unfold try, add_state, must_succeed, ip_status, perform.
    rewrite !bind_run, Henv. cbn [mret Traced_ret]. rewrite bind_run, Henv. cbn.
    by rewrite <- app_assoc. }
  split_and!; [done..|apply Hrun| |].
  - intros src dst Hin. rewrite Hrun. cbn [fst].
    assert (forall x, x ∈ [state_add m' src dst; state_add m' dst src] ->
      x ∈ concat (map (fun '(src, dst) => [state_add m' src dst; state_add m' dst src]) (peers m))) as Hc.
    { intros x Hx. apply list_elem_of_In, in_concat. eexists. split; [|by apply list_elem_of_In].
      apply list_elem_of_In, list_elem_of_fmap. exists (src, dst). done. }
    split; apply elem_of_app; right; apply Hc; [by left|by right; left].
  - intros argv. rewrite Hrun. cbn [fst app]. intros Hin.
    apply list_elem_of_In, in_concat in Hin as (l & Hl & Hx).
    apply list_elem_of_In, list_elem_of_fmap in Hl as ([src dst] & -> & _).
    apply list_elem_of_In in Hx. rewrite !elem_of_cons in Hx.
    destruct Hx as [->|[->|Hx]]; [done..|by apply not_elem_of_nil in Hx].
Qed.

Lemma rotate_key_installs_witness :
  ((rotate_key (fun _ _ => Ok true) (mkIpsecManager 4294967295 [x01] [("10.0.0.1", "10.0.0.2")]) [x02]).2 []).1
  = [state_add (mkIpsecManager 0 [x02] [("10.0.0.1", "10.0.0.2")]) "10.0.0.1" "10.0.0.2";
     state_add (mkIpsecManager 0 [x02] [("10.0.0.1", "10.0.0.2")]) "10.0.0.2" "10.0.0.1"].
Proof.
  pose proof (rotate_key_installs (fun _ _ => Ok true)
    (mkIpsecManager 4294967295 [x01] [("10.0.0.1", "10.0.0.2")]) [x02] [] (fun _ _ => eq_refl)) as H.
  cbv beta iota zeta delta [rotate_key] in H. destruct H as (_ & _ & _ & E & _).
  exact (f_equal fst E).
Defined.

(** After [n] hourly ticks of the loop the index has advanced by [n]
    modulo 2^32 and the peers are the same; within 2^32 ticks no index, as
    written in the commands, comes back. *)
Theorem ipsec_loop_rotates (c : AgentConfig) (m : IpsecManager) (randoms more : list (list byte)) :
  ipsec_enabled c = true -> more <> [] -> Z.of_nat (length more) < 2 ^ 32 ->
  let ticks := map (fun r => (false, false, r)) in
  let m1 := inner (ipsec_loop c (mkMutex false m) (ticks randoms)) in
  let m2 := inner (ipsec_loop c (mkMutex false m1) (ticks more)) in
  spi m1 = (if decide (randoms = []) then spi m else (spi m + Z.of_nat (length randoms)) mod 2 ^ 32) /\
  peers m1 = peers m /\
  (0 <= spi m < 2 ^ 32 -> show_hex 8 (spi m2) <> show_hex 8 (spi m1)).
Proof.
  assert (forall rs m, spi (inner (ipsec_ticks (mkMutex false m) (map (fun r => (false, false, r)) rs)))
    = (if decide (rs = []) then spi m else (spi m + Z.of_nat (length rs)) mod 2 ^ 32) /\
    peers (inner (ipsec_ticks (mkMutex false m) (map (fun r => (false, false, r)) rs))) = peers m) as Hn.
  { induction rs as [|r rs IH]; intros m0; [done|]. cbn [map ipsec_ticks orb poisoned inner].
    destruct (IH (rekey m0 r)) as [-> ->]. split; [|done]. cbn [spi rekey]. unfold wrap32.
    destruct (decide (rs = [])) as [->|Hne]; [done|].
    rewrite decide_False by done. rewrite Z.add_mod_idemp_l by lia. cbn [length].
    by replace (spi m0 + 1 + Z.of_nat (length rs)) with (spi m0 + Z.of_nat (S (length rs))) by lia. }
  intros Hc Hne Hlt ticks m1 m2. unfold m2, m1, ipsec_loop, ticks. rewrite Hc.
  destruct (Hn randoms m) as [E1 E2]. split_and!; [done..|].
  intros Hs Heq. set (mm := inner (ipsec_ticks _ (map _ randoms))) in *.
  destruct (Hn more mm) as [E3 _]. rewrite E3, decide_False in Heq by done.
  assert (0 <= spi mm < 2 ^ 32) as Hmm.
  { rewrite E1. destruct (decide _); [done|]. apply Z.mod_pos_bound. lia. }
  apply show_hex_inj in Heq; [|apply Z.mod_pos_bound; lia|done].
  assert (length more <> 0)%nat as Hl by (by destruct more).
  destruct (Z.lt_ge_cases (spi mm + Z.of_nat (length more)) (2 ^ 32)).
  - rewrite Z.mod_small in Heq by lia. lia.
  - rewrite <- (Z.mod_unique (spi mm + Z.of_nat (length more)) (2 ^ 32) 1
      (spi mm + Z.of_nat (length more) - 2 ^ 32)) in Heq by lia. lia.
Qed.

Lemma ipsec_loop_rotates_witness :
  spi (inner (ipsec_loop (with_ipsec_enabled AgentConfig_default true)
    (mkMutex false (mkIpsecManager 4096 [x01] [])) [(false, false, [x02]); (false, false, [x03])])) = 4098.
Proof.
  apply (ipsec_loop_rotates (with_ipsec_enabled AgentConfig_default true)
    (mkIpsecManager 4096 [x01] []) [[x02]; [x03]] [[x04]]); [done|done|cbn; lia].
Defined.
