(* ===== verification/Seed.v ===== *)
(** * Seeds and relays ([agent/src/seed.rs], [agent/src/relay.rs])

    [SeedClient]: registration with the configured seeds, queries, and the
    periodic [health_loop]; [try_relay] asks the seeds for a relay.  A message
    sent is an event with its address; whether the socket accepts it is the
    environment's answer.  The JSON of a [Message] (serde's derived code) is
    a parameter, and so are random draws and the clock. *)

From S2P Require Import Prelude RustStr Trace NetAddr Common Config Json.

(** ** Data *)

Record NodeRegistration := mkNodeRegistration {
  overlay_ip : string;
  reg_public_ip : string;
  reg_public_port : Z;
  subnet : string;
  relay_capable : bool;
  reg_nat_type : Z
}.

Record RelayInfo := mkRelayInfo { relay_ip : string; relay_port : Z }.

Record Message := mkMessage {
  msg_type : string;
  qid : option string;
  ts : Z;
  nonce : string;
  node_info : option NodeRegistration;
  query_ip : option string;
  nodes : option (list NodeRegistration);
  relay : option RelayInfo
}.

(** [SeedClient] without the protocol object, which the environment stands for. *)
Record SeedClient := mkSeedClient { conns : list (string * SocketAddr); seed_mode : bool }.

Definition SeedClient_new (seed_mode : bool) : SeedClient := mkSeedClient [] seed_mode.

(** A message handed to the socket. *)
Record Sent := mkSent { sent_to : SocketAddr; sent_msg : Message }.

(** What a message draws: two random [u64]s and the clock in seconds. *)
Record Draw := mkDraw { rand_qid : Z; rand_nonce : Z; clock : Z }.

(** [z as i64] *)
Definition as_i64 (z : Z) : Z := let w := z mod 2 ^ 64 in if w <? 2 ^ 63 then w else w - 2 ^ 64.

Definition now_ts (d : Draw) : Z := as_i64 (clock d).

(** ** Registration *)

Section Seeds.
(** The result of sending, which may depend on what was sent before. *)
Context (send : list Sent -> Sent -> outcome string unit).

Definition send_to (msg : Message) (addr : SocketAddr) : Traced Sent unit :=
  perform (mkSent addr msg) (fun tr => send tr (mkSent addr msg)).

Definition register_msg (state : AgentState) (d : Draw) : Message :=
  mkMessage "register" (Some (show_hex 16 (rand_qid d))) (now_ts d) (show_hex 16 (rand_nonce d))
    (Some (mkNodeRegistration (node_overlay_ip (cfg state)) (show_ipv4 (public_ip state))
             (public_port state) (node_subnet (cfg state)) false (nat_type_u8 (nat_type state))))
    None None None.

Definition register (c : SeedClient) (state : AgentState) (addr : SocketAddr) (d : Draw)
    : Traced Sent SeedClient :=
  _ ← send_to (register_msg state d) addr;
  mret (mkSeedClient (conns c ++ [(show_socket_addr addr, addr)]) (seed_mode c)).

(** [register_all]: a failed registration is logged and the loop goes on; a
    seed that is not a socket address is skipped. *)
Fixpoint register_seeds (c : SeedClient) (state : AgentState) (l : list SeedAddr) (draw : nat -> Draw)
    : Traced Sent SeedClient :=
  match l with
  | [] => mret c
  | seed :: l' =>
      match parse_socket_addr (seed_addr seed) with
      | Some addr =>
          r ← try (register c state addr (draw O));
          register_seeds (default c (ok r)) state l' (fun n => draw (S n))
      | None => register_seeds c state l' (fun n => draw (S n))
      end
  end.

Definition register_all (c : SeedClient) (state : AgentState) (draw : nat -> Draw)
    : Traced Sent SeedClient :=
  register_seeds c state (seeds (cfg state)) draw.

(** [query_peer]: it never has an answer *)
Definition query_peer (ip : string) (addr : SocketAddr) (d : Draw)
    : Traced Sent (option (list NodeRegistration)) :=
  _ ← try (send_to (mkMessage "query" (Some (show_hex 16 (rand_qid d))) (now_ts d)
             (show_hex 16 (rand_nonce d)) None (Some ip) None None) addr);
  mret None.

(** [health_loop]: one entry per tick, with [stop] before and after it, the
    state at that time and the draws. *)
Fixpoint health_loop (c : SeedClient) (ticks : list (bool * bool * AgentState * (nat -> Draw)))
    : Traced Sent SeedClient :=
  match ticks with
  | [] => mret c
  | (stop, stop', state, draw) :: ticks' =>
      if ((stop : bool) || (stop' : bool))%bool then mret c
      else c ← register_all c state draw; health_loop c ticks'
  end.

(** ** Relays *)

(** [serde_json::from_slice::<Message>]. *)
Context (parse_message : list byte -> outcome string Message).

(** The fresh socket: the datagram it receives within the timeout, if the
    bind works and one arrives (the empty one when [recv] fails, whose error
    is ignored). *)
Context (fresh_recv : SocketAddr -> option (list byte)).

Definition relay_msg (target_ip : string) (d : Draw) : Message :=
  mkMessage "relay_query" (Some (show_hex 16 (rand_qid d))) (now_ts d) (show_hex 16 (rand_nonce d))
    None (Some target_ip) None None.

(** The buffer of 2048 zero bytes after a datagram was received into it. *)
Definition relay_buf (data : list byte) : list byte :=
  take 2048 data ++ replicate (2048 - length data) x00.

(** What is made of the buffer. *)
Definition relay_endpoint (buf : list byte) : option PeerEndpoint :=
  match parse_message buf with
  | Ok response =>
      r ← relay response;
      ip ← parse_ipv4 (relay_ip r);
      Some (mkPeerEndpoint (ipv4_to_u32 ip) (relay_port r) (nat_type_u8 Unknown) 0)
  | _ => None
  end.

Definition query_seed_for_relay (addr : SocketAddr) (target_ip : string) (d : Draw)
    : Traced Sent (option PeerEndpoint) :=
  r ← try (send_to (relay_msg target_ip d) addr);
  mret (match r with
        | Ok _ => data ← fresh_recv addr; relay_endpoint (relay_buf data)
        | _ => None
        end).

Fixpoint try_relay (l : list SeedAddr) (target_ip : string) (draw : nat -> Draw)
    : Traced Sent (option PeerEndpoint) :=
  match l with
  | [] => mret None
  | seed :: l' =>
      match parse_socket_addr (seed_addr seed) with
      | Some addr =>
          r ← query_seed_for_relay addr target_ip (draw O);
          match r with
          | Some ep => mret (Some ep)
          | None => try_relay l' target_ip (fun n => draw (S n))
          end
      | None => try_relay l' target_ip (fun n => draw (S n))
      end
  end.

End Seeds.

(** ** Properties *)

(** The seeds that are socket addresses. *)
Definition seed_addrs (l : list SeedAddr) : list SocketAddr :=
  omap (fun s => parse_socket_addr (seed_addr s)) l.

Section SeedFacts.
Context (send : list Sent -> Sent -> outcome string unit).

Lemma register_run (Hsend : forall tr e, send tr e = Ok tt) (c : SeedClient) (state : AgentState)
    (addr : SocketAddr) (d : Draw) (tr : list Sent) :
  register send c state addr d tr
  = (tr ++ [mkSent addr (register_msg state d)],
     Ok (mkSeedClient (conns c ++ [(show_socket_addr addr, addr)]) (seed_mode c))).
Proof. unfold register, send_to, perform. rewrite bind_run. by rewrite Hsend. Qed.

Lemma register_seeds_run (Hsend : forall tr e, send tr e = Ok tt) (l : list SeedAddr) (c : SeedClient)
    (state : AgentState) (draw : nat -> Draw) (tr : list Sent) :
  exists sent, register_seeds send c state l draw tr
    = (tr ++ sent, Ok (mkSeedClient
         (conns c ++ map (fun a => (show_socket_addr a, a)) (seed_addrs l)) (seed_mode c))) /\
    map sent_to sent = seed_addrs l /\
    Forall (fun e => exists d, sent_msg e = register_msg state d) sent.
Proof.
  revert c draw tr. induction l as [|s l IH]; intros c draw tr; cbn [register_seeds].
  { exists []. cbn. rewrite !app_nil_r. destruct c. split_and!; [done|done|constructor]. }
  unfold seed_addrs in *. cbn [omap list_omap].
  destruct (parse_socket_addr (seed_addr s)) as [addr|]; [|apply IH].
  rewrite bind_run. unfold try. rewrite register_run by done. cbn [ok from_option id].
  destruct (IH (mkSeedClient (conns c ++ [(show_socket_addr addr, addr)]) (seed_mode c))
    (fun n => draw (S n)) (tr ++ [mkSent addr (register_msg state (draw O))])) as (sent & -> & Hto & Hall).
  exists (mkSent addr (register_msg state (draw O)) :: sent). cbn [conns seed_mode].
  rewrite <- !app_assoc. cbn [app map].
  split; [done|]. cbn [sent_to]. rewrite Hto. split; [done|].
  constructor; [by eexists|done].
Qed.
End SeedFacts.

(** When sending works, [register_all] sends one registration with the
    node's endpoint to each seed that is a socket address, in order, and each
    run of it adds all of them to [conns] again: after [n] health ticks the
    list has grown by [n] times the number of seeds. *)
Theorem health_loop_registers (send : list Sent -> Sent -> outcome string unit) (c : SeedClient)
    (state : AgentState) (draws : list (nat -> Draw)) (tr : list Sent) :
  (forall tr e, send tr e = Ok tt) ->
  exists sent c', health_loop send c (map (fun d => (false, false, state, d)) draws) tr
    = (tr ++ sent, Ok c') /\
    map sent_to sent = concat (replicate (length draws) (seed_addrs (seeds (cfg state)))) /\
    Forall (fun e => exists d, sent_msg e = register_msg state d) sent /\
    length (conns c')
    = (length (conns c) + length draws * length (seed_addrs (seeds (cfg state))))%nat.
Proof.
  intros Hsend. revert c tr. induction draws as [|d draws IH]; intros c tr; cbn [map health_loop].
  { exists [], c. rewrite app_nil_r. cbn. rewrite Nat.add_0_r. split_and!; [done|done|constructor|done]. }
  cbn [orb]. rewrite bind_run. unfold register_all.
  destruct (register_seeds_run send Hsend (seeds (cfg state)) c state d tr) as (sent & -> & Hto & Hall).
  destruct (IH (mkSeedClient (conns c ++ map (fun a => (show_socket_addr a, a))
    (seed_addrs (seeds (cfg state)))) (seed_mode c)) (tr ++ sent)) as (sent' & c' & -> & Hto' & Hall' & Hl).
  exists (sent ++ sent'), c'. rewrite <- app_assoc. split; [done|].
  cbn [length replicate concat]. rewrite map_app, Hto, Hto'. split; [done|].
  split; [by apply Forall_app|]. rewrite Hl. cbn [conns]. rewrite length_app, length_map. lia.
Qed.

(** A configuration with one seed given by address and one by name. *)
Definition demo_seeds : list SeedAddr := [mkSeedAddr "192.0.2.9:9527"; mkSeedAddr "seed.example:9527"].
Definition demo_seed_state : AgentState :=
  AgentState_new 0 (mkAgentConfig "10.244.0.1" "10.244.1.0/24" demo_seeds 100 "gnv0" "" [] 9527 0 120
    true 256 false 4096 "" "" 1420 false [] [] false "allow" [] [] 9090).
Definition demo_draw : nat -> Draw := fun _ => mkDraw 1 2 3.

Lemma health_loop_registers_witness :
  exists sent c', health_loop (fun _ _ => Ok tt) (SeedClient_new false)
      [(false, false, demo_seed_state, demo_draw); (false, false, demo_seed_state, demo_draw)] []
    = (sent, Ok c') /\ length (conns c') = 2%nat.
Proof.
  destruct (health_loop_registers (fun _ _ => Ok tt) (SeedClient_new false) demo_seed_state
    [demo_draw; demo_draw] [] (fun _ _ => eq_refl)) as (sent & c' & E & _ & _ & Hl).
  exists sent, c'. split; [exact E|]. exact Hl.
Defined.

(** The response to a relay query is parsed with the zero bytes behind it
    in the buffer, which JSON does not allow: every response shorter than
    the buffer is discarded, and no relay is ever found. *)
Theorem relay_never_found (send : list Sent -> Sent -> outcome string unit)
    (to_json : Message -> list byte) (parse_message : list byte -> outcome string Message)
    (fresh_recv : SocketAddr -> option (list byte)) (l : list SeedAddr) (target_ip : string)
    (draw : nat -> Draw) (tr : list Sent) :
  (forall m n, exists e, parse_message (to_json m ++ x00 :: replicate n x00) = Err e) ->
  (forall addr data, fresh_recv addr = Some data ->
     exists m, data = to_json m /\ (length data < 2048)%nat) ->
  (forall tr e, send tr e <> Panic) ->
  (try_relay send parse_message fresh_recv l target_ip draw tr).2 = Ok None.
Proof.
  intros Hjson Hrecv Hsend. revert draw tr. induction l as [|s l IH]; intros draw tr;
    cbn [try_relay]; [done|].
  destruct (parse_socket_addr (seed_addr s)) as [addr|]; [|apply IH].
  rewrite bind_run. unfold query_seed_for_relay. rewrite bind_run. unfold try, send_to, perform.
  pose proof (Hsend tr (mkSent addr (relay_msg target_ip (draw O)))) as Hs.
  assert ((data ← fresh_recv addr; relay_endpoint parse_message (relay_buf data)) = None) as Hnone.
  { destruct (fresh_recv addr) as [data|] eqn:E; [|done]. cbn [mbind option_bind].
    destruct (Hrecv _ _ E) as (m & -> & Hl). unfold relay_endpoint, relay_buf.
    rewrite take_ge by lia. replace (2048 - length (to_json m))%nat with (S (2047 - length (to_json m)))%nat by lia.
    cbn [replicate]. destruct (Hjson m (2047 - length (to_json m))%nat) as [e ->]. done. }
  destruct (send tr _); [rewrite Hnone; apply IH|apply IH|done].
Qed.

(** Messages as flat objects, enough to carry a relay. *)
Definition demo_to_json (m : Message) : list byte :=
  as_bytes (Flat.show [("type", msg_type m); ("relay_ip", default "" (relay_ip <$> relay m))]).
Definition demo_parse_message (bs : list byte) : outcome string Message :=
  l ← Flat.parse bs;
  Ok (mkMessage (default "" (assoc "type" l)) None 0 "" None None None
        ((fun ip => mkRelayInfo ip 9527) <$> assoc "relay_ip" l)).
Definition demo_relay_reply : list byte :=
  demo_to_json (mkMessage "relay" None 0 "" None None None (Some (mkRelayInfo "192.0.2.77" 9527))).

(** The reply would parse on its own. *)
Lemma relay_never_found_witness :
  is_Some (relay_endpoint demo_parse_message demo_relay_reply) /\
  (try_relay (fun _ _ => Ok tt) demo_parse_message (fun _ => Some demo_relay_reply) demo_seeds
    "10.244.0.7" demo_draw []).2 = Ok None.
Proof.
  split; [vm_compute; by eexists|].
  apply (relay_never_found (fun _ _ => Ok tt) demo_to_json).
  - intros m n. exists "trailing characters". unfold demo_parse_message, demo_to_json.
    by rewrite Flat.parse_show_nul.
  - intros addr data E. injection E as <-. eexists. split; [reflexivity|].
    apply Nat.ltb_lt. vm_compute. reflexivity.
  - done.
Defined.
