(* ===== verification/Peers.v ===== *)
(** * Nodes and a seed over UDP

    The registrations of [seed.rs] as they arrive at the receive loop of
    [protocol.rs] on a seed that has the same key. *)

From S2P Require Import Prelude RustStr Trace NetAddr Common Config Kernel BpfMgr Json Protocol Seed.

(** ** What registration sends *)

Section Sent.
Context (send : list Sent -> Sent -> outcome string unit).

Lemma register_seeds_sends (l : list SeedAddr) (c : SeedClient) (state : AgentState)
    (draw : nat -> Draw) (tr : list Sent) (e : Sent) :
  e ∈ (register_seeds send c state l draw tr).1 ->
  e ∈ tr \/ exists d, sent_msg e = register_msg state d.
Proof.
  revert c draw tr. induction l as [|s l IH]; intros c draw tr; cbn [register_seeds]; [by left|].
  destruct (parse_socket_addr (seed_addr s)) as [addr|]; [|apply IH].
  rewrite bind_run. unfold try, register. rewrite bind_run. unfold send_to, perform.
  assert (e ∈ tr ++ [mkSent addr (register_msg state (draw 0%nat))] ->
    e ∈ tr \/ exists d, sent_msg e = register_msg state d) as Hnew.
  { rewrite elem_of_app, list_elem_of_singleton. intros [?| ->]; [by left|right; by eexists]. }
  destruct (send tr _); cbn [mret Traced_ret]; [|..]; try (intros Hin; by apply Hnew);
    intros [Hin|Hin]%IH; auto.
Qed.

(** A delivery that carries a message [register_all] sent. *)
Definition carries_registration (to_json : Message -> list byte) (d : Delivery) : Prop :=
  exists c state draw e, e ∈ (register_all send c state draw []).1 /\
    dl_json d = Some (to_json (sent_msg e)).

Lemma carried_json (to_json : Message -> list byte) (d : Delivery) :
  carries_registration to_json d ->
  exists m, dl_json d = Some (to_json m) /\ msg_type m = "register".
Proof.
  intros (c & state & draw & e & He & Hj). exists (sent_msg e). split; [done|].
  apply register_seeds_sends in He as [He|[x ->]]; [by apply not_elem_of_nil in He|done].
Qed.
End Sent.

(** ** Properties *)

(** C15: a seed that starts with the key of its nodes handles every
    registration their [register_all] sends it, when it arrives within the
    window and with random bytes of its own: as a registration, exactly once
    each, however many nodes register.  That is all it does with them: the
    manager of its BPF maps is left as it was. *)
Theorem registrations_recognised (hmac : list byte -> list byte -> list byte)
    (to_json : Message -> list byte) (json_type : list byte -> option string)
    (send : list Sent -> Sent -> outcome string unit) {M R} (bpf : Mutex (BpfManager M R))
    (key : string) (ds : list Delivery) (buf : list byte) :
  (forall k d, length (hmac k d) = HMAC_SIZE) ->
  (forall m, json_type (to_json m) = Some (msg_type m)) ->
  Forall (carries_registration send to_json) ds -> Forall timely ds -> NoDup (dl_nonce <$> ds) ->
  Forall (fun d => (length (datagram hmac (udp_new key) d) <= length buf)%nat) ds ->
  exists seed', recv_loop hmac json_type (length ds) (udp_new key) bpf buf
      (deliver hmac (udp_new key) <$> ds)
    = Ok (seed', bpf, replicate (length ds) (Some MsgRegister)).
Proof.
  intros Hh Hjson Hreg Ht Hnd Hl.
  destruct (recv_loop_deliveries hmac Hh json_type bpf (udp_new key) ds (udp_new key) buf)
    as (seed' & E & _); try done.
  - by apply nonces_NoDup.
  - apply Forall_forall. intros d _. apply not_elem_of_nil.
  - exists seed'. rewrite E. do 2 f_equal. clear E Ht Hnd Hl.
    induction Hreg as [|d ds Hd _ IH]; [done|]. cbn [fmap list_fmap length replicate]. rewrite IH.
    destruct (carried_json send to_json d Hd) as (m & -> & Hm). cbn [default from_option id].
    by rewrite Hjson, Hm.
Qed.

(** ** Witness *)

(** The registration of a node with one seed, as its type. *)
Definition demo_registration : Delivery :=
  mkDelivery (Some (as_bytes "register")) 1000 (replicate 8 x01) (SockV4 (ipv4_new 192 0 2 1) 9527) 1001.

Lemma registrations_recognised_witness :
  exists seed', recv_loop demo_mac (fun bs => Some (String.string_of_list_byte bs)) 1 (udp_new "psk")
      demo_quiet (replicate 100 x00) [deliver demo_mac (udp_new "psk") demo_registration]
    = Ok (seed', demo_quiet, [Some MsgRegister]).
Proof.
  apply (registrations_recognised demo_mac (fun m => as_bytes (msg_type m))
    (fun bs => Some (String.string_of_list_byte bs)) (fun _ _ => Ok tt) demo_quiet "psk" [demo_registration]).
  - apply demo_mac_length.
  - intros m. by rewrite string_of_as_bytes.
  - constructor; [|constructor]. exists (SeedClient_new false), demo_seed_state, demo_draw.
    exists (mkSent (SockV4 (ipv4_new 192 0 2 9) 9527) (register_msg demo_seed_state (mkDraw 1 2 3))).
    split; [|reflexivity]. vm_compute. left.
  - constructor; [by vm_compute|constructor].
  - apply NoDup_singleton.
  - constructor; [apply Nat.leb_le; vm_compute; reflexivity|constructor].
Defined.
