(* ===== verification/Agent.v ===== *)
(** * Startup of the agent ([agent/src/main.rs], [agent/src/metrics.rs])

    The command line's dispatch, [run_agent] from the configuration file to
    the tasks it spawns, composed of the operations of the components, and
    the response of the metrics server.  What the environment supplies (the
    files, the loader, command outputs, the network, random draws) is a
    record. *)

From S2P Require Import Prelude RustStr Trace NetAddr Common Kernel BpfMgr Protocol Config Stun.
From S2P Require Import Json Api Route Ipsec Seed.

(** ** The command line *)

Inductive Command :=
| CmdAgent (config : string)
| CmdSeed (config : string)
| CmdCni
| CmdVersion.

(** What the program is asked to do. *)
Inductive Action :=
| RunAgent (config_path : string) (seed_mode : bool)
| RunCni
| PrintVersion (text : string).

Definition DEFAULT_CONFIG : string := "/etc/nomad-p2p/config.json".

(** The dispatch of [main] on the parsed subcommand, if any. *)
Definition dispatch (cmd : option Command) : Action :=
  match default (CmdAgent DEFAULT_CONFIG) cmd with
  | CmdAgent config => RunAgent config false
  | CmdSeed config => RunAgent config true
  | CmdCni => RunCni
  | CmdVersion => PrintVersion "nomad-p2p v0.4.0"
  end.

(** ** [run_agent] *)

Section Startup.
Context {M : Type -> Type} {R : Type} `{KernelMap M} `{Hex}.

Record AgentEnv := mkAgentEnv {
  e_read_config : string -> outcome string string;
  e_parse_config : string -> outcome string AgentConfig;
  e_now : Z;
  e_load_file : string -> outcome string (Bpf M R);
  e_route_show : outcome string string;
  e_link_show : string -> outcome string string;
  e_stun : StunNet;
  e_udp_bind : Z -> outcome string unit;
  e_send : list Sent -> Sent -> outcome string unit;
  e_draw : nat -> Draw;
  e_random_key : list byte
}.

(** What [run_agent] hands to [spawn_all], with the programs attached, the
    registrations sent and the tasks started. *)
Record AppContext := mkAppContext {
  ctx_state : AgentState;
  ctx_bpf : Mutex (BpfManager M R);
  ctx_attached : list string;
  ctx_proto : UdpProtocol;
  ctx_seed_client : SeedClient;
  ctx_sent : list Sent;
  ctx_route_mgr : RouteManager;
  ctx_containers : ContainerManager;
  ctx_ipsec : option IpsecManager;
  ctx_kad : KadChannel;
  ctx_tasks : list Task
}.

(** [r.context(msg)] *)
Definition context {A} (msg : string) (r : outcome string A) : outcome string A :=
  match r with Err _ => Err msg | r => r end.

(** The block that prepares the BPF manager. *)
Definition setup_bpf (env : AgentEnv) (c : AgentConfig)
    : outcome string (BpfManager M R * list string) :=
  bpf ← context "load BPF programs" (BpfMgr.load (e_load_file env));
  let '(bpf, r) := set_tunnel_cfg bpf (tunnel_vni c) in
  _ ← r;
  let ifindex := default 1 (ok (find_default_ifindex (e_route_show env) (e_link_show env))) in
  attached ← attach_all bpf ifindex;
  Ok (bpf, attached).

(** [ipsec_mgr] *)
Definition setup_ipsec (env : AgentEnv) (c : AgentConfig) : option IpsecManager :=
  if ipsec_enabled c then Some (ipsec_new (ipsec_spi c) (ipsec_key c) (e_random_key env)) else None.

Definition run_agent (env : AgentEnv) (config_path : string) (seed_mode : bool)
    : outcome string AppContext :=
  data ← context "read config" (e_read_config env config_path);
  c ← context "parse config" (e_parse_config env data);
  let state := AgentState_new (e_now env) c in
  '(b, attached) ← setup_bpf env c;
  let '(state, r) := discover (e_stun env) state in
  _ ← r;
  _ ← e_udp_bind env (listen_port (cfg state));
  let proto := udp_new (cfg_psk (cfg state)) in
  let '(sent, r) := register_all (e_send env) (SeedClient_new seed_mode) state (e_draw env) [] in
  client ← r;
  let '(api, r) := recover_from_bpf (mkApiState cm_new (mkMutex false b)) in
  _ ← r;
  let ipsec := setup_ipsec env (cfg state) in
  Ok (mkAppContext state (bpf api) attached proto client sent RouteManager_new (containers api) ipsec
        (mkKadChannel true []) (spawn_all (cfg state) (bool_decide (is_Some ipsec)))).

End Startup.
Arguments AgentEnv : clear implicits.
Arguments AppContext : clear implicits.

(** ** The metrics server *)

(** The response for an uptime in seconds and a NAT type. *)
Definition metrics_response (uptime : Z) (nat : NatType) : string :=
  "HTTP/1.1 200 OK" +:+ crlf +:+ "Content-Type: text/plain; version=0.0.4" +:+ crlf +:+ crlf
  +:+ "# HELP nomad_p2p_uptime_seconds Agent uptime" +:+ lf
  +:+ "# TYPE nomad_p2p_uptime_seconds gauge" +:+ lf
  +:+ "nomad_p2p_uptime_seconds " +:+ show_dec uptime +:+ lf
  +:+ "# HELP nomad_p2p_nat_type NAT type (0=unknown 1=easy 2=symmetric)" +:+ lf
  +:+ "# TYPE nomad_p2p_nat_type gauge" +:+ lf
  +:+ "nomad_p2p_nat_type " +:+ show_dec (nat_type_u8 nat) +:+ lf.

(** The events of [serve] after the bind: a connection (with [stop] read
    after it, the time in milliseconds of the monotonic clock and the state
    then), a failed accept, or the signal. *)
Inductive MetricsEvent :=
| MetricsConn (stop : bool) (now : Z) (s : AgentState)
| MetricsErr (stop : bool)
| MetricsCtrlC.

(** [serve]: the responses written *)
Fixpoint serve (evs : list MetricsEvent) : list string :=
  match evs with
  | [] => []
  | MetricsCtrlC :: _ => []
  | MetricsErr stop :: evs' => if (stop : bool) then [] else serve evs'
  | MetricsConn stop now s :: evs' =>
      if (stop : bool) then []
      else metrics_response (saturating_sub now (start_time s) / 1000) (nat_type s) :: serve evs'
  end.

(** ** Properties *)

Lemma load_no_policy {M R} (load_file : string -> outcome string (Bpf M R)) (b : BpfManager M R) :
  BpfMgr.load load_file = Ok b ->
  vip_map (maps b) = None /\ acl_map (maps b) = None /\ default_policy (maps b) = None.
Proof. unfold BpfMgr.load. intros E. by destruct (load_file "bin/mesh.bpf.o"); simplify_eq/=. Qed.

Lemma set_tunnel_no_policy {M R} `{KernelMap M} (b : BpfManager M R) (id : Z) :
  vip_map (maps (set_tunnel_cfg b id).1) = vip_map (maps b) /\
  acl_map (maps (set_tunnel_cfg b id).1) = acl_map (maps b) /\
  default_policy (maps (set_tunnel_cfg b id).1) = default_policy (maps b).
Proof. unfold set_tunnel_cfg. destruct (tunnel_cfg _); [|done]. by destruct (kinsert _ _ _). Qed.

Lemma attach_all_programs {M R} (b : BpfManager M R) (ifindex : Z) (l : list string) :
  attach_all b ifindex = Ok l -> sublist l ["xdp_pass"; "egress_p2p_mesh"].
Proof.
  unfold attach_all, attach_one. intros E.
  destruct (attach_program _ "xdp_pass") as [a1|]; [destruct (a1 ifindex); [|done..]|];
    cbn [mbind outcome_bind] in E;
    (destruct (attach_program _ "egress_p2p_mesh") as [a2|]; [destruct (a2 ifindex); [|done..]|]);
    cbn [mbind outcome_bind] in E; injection E as <-; cbn; repeat constructor.
Qed.

Lemma setup_bpf_inv {M R} `{KernelMap M} (env : AgentEnv M R) (c : AgentConfig)
    (b : BpfManager M R) (attached : list string) :
  setup_bpf env c = Ok (b, attached) ->
  vip_map (maps b) = None /\ acl_map (maps b) = None /\ default_policy (maps b) = None /\
  sublist attached ["xdp_pass"; "egress_p2p_mesh"].
Proof.
  unfold setup_bpf, context. intros E.
  destruct (BpfMgr.load (e_load_file env)) as [b0|?|] eqn:El; [|done..]. cbn [mbind outcome_bind] in E.
  apply load_no_policy in El as (Hv & Ha & Hd).
  pose proof (set_tunnel_no_policy b0 (tunnel_vni c)) as (Hv1 & Ha1 & Hd1).
  destruct (set_tunnel_cfg b0 (tunnel_vni c)) as [b1 [[]|?|]]; [|done..]. cbn [mbind outcome_bind fst] in *.
  destruct (attach_all b1 _) as [l|?|] eqn:Ea; [|done..]. cbn [mbind outcome_bind] in E.
  injection E as <- <-. apply attach_all_programs in Ea. by rewrite Hv1, Ha1, Hd1.
Qed.

(** The manager of a started agent is the loaded one with the tunnel
    identifier set, and the channel of queries is open and empty. *)
Lemma run_agent_manager {M R} `{KernelMap M} `{Hex} (env : AgentEnv M R) (path : string)
    (seed_mode : bool) (ctx : AppContext M R) :
  run_agent env path seed_mode = Ok ctx ->
  exists b id, BpfMgr.load (e_load_file env) = Ok b /\ inner (ctx_bpf ctx) = (set_tunnel_cfg b id).1 /\
    ctx_kad ctx = mkKadChannel true [].
Proof.
  unfold run_agent, setup_bpf, context. intros E.
  destruct (e_read_config env path) as [data|?|]; [|done..]. cbn [mbind outcome_bind] in E.
  destruct (e_parse_config env data) as [c|?|]; [|done..]. cbn [mbind outcome_bind] in E.
  destruct (BpfMgr.load (e_load_file env)) as [b|?|]; [|done..]. cbn [mbind outcome_bind] in E.
  destruct (set_tunnel_cfg b (tunnel_vni c)) as [b1 [[]|?|]] eqn:Et; [|done..]. cbn [mbind outcome_bind] in E.
  destruct (attach_all b1 _) as [l|?|]; [|done..]. cbn [mbind outcome_bind] in E.
  destruct (discover _ _) as [st [[]|?|]]; [|done..]. cbn [mbind outcome_bind] in E.
  destruct (e_udp_bind env _) as [[]|?|]; [|done..]. cbn [mbind outcome_bind] in E.
  destruct (register_all _ _ _ _ _) as [sent [client|?|]]; [|done..]. cbn in E. injection E as <-.
  exists b, (tunnel_vni c). by rewrite Et.
Qed.

(** C28: whatever the configuration (also with the firewall or hot reload
    expected) an agent that starts has attached at most the XDP program and
    the egress classifier, has no handle on the ACL, policy or VIP maps,
    starts with an empty container table, runs exactly the tasks of
    [spawn_all] for the parsed configuration, and not the configuration
    watcher. *)
Theorem agent_startup {M R} `{KernelMap M} `{Hex} (env : AgentEnv M R) (path : string)
    (seed_mode : bool) (ctx : AppContext M R) :
  run_agent env path seed_mode = Ok ctx ->
  (exists data, e_read_config env path = Ok data /\ e_parse_config env data = Ok (cfg (ctx_state ctx))) /\
  poisoned (ctx_bpf ctx) = false /\
  vip_map (maps (inner (ctx_bpf ctx))) = None /\ acl_map (maps (inner (ctx_bpf ctx))) = None /\
  default_policy (maps (inner (ctx_bpf ctx))) = None /\
  sublist (ctx_attached ctx) ["xdp_pass"; "egress_p2p_mesh"] /\
  ctx_containers ctx = ∅ /\
  ctx_tasks ctx = spawn_all (cfg (ctx_state ctx)) (ipsec_enabled (cfg (ctx_state ctx))) /\
  ConfigWatchLoop ∉ ctx_tasks ctx.
Proof.
  unfold run_agent, context at 1 2. intros E.
  destruct (e_read_config env path) as [data|?|] eqn:Er; [|done..]. cbn [mbind outcome_bind] in E.
  destruct (e_parse_config env data) as [c|?|] eqn:Ep; [|done..]. cbn [mbind outcome_bind] in E.
  destruct (setup_bpf env c) as [[b attached]|?|] eqn:Es; [|done..]. cbn [mbind outcome_bind] in E.
  apply setup_bpf_inv in Es as (Hv & Ha & Hd & Hsub).
  destruct (discover (e_stun env) (AgentState_new (e_now env) c)) as [st [[]|?|]] eqn:Edisc; [|done..].
  cbn [mbind outcome_bind] in E. apply discover_frame in Edisc as (Hcfg & _).
  destruct (e_udp_bind env _) as [[]|?|]; [|done..]. cbn [mbind outcome_bind] in E.
  destruct (register_all _ _ _ _ _) as [sent [client|?|]]; [|done..]. cbn in E. injection E as <-.
  cbn [ctx_state ctx_bpf ctx_attached ctx_containers ctx_tasks poisoned inner].
  assert (bool_decide (is_Some (setup_ipsec env (cfg st))) = ipsec_enabled (cfg st)) as ->.
  { unfold setup_ipsec. destruct (ipsec_enabled (cfg st)); [by apply bool_decide_eq_true_2|].
    apply bool_decide_eq_false_2. by intros [? ?]. }
  split_and!; try done.
  - exists data. by rewrite Hcfg.
  - apply spawn_all_tasks.
Qed.

(** A node whose object file has the two programs, and whose configuration
    asks for the firewall. *)
Definition demo_agent_env : AgentEnv bmap ring :=
  mkAgentEnv (fun _ => Ok "config")
    (fun _ => Ok (with_firewall_enabled AgentConfig_default true)) 0
    (fun f => if String.eqb f "bin/mesh.bpf.o"
              then Ok (mkBpf (fun _ => Some (mkBmap 8 ∅)) (fun _ => Some (mkBmap 8 ∅)) (fun _ => Some (mkBmap 1 ∅))
                         (fun _ => Some (mkRing 16 []))
                         (fun _ => Some (fun _ => Ok tt)))
              else Err "no such file")
    (Err "ip: not found") (fun _ => Err "ip: not found") demo_symmetric_net (fun _ => Ok tt)
    (fun _ _ => Ok tt) demo_draw [].

Lemma agent_startup_witness :
  exists ctx, run_agent demo_agent_env DEFAULT_CONFIG false = Ok ctx /\
    firewall_enabled (cfg (ctx_state ctx)) = true /\
    ctx_attached ctx = ["xdp_pass"; "egress_p2p_mesh"] /\
    acl_map (maps (inner (ctx_bpf ctx))) = None.
Proof.
  eexists. split; [reflexivity|]. split; [reflexivity|]. split; [reflexivity|].
  apply (agent_startup demo_agent_env DEFAULT_CONFIG false). reflexivity.
Defined.
