(* ===== verification/Xtask.v ===== *)
(** * The build driver ([xtask/src/main.rs])

    The commands it runs and the file it installs.  The last theorem relates
    its product to the object files the agent loads. *)

From S2P Require Import Prelude Trace Kernel BpfMgr.

Inductive BuildCommand := BuildEbpf | BuildAgent | BuildCni | BuildAll.

Inductive BuildEvent :=
| Cargo (argv : list string)
| CreateDir (path : string)
| Copy (src dst : string).

(** The status of cargo, and whether a copy succeeds. *)
Record BuildEnv := mkBuildEnv {
  cargo_status : list BuildEvent -> list string -> outcome string bool;
  copy_result : list BuildEvent -> string -> string -> outcome string unit
}.

Section Build.
Context (env : BuildEnv).

(** [Command::new("cargo").args(argv).status().context(ctx)?] and the check
    of the status. *)
Definition cargo (argv : list string) (ctx failed : string) : Traced BuildEvent unit :=
  status ← perform (Cargo argv)
             (fun tr => match cargo_status env tr argv with Err _ => Err ctx | r => r end);
  if (status : bool) then mret tt else lift (Err failed).

Definition EBPF_OBJECT : string := "target/bpfel-unknown-none/release/nomad-p2p-ebpf".
Definition MESH_OBJECT : string := "bin/mesh.bpf.o".

(** A failed copy is only printed. *)
Definition build_ebpf : Traced BuildEvent unit :=
  _ ← cargo ["+nightly"; "build"; "--package"; "nomad-p2p-ebpf"; "--target"; "bpfel-unknown-none";
             "--release"; "-Z"; "build-std=core"] "build eBPF" "eBPF build failed";
  _ ← perform (CreateDir "bin") (fun _ => Ok tt);
  _ ← try (perform (Copy EBPF_OBJECT MESH_OBJECT)
             (fun tr => copy_result env tr EBPF_OBJECT MESH_OBJECT));
  mret tt.

Definition build_agent : Traced BuildEvent unit :=
  cargo ["build"; "--package"; "nomad-p2p-agent"; "--release"] "build agent" "agent build failed".

Definition build_cni : Traced BuildEvent unit :=
  cargo ["build"; "--package"; "nomad-p2p-cni"; "--release"] "build cni" "CNI build failed".

Definition xtask_main (cmd : option BuildCommand) : Traced BuildEvent unit :=
  match default BuildAll cmd with
  | BuildEbpf => build_ebpf
  | BuildAgent => build_agent
  | BuildCni => build_cni
  | BuildAll => _ ← build_ebpf; _ ← build_agent; build_cni
  end.
End Build.

(** The files a build installed. *)
Definition installed (tr : list BuildEvent) : list string :=
  omap (fun e => match e with Copy _ dst => Some dst | _ => None end) tr.

(** A loader that finds exactly the installed files. *)
Definition loader_of {M R} (tr : list BuildEvent) (obj : Bpf M R) (path : string)
    : outcome string (Bpf M R) :=
  if bool_decide (path ∈ installed tr) then Ok obj else Err "no such file".

Lemma cargo_run (env : BuildEnv) (argv : list string) (c f : string) (tr : list BuildEvent) :
  (forall tr a, cargo_status env tr a = Ok true) ->
  cargo env argv c f tr = (tr ++ [Cargo argv], Ok tt).
Proof. intros Hc. unfold cargo, perform. by rewrite bind_run, Hc. Qed.

(** A build of everything that succeeds installs the mesh object only, so
    the agent that loads what it installed has neither the firewall nor the
    VIP object. *)
Theorem build_all_installs_mesh_only {M R} (env : BuildEnv) (obj : Bpf M R) (b : BpfManager M R) :
  (forall tr a, cargo_status env tr a = Ok true) ->
  (forall tr s d, copy_result env tr s d = Ok tt) ->
  installed (xtask_main env None []).1 = [MESH_OBJECT] /\ (xtask_main env None []).2 = Ok tt /\
  (BpfMgr.load (loader_of (xtask_main env None []).1 obj) = Ok b -> fw b = None /\ vip_obj b = None).
Proof.
  intros Hc Hcopy.
  assert (exists a1 a2 a3, xtask_main env None []
    = ([Cargo a1; CreateDir "bin"; Copy EBPF_OBJECT MESH_OBJECT; Cargo a2; Cargo a3], Ok tt))
    as (a1 & a2 & a3 & ->).
  { cbn [xtask_main from_option]. rewrite bind_run. unfold build_ebpf.
    rewrite bind_run, cargo_run by done. rewrite bind_run. unfold perform at 1.
    rewrite bind_run. unfold try, perform. rewrite Hcopy.
    unfold build_agent, build_cni. cbn [mret Traced_ret]. rewrite bind_run, cargo_run, cargo_run by done.
    cbn [app]. by eexists _, _, _. }
  split_and!; [done..|]. intros E. unfold BpfMgr.load, loader_of in E. cbn in E. by simplify_eq/=.
Qed.
