(* ===== verification/Kademlia.v ===== *)
(** * The Kademlia network ([agent/src/kademlia.rs])

    The module is left out of the build ([lib.rs] comments it out) until the
    libp2p interface settles.  [build_p2p] is modelled as the calls it makes
    on libp2p and the network it assembles from their results; the loop as
    what it asks of the DHT for its timer, the route misses and the events of
    the swarm.  What libp2p answers is the record [Libp2p]; its types of key
    pairs, peers and addresses are parameters. *)

From S2P Require Import Prelude RustStr NetAddr Trace Common Config Json.

(** ** Building the network *)

Definition GOSSIP_TOPIC : string := "nomad-p2p/config".

(** The gossipsub parameters that the builder sets here, and
    [mesh_outbound_min], which keeps the library's default. *)
Record GossipConfig := mkGossipConfig {
  mesh_outbound_min : Z;
  mesh_n : Z;
  mesh_n_low : Z;
  mesh_n_high : Z;
  history_length : Z;
  history_gossip : Z
}.

(** The builder's setters, in the order of the code, on a default. *)
Definition gossip_config (dflt : GossipConfig) : GossipConfig :=
  mkGossipConfig (mesh_outbound_min dflt) 6 4 12 5 3.

(** What [ConfigBuilder::build] documents of these parameters: the history
    covers the gossip, and the mesh sizes are ordered. *)
Definition gossip_valid (c : GossipConfig) : bool :=
  (history_gossip c <=? history_length c) && (mesh_outbound_min c <=? mesh_n_low c) &&
  (mesh_n_low c <=? mesh_n c) && (mesh_n c <=? mesh_n_high c) &&
  (mesh_outbound_min c * 2 <=? mesh_n c).

Section Build.
Context {Keypair PeerId Multiaddr : Type}.

(** The network's parts as they are configured.  Times are in seconds. *)
Record TransportCfg := mkTransportCfg { tcp_nodelay : bool; noise_key : Keypair; transport_timeout : Z }.
Record KadBehaviour := mkKadBehaviour { kad_local : PeerId; store_local : PeerId; query_timeout : Z }.
Record GossipBehaviour := mkGossipBehaviour {
  signed_by : Keypair; gossip_cfg : GossipConfig; topics : list string }.
Record IdentifyCfg := mkIdentifyCfg {
  identify_protocol : string; identify_key : Keypair; push_updates : bool; identify_interval : Z }.

Record P2pBehaviour := mkP2pBehaviour {
  kademlia : KadBehaviour;
  gossipsub : GossipBehaviour;
  identify : IdentifyCfg;
  ping_interval : Z
}.

Record P2pNetwork := mkP2pNetwork {
  transport : TransportCfg;
  behaviour : P2pBehaviour;
  local_peer_id : PeerId
}.

(** What the network does towards others while it is built. *)
Inductive P2pEvent :=
| Subscribe (topic : string)
| ListenOn (addr : Multiaddr)
| Dial (addr : Multiaddr).

(** The answers of libp2p. *)
Record Libp2p := mkLibp2p {
  generate_ed25519 : Keypair;
  peer_id_of : Keypair -> PeerId;
  noise_new : Keypair -> outcome string unit;
  gossip_default : GossipConfig;
  gossip_build : GossipConfig -> outcome string unit;
  gossip_new : Keypair -> GossipConfig -> outcome string unit;
  gossip_subscribe : string -> outcome string unit;
  parse_multiaddr : string -> outcome string Multiaddr;
  listen_on : Multiaddr -> outcome string unit;
  dial : Multiaddr -> outcome string unit
}.

(** [.map_err(|e| anyhow!("<what>: {}", e))] *)
Definition map_err {A} (what : string) (r : outcome string A) : outcome string A :=
  match r with Err e => Err (what +:+ ": " +:+ e) | r => r end.

(** [format!("/ip4/0.0.0.0/tcp/{}", port)] *)
Definition listen_addr (port : Z) : string := "/ip4/0.0.0.0/tcp/" +:+ show_dec port.

(** The loop over the seeds: an address that does not parse is skipped, and
    the result of the dial is dropped. *)
Definition dial_seed (lib : Libp2p) (seed : string) : Traced P2pEvent unit :=
  match parse_multiaddr lib seed with
  | Ok addr => _ ← try (perform (Dial addr) (fun _ => dial lib addr)); mret tt
  | Err _ => mret tt
  | Panic => lift Panic
  end.

Definition the_network (lib : Libp2p) : P2pNetwork :=
  let local_key := generate_ed25519 lib in
  let local_peer := peer_id_of lib local_key in
  mkP2pNetwork (mkTransportCfg true local_key 20)
    (mkP2pBehaviour (mkKadBehaviour local_peer local_peer 10)
       (mkGossipBehaviour local_key (gossip_config (gossip_default lib)) [GOSSIP_TOPIC])
       (mkIdentifyCfg "/nomad-p2p/identify/1.0.0" local_key true 60) 30)
    local_peer.

Definition build_p2p (lib : Libp2p) (state : AgentState) (seed_addrs : list string)
    : Traced P2pEvent P2pNetwork :=
  let local_key := generate_ed25519 lib in
  _ ← lift (map_err "noise" (noise_new lib local_key));
  let gossipsub_config := gossip_config (gossip_default lib) in
  _ ← lift (map_err "gossipsub" (gossip_build lib gossipsub_config));
  _ ← lift (map_err "gossipsub" (gossip_new lib local_key gossipsub_config));
  _ ← perform (Subscribe GOSSIP_TOPIC)
        (fun _ => map_err "subscribe" (gossip_subscribe lib GOSSIP_TOPIC));
  let listen_port := p2p_port (cfg state) in
  _ ← (if 0 <? listen_port then
         addr ← lift (parse_multiaddr lib (listen_addr listen_port));
         perform (ListenOn addr) (fun _ => listen_on lib addr)
       else mret tt);
  _ ← for_each (dial_seed lib) seed_addrs;
  mret (the_network lib).

End Build.
Arguments TransportCfg : clear implicits.
Arguments KadBehaviour : clear implicits.
Arguments GossipBehaviour : clear implicits.
Arguments IdentifyCfg : clear implicits.
Arguments P2pBehaviour : clear implicits.
Arguments P2pNetwork : clear implicits.
Arguments P2pEvent : clear implicits.
Arguments Libp2p : clear implicits.

(** ** The loop *)

(** A record: [RecordKey::new(&k)] is the bytes of [k]. *)
Record KadRecord := mkKadRecord { rec_key : list byte; rec_value : list byte }.

(** The calls on the behaviour, and what is logged. *)
Inductive KadCall :=
| Bootstrap
| PutRecord (r : KadRecord)
| GetRecord (key : list byte)
| Log (text : string).

(** The results of a query that the loop distinguishes. *)
Inductive QueryResult :=
| GetRecordOk (values : list (list byte))
| PutRecordOk
| OtherResult.

(** The events of the swarm that it distinguishes; keys, peers and addresses
    as libp2p prints them. *)
Inductive SwarmEvent :=
| OutboundQueryCompleted (r : QueryResult)
| IdentifyReceived (public_key : string)
| GossipMessage (data : list byte)
| NewListenAddr (address : string)
| ConnectionEstablished (peer_id : string)
| ConnectionClosed (peer_id : string)
| OtherEvent.

(** What wakes the loop: the bootstrap interval with the state then, a query
    from the channel ([None]: closed), or an event of the swarm ([None]: the
    stream has ended). *)
Inductive KadEvent :=
| KadTick (s : AgentState)
| KadQuery (overlay_ip : option Z)
| KadSwarm (event : option SwarmEvent).

(** The values of the JSON object published. *)
Inductive JsonScalar :=
| JStr (s : string)
| JNum (n : Z).

(** [String::from_utf8(bytes)], logged after [label] when it is text *)
Definition log_text (label : string) (data : list byte) : list KadCall :=
  let text := String.string_of_list_byte data in
  if valid_utf8 text then [Log (label +:+ text)] else [].

(** The [match event]. *)
Definition on_swarm (event : option SwarmEvent) : list KadCall :=
  match event with
  | Some (OutboundQueryCompleted (GetRecordOk values)) => concat (map (log_text "Kad GET: ") values)
  | Some (OutboundQueryCompleted PutRecordOk) => [Log "Kad PUT succeeded"]
  | Some (OutboundQueryCompleted OtherResult) => []
  | Some (IdentifyReceived key) => [Log ("identified peer: " +:+ key)]
  | Some (GossipMessage data) => log_text "gossip: " data
  | Some (NewListenAddr a) => [Log ("listening on " +:+ a)]
  | Some (ConnectionEstablished p) => [Log ("connected to " +:+ p)]
  | Some (ConnectionClosed p) => [Log ("disconnected from " +:+ p)]
  | Some OtherEvent | None => []
  end.

Section Loop.
(** [serde_json::json!({...}).to_string()] of an object. *)
Context (json_text : list (string * JsonScalar) -> string).

Definition put_key (s : AgentState) : list byte := as_bytes (node_overlay_ip (cfg s)).
Definition get_key (ip : Z) : list byte := to_be_bytes 4 ip.

Definition node_record (s : AgentState) : KadRecord :=
  mkKadRecord (put_key s)
    (as_bytes (json_text
       [("public_ip", JStr (show_ipv4 (public_ip s))); ("public_port", JNum (public_port s));
        ("overlay_ip", JStr (node_overlay_ip (cfg s))); ("subnet", JStr (node_subnet (cfg s)))])).

Definition kad_step (e : KadEvent) : list KadCall :=
  match e with
  | KadTick s => [Bootstrap; PutRecord (node_record s)]
  | KadQuery (Some ip) => [GetRecord (get_key ip)]
  | KadQuery None => []
  | KadSwarm event => on_swarm event
  end.

(** [kademlia_loop]: each event comes with [stop] as read in the tick branch
    and at the end of the round. *)
Fixpoint kademlia_loop (evs : list (KadEvent * bool * bool)) : list KadCall :=
  match evs with
  | [] => []
  | (e, stop, stop') :: evs' =>
      match e, (stop : bool) with
      | KadTick _, true => []
      | _, _ => kad_step e ++ (if (stop' : bool) then [] else kademlia_loop evs')
      end
  end.
End Loop.

(** ** Lemmas *)

(** The parameters the code chooses are valid with the default the library
    documents for the outbound minimum, and any smaller one. *)
Lemma gossip_config_valid (dflt : GossipConfig) :
  mesh_outbound_min dflt <= 3 -> gossip_valid (gossip_config dflt) = true.
Proof.
  intros H. unfold gossip_valid. cbn [gossip_config mesh_outbound_min mesh_n mesh_n_low mesh_n_high
    history_length history_gossip].
  replace (mesh_outbound_min dflt <=? 4) with true by (symmetry; apply Z.leb_le; lia).
  by replace (mesh_outbound_min dflt * 2 <=? 6) with true by (symmetry; apply Z.leb_le; lia).
Qed.

(** Only the swarm's events are logged. *)
Lemma log_text_logs (label : string) (data : list byte) (c : KadCall) :
  c ∈ log_text label data -> exists t, c = Log t.
Proof. unfold log_text. case_match; [|by intros ?%not_elem_of_nil]. intros ->%list_elem_of_singleton. eauto. Qed.

Lemma on_swarm_logs (e : option SwarmEvent) (c : KadCall) : c ∈ on_swarm e -> exists t, c = Log t.
Proof.
  destruct e as [[[vs| |]| | | | | |]|]; cbn [on_swarm]; try (intros ?%not_elem_of_nil; done);
    try (intros ->%list_elem_of_singleton; by eexists); [|apply log_text_logs].
  intros (l & Hl & Hc)%list_elem_of_In%in_concat. apply in_map_iff in Hl as (v & <- & _).
  apply (log_text_logs "Kad GET: " v). by apply list_elem_of_In.
Qed.

Lemma kademlia_calls (json_text : list (string * JsonScalar) -> string) (evs : list (KadEvent * bool * bool)) (c : KadCall) :
  c ∈ kademlia_loop json_text evs ->
  exists e, e ∈ evs.*1.*1 /\ c ∈ kad_step json_text e.
Proof.
  induction evs as [|[[e st] st'] evs IH]; cbn [kademlia_loop]; [by intros ?%not_elem_of_nil|].
  intros Hin. assert (c ∈ kad_step json_text e ++ (if st' then [] else kademlia_loop json_text evs)) as Hc.
  { destruct e, st; try done; by apply not_elem_of_nil in Hin. }
  apply elem_of_app in Hc as [Hc|Hc]; [exists e; split; [by left|done]|].
  destruct st'; [by apply not_elem_of_nil in Hc|].
  destruct (IH Hc) as (e' & He & Hs). exists e'. split; [by right|done].
Qed.

(** ** Properties *)

(** The keys looked up and the keys published never agree: a published key
    is the text of an address (seven bytes at least), a key looked up has
    four bytes.  So no node ever finds another's record. *)
Theorem kad_keys_disjoint (json_text json_text' : list (string * JsonScalar) -> string)
    (publisher reader : list (KadEvent * bool * bool)) (r : KadRecord) (key : list byte) :
  (forall s, KadTick s ∈ publisher.*1.*1 -> exists ip, node_overlay_ip (cfg s) = show_ipv4 ip) ->
  PutRecord r ∈ kademlia_loop json_text publisher ->
  GetRecord key ∈ kademlia_loop json_text' reader ->
  rec_key r <> key.
Proof.
  intros Hcfg Hput Hget.
  apply kademlia_calls in Hput as (e1 & He1 & H1). apply kademlia_calls in Hget as (e2 & _ & H2).
  destruct e1 as [s|[ip1|]|ev1]; cbn [kad_step] in H1;
    [|by apply list_elem_of_singleton in H1|by apply not_elem_of_nil in H1
     |by apply on_swarm_logs in H1 as [? ?]].
  destruct e2 as [s2|[ip|]|ev2]; cbn [kad_step] in H2;
    [by rewrite !elem_of_cons, elem_of_nil in H2; destruct_or?| |by apply not_elem_of_nil in H2
     |by apply on_swarm_logs in H2 as [? ?]].
  apply elem_of_cons in H1 as [[=]|H1%list_elem_of_singleton]. apply list_elem_of_singleton in H2.
  injection H1 as ->. injection H2 as ->. cbn [rec_key node_record]. destruct (Hcfg s He1) as [a Ha].
  unfold put_key, get_key. rewrite Ha. intros E. apply (f_equal length) in E.
  rewrite length_as_bytes, length_to_be_bytes in E. pose proof (show_ipv4_len a). lia.
Qed.

(** A library whose addresses are their text, which must start with a
    slash, and in which every dial fails. *)
Definition demo_libp2p : Libp2p string string string :=
  mkLibp2p "key" (fun k => "peer of " +:+ k) (fun _ => Ok tt) (mkGossipConfig 2 6 5 12 5 3)
    (fun c => if gossip_valid c then Ok tt else Err "invalid mesh") (fun _ _ => Ok tt)
    (fun _ => Ok tt) (fun s => if starts_with s "/" then Ok s else Err "invalid multiaddr")
    (fun _ => Ok tt) (fun _ => Err "unreachable").

(** Two seeds, the second in the format of the UDP seeds: it is skipped. *)
Example demo_build_p2p :
  build_p2p demo_libp2p (AgentState_new 0 AgentConfig_default)
    ["/ip4/192.0.2.9/tcp/4001"; "192.0.2.9:9527"] []
  = ([Subscribe GOSSIP_TOPIC; Dial "/ip4/192.0.2.9/tcp/4001"], Ok (the_network demo_libp2p)).
Proof. reflexivity. Qed.
