(* ===== verification/World.v ===== *)
(** * A node as a transition system ([AppContext::spawn_all] in
      [agent/src/lib.rs])

    The state the tasks of a running agent share, every task of [spawn_all]
    as steps on it, and the kernel's programs running on the same maps.  A
    step is one critical section or one round of a task, so that commands,
    received messages, the addresses of a discovery batch, health ticks, STUN
    refreshes, key rotations, the VIPs of a probing round, frames and
    connections interleave freely.  The metrics server only reads and has no
    step.  The theorems hold in every state reachable from what [run_agent]
    hands to [spawn_all]. *)

From S2P Require Import Prelude RustStr Trace NetAddr Common Kernel Ebpf BpfMgr Protocol Config Stun.
From S2P Require Import Json Api ApiRace Route Vip Ipsec Seed Agent.

Section World.
Context {M : Type -> Type} {R : Type}.

(** The fields of [AppContext] after [spawn_all] (the [stop] flag is how far
    a run goes), the tasks still running, the commands in flight, the
    addresses the discovery loop still has to handle, and the maps of the
    programs the agent has no handle on. *)
Record World := mkWorld {
  w_state : AgentState;
  w_bpf : Mutex (BpfManager M R);
  w_proto : UdpProtocol;
  w_seed_client : SeedClient;
  w_sent : list Sent;
  w_routes : RouteManager;
  w_containers : ContainerManager;
  w_ipsec : option (Mutex IpsecManager);
  w_kad : option KadChannel;
  w_tasks : list Task;
  w_cmds : list cmd_phase;
  w_batch : list Z;
  w_own : BpfState M R
}.

Definition manager (w : World) : BpfManager M R := inner (w_bpf w).

(** ** The maps as the programs see them *)

(** A handle of the manager is the program's map itself; where the manager
    has none the program has its own. *)
Definition publish (b : BpfManager M R) (k : BpfState M R) : BpfState M R :=
  let x := maps b in
  mkBpfState (default (CONTAINER_ROUTE_MAP k) (container_route x))
    (default (NODE_DYNAMIC_MAP k) (node_dynamic x)) (default (ROUTE_MISS_RINGBUF k) (ringbuf b))
    (default (GENEVE_IFINDEX_MAP k) (geneve_ifindex x)) (default (TUNNEL_CFG_MAP k) (tunnel_cfg x))
    (default (VIP_MAP k) (vip_map x)) (default (ACL_MAP k) (acl_map x))
    (default (DEFAULT_POLICY k) (default_policy x)).

(** What a program wrote, as the manager's handles see it. *)
Definition observe (k : BpfState M R) (b : BpfManager M R) : BpfManager M R :=
  let x := maps b in
  mkBpfManager (mesh b) (fw b) (vip_obj b)
    (mkBpfMaps ((fun _ => CONTAINER_ROUTE_MAP k) <$> container_route x)
       ((fun _ => NODE_DYNAMIC_MAP k) <$> node_dynamic x)
       ((fun _ => GENEVE_IFINDEX_MAP k) <$> geneve_ifindex x)
       ((fun _ => TUNNEL_CFG_MAP k) <$> tunnel_cfg x) ((fun _ => VIP_MAP k) <$> vip_map x)
       ((fun _ => ACL_MAP k) <$> acl_map x) ((fun _ => DEFAULT_POLICY k) <$> default_policy x))
    (pinned b) ((fun _ => ROUTE_MISS_RINGBUF k) <$> ringbuf b).

Definition kernel (w : World) : BpfState M R := publish (manager w) (w_own w).

(** ** Updates of the state *)

Definition set_bpf (w : World) (m : Mutex (BpfManager M R)) : World :=
  mkWorld (w_state w) m (w_proto w) (w_seed_client w) (w_sent w) (w_routes w) (w_containers w)
    (w_ipsec w) (w_kad w) (w_tasks w) (w_cmds w) (w_batch w) (w_own w).

Definition set_state (w : World) (s : AgentState) : World :=
  mkWorld s (w_bpf w) (w_proto w) (w_seed_client w) (w_sent w) (w_routes w) (w_containers w)
    (w_ipsec w) (w_kad w) (w_tasks w) (w_cmds w) (w_batch w) (w_own w).

Definition set_proto (w : World) (p : UdpProtocol) : World :=
  mkWorld (w_state w) (w_bpf w) p (w_seed_client w) (w_sent w) (w_routes w) (w_containers w)
    (w_ipsec w) (w_kad w) (w_tasks w) (w_cmds w) (w_batch w) (w_own w).

Definition set_client (w : World) (c : SeedClient) (sent : list Sent) : World :=
  mkWorld (w_state w) (w_bpf w) (w_proto w) c sent (w_routes w) (w_containers w) (w_ipsec w)
    (w_kad w) (w_tasks w) (w_cmds w) (w_batch w) (w_own w).

Definition set_routes (w : World) (rm : RouteManager) (batch : list Z) : World :=
  mkWorld (w_state w) (w_bpf w) (w_proto w) (w_seed_client w) (w_sent w) rm (w_containers w)
    (w_ipsec w) (w_kad w) (w_tasks w) (w_cmds w) batch (w_own w).

Definition set_ipsec (w : World) (m : option (Mutex IpsecManager)) : World :=
  mkWorld (w_state w) (w_bpf w) (w_proto w) (w_seed_client w) (w_sent w) (w_routes w)
    (w_containers w) m (w_kad w) (w_tasks w) (w_cmds w) (w_batch w) (w_own w).

Definition set_kad (w : World) (q : option KadChannel) : World :=
  mkWorld (w_state w) (w_bpf w) (w_proto w) (w_seed_client w) (w_sent w) (w_routes w)
    (w_containers w) (w_ipsec w) q (w_tasks w) (w_cmds w) (w_batch w) (w_own w).

Definition set_api (w : World) (s : ApiState (BpfManager M R)) (ts : list cmd_phase) : World :=
  mkWorld (w_state w) (bpf s) (w_proto w) (w_seed_client w) (w_sent w) (w_routes w) (containers s)
    (w_ipsec w) (w_kad w) (w_tasks w) ts (w_batch w) (w_own w).

(** A task that panics is gone; the others go on. *)
Definition end_task (w : World) (t : Task) : World :=
  mkWorld (w_state w) (w_bpf w) (w_proto w) (w_seed_client w) (w_sent w) (w_routes w)
    (w_containers w) (w_ipsec w) (w_kad w) (List.filter (fun t' => negb (bool_decide (t' = t))) (w_tasks w))
    (w_cmds w) (w_batch w) (w_own w).

(** The maps as a program left them. *)
Definition set_kernel (w : World) (k : BpfState M R) : World :=
  mkWorld (w_state w) (mkMutex (poisoned (w_bpf w)) (observe k (manager w))) (w_proto w)
    (w_seed_client w) (w_sent w) (w_routes w) (w_containers w) (w_ipsec w) (w_kad w) (w_tasks w)
    (w_cmds w) (w_batch w) k.

(** The ring buffer has a lock of its own. *)
Definition set_ring (w : World) (rb : option R) : World :=
  let b := manager w in
  set_bpf w (mkMutex (poisoned (w_bpf w))
               (mkBpfManager (mesh b) (fw b) (vip_obj b) (maps b) (pinned b) rb)).

Section Steps.
Context {V P : Type} `{KernelMap M} `{KernelRing R} `{Json V} `{TcContext P}.
Context (hmac : list byte -> list byte -> list byte) (json_type : list byte -> option string).
Context (send : list Sent -> Sent -> outcome string unit) (redirect : Z -> Z -> Z).

(** [run_agent]'s context after [spawn_all]: the sender of the channel is
    with the discovery loop, its receiver is dropped with the rest of
    [self]. *)
Definition spawned (ctx : AppContext M R) (own : BpfState M R) : World :=
  mkWorld (ctx_state ctx) (ctx_bpf ctx) (ctx_proto ctx) (ctx_seed_client ctx) (ctx_sent ctx)
    (ctx_route_mgr ctx) (ctx_containers ctx) (mkMutex false <$> ctx_ipsec ctx)
    (Some (kad_drop_rx (ctx_kad ctx))) (ctx_tasks ctx) [] [] own.

(** An address of the batch handled: the query is sent, then the lock taken;
    a poisoned lock ends the task. *)
Definition after_discover (w : World) (a : Z) (rest : list Z) : World :=
  let w := set_kad (set_routes w (w_routes w) rest) ((fun tx => (kad_send tx a).1) <$> w_kad w) in
  if poisoned (w_bpf w) then end_task w DiscoveryLoop
  else set_bpf w (mkMutex false (bpf_update_container_route (manager w) a 1).1).

(** One step of a task or of a program. *)
Inductive world_step : World -> World -> Prop :=
(** [api_server]: a request has arrived; a critical section of a command *)
| StepAccept (w : World) (port : Z) (body : list byte) :
    ApiServer port ∈ w_tasks w ->
    world_step w (set_api w (mkApiState (w_containers w) (w_bpf w)) (w_cmds w ++ [ApiRace.Received body]))
| StepApi (w : World) (checks : bool) (s : ApiState (BpfManager M R)) (ts : list cmd_phase) :
    api_step V checks (mkApiState (w_containers w) (w_bpf w), w_cmds w) (s, ts) ->
    world_step w (set_api w s ts)
(** [recv_loop]: the datagrams up to the next message, and its handling *)
| StepRecv (w : World) (buf : list byte) (evs : list RecvEvent) (p : UdpProtocol)
    (m : Mutex (BpfManager M R)) (ms : list (option PeerMessage)) :
    RecvLoop ∈ w_tasks w ->
    recv_loop hmac json_type 1 (w_proto w) (w_bpf w) buf evs = Ok (p, m, ms) ->
    world_step w (set_proto (set_bpf w m) p)
(** [seed::health_loop]: a tick *)
| StepHealth (w : World) (draw : nat -> Draw) (sent : list Sent) (c : SeedClient) :
    SeedHealthLoop ∈ w_tasks w ->
    health_loop send (w_seed_client w) [(false, false, w_state w, draw)] (w_sent w) = (sent, Ok c) ->
    world_step w (set_client w c sent)
(** [stun::refresh_loop]: a tick, which may end the task *)
| StepRefresh (w : World) (interval : Z) (net : StunNet) (s : AgentState) (changed : option bool) :
    StunRefreshLoop interval ∈ w_tasks w -> refresh_round net (w_state w) = (s, changed) ->
    world_step w (let w := set_state w s in
                  if changed is Some _ then w else end_task w (StunRefreshLoop interval))
(** [route::ringbuf_consumer]: a round *)
| StepConsume (w : World) (rb : option R) (rm : RouteManager) :
    RingbufConsumer ∈ w_tasks w -> consume_one (ringbuf (manager w)) (w_routes w) = (rb, rm) ->
    world_step w (set_ring (set_routes w rm (w_batch w)) rb)
(** [route::discovery_loop]: the queue drained at a tick; an address of the
    batch handled *)
| StepDrain (w : World) (now : Z) (rm : RouteManager) (batch : list Z) :
    DiscoveryLoop ∈ w_tasks w -> w_batch w = [] -> drain_batch (w_routes w) now = (rm, batch) ->
    world_step w (set_routes w rm batch)
| StepDiscover (w : World) (a : Z) (rest : list Z) :
    DiscoveryLoop ∈ w_tasks w -> w_batch w = a :: rest -> world_step w (after_discover w a rest)
(** [ipsec::ipsec_loop]: a tick *)
| StepIpsec (w : World) (m : Mutex IpsecManager) (random : list byte) :
    IpsecLoop ∈ w_tasks w -> w_ipsec w = Some m ->
    world_step w (set_ipsec w (Some (ipsec_loop (cfg (w_state w)) m [(false, false, random)])))
(** [vip::probe_loop]: one VIP *)
| StepProbe (w : World) (probe : Ipv4Addr -> Z -> bool) (vip : string) :
    VipProbeLoop ∈ w_tasks w ->
    world_step w (set_bpf w (probe_vip probe
      (init_monitor VipMonitor_new (vip_backends (cfg (w_state w)))) (w_bpf w) vip))
(** the egress classifier on a frame *)
| StepEgress (w : World) (p p' : P) (code : Z) (k : BpfState M R) :
    egress_p2p_mesh redirect (kernel w) p = Ok (code, k, p') -> world_step w (set_kernel w k)
(** a connection's write of a VIP entry ([VipRace] has the steps that lead to
    it; here any entry) *)
| StepBalance (w : World) (ip : Z) (info : VipInfo) :
    world_step w (set_kernel w (set_vip_map (kernel w) (kinsert (VIP_MAP (kernel w)) ip info).1)).

(** ** What no step writes *)

(** The maps forwarding and the firewall read. *)
Definition policy (k : BpfState M R) : M Z * M PeerEndpoint * M AclRule * M Z :=
  (GENEVE_IFINDEX_MAP k, NODE_DYNAMIC_MAP k, ACL_MAP k, DEFAULT_POLICY k).

(** The manager's handles on them. *)
Definition policy_handles (b : BpfManager M R) :=
  (geneve_ifindex (maps b), node_dynamic (maps b), acl_map (maps b), default_policy (maps b)).

Lemma policy_maps (k k' : BpfState M R) :
  policy k = policy k' ->
  GENEVE_IFINDEX_MAP k = GENEVE_IFINDEX_MAP k' /\ NODE_DYNAMIC_MAP k = NODE_DYNAMIC_MAP k' /\
  ACL_MAP k = ACL_MAP k' /\ DEFAULT_POLICY k = DEFAULT_POLICY k'.
Proof. unfold policy. by intros [= -> -> -> ->]. Qed.

Lemma policy_publish (b b' : BpfManager M R) (k : BpfState M R) :
  policy_handles b' = policy_handles b -> policy (publish b' k) = policy (publish b k).
Proof. unfold policy_handles, policy, publish. cbn. by intros [= -> -> -> ->]. Qed.

Lemma policy_observe (w : World) (k : BpfState M R) :
  policy k = policy (kernel w) -> policy (kernel (set_kernel w k)) = policy (kernel w).
Proof.
  intros <-. unfold policy, kernel, publish, manager, observe. cbn.
  destruct (geneve_ifindex _), (node_dynamic _), (acl_map _), (default_policy _); done.
Qed.

Lemma update_policy (b : BpfManager M R) (a v : Z) :
  policy_handles (bpf_update_container_route b a v).1 = policy_handles b.
Proof. unfold bpf_update_container_route. case_match; [|done]. by destruct (kinsert _ _ _). Qed.

Lemma remove_policy (b : BpfManager M R) (a : Z) :
  policy_handles (bpf_remove_container_route b a).1 = policy_handles b.
Proof. unfold bpf_remove_container_route. case_match; [|done]. by destruct (kremove _ _). Qed.

Lemma alloc_policy (checks : bool) (hash : Z) (offs : list Z) (b b' : BpfManager M R) (ip : Z) :
  alloc_loop checks hash offs b = Ok (Some (b', ip)) -> policy_handles b' = policy_handles b.
Proof.
  induction offs as [|o offs IH]; cbn [alloc_loop]; [done|].
  destruct (alloc_host _ _ _) as [h|?|]; cbn [mbind outcome_bind]; [|done..].
  destruct (h <? 2); [done|]. destruct (is_ip_allocated _ _); [done|].
  intros [= <- _]. apply update_policy.
Qed.

(** A critical section of a command. *)
Lemma api_step_policy (checks : bool) (c c' : ApiState (BpfManager M R) * list cmd_phase) :
  api_step V checks c c' -> policy_handles (inner (bpf c'.1)) = policy_handles (inner (bpf c.1)).
Proof.
  intros Hs. destruct Hs as [s s' ts i body p Hi E|s s' ts i op ip resp p Hi E]; cbn [fst].
  - unfold cmd_begin, allocate_from_bpf in E.
    destruct (from_slice (V:=V) body) as [v|?|]; [|by simplify_eq..].
    destruct (String.eqb _ "allocate").
    { destruct (poisoned (bpf s)); [by simplify_eq|].
      destruct (alloc_loop _ _ _ _) as [[[b ip]|]|?|] eqn:El; injection E as <- <-; try done.
      by apply alloc_policy in El. }
    destruct (String.eqb _ "add"); [by simplify_eq|]. destruct (String.eqb _ "del"); by simplify_eq.
  - unfold cmd_finish in E. destruct (parse_ipv4 ip) as [a|]; [|by simplify_eq].
    destruct (poisoned (bpf s)); [by simplify_eq|].
    assert (policy_handles (route_op op (inner (bpf s)) (ipv4_to_u32 a)).1
      = policy_handles (inner (bpf s))) as Hop.
    { destruct op; [apply update_policy|apply remove_policy]. }
    destruct (route_op _ _ _). injection E as <- _. exact Hop.
Qed.

Lemma probe_policy (probe : Ipv4Addr -> Z -> bool) (mon : VipMonitor) (m : Mutex (BpfManager M R))
    (vip : string) :
  policy_handles (inner (probe_vip probe mon m vip)) = policy_handles (inner m).
Proof.
  unfold probe_vip. destruct (probe_changed _ _ _); [|done].
  destruct (get_alive _ _); [done|]. destruct (parse_ipv4 vip); [|done].
  destruct (poisoned m); [done|]. unfold update_bpf_vip. cbn [inner].
  case_match; [|done]. by destruct (kinsert _ _ _).
Qed.

(** Receiving and handling messages, whatever they are. *)
Lemma recv_loop_manager (fuel : nat) (p p' : UdpProtocol) (m m' : Mutex (BpfManager M R))
    (buf : list byte) (evs : list RecvEvent) (ms : list (option PeerMessage)) :
  recv_loop hmac json_type fuel p m buf evs = Ok (p', m', ms) ->
  policy_handles (inner m') = policy_handles (inner m).
Proof.
  revert p m buf evs ms. induction fuel as [|f IH]; intros p m buf evs ms; cbn [recv_loop].
  { by intros [= _ <- _]. }
  destruct (recv hmac p buf evs) as [[[[p1 [b n a|b|b e]] y] evs']|?|]; [|by intros [= _ <- _]|apply IH|done..].
  destruct (slice (E:=string) b HEADER_SIZE (n - HMAC_SIZE)) as [payload|?|] eqn:Es.
  - rewrite (handle_message_quiet json_type m b n a payload Es). cbn [mbind outcome_bind].
    destruct (recv_loop hmac json_type f p1 m b evs') as [[[p2 m2] ms2]|?|] eqn:Er; [|done..].
    cbn [mbind outcome_bind]. intros [= <- <- _]. by apply IH in Er.
  - unfold handle_message. rewrite Es. done.
  - unfold handle_message. rewrite Es. done.
Qed.

Lemma egress_policy `{!TcContextLaws P} (k k' : BpfState M R) (p p' : P) (code : Z) :
  egress_p2p_mesh redirect k p = Ok (code, k', p') -> policy k' = policy k.
Proof.
  rewrite egress_total. intros E. repeat case_match; by simplify_eq.
Qed.

Lemma world_step_policy `{!TcContextLaws P} (w w' : World) :
  world_step w w' -> policy (kernel w') = policy (kernel w).
Proof.
  intros Hs. destruct Hs as [w port body _|w checks s ts Hs|w buf evs p m ms _ E|w draw sent c _ E
    |w interval net s changed _ E|w rb rm _ E|w now rm batch _ _ E|w a rest _ E|w m random _ E
    |w probe vip _|w p p' code k E|w ip info].
  - done.
  - apply policy_publish. exact (api_step_policy _ _ _ Hs).
  - apply policy_publish. exact (recv_loop_manager _ _ _ _ _ _ _ _ E).
  - done.
  - by destruct changed.
  - done.
  - done.
  - unfold after_discover. cbn [w_bpf set_kad set_routes].
    destruct (poisoned (w_bpf w)); [done|]. apply policy_publish, update_policy.
  - done.
  - apply policy_publish, probe_policy.
  - apply policy_observe. by apply egress_policy in E.
  - by apply policy_observe.
Qed.

(** The channel stays as it is once its receiver is gone. *)
Lemma world_step_kad (w w' : World) (q : list Z) :
  world_step w w' -> w_kad w = Some (mkKadChannel false q) -> w_kad w' = Some (mkKadChannel false q).
Proof.
  intros Hs Hq. destruct Hs; try done.
  - by destruct changed.
  - unfold after_discover. rewrite Hq. cbn. by destruct (poisoned (w_bpf w)).
Qed.

(** ** The operations as runs *)

(** A command that is not interrupted, and a discovery round that is not,
    are runs of the node. *)
Lemma api_run (checks : bool) (w : World) (s : ApiState (BpfManager M R)) (ts : list cmd_phase) :
  rtc (api_step V checks) (mkApiState (w_containers w) (w_bpf w), w_cmds w) (s, ts) ->
  rtc world_step w (set_api w s ts).
Proof.
  remember (mkApiState (w_containers w) (w_bpf w), w_cmds w) as c eqn:Ec.
  remember (s, ts) as c' eqn:Ec'. intros Hr. revert w Ec.
  induction Hr as [c|c [s1 ts1] c' Hs _ IH]; intros w ->.
  - injection Ec' as <- <-. by destruct w.
  - eapply rtc_l; [by apply (StepApi w checks s1 ts1)|]. apply (IH Ec' (set_api w s1 ts1)). by destruct s1.
Qed.

Lemma batch_run (batch : list Z) (w : World) (m : Mutex (BpfManager M R)) (q : option KadChannel) :
  DiscoveryLoop ∈ w_tasks w -> w_batch w = batch ->
  discover_batch (w_bpf w) (w_kad w) batch = (Ok m, q) ->
  rtc world_step w (set_kad (set_bpf (set_routes w (w_routes w) []) m) q).
Proof.
  intros Ht. revert w Ht. induction batch as [|a batch IH]; intros w Ht Hb E; cbn [discover_batch] in E.
  { injection E as <- <-. destruct w. cbn in *. by subst. }
  eapply rtc_l; [by apply (StepDiscover w a batch)|]. unfold after_discover.
  cbn [w_bpf set_kad set_routes]. destruct (poisoned (w_bpf w)); [done|].
  exact (IH (set_bpf (set_kad (set_routes w (w_routes w) batch) ((fun tx => (kad_send tx a).1) <$> w_kad w))
               (mkMutex false (bpf_update_container_route (manager w) a 1).1)) Ht eq_refl E).
Qed.

Lemma discovery_run (w : World) (now : Z) (s : DiscoveryState M R) :
  DiscoveryLoop ∈ w_tasks w -> w_batch w = [] ->
  discovery_round (mkDiscoveryState (w_routes w) (w_bpf w) (w_kad w)) now = (s, Ok tt) ->
  rtc world_step w (set_kad (set_bpf (set_routes w (route_mgr s) []) (d_bpf s)) (kad_queue s)).
Proof.
  intros Ht Hb E. unfold discovery_round in E. cbn [route_mgr d_bpf kad_queue] in E.
  destruct (drain_batch (w_routes w) now) as [rm batch] eqn:Edr.
  eapply rtc_l; [by apply (StepDrain w now rm batch)|].
  destruct (discover_batch _ _ _) as [[m|?|] q] eqn:Ed; simplify_eq/=.
  by apply (batch_run batch (set_routes w rm batch)).
Qed.
End Steps.
End World.
Arguments World : clear implicits.
Arguments mkWorld {M R}.
Arguments world_step {M R} V P {_ _ _ _}.

(** ** Properties *)

Section Running.
Context {M : Type -> Type} {R P V : Type} `{KernelMap M, KernelRing R, TcContextLaws P} `{Json V} `{Hex}.
Context (hmac : list byte -> list byte -> list byte) (json_type : list byte -> option string).
Context (send : list Sent -> Sent -> outcome string unit) (redirect : Z -> Z -> Z).

Lemma tunnel_policy (b : BpfManager M R) (id : Z) :
  policy_handles (set_tunnel_cfg b id).1 = policy_handles b.
Proof. unfold set_tunnel_cfg. destruct (tunnel_cfg _); [|done]. by destruct (kinsert _ _ _). Qed.

(** From loading the programs to any later state. *)
Lemma runs_policy (env : AgentEnv M R) (path : string) (seed_mode : bool) (ctx : AppContext M R)
    (b : BpfManager M R) (own : BpfState M R) (w : World M R) :
  BpfMgr.load (e_load_file env) = Ok b -> run_agent env path seed_mode = Ok ctx ->
  rtc (world_step V P hmac json_type send redirect) (spawned ctx own) w ->
  policy (kernel w) = policy (publish b own).
Proof.
  intros Hb Hctx Hr. apply run_agent_manager in Hctx as (b' & id & Hb' & Hm & _).
  rewrite Hb in Hb'. injection Hb' as <-.
  transitivity (policy (kernel (spawned ctx own))).
  - induction Hr as [|w w1 w' Hs _ IH]; [done|]. rewrite IH. by eapply world_step_policy.
  - apply policy_publish. unfold manager. cbn [spawned w_bpf]. rewrite Hm. apply tunnel_policy.
Qed.

(** C10: nothing a running agent does writes the interface of the tunnel or a
    peer endpoint: neither its start nor a command, a message received from a
    peer (a registration included), the discovery of a miss, a health tick, a
    STUN refresh, a key rotation or a probe, in whatever order they happen.
    So when the interface or the endpoints are not set in the maps as loaded,
    the egress classifier passes every frame on unchanged and redirects none,
    however long the agent runs. *)
Theorem mesh_never_forwards (env : AgentEnv M R) (path : string) (seed_mode : bool) (ctx : AppContext M R)
    (b : BpfManager M R) (own : BpfState M R) (w : World M R) (p : P) :
  BpfMgr.load (e_load_file env) = Ok b ->
  kget (GENEVE_IFINDEX_MAP (publish b own)) 0 = None \/
    (forall ip, kget (NODE_DYNAMIC_MAP (publish b own)) ip = None) ->
  run_agent env path seed_mode = Ok ctx ->
  rtc (world_step V P hmac json_type send redirect) (spawned ctx own) w ->
  exists k, egress_p2p_mesh redirect (kernel w) p = Ok (TC_ACT_PIPE, k, p).
Proof.
  intros Hb Hnone Hctx Hr.
  destruct (policy_maps _ _ (runs_policy _ _ _ _ _ _ _ Hb Hctx Hr)) as (Hg & Hn & _).
  rewrite egress_total, Hg, Hn. destruct (egress_selects p); [|by eexists].
  destruct (kget (GENEVE_IFINDEX_MAP _) 0) as [ifi|]; [|by eexists].
  destruct Hnone as [[=]|Hnone]. rewrite Hnone. destruct (ifi =? 0); by eexists.
Qed.

(** C29: the firewall's verdict on a frame is decided when the programs are
    loaded: whatever the configuration says of sources, ports and the default
    policy, and whatever the agent does, every frame gets the verdict that
    the maps as loaded give it. *)
Theorem firewall_never_changes (env : AgentEnv M R) (path : string) (seed_mode : bool)
    (ctx : AppContext M R) (b : BpfManager M R) (own : BpfState M R) (w : World M R) (p : P) :
  BpfMgr.load (e_load_file env) = Ok b -> run_agent env path seed_mode = Ok ctx ->
  rtc (world_step V P hmac json_type send redirect) (spawned ctx own) w ->
  tc_ingress_firewall (kernel w) p = tc_ingress_firewall (publish b own) p.
Proof.
  intros Hb Hctx Hr.
  destruct (policy_maps _ _ (runs_policy _ _ _ _ _ _ _ Hb Hctx Hr)) as (_ & _ & Ha & Hd).
  unfold tc_ingress_firewall, try_firewall. by rewrite Ha, Hd.
Qed.

(** No query for a peer is ever sent: [spawn_all] drops the receiver of
    the channel, so in every state of a running agent the channel of the
    discovery loop is closed and empty, however many misses were discovered. *)
Theorem queries_never_sent (ctx : AppContext M R) (own : BpfState M R) (w : World M R) :
  rtc (world_step V P hmac json_type send redirect) (spawned ctx own) w ->
  exists tx, w_kad w = Some tx /\ queued tx = [] /\ forall a, kad_send tx a = (tx, false).
Proof.
  intros Hr. exists (mkKadChannel false []). split; [|done].
  remember (spawned ctx own) as w0 eqn:E0.
  assert (w_kad w0 = Some (mkKadChannel false [])) as Hk by (by subst).
  clear E0. induction Hr; eauto using world_step_kad.
Qed.
End Running.

(** ** Witnesses *)

(** The programs' maps, with a default policy to deny. *)
Definition demo_own : BpfState bmap ring :=
  mkBpfState (mkBmap 64 ∅) (mkBmap 64 ∅) (mkRing 16 []) (mkBmap 1 ∅)
    (mkBmap 1 ∅) (mkBmap 64 ∅) (mkBmap 64 ∅) (mkBmap 1 {[0 := 2]}).

Definition demo_json_type (bs : list byte) : option string := Some (String.string_of_list_byte bs).

(** The registration of a node with the same key. *)
Definition demo_peer : RecvEvent :=
  deliver demo_mac (udp_new (cfg_psk AgentConfig_default))
    (mkDelivery (Some (as_bytes "register")) 1000 (replicate 8 x01)
       (SockV4 (ipv4_new 192 0 2 1) 9527) 1001).

(** A started agent that receives the registration, lets a frame pass and has
    a request arrive. *)
Lemma demo_runs :
  exists ctx w, run_agent demo_agent_env DEFAULT_CONFIG false = Ok ctx /\
    rtc (world_step (list (string * string)) (list byte) demo_mac demo_json_type (fun _ _ => Ok tt)
           (fun _ _ => 7)) (spawned ctx demo_own) w /\
    nonces (w_proto w) = [("0101010101010101", 1001)] /\ length (w_cmds w) = 1%nat.
Proof.
  eexists _, _. split; [reflexivity|]. split; [|].
  - eapply rtc_l.
    { eapply (StepRecv _ _ _ _ _ (replicate 100 x00) [demo_peer]).
      - refine (bool_decide_unpack _ _). vm_compute. exact I.
      - vm_compute. reflexivity. }
    eapply rtc_l.
    { eapply (StepEgress _ _ _ _ _ (demo_frame x00 x08)). vm_compute. reflexivity. }
    apply rtc_once. apply (StepAccept _ _ _ _ _ 9091 []).
    refine (bool_decide_unpack _ _). vm_compute. exact I.
  - split; reflexivity.
Qed.

Lemma mesh_never_forwards_witness :
  exists ctx w k, run_agent demo_agent_env DEFAULT_CONFIG false = Ok ctx /\
    rtc (world_step (list (string * string)) (list byte) demo_mac demo_json_type (fun _ _ => Ok tt)
           (fun _ _ => 7)) (spawned ctx demo_own) w /\
    nonces (w_proto w) = [("0101010101010101", 1001)] /\
    egress_p2p_mesh (fun _ _ => 7) (kernel w) (demo_frame x00 x08) = Ok (TC_ACT_PIPE, k, demo_frame x00 x08).
Proof.
  destruct demo_runs as (ctx & w & Hctx & Hr & Hn & _).
  eassert (BpfMgr.load (e_load_file demo_agent_env) = Ok _) as Hb by reflexivity.
  destruct (mesh_never_forwards demo_mac demo_json_type (fun _ _ => Ok tt) (fun _ _ => 7)
    demo_agent_env DEFAULT_CONFIG false ctx _ demo_own w (demo_frame x00 x08) Hb) as [k Hk];
    [left; vm_compute; reflexivity|exact Hctx|exact Hr|]. by exists ctx, w, k.
Defined.

Lemma firewall_never_changes_witness :
  exists ctx w, run_agent demo_agent_env DEFAULT_CONFIG false = Ok ctx /\
    rtc (world_step (list (string * string)) (list byte) demo_mac demo_json_type (fun _ _ => Ok tt)
           (fun _ _ => 7)) (spawned ctx demo_own) w /\
    tc_ingress_firewall (kernel w) (demo_frame x00 x08) = TC_ACT_SHOT.
Proof.
  destruct demo_runs as (ctx & w & Hctx & Hr & _). exists ctx, w. split; [exact Hctx|]. split; [exact Hr|].
  eassert (BpfMgr.load (e_load_file demo_agent_env) = Ok _) as Hb by reflexivity.
  rewrite (firewall_never_changes demo_mac demo_json_type (fun _ _ => Ok tt) (fun _ _ => 7)
    demo_agent_env DEFAULT_CONFIG false ctx _ demo_own w (demo_frame x00 x08) Hb Hctx Hr).
  vm_compute. reflexivity.
Defined.

Lemma queries_never_sent_witness :
  exists ctx w tx, run_agent demo_agent_env DEFAULT_CONFIG false = Ok ctx /\
    rtc (world_step (list (string * string)) (list byte) demo_mac demo_json_type (fun _ _ => Ok tt)
           (fun _ _ => 7)) (spawned ctx demo_own) w /\
    w_kad w = Some tx /\ kad_send tx 5 = (tx, false).
Proof.
  destruct demo_runs as (ctx & w & Hctx & Hr & _).
  destruct (queries_never_sent demo_mac demo_json_type (fun _ _ => Ok tt) (fun _ _ => 7) ctx demo_own w Hr)
    as (tx & Hk & _ & Ha). by exists ctx, w, tx.
Defined.
