(* ===== verification/System.v ===== *)
(** * The components together

    The way of a route miss from the egress classifier through the ring
    buffer to a discovery batch, and the plugin and the agent at the two ends
    of the HTTP API. *)

From S2P Require Import Prelude RustStr Trace NetAddr Common Kernel Ebpf BpfMgr Config.
From S2P Require Import Json Api ApiHttp Route Vip Cni.

(** ** A route miss on its way *)

Section Misses.
Context {R : Type} `{KernelRingLaws R}.

(** The addresses of the records that are long enough. *)
Definition record_ips (recs : list (list byte)) : list Z :=
  omap (fun d => if Nat.leb 4 (length d) then Some (from_le_bytes (take 4 d)) else None) recs.

Lemma submit_within (rm : RouteManager) (ip : Z) :
  (length (Route.pending rm) < MAX_PENDING)%nat ->
  submit_miss rm ip = mkRouteManager (Route.pending rm ++ [ip]) (cooldowns rm).
Proof. intros Hl. unfold submit_miss. by apply Nat.leb_gt in Hl as ->. Qed.

(** As many rounds as there are records move them all to the queue, in
    order, while it has room. *)
Lemma consumer_drains (n : nat) (r : R) (rm : RouteManager) :
  length (rb_contents r) = n -> (length (Route.pending rm) + n <= MAX_PENDING)%nat ->
  exists r', ringbuf_consumer n (Some r) rm
    = (Some r', mkRouteManager (Route.pending rm ++ record_ips (rb_contents r)) (cooldowns rm)) /\
    rb_contents r' = [].
Proof.
  revert r rm. induction n as [|n IH]; intros r rm Hn Hl; cbn [ringbuf_consumer].
  { exists r. destruct (rb_contents r) eqn:E; [|done]. cbn. rewrite app_nil_r. by destruct rm. }
  unfold consume_one. pose proof (rb_next_contents r) as Hnext.
  destruct (rb_next r) as [[d r1]|]; [|by rewrite Hnext in Hn].
  rewrite Hnext in Hn |- *. cbn [length] in Hn.
  unfold record_ips. cbn [omap list_omap]. fold (record_ips (rb_contents r1)).
  destruct (Nat.leb 4 (length d)).
  - rewrite submit_within by lia.
    destruct (IH r1 (mkRouteManager (Route.pending rm ++ [from_le_bytes (take 4 d)]) (cooldowns rm)))
      as (r' & E & Hc); [lia|cbn [Route.pending]; rewrite length_app; cbn [length]; lia|].
    exists r'. rewrite E. cbn [Route.pending cooldowns]. by rewrite <- app_assoc.
  - destruct (IH r1 rm) as (r' & E & Hc); [lia|lia|]. exists r'. by rewrite E.
Qed.

(** The batch at [now] after the consumer has emptied the ring. *)
Definition discovered (r : R) (rm : RouteManager) (now : Z) : list Z :=
  (drain_batch (ringbuf_consumer (length (rb_contents r)) (Some r) rm).2 now).2.
End Misses.

(** The discovery round at [now] after the consumer has emptied the ring. *)
Definition discovery_after {M R} `{KernelMap M} `{KernelRingLaws R} (r : R) (s : DiscoveryState M R) (now : Z)
    : DiscoveryState M R * outcome string unit :=
  discovery_round (mkDiscoveryState
    (ringbuf_consumer (length (rb_contents r)) (Some r) (route_mgr s)).2 (d_bpf s) (kad_queue s)) now.

(** The destination the egress classifier reads is a [u32]. *)
Lemma egress_dest_range {P} `{TcContextLaws P} (p : P) : 0 <= egress_dest p < 256 ^ Z.of_nat 4.
Proof.
  unfold egress_dest. pose proof (from_le_bytes_range (take 4 (drop 16 (tc_bytes p)))) as Hrange.
  rewrite length_take in Hrange.
  assert (256 ^ Z.of_nat (4 `min` length (drop 16 (tc_bytes p))) <= 256 ^ Z.of_nat 4)
    by (apply Z.pow_le_mono_r; lia). lia.
Qed.

(** A reported address is in the batch after the consumer has emptied the
    ring, unless it is in cooldown. *)
Lemma reported_in_batch {R} `{KernelRingLaws R} (r0 r : R) (rm : RouteManager) (ip now : Z) :
  0 <= ip < 256 ^ Z.of_nat 4 -> rb_submit r0 (to_le_bytes 4 ip) = Some r ->
  (length (Route.pending rm) + length (rb_contents r) <= MAX_PENDING)%nat ->
  (forall e, cooldowns rm !! ip = Some e -> e <= now) -> ip ∈ discovered r rm now.
Proof.
  unfold discovered. intros Hip Hr Hl Hcd.
  destruct (consumer_drains _ r rm eq_refl Hl) as (r' & E & _). rewrite E. cbn [snd].
  destruct (drain_batch_contract (mkRouteManager (Route.pending rm ++ record_ips (rb_contents r))
    (cooldowns rm)) now) as (cd' & batch & Ed & _ & Hb & _).
  rewrite Ed. cbn [snd]. apply Hb. cbn [Route.pending cooldowns]. split; [|done].
  apply elem_of_app. right. rewrite (rb_submit_contents _ _ _ Hr).
  apply list_elem_of_omap. exists (to_le_bytes 4 ip). split; [apply elem_of_app; right; by left|].
  rewrite length_to_le_bytes. cbn [Nat.leb]. f_equal.
  rewrite take_ge by (by rewrite length_to_le_bytes). by apply from_to_le_bytes.
Qed.

(** C13: a frame to an unknown address, when the tunnel interface is set and
    the ring buffer has room, leads to a discovery of that address: after
    the consumer has emptied the ring the next round hands it out, unless it
    was handed out within the cooldown, and gives it a container route (the
    map having room for the batch); the other addresses outside the batch
    keep theirs.  The query is sent with the batch if the receiver of the
    channel still exists, and lost otherwise. *)
Theorem miss_is_discovered {M R P} `{KernelMapLaws M, KernelRingLaws R, TcContextLaws P}
    (k : BpfState M R) (p : P) (redirect : Z -> Z -> Z) (ifi now : Z) (r : R) (s : DiscoveryState M R) :
  egress_selects p = true -> kget (GENEVE_IFINDEX_MAP k) 0 = Some ifi -> ifi <> 0 ->
  kget (NODE_DYNAMIC_MAP k) (egress_dest p) = None ->
  rb_submit (ROUTE_MISS_RINGBUF k) (to_le_bytes 4 (egress_dest p)) = Some r ->
  (length (Route.pending (route_mgr s)) + length (rb_contents r) <= MAX_PENDING)%nat ->
  (forall e, cooldowns (route_mgr s) !! egress_dest p = Some e -> e <= now) ->
  poisoned (d_bpf s) = false ->
  (length (discovered r (route_mgr s) now) <= route_room (inner (d_bpf s)))%nat ->
  egress_p2p_mesh redirect k p = Ok (TC_ACT_PIPE, set_ringbuf k r, p) /\
  egress_dest p ∈ discovered r (route_mgr s) now /\
  exists s', discovery_after r s now = (s', Ok tt) /\
    route_of (inner (d_bpf s')) (egress_dest p) = Some 1 /\
    (forall a, a ∉ discovered r (route_mgr s) now ->
       route_of (inner (d_bpf s')) a = route_of (inner (d_bpf s)) a) /\
    kad_queue s' = (fun c => if rx_alive c
                             then mkKadChannel true (queued c ++ discovered r (route_mgr s) now)
                             else c) <$> kad_queue s.
Proof.
  intros Hsel Hg Hifi Hn Hr Hl Hcd Hp Hm.
  pose proof (reported_in_batch _ r (route_mgr s) _ now (egress_dest_range p) Hr Hl Hcd) as Hin.
  split_and!; [|done|].
  { rewrite egress_total, Hsel, Hg, Hn, Hr. by rewrite (proj2 (Z.eqb_neq _ _) Hifi). }
  unfold discovery_after, discovery_round, discovered in *. cbn [route_mgr d_bpf kad_queue].
  destruct (drain_batch _ _) as [rm' batch]. cbn [snd] in *.
  destruct (discover_batch_routes batch (d_bpf s) (kad_queue s) Hp Hm) as (m' & -> & _ & Ho & Hroute).
  eexists. split; [reflexivity|]. cbn [kad_queue d_bpf]. split_and!; [by apply Hroute|done|].
  destruct (kad_queue s) as [c|]; [|done]. cbn. by rewrite kad_send_all.
Qed.

Definition demo_discovery : DiscoveryState bmap ring :=
  mkDiscoveryState RouteManager_new (mkMutex false (demo_manager ∅)) (Some (mkKadChannel true [])).

Lemma miss_is_discovered_witness :
  exists s', discovery_after (mkRing 16 [replicate 4 x00]) demo_discovery 0 = (s', Ok tt) /\
    route_of (inner (d_bpf s')) (egress_dest (demo_frame x00 x08)) = Some 1 /\
    kad_queue s' = Some (mkKadChannel true [0]).
Proof.
  destruct (miss_is_discovered (demo_state 1 ∅) (demo_frame x00 x08) (fun _ _ => 7) 7 0
    (mkRing 16 [replicate 4 x00]) demo_discovery) as (_ & _ & s' & E & Hr & _ & Hq); try reflexivity; try done.
  - apply Nat.leb_le. reflexivity.
  - apply Nat.leb_le. vm_compute. reflexivity.
  - exists s'. split_and!; [exact E|exact Hr|etransitivity; [exact Hq|reflexivity]].
Defined.

(** ** The plugin and the agent *)

(** The plugin's HTTP client over the agent's handler: [render] is the
    request the client writes, [client] what it makes of the response
    ([None]: closed without one). *)
Section Client.
Context {B V : Type} `{RouteStore B} `{JsonLaws V}.
Context (render : string -> string -> string) (client : option string -> outcome string string).
Context (checks : bool).

(** The agent after the requests of a trace: each of them goes through the
    connection handler. *)
Definition agent_after (s : ApiState B) (tr : list Event) : ApiState B :=
  foldl (fun s e => match e with
                    | Post url payload =>
                        (handle_api_connection V checks s (mkStream (render url payload) true)).1
                    | _ => s
                    end) s tr.

(** The answer to a request made in the agent's state [agent tr]. *)
Definition agent_post (agent : list Event -> ApiState B) (tr : list Event) (url payload : string)
    : outcome string string :=
  match (handle_api_connection V checks (agent tr) (mkStream (render url payload) true)).2 with
  | Ok r => client r
  | _ => client None
  end.

(** The documented form of a request sent from a reader, as the plugin sends
    all of its requests: the length of the body is not known in advance, so
    no header line announces one. *)
Definition unsized_request (req : string) : Prop :=
  exists hs body, req = http_request "POST /api/v1/container HTTP/1.1" hs body /\
    Forall (fun h => wf_header h /\
      starts_with (to_ascii_lowercase (h +:+ crlf)) "content-length:" = false) hs.

(** A trace whose requests all have that form leaves the agent as it was. *)
Lemma agent_after_unsized (s : ApiState B) (tr : list Event) :
  (forall payload, unsized_request (render api_url payload)) ->
  Forall to_agent tr -> agent_after s tr = s.
Proof.
  intros Hr Htr. unfold agent_after. induction Htr as [|e tr He _ IH]; [done|]. cbn [foldl].
  destruct e as [|url payload|]; [done| |done]. cbn in He. subst url.
  destruct (Hr payload) as (hs & body & -> & Hhs).
  destruct (unsized_command_refused (V:=V) checks s hs body true) as [err ->]; [|done].
  eapply Forall_impl; [exact Hhs|]. intros h [Hw Hs]. split; [done|by left].
Qed.

(** C32: with an HTTP client that sends a body from a reader without
    announcing its length, no run of the plugin ever has an effect on the
    agent: whatever the command, ADD or DEL, and whatever the agent's state,
    every allocation and every notification is refused, the container is
    never entered or removed and no route is recorded or deleted. *)
Theorem plugin_never_reaches_agent
    (exec : list Event -> string -> list string -> outcome string Output) (s : ApiState B)
    (input : outcome string string) (parse_cmd : string -> outcome string CniCmd) :
  (forall payload, unsized_request (render api_url payload)) ->
  let env := mkEnv exec (agent_post (agent_after s)) in
  agent_after s (run env (V:=V) input parse_cmd []).1 = s.
Proof.
  intros Hr env. destruct (run_to_agent env (V:=V) input parse_cmd []) as (new & -> & Hnew).
  by apply agent_after_unsized.
Qed.

(** C33: with a client that, as HTTP requires, rejects a response without a
    status line, a 400 response and a closed connection, an ADD never gets an
    address from the agent: it always uses the fallback computed from the
    container identifier. *)
Theorem cni_always_falls_back
    (exec : list Event -> string -> list string -> outcome string Output)
    (agent : list Event -> ApiState B) (tr : list Event) (cid : string) :
  (forall r, starts_with r "HTTP/" = false -> exists e, client (Some r) = Err e) ->
  (exists e, client (Some bad_request) = Err e) -> (exists e, client None = Err e) ->
  (allocate_ip (mkEnv exec (agent_post agent)) (V:=V) cid tr).2 = Ok (fallback_ip cid).
Proof.
  intros Hstatus [e4 H400] [e0 Hclosed].
  assert (exists e, agent_post agent tr api_url
    (obj_to_string [("action", "allocate"); ("container_id", cid)]) = Err e) as [e He].
  { unfold agent_post. destruct (handle_api_connection _ _ _ _) as [s' [[resp|]|?|]] eqn:E;
      cbn [snd]; eauto.
    destruct (response_status _ _ _ _ _ E) as [Hn|[-> _]]; eauto. }
  unfold allocate_ip. rewrite bind_run. unfold try, post, perform. cbn [env_post].
  rewrite He. done.
Qed.
End Client.

(** A client that writes the body in one chunk (the size line is that of a
    payload of 64 bytes). *)
Definition demo_chunked (url payload : string) : string :=
  http_request "POST /api/v1/container HTTP/1.1"
    ["Host: 127.0.0.1:9091"; "Content-Type: application/json"; "Transfer-Encoding: chunked"]
    ("40" +:+ crlf +:+ payload +:+ crlf +:+ "0" +:+ crlf +:+ crlf).

Definition demo_routed : ApiState (BpfManager bmap ring) :=
  mkApiState (cm_add cm_new "0123456789ab" "10.244.0.9" "veth-01234567")
    (mkMutex false (demo_manager {[ipv4_to_u32 (ipv4_new 10 244 0 9) := 1]})).
Definition demo_del : CniCmd :=
  mkCniCmd "1.0.0" (Some "DEL") (Some "0123456789ab") None None None None None.

(** DEL of a container the agent knows leaves it known. *)
Lemma plugin_never_reaches_agent_witness :
  let client := fun r : option string => match r with Some t => Ok t | None => Err "closed" end in
  let after := agent_after (V:=list (string * string)) demo_chunked false demo_routed in
  let env := mkEnv (fun _ _ _ => Ok (mkOutput true ""))
    (agent_post (V:=list (string * string)) demo_chunked client false after) in
  after (run env (V:=list (string * string)) (Ok "") (fun _ => Ok demo_del) []).1 = demo_routed.
Proof.
  intros client after env.
  apply (plugin_never_reaches_agent (V:=list (string * string)) demo_chunked client false
    (fun _ _ _ => Ok (mkOutput true "")) demo_routed (Ok "") (fun _ => Ok demo_del)).
  intros payload. eexists _, _. split; [reflexivity|].
  repeat (constructor; [split; [split; [|split]|]; vm_compute; congruence|]). constructor.
Defined.

(** A client that accepts only a 200 status line and returns what follows. *)
Lemma cni_always_falls_back_witness :
  (allocate_ip (mkEnv (fun _ _ _ => Ok (mkOutput true ""))
     (agent_post (V:=list (string * string))
       (fun _ payload => http_request "POST /api/v1/container HTTP/1.1"
          ["Content-Length: " +:+ show_dec (Z.of_nat (str_len payload))] payload)
       (fun r => match r ≫= fun r => strip_prefix r "HTTP/1.1 200 OK" with
                 | Some t => Ok t | None => Err "bad status" end)
       false (fun _ => demo_api)))
     (V:=list (string * string)) "c1" []).2 = Ok (fallback_ip "c1").
Proof.
  apply (cni_always_falls_back (V:=list (string * string))).
  - intros r Hr. cbn [mbind option_bind]. destruct (strip_prefix r "HTTP/1.1 200 OK") eqn:E; [|by eexists].
    apply (strip_prefix_starts r "HTTP/" "1.1 200 OK") in E. congruence.
  - by eexists.
  - by eexists.
Defined.
